(* ===== verification/_CoqProject ===== *)
-Q . S2P
Prelude.v
GoStrings.v
GoNet.v
DnsName.v
NameSpec.v
DnsRR.v
DnsMessage.v
WireSafety.v
Bitmap.v
WireRoundtrip.v
PackErrors.v
Cache.v
CacheSpec.v
CacheRefine.v
Matching.v
Config.v
Reverse.v
Responder.v
ResponderSpec.v
ServiceSpec.v
Multicast.v
MulticastSpec.v
Sockopts.v
SockoptsSpec.v
Opening.v
Browser.v
Resolve.v
Server.v
Probing.v
ProbingSpec.v
HostSpec.v
BrowserSpec.v
BrowserSafety.v
ServerSpec.v
Interleaving.v
ServerInvariant.v
Discovery.v
Contention.v
Lifecycle.v
Commands.v
Scenarios.v
