(* ===== verification/Prelude.v ===== *)
(** * mdns: a verification library for the Go multicast-DNS package

    The package (Go, module [mdns]) is a multicast DNS responder, prober and
    browser.  This library models its own logic as executable definitions, one
    file per part, in the order of the calls, and proves what each part promises.
    Names follow the source: a function [f] of the source is the definition [f],
    the body of one of its loops a definition beside it, and a field [x] of a
    struct is a projection with a prefix ([rr_TTL], [m_Answers], [s_services]).

    ** The parts, from the wire up

    - [Prelude] (this file): bytes, big-endian integers of 16 and 32 bits, errors,
      the [result] monad with its inversion tactics, generic list lemmas, and the
      hint database [mdns].
    - [GoStrings], [GoNet]: what the source uses of package strings, strconv and
      unicode, and of [net.IP], [net.IPNet] and [net.UDPAddr].  The Unicode
      lower-case table is a parameter, the class [UnicodeTables].
    - [DnsName] (dns_name.go): [readName], [writeName] with the compression map.
      [NameSpec]: a declarative relation [name_at] of RFC 1035 names, the refinement
      theorem of [readName], and [writeName] as its inverse.
    - [DnsRR], [DnsMessage] (dns_rr.go, dns_message.go): records, type bitmaps,
      messages, [Pack], [UnpackMessage].  [WireSafety]: the parser is total and its
      results are well formed.  [Bitmap]: type bitmaps.  [WireRoundtrip]: unpacking
      inverts packing, by way of the class [WireCodec] that questions and records
      implement.  [PackErrors]: when [Pack] fails, and what its errors say of the message.
    - [Cache] (cache.go), with [CacheSpec]: the records by name and type, their
      expiry, lookups.  [CacheRefine]: the abstract store, from a name
      and type and the identity of a record to its TTL and expiry, that the cache
      implements, operation by operation.
    - [Matching] (server.go): questions against records, known answers, the
      comparison of simultaneous probes, the rate limiter.
    - [Config] (config.go, service.go, mdns.go): configuration, names of services,
      the records they advertise, probe and response messages; the class [MapOrder].
      [ServiceSpec]: renaming, the order of addresses, probe messages, and what a
      service sees of its own probes.
    - [Reverse] (server.go): reverse names.
    - [Responder] (server.go), with [ResponderSpec]: the answers to a query, that
      each is justified and none is missing, and the message that is sent.
    - [Multicast] (multicast.go, server.go), with [MulticastSpec]: the choice of
      interfaces and addresses, sockets, the warning of a broken route.
    - [Sockopts] (multicast_unix.go, multicast_windows.go, the sockopts files,
      multicast_health.go, the warnings of server.go), with [SockoptsSpec]: the calls of
      setsockopt each platform makes, and that they ask for the same settings.
      [Opening]: the class [Platform] of what the platform files promise, its instances
      for Unix and Windows, and [NewMulticastConn] against it.
    - [Browser] (browser.go), with [BrowserSpec] and [BrowserSafety]: instances
      found and lost, the queries of a browser, and when it cannot panic.
    - [Resolve] (mdns.go): [ResolveHost].
    - [Server] (server.go, service.go), with [ServerSpec]: the state of the server
      and its handlers.
    - [Probing] (service.go, server.go): goroutines, packets and calls as a step
      relation on worlds.  [ProbingSpec]: its invariant, that no service is
      announced unprobed, that an undisturbed service is announced, and where it can
      panic.  [HostSpec]: the same for the records of the host.
    - [Interleaving]: executions as lists of events; that a packet handled without
      interruption is handled at once; that the goodbyes of [Close] get out.  [ServerInvariant]: the
      invariant of the server's cache and browsers in every execution.
    - [Discovery], [Contention]: two servers that meet only through the bytes of a
      packet.  What one announces the other discovers, a goodbye is a loss, and
      simultaneous probes are decided.
    - [Lifecycle] (server.go, mdns.go): [Start], [LookupHost], [LookupService], and what
      the others see of a server that closes.
    - [Commands] (cmd/mdns-demo, cmd/mdns-example): the two programs, their event loops
      and what they print.
    - [Scenarios]: concrete executions.  They are the witnesses of the theorems that
      have hypotheses, and they show the defects that came to light.

    ** How effects are modelled

    - Errors and panics are values of [result]: [Err Panic] is a run-time panic
      (a slice out of range, a closed channel closed), other errors are those the
      source returns, one constructor per message.
    - State is passed explicitly.  The buffer and the compression map of [Pack] are
      the state of the [writer] monad, kept when an error is returned, as the source
      keeps them.  A pointer that is shared is a key of a heap: registered services,
      the callers' [ServiceInstance]s, browsers.
    - The clock is an argument of each operation that reads it, one reading per call
      of [time.Now], and no relation between readings is assumed unless a theorem
      says so.
    - Go visits maps in an unspecified order, a new one for each visit: an instance
      of [MapOrder] gives the order of each, and the theorems hold for all.
    - A goroutine that is started is an output of the handler that starts it.
      [Probing] runs the goroutines; a response that is sent after a delay is the
      event [Deferred], which may happen at any time after, and more than once.
    - The receive loop is a goroutine with steps of its own: [handleQuery] gives up
      the lock after each authority record, and whatever happens in between is an
      event like any other.  [Close] is two events, the goodbyes and the closing of
      the connection.  Whatever a step sends goes through [WriteMulticast] or [WriteTo]
      of that connection; that a write to a closed socket fails is what package net
      documents ([socket_error]).
    - What the operating system answers is an argument: the interfaces, the host name,
      the errors of sockets and of each call of setsockopt, given all the calls before.
    - Integers of the wire have their width: [u16], [u32] and the bytes of
      [z2b] wrap around; [int64] and [int32] do where the source computes on [int] and [int32].

    ** Bounds and fuel

    Every function is total; recursion that is not structural runs on fuel, and a
    theorem shows that the fuel is enough.  [readName] takes 129 rounds over the
    message plus one step ([readName_fuel]): it follows at most 128 compression
    pointers, and between two of them the position grows.  [writeName] takes as many
    iterations as the name has bytes, [decodeTypeBitMaps] and the TXT strings as the
    RDATA has bytes, the continuation packets of a query as there are known answers.
    No result is [OutOfFuel]: see [UnpackMessage_total] and [Pack_errors].

    ** The theorems

    - The wire: unpacking is total, accepts only well-formed messages, and inverts
      packing up to a canonical form; packing fails only for a reason that can be seen in
      the message, and a message without one is packed; names are read as RFC 1035 defines them; type
      bitmaps and reverse names are inverse to their printing.
    - The cache: its invariant, and the refinement of the abstract store.
    - The responder: every answer is justified by what the server knows, every
      record asked for is answered, responses hold no duplicates, no record is sent
      twice within a second.
    - Probing: invariants of all interleavings; announcements and host records only
      after three probes; the one race that panics; progress of an undisturbed
      service; which of two simultaneous probers gives way.
    - From host to host: an announcement is discovered with the data that were
      registered, a goodbye is forgotten, so is a server that closes, [LookupService] and
      the demo find what is announced to them.
    - The life of a server: its cache and its browsers stay in order whatever happens;
      what a caller registers is completed and otherwise left as it is.
    - Browsing and resolving: the schedule of the queries, what receivers learn from a
      query in several packets, events, the result of [ResolveHost]; packet handling
      does not panic on ASCII names.
    - Sockets: which addresses are advertised and sent from, that Unix and Windows ask
      for the same settings and return the same errors, that a connection that is opened
      has been set up completely, and when a broken route is reported.
    - [Scenarios] evaluates the executions behind the findings: crashes, anomalies of
      registration, datagrams that get lost.

    ** What is not modelled

    Reading and writing the sockets is the operating system's.  Contexts and wait groups
    are modelled by what they allow: a goroutine may stop where it waits for the context,
    and [Close] does not wait for it.  The tick of [cacheLoop] and [handleResponse] are
    atomic, although the former holds only the lock of the cache and may interleave with
    the latter.  Log lines other than warnings are left out, and so are flag parsing, the
    usage text and the banner of the demo.  Cached records are values: that a record
    waiting in a deferred response changes its TTL when the cache writes through the same
    pointer is not seen.  A nil slice and an empty one are the same value. *)

From stdpp Require Export prelude gmap strings list fin_maps sorting.
From Stdlib Require Export ZArith Lia.
From Stdlib Require Import Strings.Byte.

#[export] Set Default Goal Selector "!".
#[export] Set Warnings "-clear-no-such-hyp".

(** ** Bytes *)

(** A Go [byte] is one of the 256 values of [Byte.byte]; [b2z] is the conversion
    [int(b)] and [z2b] the conversion [byte(z)], which keeps the low 8 bits. *)
Abbreviation byte := Byte.byte.

(** A Go string or byte slice. *)
Abbreviation gostring := (list byte).

Definition b2z (b : byte) : Z := Z.of_N (Byte.to_N b).

Definition z2b (z : Z) : byte :=
  default Byte.x00 (Byte.of_N (Z.to_N (z mod 256))).

#[global] Arguments Z.shiftl : simpl never.
#[global] Arguments Z.shiftr : simpl never.
#[global] Arguments Z.land : simpl never.
#[global] Arguments Z.lor : simpl never.
#[global] Arguments Z.ldiff : simpl never.
#[global] Arguments Z.mul : simpl never.
#[global] Arguments Z.modulo : simpl never.
#[global] Arguments Z.div : simpl never.
#[global] Arguments b2z : simpl never.
#[global] Arguments z2b : simpl never.

(** A string literal of the source. *)
Definition go (s : string) : gostring := String.list_byte_of_string s.

#[export] Instance byte_eq_dec : EqDecision byte.
Proof. intros x y; destruct (Byte.eqb x y) eqn:E;
  [left; by apply Byte.byte_dec_bl | right; intros ->].
  assert (Byte.eqb y y = true) by (by apply Byte.byte_dec_lb). congruence. Defined.

#[export] Instance byte_countable : Countable byte.
Proof. refine (inj_countable Byte.to_N Byte.of_N _). intros x; apply Byte.of_to_N. Defined.

#[export] Instance byte_inhabited : Inhabited byte := populate Byte.x00.

Lemma b2z_range b : (0 <= b2z b < 256)%Z.
Proof. unfold b2z. pose proof (Byte.to_N_bounded b). lia. Qed.

Lemma z2b_spec z : b2z (z2b z) = (z mod 256)%Z.
Proof.
  unfold b2z, z2b. pose proof (Z.mod_pos_bound z 256 ltac:(lia)).
  destruct (Byte.of_N (Z.to_N (z mod 256))) as [b|] eqn:E; simpl.
  - apply Byte.to_of_N in E. rewrite E. lia.
  - apply Byte.of_N_None_iff in E. lia.
Qed.

Lemma b2z_inj a b : b2z a = b2z b -> a = b.
Proof.
  unfold b2z. intros H%N2Z.inj.
  pose proof (Byte.of_to_N a). pose proof (Byte.of_to_N b). congruence.
Qed.

Lemma z2b_b2z b : z2b (b2z b) = b.
Proof.
  apply b2z_inj. rewrite z2b_spec. apply Z.mod_small, b2z_range.
Qed.

Lemma z2b_small z : (0 <= z < 256)%Z -> b2z (z2b z) = z.
Proof. intros. rewrite z2b_spec. by apply Z.mod_small. Qed.

#[export] Instance b2z_Inj : Inj (=) (=) b2z.
Proof. exact b2z_inj. Qed.

(** A property of all bytes, by evaluating it on each. *)
Definition all_bytes : list byte := (λ n, z2b (Z.of_nat n)) <$> seq 0 256.

Lemma byte_forall (P : byte -> bool) : forallb P all_bytes = true -> forall b, P b = true.
Proof.
  rewrite forallb_forall. intros HP b. apply HP, list_elem_of_In, list_elem_of_fmap.
  exists (Z.to_nat (b2z b)). pose proof (b2z_range b).
  rewrite Z2Nat.id by lia. split; [symmetry; apply z2b_b2z|].
  apply list_elem_of_In, in_seq. lia.
Qed.

(** ** Machine integers *)

(** Go's [uint8], [uint16], [uint32] and [int64] arithmetic wraps; a value of
    width [w] is a [Z] in the range of the type, and a conversion is [mod]. *)
Definition u16 (z : Z) : Z := (z mod 65536)%Z.
Definition u32 (z : Z) : Z := (z mod 4294967296)%Z.

Definition is_u16 (z : Z) : Prop := (0 <= z < 65536)%Z.
Definition is_u32 (z : Z) : Prop := (0 <= z < 4294967296)%Z.

#[export] Instance is_u16_dec z : Decision (is_u16 z).
Proof. unfold is_u16; apply _. Defined.
#[export] Instance is_u32_dec z : Decision (is_u32 z).
Proof. unfold is_u32; apply _. Defined.

Lemma u16_range z : is_u16 (u16 z).
Proof. unfold is_u16, u16. apply Z.mod_pos_bound. lia. Qed.
Lemma u32_range z : is_u32 (u32 z).
Proof. unfold is_u32, u32. apply Z.mod_pos_bound. lia. Qed.
Lemma u16_id z : is_u16 z -> u16 z = z.
Proof. apply Z.mod_small. Qed.
Lemma u32_id z : is_u32 z -> u32 z = z.
Proof. apply Z.mod_small. Qed.

Create HintDb mdns.
#[export] Hint Resolve u16_range u32_range : mdns.

(** ** Results: Go's [(value, error)] pairs *)

(** The errors of the package, one constructor per error value or [fmt.Errorf]
    format, with its arguments.  [Panic] is a run-time panic (index or slice out
    of range) and [OutOfFuel] marks a loop cut short by the fuel of the model. *)
Inductive goerror :=
  | Panic
  | OutOfFuel
  | ErrNameTooLong
  | ErrLabelTooLong (n : nat)
  | ErrInvalidPointer
  | ErrPointerLoop
  | ErrTruncatedName
  | ErrLabelLength (n : nat)
  | ErrMessageTooShort (n : nat)
  | ErrMessageTooLarge (n : nat)
  | ErrQuestionName (e : goerror)
  | ErrTruncatedQuestion
  | ErrAnswers (e : goerror)
  | ErrAuthorities (e : goerror)
  | ErrAdditionals (e : goerror)
  | ErrRRName (e : goerror)
  | ErrTruncatedRRHeader (i : nat)
  | ErrTruncatedRDATA (rdlen offset : nat)
  | ErrRDATATruncated (rdlen offset : nat)
  | ErrARecordIP (ip : gostring)
  | ErrAAAARecordIP (ip : gostring)
  | ErrTXTTooLong (n : nat)
  | ErrARDLength (n : nat)
  | ErrAAAARDLength (n : nat)
  | ErrSRVTooShort (n : nat)
  | ErrTXTTruncated
  | ErrNSECTruncated
  | ErrNSECExceeds
  | ErrServiceNameType
  | ErrServiceRegistered (name : gostring)
  | ErrServiceNotRegistered (name : gostring)
  | ErrHexDigit (s : gostring)
  | ErrSend
  | ErrContext
  | ErrSyntax.

#[export] Instance goerror_eq_dec : EqDecision goerror.
Proof. solve_decision. Defined.

Inductive result (A : Type) :=
  | Ok (a : A)
  | Err (e : goerror).
Arguments Ok {_} _.
Arguments Err {_} _.

#[export] Instance result_eq_dec `{EqDecision A} : EqDecision (result A).
Proof. solve_decision. Defined.

#[export] Instance result_ret : MRet result := fun A a => Ok a.
#[export] Instance result_bind : MBind result := fun A B f m =>
  match m with Ok a => f a | Err e => Err e end.

(** [if err != nil { return wrap(err) }] *)
Definition wrap_err {A} (w : goerror -> goerror) (r : result A) : result A :=
  match r with Ok a => Ok a | Err e => Err (w e) end.

Definition is_ok {A} (r : result A) : bool :=
  match r with Ok _ => true | Err _ => false end.

(** The cause at the bottom of a chain of [%w] wrappings. *)
Fixpoint root_error (e : goerror) : goerror :=
  match e with
  | ErrQuestionName e | ErrAnswers e | ErrAuthorities e | ErrAdditionals e
  | ErrRRName e => root_error e
  | _ => e
  end.

(** A result that is neither a panic nor a run out of fuel: the Go code returns
    normally, with a value or an error. *)
Definition returns {A} (r : result A) : Prop :=
  match r with
  | Ok _ => True
  | Err e => root_error e <> Panic /\ root_error e <> OutOfFuel
  end.

Lemma result_bind_Ok {A B} (f : A -> result B) m b :
  m ≫= f = Ok b <-> exists a, m = Ok a /\ f a = Ok b.
Proof. destruct m as [a|e]; cbn; split; [by eauto|by intros (? & [= <-] & ?)|done|by intros (? & ? & ?)]. Qed.

Lemma returns_bind {A B} (f : A -> result B) m :
  returns m -> (forall a, m = Ok a -> returns (f a)) -> returns (m ≫= f).
Proof. destruct m; cbn; naive_solver. Qed.

Lemma returns_wrap {A} (w : goerror -> goerror) (m : result A) :
  (forall e, root_error (w e) = root_error e) -> returns m -> returns (wrap_err w m).
Proof. intros Hw. destruct m; simpl; [done|]. by rewrite Hw. Qed.

(** ** Tactics *)

(** Splits [result_bind] hypotheses of the form [m ≫= f = Ok _]. *)
Ltac inv_bind :=
  repeat match goal with
  | H : _ ≫= _ = Ok _ |- _ =>
      apply result_bind_Ok in H; destruct H as (? & ? & H)
  | H : wrap_err _ ?m = Ok _ |- _ =>
      destruct m eqn:?; simpl in H; [|discriminate H]
  | H : Ok _ = Ok _ |- _ => injection H as H; subst
  | H : Err _ = Ok _ |- _ => discriminate H
  | H : Ok _ = Err _ |- _ => discriminate H
  end.

(** Adds the range of every byte converted in the goal. *)
Ltac byte_ranges :=
  repeat match goal with
  | |- context [ b2z ?x ] =>
      lazymatch goal with
      | _ : (0 <= b2z x < 256)%Z |- _ => fail
      | _ => pose proof (b2z_range x)
      end
  end.

(** Case analysis on the conditions the Go code tests. *)
Ltac case_if :=
  match goal with
  | |- context [ if ?b then _ else _ ] => destruct b eqn:?
  end.
Ltac case_if_in H :=
  match type of H with
  | context [ if ?b then _ else _ ] => destruct b eqn:?
  end.

(** Turns boolean tests in the context into arithmetic. *)
Ltac bool_arith :=
  repeat match goal with
  | H : (_ <=? _)%nat = true |- _ => apply Nat.leb_le in H
  | H : (_ <=? _)%nat = false |- _ => apply Nat.leb_gt in H
  | H : (_ <? _)%nat = true |- _ => apply Nat.ltb_lt in H
  | H : (_ <? _)%nat = false |- _ => apply Nat.ltb_ge in H
  | H : (_ =? _)%nat = true |- _ => apply Nat.eqb_eq in H
  | H : (_ =? _)%nat = false |- _ => apply Nat.eqb_neq in H
  | H : (_ <=? _)%Z = true |- _ => apply Z.leb_le in H
  | H : (_ <=? _)%Z = false |- _ => apply Z.leb_gt in H
  | H : (_ <? _)%Z = true |- _ => apply Z.ltb_lt in H
  | H : (_ <? _)%Z = false |- _ => apply Z.ltb_ge in H
  | H : (_ =? _)%Z = true |- _ => apply Z.eqb_eq in H
  | H : (_ =? _)%Z = false |- _ => apply Z.eqb_neq in H
  | H : bool_decide _ = true |- _ => apply bool_decide_eq_true in H
  | H : bool_decide _ = false |- _ => apply bool_decide_eq_false in H
  | H : _ && _ = true |- _ => apply andb_true_iff in H; destruct H
  | H : _ || _ = false |- _ => apply orb_false_iff in H; destruct H
  | H : negb _ = true |- _ => apply negb_true_iff in H
  | H : negb _ = false |- _ => apply negb_false_iff in H
  end.

(** ** Slices *)

(** [s[i]] and [s[i:j]]: out of range they panic. *)
Definition at_ {A} (l : list A) (i : nat) : result A :=
  match l !! i with Some a => Ok a | None => Err Panic end.

Definition slice {A} (l : list A) (i j : nat) : result (list A) :=
  if decide (i <= j /\ j <= length l) then Ok (take (j - i) (drop i l)) else Err Panic.

Lemma at_in_range {A} (l : list A) i :
  i < length l -> exists a, l !! i = Some a /\ at_ l i = Ok a.
Proof.
  intros [a Ha]%lookup_lt_is_Some_2. exists a. unfold at_. by rewrite Ha.
Qed.

Lemma at_Ok {A} (l : list A) i a : at_ l i = Ok a <-> l !! i = Some a.
Proof. unfold at_. destruct (l !! i); split; congruence. Qed.

Lemma slice_in_range {A} (l : list A) i j :
  i <= j -> j <= length l -> slice l i j = Ok (take (j - i) (drop i l)).
Proof. intros. unfold slice. by rewrite decide_True. Qed.

Lemma slice_Ok {A} (l l' : list A) i j :
  slice l i j = Ok l' <-> i <= j /\ j <= length l /\ l' = take (j - i) (drop i l).
Proof.
  unfold slice. case_decide as H; split; [by intros [= <-]; destruct H | by intros (?&?&->) | done |].
  intros (?&?&_). by destruct H.
Qed.

Lemma slice_app_mid {A} (l1 l2 l3 : list A) i j :
  i = length l1 -> j = i + length l2 -> slice (l1 ++ l2 ++ l3) i j = Ok l2.
Proof.
  intros -> ->. apply slice_Ok. rewrite !length_app. split_and!; [lia..|].
  replace (length l1 + length l2 - length l1) with (length l2) by lia.
  by rewrite drop_app_length, take_app_length.
Qed.

(** ** Big-endian integers ([encoding/binary]) *)

Definition be16 (z : Z) : list byte := [z2b (Z.shiftr z 8); z2b z].
Definition be32 (z : Z) : list byte :=
  [z2b (Z.shiftr z 24); z2b (Z.shiftr z 16); z2b (Z.shiftr z 8); z2b z].

(** [binary.BigEndian.Uint16(data[off:])] *)
Definition get16 (data : list byte) (off : nat) : result Z :=
  b0 ← at_ data off; b1 ← at_ data (off + 1);
  Ok (Z.lor (b2z b1) (Z.shiftl (b2z b0) 8)).
Definition get32 (data : list byte) (off : nat) : result Z :=
  b0 ← at_ data off; b1 ← at_ data (off + 1);
  b2 ← at_ data (off + 2); b3 ← at_ data (off + 3);
  Ok (Z.lor (Z.lor (Z.lor (b2z b3) (Z.shiftl (b2z b2) 8)) (Z.shiftl (b2z b1) 16))
        (Z.shiftl (b2z b0) 24)).

Lemma lor_shiftl_add a b n :
  (0 <= n -> 0 <= a < 2 ^ n -> Z.lor a (Z.shiftl b n) = b * 2 ^ n + a)%Z.
Proof.
  intros Hn Ha. rewrite Z.shiftl_mul_pow2 by lia.
  rewrite Z.lor_comm. rewrite <- (Z.add_lor_land (b * 2 ^ n) a).
  replace (Z.land (b * 2 ^ n) a) with 0%Z; [lia|].
  symmetry. apply Z.bits_inj'. intros k Hk. rewrite Z.bits_0, Z.land_spec.
  destruct (decide (k < n)%Z).
  - by rewrite Z.mul_pow2_bits_low by lia.
  - destruct (decide (a = 0%Z)) as [->|]; [by rewrite Z.bits_0, andb_false_r|].
    rewrite (Z.bits_above_log2 a k), andb_false_r; [done|lia|].
    apply Z.log2_lt_pow2; [lia|]. apply Z.lt_le_trans with (2 ^ n)%Z; [lia|].
    apply Z.pow_le_mono_r; lia.
Qed.

Lemma land_pow2_testbit x n : (0 <= n)%Z -> negb (Z.land x (2 ^ n) =? 0)%Z = Z.testbit x n.
Proof.
  intros Hn. destruct (Z.testbit x n) eqn:E.
  - apply negb_true_iff, Z.eqb_neq. intros H0. apply (f_equal (λ y, Z.testbit y n)) in H0.
    by rewrite Z.land_spec, E, Z.pow2_bits_true, Z.bits_0 in H0.
  - apply negb_false_iff, Z.eqb_eq. apply Z.bits_inj'. intros i Hi.
    rewrite Z.land_spec, Z.pow2_bits_eqb, Z.bits_0 by lia.
    destruct (Z.eqb_spec n i) as [<-|]; [by rewrite E | apply andb_false_r].
Qed.

Lemma lor16_arith a b :
  Z.lor (b2z b) (Z.shiftl (b2z a) 8) = (b2z a * 256 + b2z b)%Z.
Proof. pose proof (b2z_range b). rewrite lor_shiftl_add by lia. lia. Qed.

Lemma lor32_arith a b c d :
  Z.lor (Z.lor (Z.lor (b2z d) (Z.shiftl (b2z c) 8)) (Z.shiftl (b2z b) 16))
    (Z.shiftl (b2z a) 24)
  = (((b2z a * 256 + b2z b) * 256 + b2z c) * 256 + b2z d)%Z.
Proof.
  pose proof (b2z_range a). pose proof (b2z_range b).
  pose proof (b2z_range c). pose proof (b2z_range d).
  rewrite (lor_shiftl_add (b2z d)) by lia. change (2 ^ 8)%Z with 256%Z.
  rewrite (lor_shiftl_add _ (b2z b)) by lia. change (2 ^ 16)%Z with 65536%Z.
  rewrite (lor_shiftl_add _ (b2z a)) by lia. change (2 ^ 24)%Z with 16777216%Z. lia.
Qed.

Lemma at_app_r {A} (l1 l2 : list A) i j :
  i = length l1 + j -> at_ (l1 ++ l2) i = at_ l2 j.
Proof.
  intros ->. unfold at_. rewrite lookup_app_r by lia.
  by replace (length l1 + j - length l1) with j by lia.
Qed.

Lemma at_mid {A} (pre post : list A) x : at_ (pre ++ x :: post) (length pre) = Ok x.
Proof. by rewrite (at_app_r pre _ _ 0) by lia. Qed.

Lemma at_mid1 {A} (pre post : list A) x y : at_ (pre ++ x :: y :: post) (length pre + 1) = Ok y.
Proof. by rewrite (at_app_r pre _ _ 1) by lia. Qed.

Lemma take_drop_mid {A} (pre mid post : list A) i n :
  i = length pre -> n = length mid -> take n (drop i (pre ++ mid ++ post)) = mid.
Proof. intros -> ->. by rewrite drop_app_length, take_app_length. Qed.

Lemma get16_be16 pre z post off :
  is_u16 z -> off = length pre -> get16 (pre ++ be16 z ++ post) off = Ok z.
Proof.
  intros Hz ->. unfold get16.
  rewrite (at_app_r pre _ (length pre) 0) by lia. rewrite (at_app_r pre _ (length pre + 1) 1) by lia.
  cbn. rewrite lor16_arith, !z2b_spec. f_equal.
  rewrite Z.shiftr_div_pow2 by lia. unfold is_u16 in Hz. change (2 ^ 8)%Z with 256%Z.
  rewrite (Z.mod_small (z / 256)) by (split; [apply Z.div_pos; lia | apply Z.div_lt_upper_bound; lia]).
  pose proof (Z.div_mod z 256 ltac:(lia)). lia.
Qed.

Lemma get32_be32 pre z post off :
  is_u32 z -> off = length pre -> get32 (pre ++ be32 z ++ post) off = Ok z.
Proof.
  intros Hz ->. unfold get32.
  rewrite (at_app_r pre _ (length pre) 0) by lia. rewrite (at_app_r pre _ (length pre + 1) 1) by lia.
  rewrite (at_app_r pre _ (length pre + 2) 2) by lia. rewrite (at_app_r pre _ (length pre + 3) 3) by lia.
  cbn. rewrite lor32_arith, !z2b_spec. f_equal.
  rewrite !Z.shiftr_div_pow2 by lia. unfold is_u32 in Hz.
  change (2 ^ 8)%Z with 256%Z. change (2 ^ 16)%Z with (256 * 256)%Z.
  change (2 ^ 24)%Z with (256 * 256 * 256)%Z. rewrite <- !Z.div_div by lia.
  set (q := (z / 256)%Z). set (r := (q / 256)%Z). set (t := (r / 256)%Z).
  assert (t < 256)%Z by (unfold t, r, q; rewrite !Z.div_div by lia; apply Z.div_lt_upper_bound; lia).
  assert (0 <= t)%Z by (unfold t, r, q; rewrite !Z.div_div by lia; apply Z.div_pos; lia).
  rewrite (Z.mod_small t) by lia.
  unfold be32 in *.
  pose proof (Z.div_mod z 256 ltac:(lia)) as Hz0. pose proof (Z.div_mod q 256 ltac:(lia)) as Hq.
  pose proof (Z.div_mod r 256 ltac:(lia)) as Hr. fold q in Hz0. fold r in Hq. fold t in Hr.
  clearbody q r t. generalize dependent (z mod 256)%Z.
  generalize dependent (q mod 256)%Z. generalize dependent (r mod 256)%Z. lia.
Qed.

Lemma get16_u16 data off z : get16 data off = Ok z -> is_u16 z.
Proof.
  unfold get16. intros H. inv_bind. rewrite lor16_arith.
  byte_ranges.
  unfold is_u16. lia.
Qed.

Lemma get32_u32 data off z : get32 data off = Ok z -> is_u32 z.
Proof.
  unfold get32. intros H. inv_bind. rewrite lor32_arith.
  byte_ranges.
  unfold is_u32. lia.
Qed.

Lemma get16_in_range data off : off + 2 <= length data -> exists z, get16 data off = Ok z.
Proof.
  intros. unfold get16.
  destruct (at_in_range data off) as (a & _ & ->); [lia|].
  destruct (at_in_range data (off + 1)) as (b & _ & ->); [lia|]. cbn. eauto.
Qed.

Lemma get32_in_range data off : off + 4 <= length data -> exists z, get32 data off = Ok z.
Proof.
  intros. unfold get32.
  destruct (at_in_range data off) as (a & _ & ->); [lia|].
  destruct (at_in_range data (off + 1)) as (b & _ & ->); [lia|].
  destruct (at_in_range data (off + 2)) as (c & _ & ->); [lia|].
  destruct (at_in_range data (off + 3)) as (d & _ & ->); [lia|]. cbn. eauto.
Qed.

(** ** Loops *)

(** What every iteration of a loop keeps holds at its end. *)
Lemma foldl_inv {A B} (P : B -> Prop) (f : B -> A -> B) l b :
  P b -> (forall x b, x ∈ l -> P b -> P (f b x)) -> P (foldl f b l).
Proof.
  revert b. induction l as [|x l IH]; intros b Hb Hf; [done|]. simpl. apply IH.
  - apply Hf; [left|done].
  - intros y b' Hy. apply Hf. by right.
Qed.

