(* ===== verification/GoStrings.v ===== *)
(** * The parts of Go's [strings], [strconv] and [unicode/utf8] the package uses

    Strings are lists of bytes, as in Go.  [strings.ToLower] works rune by rune
    through UTF-8, with the Unicode case table of package [unicode] as the class
    [UnicodeTables]; the table is data of the Go distribution, everything around
    it (the ASCII fast path, decoding, re-encoding, the replacement of invalid
    bytes by U+FFFD) is modelled. *)

From S2P Require Export Prelude.
From stdpp Require Import pretty.

(** ** Bytes as characters *)

Definition dot : byte := Byte.x2e.

Definition is_ascii (b : byte) : bool := (b2z b <? 128)%Z.

Definition between (lo x hi : Z) : bool := ((lo <=? x) && (x <=? hi))%Z.

Definition byte_lower (b : byte) : byte :=
  if between 65 (b2z b) 90 then z2b (b2z b + 32) else b.

(** ** UTF-8 ([unicode/utf8]) *)

Definition RuneError : Z := 65533.

Definition cont (z : Z) : bool := between 128 z 191.

(** The runes a [for range] loop over the string yields; an invalid byte yields
    [RuneError] and is one byte wide. *)
Fixpoint decode_runes (s : gostring) : list Z :=
  match s with
  | [] => []
  | b0 :: s1 =>
      let c0 := b2z b0 in
      if (c0 <? 128)%Z then c0 :: decode_runes s1 else
      match s1 with
      | [] => [RuneError]
      | b1 :: s2 =>
          let c1 := b2z b1 in
          if between 194 c0 223 && cont c1
          then Z.lor (Z.shiftl (Z.land c0 31) 6) (Z.land c1 63) :: decode_runes s2 else
          match s2 with
          | [] => RuneError :: decode_runes s1
          | b2 :: s3 =>
              let c2 := b2z b2 in
              if between 224 c0 239
                 && between (if c0 =? 224 then 160 else 128)%Z c1
                            (if c0 =? 237 then 159 else 191)%Z
                 && cont c2
              then Z.lor (Z.lor (Z.shiftl (Z.land c0 15) 12) (Z.shiftl (Z.land c1 63) 6))
                         (Z.land c2 63) :: decode_runes s3 else
              match s3 with
              | [] => RuneError :: decode_runes s1
              | b3 :: s4 =>
                  let c3 := b2z b3 in
                  if between 240 c0 244
                     && between (if c0 =? 240 then 144 else 128)%Z c1
                                (if c0 =? 244 then 143 else 191)%Z
                     && cont c2 && cont c3
                  then Z.lor (Z.lor (Z.shiftl (Z.land c0 7) 18) (Z.shiftl (Z.land c1 63) 12))
                             (Z.lor (Z.shiftl (Z.land c2 63) 6) (Z.land c3 63))
                       :: decode_runes s4
                  else RuneError :: decode_runes s1
              end
          end
      end
  end.

(** [utf8.AppendRune] *)
Definition encode_rune (r : Z) : gostring :=
  let r := if between 0 r 1114111 && negb (between 55296 r 57343) then r else RuneError in
  if (r <? 128)%Z then [z2b r]
  else if (r <? 2048)%Z then [z2b (Z.lor 192 (Z.shiftr r 6)); z2b (Z.lor 128 (Z.land r 63))]
  else if (r <? 65536)%Z then
    [z2b (Z.lor 224 (Z.shiftr r 12)); z2b (Z.lor 128 (Z.land (Z.shiftr r 6) 63));
     z2b (Z.lor 128 (Z.land r 63))]
  else
    [z2b (Z.lor 240 (Z.shiftr r 18)); z2b (Z.lor 128 (Z.land (Z.shiftr r 12) 63));
     z2b (Z.lor 128 (Z.land (Z.shiftr r 6) 63)); z2b (Z.lor 128 (Z.land r 63))].

(** ** [strings] *)

Definition HasPrefix (s p : gostring) : bool := bool_decide (take (length p) s = p).

Definition HasSuffix (s suf : gostring) : bool :=
  (length suf <=? length s) && bool_decide (drop (length s - length suf) s = suf).

Definition TrimSuffix (s suf : gostring) : gostring :=
  if HasSuffix s suf then take (length s - length suf) s else s.

(** [strings.IndexByte]; [None] is -1. *)
Fixpoint IndexByte (s : gostring) (c : byte) : option nat :=
  match s with
  | [] => None
  | b :: s => if decide (b = c) then Some 0 else S <$> IndexByte s c
  end.

(** [strings.Index] and [strings.LastIndex]; [None] is -1. *)
Fixpoint Index (s sub : gostring) : option nat :=
  if HasPrefix s sub then Some 0 else
  match s with
  | [] => None
  | _ :: s => S <$> Index s sub
  end.

Fixpoint LastIndex (s sub : gostring) : option nat :=
  match s with
  | [] => if HasPrefix [] sub then Some 0 else None
  | b :: s' =>
      match LastIndex s' sub with
      | Some i => Some (S i)
      | None => if HasPrefix s sub then Some 0 else None
      end
  end.

Definition Contains (s sub : gostring) : bool :=
  match Index s sub with Some _ => true | None => false end.

Fixpoint Join (ls : list gostring) (sep : gostring) : gostring :=
  match ls with
  | [] => []
  | [l] => l
  | l :: ls => l ++ sep ++ Join ls sep
  end.

(** [strings.Split(s, sep)] for a one-byte separator. *)
Fixpoint Split (s : gostring) (sep : byte) : list gostring :=
  match s with
  | [] => [[]]
  | b :: s =>
      if decide (b = sep) then [] :: Split s sep
      else match Split s sep with
           | [] => [[b]]
           | l :: ls => (b :: l) :: ls
           end
  end.

(** The Unicode simple lower-case mapping above ASCII ([unicode.CaseRanges]). *)
Class UnicodeTables := { to_lower_table : Z -> Z }.

(** A concrete table, without letters above ASCII. *)
Definition ascii_tables : UnicodeTables := {| to_lower_table := λ r, r |}.

Section ToLower.
  Context `{UnicodeTables}.

(** [unicode.ToLower] *)
Definition rune_lower (r : Z) : Z :=
  if (r <=? 127)%Z then (if between 65 r 90 then r + 32 else r)%Z else to_lower_table r.

(** [strings.Map] *)
Definition Map_runes (f : Z -> Z) (s : gostring) : gostring :=
  mjoin ((λ r, if (f r <? 0)%Z then [] else encode_rune (f r)) <$> decode_runes s).

Definition ToLower (s : gostring) : gostring :=
  if forallb is_ascii s then byte_lower <$> s else Map_runes rune_lower s.

End ToLower.

(** ** [strconv] and [fmt] verbs *)

(** [strconv.Itoa], and [%d]. *)
Definition Itoa (z : Z) : gostring := go (pretty z).

Definition is_digit (b : byte) : bool := between 48 (b2z b) 57.

Definition digits_value (s : gostring) : Z :=
  foldl (λ acc b, acc * 10 + (b2z b - 48))%Z 0%Z s.

Definition max_int64 : Z := 9223372036854775807.

(** The value of a sign and a digit string, if it fits 64 bits. *)
Definition int64_of (neg : bool) (ds : gostring) : option Z :=
  let v := if neg then (- digits_value ds)%Z else digits_value ds in
  if between (- max_int64 - 1) v max_int64 then Some v else None.

(** [strconv.Atoi]; [None] is an error. *)
Definition Atoi (s : gostring) : option Z :=
  let '(neg, ds) :=
    match s with
    | b :: s' => if decide (b = Byte.x2d) then (true, s')
                 else if decide (b = Byte.x2b) then (false, s') else (false, s)
    | [] => (false, s)
    end in
  if bool_decide (ds = []) || negb (forallb is_digit ds) then None else int64_of neg ds.

Definition hex_digit (n : Z) : byte :=
  if (n <? 10)%Z then z2b (48 + n) else z2b (87 + n).

(** [fmt.Sprintf of %x] of a byte slice. *)
Definition hex_bytes (s : gostring) : gostring :=
  mjoin ((λ b, [hex_digit (Z.shiftr (b2z b) 4); hex_digit (Z.land (b2z b) 15)]) <$> s).

(** Go's [<] on strings: lexicographic, by bytes. *)
Fixpoint str_ltb (s t : gostring) : bool :=
  match s, t with
  | [], [] => false
  | [], _ :: _ => true
  | _ :: _, [] => false
  | a :: s, b :: t =>
      if (b2z a <? b2z b)%Z then true
      else if (b2z b <? b2z a)%Z then false else str_ltb s t
  end.

(** ** Lemmas *)

Lemma HasSuffix_spec s suf : HasSuffix s suf = true <-> suf `suffix_of` s.
Proof.
  unfold HasSuffix. rewrite andb_true_iff, Nat.leb_le, bool_decide_eq_true. split.
  - intros [_ <-]. exists (take (length s - length suf) s). by rewrite take_drop.
  - intros [p ->]. rewrite length_app. split; [lia|].
    replace (length p + length suf - length suf) with (length p) by lia.
    apply drop_app_length.
Qed.

Lemma HasSuffix_app s suf : HasSuffix (s ++ suf) suf = true.
Proof. apply HasSuffix_spec. by exists s. Qed.

Lemma TrimSuffix_app s suf : TrimSuffix (s ++ suf) suf = s.
Proof.
  unfold TrimSuffix. rewrite HasSuffix_app, length_app.
  replace (length s + length suf - length suf) with (length s) by lia.
  apply take_app_length.
Qed.

Lemma TrimSuffix_no s suf : HasSuffix s suf = false -> TrimSuffix s suf = s.
Proof. unfold TrimSuffix. by intros ->. Qed.

Lemma HasSuffix_inv s suf : HasSuffix s suf = true -> s = TrimSuffix s suf ++ suf.
Proof. rewrite HasSuffix_spec. intros [p ->]. by rewrite TrimSuffix_app. Qed.

Lemma HasSuffix_false s suf : HasSuffix s suf = false <-> ¬ suf `suffix_of` s.
Proof. rewrite <- HasSuffix_spec. by destruct (HasSuffix s suf). Qed.

Lemma Split_nonempty s c : Split s c <> [].
Proof. destruct s; simpl; [done|]. case_decide; [done|]. by destruct (Split s c). Qed.

Lemma Join_Split s c : Join (Split s c) [c] = s.
Proof.
  induction s as [|b s IH]; simpl; [done|].
  pose proof (Split_nonempty s c).
  case_decide as Hb; subst.
  - destruct (Split s c) eqn:E; [done|]. simpl in *. by rewrite IH.
  - destruct (Split s c) as [|l ls]; [done|]. destruct ls; simpl in *; by rewrite IH.
Qed.

Lemma Split_no_sep s c : Forall (λ l, c ∉ l) (Split s c).
Proof.
  induction s as [|b s IH]; simpl; [constructor; [set_solver|done]|].
  case_decide; [constructor; [set_solver|done]|].
  destruct (Split s c) as [|l ls]; [constructor; [set_solver|done]|].
  apply Forall_cons in IH as [??]. constructor; [set_solver|done].
Qed.

Lemma Split_app l s c : c ∉ l -> Split (l ++ c :: s) c = l :: Split s c.
Proof.
  induction l as [|b l IH]; intros Hl; simpl.
  - by rewrite decide_True.
  - rewrite decide_False by set_solver. rewrite IH by set_solver. done.
Qed.

Lemma Split_single l c : c ∉ l -> Split l c = [l].
Proof.
  induction l as [|b l IH]; intros Hl; simpl; [done|].
  rewrite decide_False by set_solver. rewrite IH by set_solver. done.
Qed.

Lemma Split_Join ls c :
  ls <> [] -> Forall (λ l, c ∉ l) ls -> Split (Join ls [c]) c = ls.
Proof.
  intros Hne Hf. induction Hf as [|l ls Hl Hls IH]; [done|].
  destruct ls as [|l' ls]; [by apply Split_single|].
  change (Join (l :: l' :: ls) [c]) with (l ++ c :: Join (l' :: ls) [c]).
  rewrite Split_app by done. by rewrite IH.
Qed.

Lemma IndexByte_Some s c i :
  IndexByte s c = Some i ->
  exists s1 s2, s = s1 ++ c :: s2 /\ length s1 = i /\ c ∉ s1.
Proof.
  revert i. induction s as [|b s IH]; intros i; simpl; [done|].
  case_decide as Hb; subst.
  - intros [= <-]. exists [], s. split_and!; [done|done|set_solver].
  - intros H. apply fmap_Some in H as (j & Hj & ->).
    destruct (IH j Hj) as (s1 & s2 & -> & <- & ?).
    exists (b :: s1), s2. split_and!; [done|done|set_solver].
Qed.

Lemma IndexByte_None s c : IndexByte s c = None -> c ∉ s.
Proof.
  induction s as [|b s IH]; simpl; [set_solver|].
  case_decide; [done|]. intros ?%fmap_None. set_solver.
Qed.

Lemma IndexByte_app s1 s2 c : c ∉ s1 -> IndexByte (s1 ++ c :: s2) c = Some (length s1).
Proof.
  induction s1 as [|b s1 IH]; intros Hc; simpl; [by rewrite decide_True|].
  rewrite decide_False by set_solver. rewrite IH by set_solver. done.
Qed.

Lemma IndexByte_notin s c : c ∉ s -> IndexByte s c = None.
Proof.
  induction s as [|b s IH]; intros Hc; simpl; [done|].
  rewrite decide_False by set_solver. rewrite IH by set_solver. done.
Qed.

Lemma Itoa_inj x y : Itoa x = Itoa y -> x = y.
Proof.
  unfold Itoa, go. intros E. apply (f_equal String.string_of_list_byte) in E.
  rewrite !String.string_of_list_byte_of_string in E. by apply (inj pretty) in E.
Qed.

(** *** Decimal digits *)

Lemma go_String a s : go (String a s) = Ascii.byte_of_ascii a :: go s.
Proof. done. Qed.

Lemma digits_value_snoc ds d :
  digits_value (ds ++ [d]) = (digits_value ds * 10 + (b2z d - 48))%Z.
Proof. unfold digits_value. by rewrite foldl_app. Qed.

Lemma digit_char_spec n :
  (n < 10)%N ->
  is_digit (Ascii.byte_of_ascii (pretty_N_char n)) = true /\
  (b2z (Ascii.byte_of_ascii (pretty_N_char n)) - 48)%Z = Z.of_N n.
Proof.
  intros Hn. destruct n as [|p]; [done|].
  do 4 (try (destruct p as [p|p|]; [| |done])); lia.
Qed.

Lemma pretty_digits x : forall s,
  exists ds, go (pretty_N_go x s) = ds ++ go s /\ forallb is_digit ds = true /\
    digits_value ds = Z.of_N x /\ ((0 < x)%N -> ds <> []).
Proof.
  induction (N.lt_wf_0 x) as [x _ IH]. intros s. destruct (decide (0 < x)%N) as [Hx|Hx].
  - rewrite pretty_N_go_step by done.
    destruct (IH (x / 10)%N ltac:(by apply N.div_lt) (String (pretty_N_char (x mod 10)) s))
      as (ds & -> & Hd & Hv & _).
    pose proof (N.mod_lt x 10 ltac:(lia)) as Hm. destruct (digit_char_spec _ Hm) as [Hc Hcv].
    exists (ds ++ [Ascii.byte_of_ascii (pretty_N_char (x mod 10))]). split_and!.
    + by rewrite go_String, <- app_assoc.
    + rewrite forallb_app, Hd. cbn [forallb andb]. by rewrite Hc.
    + rewrite digits_value_snoc, Hv, Hcv. pose proof (N.div_mod x 10 ltac:(lia)). lia.
    + intros _. destruct ds; discriminate.
  - assert (x = 0%N) as -> by lia. exists []. split_and!; done || lia.
Qed.

(** A positive number prints as its decimal digits. *)
Lemma Itoa_digits z :
  (0 < z)%Z -> exists d ds, Itoa z = d :: ds /\ forallb is_digit (d :: ds) = true /\
    digits_value (d :: ds) = z.
Proof.
  intros Hz. destruct (pretty_digits (Z.to_N z) "") as (ds & E & Hd & Hv & Hne).
  destruct ds as [|d ds]; [by destruct Hne; [lia|]|]. exists d, ds. split_and!; [|done|lia].
  unfold Itoa. assert (E' : pretty z = pretty_N_go (Z.to_N z) "").
  { destruct z as [|q|q]; [lia| |lia].
    change (pretty_N (N.pos q) = pretty_N_go (N.pos q) ""). unfold pretty_N.
    by rewrite decide_False. }
  rewrite E', E. by rewrite app_nil_r.
Qed.

Lemma Atoi_Itoa z : (0 < z <= max_int64)%Z -> Atoi (Itoa z) = Some z.
Proof.
  intros Hz. destruct (Itoa_digits z) as (d & ds & -> & Hd & Hv); [lia|]. unfold Atoi.
  assert (Hdd : is_digit d = true) by (cbn in Hd; by apply andb_true_iff in Hd as [? _]).
  destruct (decide (d = Byte.x2d)) as [->|_]; [discriminate Hdd|].
  destruct (decide (d = Byte.x2b)) as [->|_]; [discriminate Hdd|].
  rewrite bool_decide_false, Hd by done. cbn [orb negb]. unfold int64_of, between. rewrite Hv.
  assert (E : ((- max_int64 - 1 <=? z) && (z <=? max_int64))%Z = true).
  { apply andb_true_iff. rewrite !Z.leb_le. unfold max_int64 in *. lia. }
  by rewrite E.
Qed.

(** *** The last occurrence of a substring *)

Lemma HasPrefix_cons b s c sub :
  HasPrefix (b :: s) (c :: sub) = bool_decide (b = c) && HasPrefix s sub.
Proof.
  unfold HasPrefix. simpl. apply eq_true_iff_eq.
  rewrite andb_true_iff, !bool_decide_eq_true. split; [by intros [= -> ->] | by intros [-> ->]].
Qed.

Lemma LastIndex_None s c sub : c ∉ s -> LastIndex s (c :: sub) = None.
Proof.
  induction s as [|b s IH]; intros Hc; [done|]. cbn [LastIndex].
  rewrite IH by set_solver. rewrite HasPrefix_cons.
  rewrite bool_decide_false by (intros ->; set_solver). done.
Qed.

Lemma LastIndex_app s c sub t :
  c ∉ sub ++ t -> LastIndex (s ++ c :: sub ++ t) (c :: sub) = Some (length s).
Proof.
  intros Hc. induction s as [|b s IH].
  - cbn [app LastIndex length]. rewrite LastIndex_None by done. rewrite HasPrefix_cons.
    rewrite bool_decide_true by done. unfold HasPrefix. rewrite take_app_length.
    by rewrite bool_decide_true.
  - cbn [app LastIndex length]. by rewrite IH.
Qed.

Lemma str_ltb_irrefl s : str_ltb s s = false.
Proof. induction s as [|a s IH]; simpl; [done|]. by rewrite Z.ltb_irrefl. Qed.

Lemma str_ltb_total s t : str_ltb s t = false -> str_ltb t s = false -> s = t.
Proof.
  revert t. induction s as [|a s IH]; intros [|b t]; simpl; try done.
  destruct (Z.ltb_spec (b2z a) (b2z b)); [done|].
  destruct (Z.ltb_spec (b2z b) (b2z a)); [done|].
  intros. f_equal; [apply b2z_inj; lia | by apply IH].
Qed.

Lemma str_ltb_trans s t u : str_ltb s t = true -> str_ltb t u = true -> str_ltb s u = true.
Proof.
  revert t u. induction s as [|a s IH]; intros [|b t] [|c u]; simpl; try done.
  destruct (Z.ltb_spec (b2z a) (b2z b)), (Z.ltb_spec (b2z b) (b2z a)); try done;
  destruct (Z.ltb_spec (b2z b) (b2z c)), (Z.ltb_spec (b2z c) (b2z b)); try done;
  destruct (Z.ltb_spec (b2z a) (b2z c)), (Z.ltb_spec (b2z c) (b2z a)); try done; try lia;
  apply IH.
Qed.

Lemma str_ltb_asym s t : str_ltb s t = true -> str_ltb t s = false.
Proof.
  intros H1. destruct (str_ltb t s) eqn:H2; [|done].
  pose proof (str_ltb_trans _ _ _ H1 H2) as H3. by rewrite str_ltb_irrefl in H3.
Qed.
