(* ===== verification/GoNet.v ===== *)
(** * The parts of Go's [net] the package uses

    A [net.IP] is a byte slice of length 4 or 16; a nil slice is the empty list
    (the package never makes an empty non-nil one).  An operation that returns a
    nil IP for "not an address of that kind" returns an [option]. *)

From S2P Require Export GoStrings.

Abbreviation IP := (list byte).

(** [v4InV6Prefix] *)
Definition v4InV6Prefix : list byte := replicate 10 Byte.x00 ++ [Byte.xff; Byte.xff].

(** [net.IPv4(a, b, c, d)], the 16-byte form. *)
Definition IPv4 (a b c d : byte) : IP := v4InV6Prefix ++ [a; b; c; d].

Definition To4 (ip : IP) : option IP :=
  if length ip =? 4 then Some ip
  else if (length ip =? 16) && bool_decide (take 12 ip = v4InV6Prefix)
  then Some (drop 12 ip) else None.

Definition To16 (ip : IP) : option IP :=
  if length ip =? 4 then Some (v4InV6Prefix ++ ip)
  else if length ip =? 16 then Some ip else None.

(** [ip.Equal(x)]: an IPv4 address equals its 16-byte form. *)
Definition IP_Equal (ip x : IP) : bool :=
  if length ip =? length x then bool_decide (ip = x)
  else if (length ip =? 4) && (length x =? 16)
  then bool_decide (take 12 x = v4InV6Prefix) && bool_decide (ip = drop 12 x)
  else if (length ip =? 16) && (length x =? 4)
  then bool_decide (take 12 ip = v4InV6Prefix) && bool_decide (drop 12 ip = x)
  else false.

(** The byte [ip[i]] as an integer, for an index in range. *)
Definition octet (ip : IP) (i : nat) : Z := b2z (nth i ip Byte.x00).

Definition IPv6loopback : IP := replicate 15 Byte.x00 ++ [Byte.x01].

Definition IsLoopback (ip : IP) : bool :=
  match To4 ip with
  | Some ip4 => (octet ip4 0 =? 127)%Z
  | None => IP_Equal ip IPv6loopback
  end.

Definition IsLinkLocalUnicast (ip : IP) : bool :=
  match To4 ip with
  | Some ip4 => (octet ip4 0 =? 169)%Z && (octet ip4 1 =? 254)%Z
  | None => (length ip =? 16) && (octet ip 0 =? 254)%Z && (Z.land (octet ip 1) 192 =? 128)%Z
  end.

Definition IsPrivate (ip : IP) : bool :=
  match To4 ip with
  | Some ip4 =>
      (octet ip4 0 =? 10)%Z
      || ((octet ip4 0 =? 172)%Z && (Z.land (octet ip4 1) 240 =? 16)%Z)
      || ((octet ip4 0 =? 192)%Z && (octet ip4 1 =? 168)%Z)
  | None => (length ip =? 16) && (Z.land (octet ip 0) 254 =? 252)%Z
  end.

(** ** Subnets *)

Record IPNet := mkIPNet { net_IP : IP; net_Mask : list byte }.

Definition networkNumberAndMask (n : IPNet) : IP * list byte :=
  let ip := match To4 (net_IP n) with Some ip => ip | None => net_IP n end in
  if negb ((length ip =? 4) || (length ip =? 16)) then ([], [])
  else if length (net_Mask n) =? 4 then
    (if length ip =? 4 then (ip, net_Mask n) else ([], []))
  else if length (net_Mask n) =? 16 then
    (ip, if length ip =? 4 then drop 12 (net_Mask n) else net_Mask n)
  else ([], []).

Fixpoint masked_equal (nn m ip : list byte) : bool :=
  match nn, m, ip with
  | a :: nn, k :: m, b :: ip =>
      (Z.land (b2z a) (b2z k) =? Z.land (b2z b) (b2z k))%Z && masked_equal nn m ip
  | _, _, _ => true
  end.

(** [n.Contains(ip)] *)
Definition IPNet_Contains (n : IPNet) (ip : IP) : bool :=
  let '(nn, m) := networkNumberAndMask n in
  let ip := match To4 ip with Some x => x | None => ip end in
  (length ip =? length nn) && masked_equal nn m ip.

(** ** Text form *)

(** The 16-bit groups of a 16-byte address. *)
Fixpoint groups (ip : list byte) : list Z :=
  match ip with
  | a :: b :: ip => (b2z a * 256 + b2z b)%Z :: groups ip
  | _ => []
  end.

Fixpoint zero_run (gs : list Z) : nat :=
  match gs with
  | g :: gs => if (g =? 0)%Z then S (zero_run gs) else 0
  | [] => 0
  end.

(** The first longest run of at least two zero groups, as (start, length);
    [(0, 0)] when there is none. *)
Fixpoint longest_zero_run (gs : list Z) (i : nat) (best : nat * nat) : nat * nat :=
  match gs with
  | [] => best
  | g :: gs' =>
      let l := zero_run gs in
      longest_zero_run gs' (S i) (if (2 <=? l) && (snd best <? l) then (i, l) else best)
  end.

(** [%x] of a 16-bit number. *)
Definition hex_group (g : Z) : gostring :=
  if (g <? 16)%Z then [hex_digit g]
  else if (g <? 256)%Z then [hex_digit (Z.shiftr g 4); hex_digit (Z.land g 15)]
  else if (g <? 4096)%Z then
    [hex_digit (Z.shiftr g 8); hex_digit (Z.land (Z.shiftr g 4) 15); hex_digit (Z.land g 15)]
  else [hex_digit (Z.shiftr g 12); hex_digit (Z.land (Z.shiftr g 8) 15);
        hex_digit (Z.land (Z.shiftr g 4) 15); hex_digit (Z.land g 15)].

Definition ipv6_string (ip : list byte) : gostring :=
  let gs := groups ip in
  let '(st, l) := longest_zero_run gs 0 (0, 0) in
  if l =? 0 then Join (hex_group <$> gs) (go ":")
  else Join (hex_group <$> take st gs) (go ":") ++ go "::"
       ++ Join (hex_group <$> drop (st + l) gs) (go ":").

(** [ip.String()] *)
Definition IP_String (ip : IP) : gostring :=
  if length ip =? 0 then go "<nil>"
  else if negb ((length ip =? 4) || (length ip =? 16)) then go "?" ++ hex_bytes ip
  else match To4 ip with
       | Some ip4 => Join ((λ b, Itoa (b2z b)) <$> ip4) [dot]
       | None => ipv6_string ip
       end.

(** A UDP address. *)
Record UDPAddr := mkUDPAddr { addr_IP : IP; addr_Port : Z }.

#[export] Instance UDPAddr_eq_dec : EqDecision UDPAddr.
Proof. solve_decision. Defined.

(** ** Lemmas *)

Lemma To4_length ip ip4 : To4 ip = Some ip4 -> length ip4 = 4.
Proof.
  unfold To4. case_if; [intros [= <-]; by bool_arith|].
  case_if; [|done]. intros [= <-]. bool_arith. rewrite length_drop. lia.
Qed.

Lemma To16_length ip ip6 : To16 ip = Some ip6 -> length ip6 = 16.
Proof.
  unfold To16. case_if; [intros [= <-]; bool_arith; simpl; by rewrite Heqb|].
  case_if; [|done]. intros [= <-]. by bool_arith.
Qed.

Lemma To4_4 ip : length ip = 4 -> To4 ip = Some ip.
Proof. unfold To4. by intros ->. Qed.

Lemma To16_16 ip : length ip = 16 -> To16 ip = Some ip.
Proof. unfold To16. by intros ->. Qed.

Lemma IP_Equal_refl ip : IP_Equal ip ip = true.
Proof. unfold IP_Equal. rewrite Nat.eqb_refl. by apply bool_decide_eq_true. Qed.

Lemma IP_Equal_sym ip x : IP_Equal ip x = IP_Equal x ip.
Proof.
  unfold IP_Equal. rewrite (Nat.eqb_sym (length x) (length ip)).
  destruct (length ip =? length x); [by apply bool_decide_ext|].
  destruct (Nat.eqb_spec (length ip) 4), (Nat.eqb_spec (length x) 16),
    (Nat.eqb_spec (length ip) 16), (Nat.eqb_spec (length x) 4); simpl; try lia; try done;
    f_equal; by apply bool_decide_ext.
Qed.

Lemma take_drop_prefix {A} (pre x y : list A) n :
  length pre = n -> take n x = pre /\ drop n x = y <-> x = pre ++ y.
Proof.
  intros <-. split.
  - intros [E <-]. rewrite <- (take_drop (length pre) x) at 1. by rewrite E.
  - intros ->. by rewrite take_app_length, drop_app_length.
Qed.

(** Two addresses are [Equal] when their 16-byte forms are. *)
Lemma IP_Equal_To16 ip x a b :
  To16 ip = Some a -> To16 x = Some b -> IP_Equal ip x = true <-> a = b.
Proof.
  unfold To16, IP_Equal. assert (Hp : length v4InV6Prefix = 12) by done.
  revert Hp. generalize v4InV6Prefix. intros pre Hp H1 H2.
  destruct (Nat.eqb_spec (length ip) 4) as [E4|], (Nat.eqb_spec (length x) 4) as [F4|],
    (Nat.eqb_spec (length ip) 16) as [E16|], (Nat.eqb_spec (length x) 16) as [F16|];
    try discriminate; try lia; injection H1 as <-; injection H2 as <-;
    rewrite ?E4, ?F4, ?E16, ?F16; simpl; rewrite ?andb_true_iff, ?bool_decide_eq_true.
  - split; [by intros -> | apply app_inv_head].
  - split; [intros [Ht Hd]; symmetry; by apply (take_drop_prefix pre x ip 12)|].
    intros Hx. symmetry in Hx. by apply (take_drop_prefix pre x ip 12) in Hx as [? <-].
  - by apply take_drop_prefix.
  - done.
Qed.
