(* ===== verification/DnsName.v ===== *)
(** * Domain names on the wire (dns_name.go)

    [readName] and [writeName], with DNS name compression, and the name
    normalisation every other file uses.

    [readName]'s loop runs on fuel [readName_fuel msg]: between two compression
    pointers the position grows, and at most 128 pointers are followed, so
    129 rounds over the message bound the iterations ([readName_returns]).
    [writeName]'s loop strips one label per iteration, so the length of the name
    bounds it. *)

From S2P Require Export GoStrings.

Definition pointerMask : Z := 192.

(** ** readName *)

(** The loop; [orig] and [jumped] are the variables [originalOffset] and
    [jumped], and the result pairs the labels with the final [originalOffset]. *)
Fixpoint readName_loop (fuel : nat) (msg : list byte) (pos : nat) (labels : list gostring)
    (orig : nat) (jumped : bool) (jumps : nat) : result (list gostring * nat) :=
  match fuel with
  | 0 => Err OutOfFuel
  | S fuel =>
      if length msg <=? pos then Err ErrTruncatedName else
      b ← at_ msg pos;
      let len := b2z b in
      if (len =? 0)%Z then Ok (labels, if jumped then orig else pos + 1) else
      if (Z.land len pointerMask =? pointerMask)%Z then
        if length msg <=? pos + 1 then Err ErrTruncatedName else
        b1 ← at_ msg (pos + 1);
        let pointer := Z.to_nat (Z.lor (Z.shiftl (Z.ldiff len pointerMask) 8) (b2z b1)) in
        if length msg <=? pointer then Err ErrInvalidPointer else
        let orig := if jumped then orig else pos + 2 in
        if 128 <? S jumps then Err ErrPointerLoop else
        readName_loop fuel msg pointer labels orig true (S jumps)
      else if (63 <? len)%Z then Err (ErrLabelLength (Z.to_nat len)) else
      let n := Z.to_nat len in
      if length msg <? pos + 1 + n then Err ErrTruncatedName else
      label ← slice msg (pos + 1) (pos + 1 + n);
      readName_loop fuel msg (pos + 1 + n) (labels ++ [label]) orig jumped jumps
  end.

Definition readName_fuel (msg : list byte) : nat := S (129 * S (length msg)).

(** The name in presentation format. *)
Definition presentation (labels : list gostring) : gostring :=
  match labels with
  | [] => [dot]
  | _ => Join labels [dot] ++ [dot]
  end.

Definition readName (msg : list byte) (offset : nat) : result (gostring * nat) :=
  if length msg <=? offset then Err ErrTruncatedName else
  '(labels, originalOffset) ← readName_loop (readName_fuel msg) msg offset [] offset false 0;
  Ok (presentation labels, originalOffset).

(** ** The message under construction *)

(** [pack] and [writeName] append to a buffer and record name offsets in the
    compression map; both survive an error, so the state is returned with it. *)
Record wstate := WState { w_buf : list byte; w_comp : gmap gostring nat }.

Definition writer (A : Type) : Type := wstate -> wstate * result A.

#[export] Instance writer_ret : MRet writer := fun A a st => (st, Ok a).
#[export] Instance writer_bind : MBind writer := fun A B f m st =>
  match m st with
  | (st', Ok a) => f a st'
  | (st', Err e) => (st', Err e)
  end.

Definition fail_with {A} (e : goerror) : writer A := fun st => (st, Err e).

(** [*buf = append( *buf, bs...)] *)
Definition append_bytes (bs : list byte) : writer unit := fun st =>
  (WState (w_buf st ++ bs) (w_comp st), Ok ()).

(** [len( *buf)] *)
Definition buf_len : writer nat := fun st => (st, Ok (length (w_buf st))).

(** [compression[suffix]] *)
Definition comp_get (suffix : gostring) : writer (option nat) := fun st =>
  (st, Ok (w_comp st !! suffix)).

(** [compression[suffix] = offset] *)
Definition comp_set (suffix : gostring) (offset : nat) : writer unit := fun st =>
  (WState (w_buf st) (<[suffix := offset]> (w_comp st)), Ok ()).

(** ** Normalisation *)

Definition normalizeName (name : gostring) : gostring :=
  if bool_decide (name = []) || bool_decide (name = [dot]) then [dot]
  else if negb (HasSuffix name [dot]) then name ++ [dot] else name.

Definition lowerName `{UnicodeTables} (name : gostring) : gostring := ToLower name.

(** ** writeName *)

(** The two bytes of a compression pointer. *)
Definition pointer_bytes (offset : nat) : list byte :=
  [z2b (Z.lor (Z.shiftr (Z.of_nat offset) 8) pointerMask);
   z2b (Z.land (Z.of_nat offset) 255)].

(** [label, rest] of the first [strings.IndexByte(stripped, '.')] split. *)
Definition next_label (stripped : gostring) : gostring * gostring :=
  match IndexByte stripped dot with
  | None => (stripped, [])
  | Some d => (take d stripped, drop (d + 1) stripped)
  end.

Fixpoint writeName_loop (fuel : nat) (stripped : gostring) : writer unit :=
  match fuel with
  | 0 => fail_with OutOfFuel
  | S fuel =>
      if decide (stripped = []) then mret () else
      let suffix := stripped ++ [dot] in
      found ← comp_get suffix;
      match found with
      | Some offset =>
          if (16383 <? Z.of_nat offset)%Z then fail_with ErrInvalidPointer
          else append_bytes (pointer_bytes offset)
      | None =>
          let '(label, rest) := next_label stripped in
          if 63 <? length label then fail_with (ErrLabelTooLong (length label)) else
          offset ← buf_len;
          _ ← (if (Z.of_nat offset <=? 16383)%Z then comp_set suffix offset else mret ());
          _ ← append_bytes [z2b (Z.of_nat (length label))];
          _ ← append_bytes label;
          if decide (rest = []) then append_bytes [z2b 0]
          else writeName_loop fuel rest
      end
  end.

Definition writeName (name : gostring) : writer unit :=
  let name := normalizeName name in
  if decide (name = [dot]) then append_bytes [z2b 0] else
  let stripped := TrimSuffix name [dot] in
  writeName_loop (S (length stripped)) stripped.
