(* ===== verification/NameSpec.v ===== *)
(** * What a name field of a message means, and that the code reads and writes it

    [name_at msg pos ls j e] is the RFC 1035 reading of the name field at [pos]:
    its labels [ls], the number [j] of compression pointers followed and the
    offset [e] just after the field.  [readName] computes exactly this relation
    (for [j <= 128]), [writeName] establishes it. *)

From S2P Require Export DnsName.

(** ** The specification *)

(** The top two bits of a length byte. *)
Definition is_pointer (b : byte) : bool := (Z.land (b2z b) pointerMask =? pointerMask)%Z.

Definition pointer_target (b0 b1 : byte) : nat :=
  Z.to_nat (Z.lor (Z.shiftl (Z.ldiff (b2z b0) pointerMask) 8) (b2z b1)).

Inductive name_at (msg : list byte) : nat -> list gostring -> nat -> nat -> Prop :=
  | name_root pos b :
      msg !! pos = Some b -> b2z b = 0%Z -> name_at msg pos [] 0 (pos + 1)
  | name_label pos b l ls j e :
      msg !! pos = Some b -> (1 <= b2z b <= 63)%Z ->
      l = take (Z.to_nat (b2z b)) (drop (pos + 1) msg) ->
      length l = Z.to_nat (b2z b) ->
      name_at msg (pos + 1 + length l) ls j e ->
      name_at msg pos (l :: ls) j e
  | name_pointer pos b0 b1 ls j e :
      msg !! pos = Some b0 -> is_pointer b0 = true -> msg !! (pos + 1) = Some b1 ->
      name_at msg (pointer_target b0 b1) ls j e ->
      name_at msg pos ls (S j) (pos + 2).

(** A label as [writeName] can represent it: nonempty, at most 63 bytes, no dot. *)
Definition label_ok (l : gostring) : Prop := 1 <= length l <= 63 /\ dot ∉ l.

(** The same without the length limit, as [strings.IndexByte] delivers labels. *)
Definition label_wf (l : gostring) : Prop := l <> [] /\ dot ∉ l.

(** The labels of a name, by its dots. *)
Definition labels_of (name : gostring) : list gostring :=
  let name := normalizeName name in
  if decide (name = [dot]) then [] else Split (TrimSuffix name [dot]) dot.

(** The names [writeName] and [readName] agree on: no empty label, and no more
    labels than the 128 pointers [readName] is willing to follow. *)
Definition name_ok (name : gostring) : bool :=
  bool_decide (Forall (λ l, l <> []) (labels_of name)) && (length (labels_of name) <=? 128).

(** ** Length bytes and pointers *)

Lemma is_pointer_large b : is_pointer b = true -> (192 <= b2z b)%Z.
Proof. destruct b; vm_compute; congruence. Qed.

Lemma small_not_pointer b : (b2z b <= 63)%Z -> is_pointer b = false.
Proof.
  intros. destruct (is_pointer b) eqn:E; [|done]. apply is_pointer_large in E. lia.
Qed.

Lemma pointer_byte_spec h :
  (0 <= h < 64)%Z ->
  is_pointer (z2b (Z.lor h pointerMask)) = true /\
  Z.ldiff (b2z (z2b (Z.lor h pointerMask))) pointerMask = h.
Proof.
  intros Hh.
  assert (Hall : Forall (λ n, is_pointer (z2b (Z.lor (Z.of_nat n) pointerMask)) = true /\
    Z.ldiff (b2z (z2b (Z.lor (Z.of_nat n) pointerMask))) pointerMask = Z.of_nat n) (seq 0 64)).
  { apply (bool_decide_unpack _). by vm_compute. }
  rewrite Forall_forall in Hall. specialize (Hall (Z.to_nat h)).
  rewrite Z2Nat.id in Hall by lia. apply Hall, list_elem_of_In, in_seq. lia.
Qed.

(** Decoding the two bytes [writeName] emits for a pointer gives its offset back. *)
Lemma pointer_bytes_spec off b0 b1 :
  (Z.of_nat off <= 16383)%Z -> pointer_bytes off = [b0; b1] ->
  is_pointer b0 = true /\ pointer_target b0 b1 = off.
Proof.
  unfold pointer_bytes, pointer_target. intros Hoff [= <- <-].
  destruct (pointer_byte_spec (Z.shiftr (Z.of_nat off) 8)) as [Hp ->].
  { rewrite Z.shiftr_div_pow2 by lia. change (2 ^ 8)%Z with 256%Z.
    split; [apply Z.div_pos; lia | apply Z.div_lt_upper_bound; lia]. }
  split; [done|]. rewrite z2b_spec.
  change 255%Z with (Z.ones 8). rewrite Z.land_ones by lia. change (2 ^ 8)%Z with 256%Z.
  rewrite Z.mod_mod by lia.
  rewrite Z.lor_comm. rewrite (lor_shiftl_add _ _ 8); [|lia|apply Z.mod_pos_bound; lia].
  rewrite Z.shiftr_div_pow2 by lia. change (2 ^ 8)%Z with 256%Z.
  pose proof (Z.div_mod (Z.of_nat off) 256 ltac:(lia)). lia.
Qed.

(** ** The reader *)

Section Reader.
  Context (msg : list byte).

Lemma name_at_in_range pos ls j e : name_at msg pos ls j e -> pos < length msg.
Proof. destruct 1; by eapply lookup_lt_Some. Qed.

(** The loop always returns: its fuel covers the pointers left to follow, each
    of which can restart at the beginning of the message. *)
Lemma readName_loop_returns fuel pos labels orig jumped jumps :
  jumps <= 128 ->
  (128 - jumps) * S (length msg) + (length msg - pos) < fuel ->
  returns (readName_loop fuel msg pos labels orig jumped jumps).
Proof.
  revert pos labels orig jumped jumps.
  induction fuel as [|fuel IH]; intros pos labels orig jumped jumps Hj Hfuel;
    [by apply Nat.nlt_0_r in Hfuel|].
  cbn [readName_loop]. case_if; [done|]. bool_arith.
  destruct (at_in_range msg pos) as (b & Hb & ->); [lia|]. cbn [mbind result_bind].
  case_if; [done|]. case_if.
  - case_if; [done|]. bool_arith.
    destruct (at_in_range msg (pos + 1)) as (b1 & Hb1 & ->); [lia|]. cbn [mbind result_bind].
    case_if; [done|]. case_if; [done|]. bool_arith. apply IH; [lia|].
    replace (128 - jumps) with (S (128 - S jumps)) in Hfuel by lia. simpl in Hfuel. lia.
  - case_if; [done|]. case_if; [done|]. bool_arith.
    rewrite slice_in_range by lia. cbn [mbind result_bind]. apply IH; lia.
Qed.

(** What the loop computes when it succeeds. *)
Lemma readName_loop_sound fuel pos labels orig jumped jumps ls e :
  readName_loop fuel msg pos labels orig jumped jumps = Ok (ls, e) ->
  exists ls' j e', ls = labels ++ ls' /\ name_at msg pos ls' j e' /\
    (jumps <= 128 -> jumps + j <= 128) /\ e = (if jumped then orig else e').
Proof.
  revert pos labels orig jumped jumps.
  induction fuel as [|fuel IH]; intros pos labels orig jumped jumps H; [done|].
  cbn [readName_loop] in H. case_if_in H; [done|]. bool_arith.
  destruct (at_in_range msg pos) as (b & Hb & Hat); [lia|]. rewrite Hat in H. cbn [mbind result_bind] in H.
  case_if_in H.
  { bool_arith. injection H as <- <-. exists [], 0, (pos + 1).
    split_and!; [by rewrite app_nil_r | by eapply name_root | lia | done]. }
  case_if_in H.
  - case_if_in H; [done|]. bool_arith.
    destruct (at_in_range msg (pos + 1)) as (b1 & Hb1 & Hat1); [lia|]. rewrite Hat1 in H.
    cbn [mbind result_bind] in H. case_if_in H; [done|]. case_if_in H; [done|]. bool_arith.
    apply IH in H as (ls' & j & e' & -> & Hn & Hle & ->).
    exists ls', (S j), (pos + 2). split_and!; [done | | lia | by destruct jumped].
    eapply name_pointer; [done | by apply Z.eqb_eq | done | done].
  - case_if_in H; [done|]. case_if_in H; [done|]. bool_arith.
    rewrite slice_in_range in H by lia. cbn [mbind result_bind] in H.
    apply IH in H as (ls' & j & e' & -> & Hn & Hle & ->).
    exists (take (pos + 1 + Z.to_nat (b2z b) - (pos + 1)) (drop (pos + 1) msg) :: ls'), j, e'.
    split_and!; [by rewrite <- app_assoc | | done | done].
    pose proof (b2z_range b).
    assert (Hlen : length (take (pos + 1 + Z.to_nat (b2z b) - (pos + 1)) (drop (pos + 1) msg))
      = Z.to_nat (b2z b)) by (rewrite length_take, length_drop; lia).
    eapply name_label; [done | lia | f_equal; lia | done | ].
    by rewrite Hlen.
Qed.

(** The loop computes whatever [name_at] allows, if it has the fuel. *)
Lemma readName_loop_complete pos ls j e :
  name_at msg pos ls j e -> forall fuel labels orig jumped jumps,
  jumps + j <= 128 ->
  readName_loop fuel msg pos labels orig jumped jumps
    = Ok (labels ++ ls, if jumped then orig else e)
  \/ readName_loop fuel msg pos labels orig jumped jumps = Err OutOfFuel.
Proof.
  induction 1 as [pos b Hb H0 | pos b l ls j e Hb Hr Hl Hlen Hn IH
    | pos b0 b1 ls j e Hb0 Hp Hb1 Hn IH]; intros [|fuel] labels orig jumped jumps Hj;
    try (by right); cbn [readName_loop].
  - pose proof (lookup_lt_Some _ _ _ Hb). destruct (Nat.leb_spec (length msg) pos); [lia|].
    rewrite (proj2 (at_Ok _ _ _) Hb). cbn [mbind result_bind]. rewrite H0. left. by rewrite app_nil_r.
  - pose proof (lookup_lt_Some _ _ _ Hb). destruct (Nat.leb_spec (length msg) pos); [lia|].
    rewrite (proj2 (at_Ok _ _ _) Hb). cbn [mbind result_bind].
    destruct (Z.eqb_spec (b2z b) 0); [lia|].
    pose proof (small_not_pointer b ltac:(lia)) as Hnp. unfold is_pointer in Hnp. rewrite Hnp.
    destruct (Z.ltb_spec 63 (b2z b)); [lia|].
    assert (pos + 1 + Z.to_nat (b2z b) <= length msg).
    { rewrite Hl, length_take, length_drop in Hlen. lia. }
    destruct (Nat.ltb_spec (length msg) (pos + 1 + Z.to_nat (b2z b))); [lia|].
    rewrite slice_in_range by lia. cbn [mbind result_bind].
    replace (pos + 1 + Z.to_nat (b2z b) - (pos + 1)) with (Z.to_nat (b2z b)) by lia.
    rewrite <- Hl, <- Hlen.
    destruct (IH fuel (labels ++ [l]) orig jumped jumps Hj) as [->| ->]; [left | by right].
    by rewrite <- app_assoc.
  - pose proof (lookup_lt_Some _ _ _ Hb0). pose proof (lookup_lt_Some _ _ _ Hb1).
    destruct (Nat.leb_spec (length msg) pos); [lia|].
    rewrite (proj2 (at_Ok _ _ _) Hb0). cbn [mbind result_bind].
    pose proof (is_pointer_large _ Hp). destruct (Z.eqb_spec (b2z b0) 0); [lia|].
    unfold is_pointer in Hp. rewrite Hp.
    destruct (Nat.leb_spec (length msg) (pos + 1)); [lia|].
    rewrite (proj2 (at_Ok _ _ _) Hb1). cbn [mbind result_bind]. fold (pointer_target b0 b1).
    pose proof (name_at_in_range _ _ _ _ Hn).
    destruct (Nat.leb_spec (length msg) (pointer_target b0 b1)); [lia|].
    destruct (Nat.ltb_spec 128 (S jumps)); [lia|].
    destruct (IH fuel labels (if jumped then orig else pos + 2) true (S jumps))
      as [->| ->]; [lia | by left | by right].
Qed.

Lemma readName_total pos : returns (readName msg pos).
Proof.
  unfold readName. case_if; [done|]. bool_arith.
  apply returns_bind; [|by intros [ls e] _].
  apply readName_loop_returns; [lia|]. unfold readName_fuel. lia.
Qed.

Lemma readName_iff pos name e :
  readName msg pos = Ok (name, e) <->
  exists ls j, name_at msg pos ls j e /\ j <= 128 /\ name = presentation ls.
Proof.
  unfold readName. split.
  - case_if; [done|]. intros H.
    apply result_bind_Ok in H as ([ls ?] & H & [= <- <-]).
    apply readName_loop_sound in H as (ls' & j & e' & -> & Hn & Hle & ->).
    exists ls', j. split_and!; [done | lia | done].
  - intros (ls & j & Hn & Hj & ->). pose proof (name_at_in_range _ _ _ _ Hn).
    destruct (Nat.leb_spec (length msg) pos); [lia|].
    assert (Hret : returns (readName_loop (readName_fuel msg) msg pos [] pos false 0)).
    { apply readName_loop_returns; [lia|]. unfold readName_fuel. lia. }
    destruct (readName_loop_complete _ _ _ _ Hn (readName_fuel msg) [] pos false 0)
      as [-> | E]; [lia | done | by rewrite E in Hret; destruct Hret as [_ []]].
Qed.

(** A name field has one reading. *)
Lemma name_at_functional pos ls j e ls' j' e' :
  name_at msg pos ls j e -> name_at msg pos ls' j' e' -> ls = ls' /\ j = j' /\ e = e'.
Proof.
  intros Hn. revert ls' j' e'.
  induction Hn as [pos b Hb H0 | pos b l ls j e Hb Hr Hl Hlen Hn IH
    | pos b0 b1 ls j e Hb0 Hp Hb1 Hn IH]; intros ls' j' e' Hn'; inversion Hn'; simplify_eq;
    try lia; try done;
    try match goal with
      | Hptr : is_pointer _ = true |- _ => pose proof (is_pointer_large _ Hptr); lia
      end.
  - edestruct IH as (-> & -> & ->); [|done]. congruence.
  - edestruct IH as (-> & -> & ->); [|done]. eauto.
Qed.

End Reader.

(** Bytes appended to the message do not change what was written. *)
Lemma name_at_app buf x pos ls j e :
  name_at buf pos ls j e -> name_at (buf ++ x) pos ls j e.
Proof.
  induction 1 as [pos b Hb H0 | pos b l ls j e Hb Hr Hl Hlen Hn IH
    | pos b0 b1 ls j e Hb0 Hp Hb1 Hn IH].
  - eapply name_root; [by apply lookup_app_l_Some | done].
  - eapply name_label; [by apply lookup_app_l_Some | done | | done | done].
    rewrite Hl in Hlen. rewrite length_take, length_drop in Hlen.
    pose proof (lookup_lt_Some _ _ _ Hb).
    rewrite drop_app_le by lia. rewrite take_app_le by (rewrite length_drop; lia). done.
  - eapply name_pointer; [by apply lookup_app_l_Some | done | by apply lookup_app_l_Some | done].
Qed.

Lemma name_at_end buf pos ls j e : name_at buf pos ls j e -> pos < e.
Proof. induction 1; lia. Qed.

(** ** The writer *)

(** A writer that only appends, and whose output depends on the length of the
    buffer and the compression map, not on the bytes written so far. *)
Definition appends {A} (m : writer A) : Prop :=
  forall b1 b2 c, length b1 = length b2 -> exists out c' r,
    m (WState b1 c) = (WState (b1 ++ out) c', r) /\
    m (WState b2 c) = (WState (b2 ++ out) c', r).

Lemma appends_ret {A} (a : A) : appends (mret a).
Proof. intros b1 b2 c Hl. exists [], c, (Ok a). by rewrite !app_nil_r. Qed.

Lemma appends_fail {A} e : appends (@fail_with A e).
Proof. intros b1 b2 c Hl. exists [], c, (Err e). by rewrite !app_nil_r. Qed.

Lemma appends_bytes bs : appends (append_bytes bs).
Proof. intros b1 b2 c Hl. by exists bs, c, (Ok ()). Qed.

Lemma appends_buf_len : appends buf_len.
Proof.
  intros b1 b2 c Hl. exists [], c, (Ok (length b1)).
  unfold buf_len. simpl. by rewrite !app_nil_r, Hl.
Qed.

Lemma appends_comp_get s : appends (comp_get s).
Proof. intros b1 b2 c Hl. exists [], c, (Ok (c !! s)). by rewrite !app_nil_r. Qed.

Lemma appends_comp_set s o : appends (comp_set s o).
Proof. intros b1 b2 c Hl. exists [], (<[s := o]> c), (Ok ()). by rewrite !app_nil_r. Qed.

Lemma appends_bind {A B} (m : writer A) (f : A -> writer B) :
  appends m -> (forall a, appends (f a)) -> appends (m ≫= f).
Proof.
  intros Hm Hf b1 b2 c Hl. destruct (Hm b1 b2 c Hl) as (out & c' & r & E1 & E2).
  unfold mbind, writer_bind. rewrite E1, E2.
  destruct r as [a|e]; [|by exists out, c', (Err e)].
  destruct (Hf a (b1 ++ out) (b2 ++ out) c') as (out' & c'' & r & -> & ->).
  { rewrite !length_app. lia. }
  exists (out ++ out'), c'', r. by rewrite !app_assoc.
Qed.

#[export] Hint Resolve appends_ret appends_fail appends_bytes appends_buf_len
  appends_comp_get appends_comp_set appends_bind : mdns.

Lemma writeName_loop_appends fuel s : appends (writeName_loop fuel s).
Proof.
  revert s. induction fuel as [|fuel IH]; intros s; simpl; [auto with mdns|].
  case_decide; [auto with mdns|]. apply appends_bind; [auto with mdns|].
  intros [off|]; [case_if; auto with mdns|]. destruct (next_label s) as [label rest].
  case_if; [auto with mdns|]. apply appends_bind; [auto with mdns|]. intros o.
  apply appends_bind; [case_if; auto with mdns|]. intros _.
  do 2 (apply appends_bind; [auto with mdns|]; intros _).
  case_decide; auto with mdns.
Qed.

Lemma writeName_appends name : appends (writeName name).
Proof.
  unfold writeName. case_decide; [auto with mdns|]. apply writeName_loop_appends.
Qed.

#[export] Hint Resolve writeName_appends : mdns.

(** The writer succeeds only by writing: destruct a successful bind. *)
Lemma writer_bind_Ok {A B} (m : writer A) (f : A -> writer B) st st' b :
  (m ≫= f) st = (st', Ok b) <->
  exists st1 a, m st = (st1, Ok a) /\ f a st1 = (st', Ok b).
Proof.
  unfold mbind, writer_bind. destruct (m st) as [st1 [a|e]]; split.
  - intros H. by exists st1, a.
  - by intros (? & ? & [= <- <-] & ?).
  - done.
  - by intros (? & ? & ? & ?).
Qed.

Lemma comp_get_Ok s st st' o :
  comp_get s st = (st', Ok o) <-> st' = st /\ o = w_comp st !! s.
Proof. split; [by intros [= <- <-] | by intros [-> ->]]. Qed.

Lemma buf_len_Ok st st' n :
  buf_len st = (st', Ok n) <-> st' = st /\ n = length (w_buf st).
Proof. split; [by intros [= <- <-] | by intros [-> ->]]. Qed.

Lemma comp_set_Ok s o st st' u :
  comp_set s o st = (st', Ok u) <-> st' = WState (w_buf st) (<[s := o]> (w_comp st)).
Proof. destruct u. split; [by intros [= <-] | by intros ->]. Qed.

Lemma append_bytes_Ok bs st st' u :
  append_bytes bs st = (st', Ok u) <-> st' = WState (w_buf st ++ bs) (w_comp st).
Proof. destruct u. split; [by intros [= <-] | by intros ->]. Qed.

(** Every entry of the compression map points to the encoding of its name. *)
Definition comp_entry_ok (buf : list byte) (s : gostring) (off : nat) : Prop :=
  exists ls j e, ls <> [] /\ Forall label_ok ls /\ s = presentation ls /\
    name_at buf off ls j e /\ j < length ls /\ (Z.of_nat off <= 16383)%Z.

Definition comp_ok (buf : list byte) (comp : gmap gostring nat) : Prop :=
  forall s off, comp !! s = Some off -> comp_entry_ok buf s off.

Lemma comp_entry_ok_app buf x s off :
  comp_entry_ok buf s off -> comp_entry_ok (buf ++ x) s off.
Proof.
  intros (ls & j & e & ? & ? & ? & Hn & ? & ?). exists ls, j, e. split_and!; try done.
  by apply name_at_app.
Qed.

Lemma comp_ok_app buf x comp : comp_ok buf comp -> comp_ok (buf ++ x) comp.
Proof. intros H s off Hs. apply comp_entry_ok_app. by apply H. Qed.

Lemma comp_ok_empty buf : comp_ok buf ∅.
Proof. intros s off. by rewrite lookup_empty. Qed.

Lemma Join_cons l ls : ls <> [] -> Join (l :: ls) [dot] = l ++ [dot] ++ Join ls [dot].
Proof. by destruct ls. Qed.

Lemma presentation_cons l ls : ls <> [] -> presentation (l :: ls) = l ++ dot :: presentation ls.
Proof. destruct ls; [done|]. intros _. simpl. by rewrite <- app_assoc. Qed.

Lemma presentation_Join ls : ls <> [] -> presentation ls = Join ls [dot] ++ [dot].
Proof. by destruct ls. Qed.

Lemma label_ok_nonempty l : label_ok l -> l <> [].
Proof. intros [? _] ->. simpl in *. lia. Qed.

Lemma label_ok_wf l : label_ok l -> label_wf l.
Proof. intros H. split; [by apply label_ok_nonempty | apply H]. Qed.

(** The name determines its labels. *)
Lemma presentation_inj ls ls' :
  Forall label_wf ls -> Forall label_wf ls' -> presentation ls = presentation ls' -> ls = ls'.
Proof.
  intros Hl Hl' E.
  assert (Hsplit : forall k, k <> [] -> Forall label_wf k ->
    Split (TrimSuffix (presentation k) [dot]) dot = k /\ TrimSuffix (presentation k) [dot] <> []).
  { intros k Hk Hf. rewrite presentation_Join by done. rewrite TrimSuffix_app. split.
    - apply Split_Join; [done|]. eapply Forall_impl; [done|]. by intros ? [].
    - destruct k as [|l k]; [done|]. apply Forall_cons in Hf as [[Hl0 _] _].
      destruct k; simpl; [done|]. destruct l; done. }
  assert (Hroot : TrimSuffix (presentation []) [dot] = []) by done.
  destruct (decide (ls = [])) as [->|Hne], (decide (ls' = [])) as [->|Hne']; [done|..].
  - destruct (Hsplit ls' Hne' Hl') as [_ []]. by rewrite <- E.
  - destruct (Hsplit ls Hne Hl) as [_ []]. by rewrite E.
  - destruct (Hsplit ls Hne Hl) as [<- _], (Hsplit ls' Hne' Hl') as [<- _]. by rewrite E.
Qed.

Lemma next_label_Join l ls :
  dot ∉ l -> next_label (Join (l :: ls) [dot]) = (l, Join ls [dot]).
Proof.
  intros Hd. unfold next_label. destruct ls as [|l' ls].
  - simpl. by rewrite IndexByte_notin.
  - rewrite Join_cons by done. simpl. rewrite IndexByte_app by done.
    rewrite take_app_length. rewrite drop_app. rewrite drop_ge by lia.
    replace (length l + 1 - length l) with 1 by lia. done.
Qed.

Lemma Join_nonempty ls : ls <> [] -> Forall (λ l, l <> []) ls -> Join ls [dot] <> [].
Proof.
  intros Hne Hf. destruct Hf as [|l ls Hl Hf]; [done|].
  destruct ls; simpl; [done|]. by destruct l.
Qed.

(** The bytes of one label. *)
Lemma name_at_label_written buf l x ls j e :
  label_ok l ->
  name_at (buf ++ [z2b (Z.of_nat (length l))] ++ l ++ x) (length buf + 1 + length l) ls j e ->
  name_at (buf ++ [z2b (Z.of_nat (length l))] ++ l ++ x) (length buf) (l :: ls) j e.
Proof.
  intros [Hlen Hd] Hn.
  assert (Hb : b2z (z2b (Z.of_nat (length l))) = Z.of_nat (length l)) by (apply z2b_small; lia).
  eapply (name_label _ _ (z2b (Z.of_nat (length l)))).
  - by rewrite lookup_app_r, Nat.sub_diag by lia.
  - lia.
  - rewrite Hb, Nat2Z.id. rewrite drop_app. rewrite drop_ge by lia.
    replace (length buf + 1 - length buf) with 1 by lia. simpl.
    by rewrite drop_0, take_app_length.
  - rewrite Hb. lia.
  - done.
Qed.

(** The terminating zero byte. *)
Lemma name_at_root_written buf :
  name_at (buf ++ [z2b 0]) (length buf) [] 0 (length (buf ++ [z2b 0])).
Proof.
  rewrite length_app. apply (name_root _ _ (z2b 0)); [|done].
  by rewrite lookup_app_r, Nat.sub_diag by lia.
Qed.

(** The bytes of a pointer. *)
Lemma name_at_pointer_written buf off ls j e :
  (Z.of_nat off <= 16383)%Z -> name_at buf off ls j e ->
  name_at (buf ++ pointer_bytes off) (length buf) ls (S j) (length buf + 2).
Proof.
  intros Hoff Hn. destruct (pointer_bytes off) as [|b0 [|b1 [|]]] eqn:E; try done.
  destruct (pointer_bytes_spec _ _ _ Hoff E) as [Hp Ht].
  eapply name_pointer.
  - by rewrite lookup_app_r, Nat.sub_diag by lia.
  - done.
  - rewrite lookup_app_r by lia. by replace (length buf + 1 - length buf) with 1 by lia.
  - rewrite Ht. by apply name_at_app.
Qed.

(** What writing the labels [ls] at the end of [buf] leads to: the name can be read
    there, and every entry of the compression map is an old one or holds. *)
Definition name_written (ls : list gostring) (buf : list byte) (comp : gmap gostring nat)
    (st' : wstate) : Prop :=
  exists out j, w_buf st' = buf ++ out /\
    name_at (w_buf st') (length buf) ls j (length (w_buf st')) /\ j <= length ls /\
    Forall label_ok ls /\
    (forall s off, w_comp st' !! s = Some off ->
       comp !! s = Some off \/ comp_entry_ok (w_buf st') s off).

(** The offset of a name is recorded if a pointer can hold it. *)
Lemma comp_set_entries (s0 : gostring) buf comp st1 :
  (if (Z.of_nat (length buf) <=? 16383)%Z then comp_set s0 (length buf) else mret ())
    (WState buf comp) = (st1, Ok ()) ->
  exists comp1, st1 = WState buf comp1 /\
    forall s off, comp1 !! s = Some off -> comp !! s = Some off \/
      s = s0 /\ off = length buf /\ (Z.of_nat off <= 16383)%Z.
Proof.
  intros Hset. case_if_in Hset; [apply comp_set_Ok in Hset as -> | injection Hset as <-];
    bool_arith; eexists; (split; [done|]); [|intros; by left].
  intros s off. rewrite lookup_insert. destruct (decide (s0 = s)) as [Hs|Hs]; [|by left].
  intros [= <-]. by right.
Qed.

(** A label in front of a name that is written. *)
Lemma name_written_label l rest buf comp comp1 st' :
  label_ok l ->
  (forall s off, comp1 !! s = Some off -> comp !! s = Some off \/
     s = presentation (l :: rest) /\ off = length buf /\ (Z.of_nat off <= 16383)%Z) ->
  name_written rest ((buf ++ [z2b (Z.of_nat (length l))]) ++ l) comp1 st' ->
  name_written (l :: rest) buf comp st'.
Proof.
  intros Hl Hcomp1 (out & j & Hbuf & Hn & Hj & Hok & Hc).
  rewrite !length_app in Hn. simpl in Hn. rewrite <- !app_assoc in Hbuf.
  assert (Hn' : name_at (w_buf st') (length buf) (l :: rest) j (length (w_buf st'))).
  { rewrite Hbuf in Hn |- *. by apply name_at_label_written. }
  exists ([z2b (Z.of_nat (length l))] ++ l ++ out), j.
  split_and!; [done | done | simpl; lia | by constructor |].
  intros s off Hs. destruct (Hc s off Hs) as [Hs1|]; [|by right].
  destruct (Hcomp1 s off Hs1) as [|(-> & -> & Hoff)]; [by left | right].
  exists (l :: rest), j, (length (w_buf st')). split_and!; try done; [by constructor | simpl; lia].
Qed.

(** Invariant of the loop of [writeName], by the labels still to write: the
    entries for the suffixes of the name hold so far, and they hold at the end
    together with the new ones. *)
Lemma writeName_loop_spec ls : forall fuel buf comp st',
  ls <> [] -> Forall label_wf ls ->
  (forall ls' off, ls' `suffix_of` ls -> ls' <> [] -> comp !! presentation ls' = Some off ->
     comp_entry_ok buf (presentation ls') off) ->
  writeName_loop fuel (Join ls [dot]) (WState buf comp) = (st', Ok ()) ->
  name_written ls buf comp st'.
Proof.
  induction ls as [|l rest IH]; intros fuel buf comp st' Hne Hls Hcomp H; [done|].
  destruct fuel as [|fuel]; [done|]. cbn [writeName_loop] in H.
  pose proof Hls as [[Hl Hd] Hrest]%Forall_cons.
  assert (Hjoin : forall ls', ls' <> [] -> Forall label_wf ls' -> Join ls' [dot] <> []).
  { intros ls' Hn Hf. apply Join_nonempty; [done|]. eapply Forall_impl; [exact Hf|]. by intros ? []. }
  rewrite decide_False in H by (by apply Hjoin). rewrite <- presentation_Join in H by done.
  apply writer_bind_Ok in H as (st1 & found & [-> ->]%comp_get_Ok & H). cbn [w_comp w_buf] in H.
  destruct (comp !! presentation (l :: rest)) as [off|] eqn:Hfound.
  - apply Hcomp in Hfound as (ls' & j & e & _ & Hf & Hp & Hn & Hj & Hoff); [|done|done].
    apply presentation_inj in Hp as <-; [|done|by eapply Forall_impl, label_ok_wf].
    destruct (Z.ltb_spec 16383 (Z.of_nat off)); [lia|]. injection H as <-.
    exists (pointer_bytes off), (S j). split_and!; [done | | lia | done | by left].
    cbn [w_buf]. rewrite length_app. by eapply name_at_pointer_written.
  - rewrite next_label_Join in H by done. case_if_in H; [done|]. bool_arith.
    apply writer_bind_Ok in H as (st1 & o & [-> ->]%buf_len_Ok & H). cbn [w_comp w_buf] in H.
    apply writer_bind_Ok in H as (st1 & [] & (comp1 & -> & Hcomp1)%comp_set_entries & H).
    apply writer_bind_Ok in H as (st1 & [] & ->%append_bytes_Ok & H).
    apply writer_bind_Ok in H as (st1 & [] & ->%append_bytes_Ok & H). cbn [w_comp w_buf] in H.
    eapply name_written_label; [split; [destruct l; [done|simpl in *; lia]|done]|exact Hcomp1|].
    case_decide as Hr.
    + assert (rest = []) as -> by (destruct rest as [|l0 rest]; [done|]; by destruct (Hjoin (l0 :: rest) ltac:(done) Hrest)).
      injection H as <-. exists [z2b 0], 0. split_and!; [done | | simpl; lia | done | by left].
      apply name_at_root_written.
    + apply IH in H; [done | by intros -> | done |]. intros ls' off Hsuf Hne' Hs.
      rewrite <- app_assoc. destruct (Hcomp1 _ _ Hs) as [Hs'|(Hp & _)].
      * apply comp_entry_ok_app. apply Hcomp; [|done|done]. by apply suffix_cons_r.
      * apply presentation_inj in Hp; [|by destruct Hsuf as [k ->]; apply Forall_app in Hrest as [_ ?]|done].
        subst ls'. apply suffix_length in Hsuf. simpl in Hsuf. lia.
Qed.

(** ** Names and labels *)

Lemma normalizeName_cases name :
  normalizeName name = [dot] \/
  (normalizeName name = TrimSuffix (normalizeName name) [dot] ++ [dot] /\
   TrimSuffix (normalizeName name) [dot] <> []).
Proof.
  unfold normalizeName. do 2 case_bool_decide; simpl; try by left. right.
  destruct (HasSuffix name [dot]) eqn:E; simpl.
  - apply HasSuffix_inv in E as E'. split; [done|]. intros Hn. rewrite Hn in E'. done.
  - by rewrite TrimSuffix_app.
Qed.

Lemma normalizeName_idemp name : normalizeName (normalizeName name) = normalizeName name.
Proof.
  destruct (normalizeName_cases name) as [-> | [E Hne]]; [done|].
  unfold normalizeName at 1.
  destruct (bool_decide_reflect (normalizeName name = [])) as [E0|]; [by rewrite E0 in E|].
  case_bool_decide as E1; [by rewrite E1|]. simpl. rewrite E at 1. by rewrite HasSuffix_app.
Qed.

Lemma presentation_labels_of name : presentation (labels_of name) = normalizeName name.
Proof.
  unfold labels_of. case_decide as Hd; [done|].
  destruct (normalizeName_cases name) as [|[E Hne]]; [done|].
  rewrite presentation_Join by apply Split_nonempty. by rewrite Join_Split.
Qed.

Lemma labels_of_wf name : Forall (λ l, l <> []) (labels_of name) -> Forall label_wf (labels_of name).
Proof.
  intros Hf. apply Forall_and. split; [done|]. unfold labels_of. case_decide; [constructor|].
  apply Split_no_sep.
Qed.

(** The labels of the name read back are the labels written. *)
Lemma labels_of_presentation ls : Forall label_wf ls -> labels_of (presentation ls) = ls.
Proof.
  intros Hls. destruct (decide (ls = [])) as [->|Hne]; [done|].
  assert (HJ : Join ls [dot] <> []).
  { apply Join_nonempty; [done|]. eapply Forall_impl; [done|]. by intros ? []. }
  assert (Hn : normalizeName (presentation ls) = presentation ls).
  { rewrite presentation_Join by done. unfold normalizeName.
    case_bool_decide as E1; [by destruct (Join ls [dot])|].
    case_bool_decide; [done|]. simpl. by rewrite HasSuffix_app. }
  unfold labels_of. rewrite Hn, decide_False.
  - rewrite presentation_Join, TrimSuffix_app by done. apply Split_Join; [done|].
    eapply Forall_impl; [done|]. by intros ? [].
  - rewrite presentation_Join by done. intros E. by destruct (Join ls [dot]) as [|? []].
Qed.

Lemma name_ok_spec name :
  name_ok name = true <->
  Forall (λ l, l <> []) (labels_of name) /\ length (labels_of name) <= 128.
Proof. unfold name_ok. by rewrite andb_true_iff, bool_decide_eq_true, Nat.leb_le. Qed.

(** ** writeName *)

Lemma writeName_spec name buf comp st' :
  Forall (λ l, l <> []) (labels_of name) -> comp_ok buf comp ->
  writeName name (WState buf comp) = (st', Ok ()) ->
  exists out j, w_buf st' = buf ++ out /\
    name_at (w_buf st') (length buf) (labels_of name) j (length (w_buf st')) /\
    j <= length (labels_of name) /\ Forall label_ok (labels_of name) /\
    comp_ok (w_buf st') (w_comp st').
Proof.
  intros Hne Hcomp H. pose proof (labels_of_wf _ Hne) as Hwf.
  unfold writeName in H. unfold labels_of in Hwf |- *. case_decide as Hd.
  - apply append_bytes_Ok in H as ->. cbn [w_buf w_comp]. exists [z2b 0], 0.
    split_and!; [done | apply name_at_root_written | simpl; lia | done | by apply comp_ok_app].
  - rewrite <- (Join_Split (TrimSuffix (normalizeName name) [dot]) dot) in H at 2.
    apply writeName_loop_spec in H as (out & j & Hbuf & Hn & Hj & Hok & Hc); try done.
    + exists out, j. split_and!; try done. intros s off Hs.
      destruct (Hc s off Hs) as [Hs'|]; [|done]. rewrite Hbuf. apply comp_entry_ok_app.
      by apply Hcomp.
    + apply Split_nonempty.
    + intros ls' off _ _ Hs. by apply Hcomp.
Qed.

(** Reading what [writeName] wrote, inside any longer message. *)
Lemma writeName_readName name buf comp st' rest :
  name_ok name = true -> comp_ok buf comp ->
  writeName name (WState buf comp) = (st', Ok ()) ->
  readName (w_buf st' ++ rest) (length buf) = Ok (normalizeName name, length (w_buf st')).
Proof.
  intros [Hne Hle]%name_ok_spec Hcomp H.
  apply writeName_spec in H as (out & j & _ & Hn & Hj & _ & _); [|done|done].
  apply readName_iff. exists (labels_of name), j. split_and!; [|lia|].
  - by apply name_at_app.
  - by rewrite presentation_labels_of.
Qed.

(** The loop always returns, and fails only on a label over 63 bytes or an
    entry beyond the reach of a pointer. *)
Lemma writeName_loop_cases fuel s st :
  length s < fuel ->
  match snd (writeName_loop fuel s st) with
  | Ok _ => True
  | Err (ErrLabelTooLong n) => 63 < n
  | Err ErrInvalidPointer => exists s off, w_comp st !! s = Some off /\ (16383 < Z.of_nat off)%Z
  | Err _ => False
  end.
Proof.
  revert s st. induction fuel as [|fuel IH]; intros s st Hfuel; [lia|].
  cbn [writeName_loop]. case_decide as Hs; [done|].
  unfold mbind, writer_bind, comp_get.
  destruct (w_comp st !! (s ++ [dot])) as [off|] eqn:Hfound.
  { destruct (Z.ltb_spec 16383 (Z.of_nat off)); [|done]. simpl. by eauto. }
  destruct (next_label s) as [label rest] eqn:Hnl.
  case_if; [by bool_arith|]. cbn [buf_len].
  assert (Hrest : length rest < length s).
  { revert Hnl. unfold next_label. destruct (IndexByte s dot) as [i|] eqn:Hi; intros [= <- <-].
    - apply IndexByte_Some in Hi as (s1 & s2 & -> & <- & _). rewrite length_drop, length_app.
      simpl. lia.
    - destruct s; [done|]. simpl. lia. }
  destruct (Z.leb_spec (Z.of_nat (length (w_buf st))) 16383).
  - cbn [comp_set append_bytes w_buf w_comp]. case_decide; [done|].
    match goal with |- context [writeName_loop fuel rest ?s'] => specialize (IH rest s' ltac:(lia)) end.
    revert IH. destruct (snd _) as [|[]]; try done.
    intros (s' & off & Hoff & Hlt). revert Hoff. cbn [w_comp]. rewrite lookup_insert.
    destruct (decide _); [intros [= <-]; lia | eauto].
  - cbn [mret writer_ret append_bytes w_buf w_comp]. case_decide; [done|].
    match goal with |- context [writeName_loop fuel rest ?s'] => specialize (IH rest s' ltac:(lia)) end.
    done.
Qed.

Lemma writeName_cases name st :
  match snd (writeName name st) with
  | Ok _ => True
  | Err (ErrLabelTooLong n) => 63 < n
  | Err ErrInvalidPointer => exists s off, w_comp st !! s = Some off /\ (16383 < Z.of_nat off)%Z
  | Err _ => False
  end.
Proof.
  unfold writeName. case_decide; [done|]. apply writeName_loop_cases. lia.
Qed.

Lemma writeName_total name st : returns (snd (writeName name st)).
Proof.
  pose proof (writeName_cases name st) as H. destruct (snd _) as [|[]]; try done.
Qed.

(** ** Properties *)

(** C13: [readName] reads names as RFC 1035 defines them.  It always returns, and it
    returns a name and an end offset exactly when the bytes at the offset spell, by
    [name_at], the labels of that name through at most 128 compression pointers;
    the field has no other reading. *)
Theorem readName_correct msg pos :
  returns (readName msg pos) /\
  (forall name e, readName msg pos = Ok (name, e) <->
     exists ls j, name_at msg pos ls j e /\ j <= 128 /\ name = presentation ls) /\
  (forall ls j e ls' j' e', name_at msg pos ls j e -> name_at msg pos ls' j' e' ->
     ls = ls' /\ j = j' /\ e = e').
Proof.
  split; [apply readName_total|]. split; [intros; apply readName_iff|].
  intros. by eapply name_at_functional.
Qed.

(** C14: [readName] inverts [writeName].  A name without empty labels and with at most
    128 labels, written to any buffer with a sound compression map, reads back, in
    any longer message, as its normal form, and the map stays sound. *)
Theorem writeName_roundtrip name buf comp st' rest :
  name_ok name = true -> comp_ok buf comp ->
  writeName name (WState buf comp) = (st', Ok ()) ->
  readName (w_buf st' ++ rest) (length buf) = Ok (normalizeName name, length (w_buf st')) /\
  comp_ok (w_buf st') (w_comp st').
Proof.
  intros Hok Hc Hw. split; [by eapply writeName_readName|].
  apply name_ok_spec in Hok as [Hne _].
  by apply writeName_spec in Hw as (out & j & _ & _ & _ & _ & Hc').
Qed.
