(* ===== verification/DnsRR.v ===== *)
(** * Questions and resource records (dns_rr.go)

    The record type, its wire format in both directions, and the NSEC type
    bitmaps.  [rr.pack] patches RDLENGTH into the buffer after writing the RDATA,
    as the code does; [unpackRDATA] reads names anywhere in the message. *)

From S2P Require Export DnsName GoNet.

(** ** Constants *)

Definition TypeA : Z := 1.
Definition TypeNS : Z := 2.
Definition TypeCNAME : Z := 5.
Definition TypeSOA : Z := 6.
Definition TypePTR : Z := 12.
Definition TypeTXT : Z := 16.
Definition TypeAAAA : Z := 28.
Definition TypeSRV : Z := 33.
Definition TypeOPT : Z := 41.
Definition TypeNSEC : Z := 47.
Definition TypeAny : Z := 255.

Definition ClassIN : Z := 1.
Definition ClassNone : Z := 254.
Definition ClassAny : Z := 255.

Definition cacheFlushBit : Z := 32768.

Definition RRType (t : Z) : gostring :=
  if (t =? TypeA)%Z then go "A" else if (t =? TypeNS)%Z then go "NS"
  else if (t =? TypeCNAME)%Z then go "CNAME" else if (t =? TypeSOA)%Z then go "SOA"
  else if (t =? TypePTR)%Z then go "PTR" else if (t =? TypeTXT)%Z then go "TXT"
  else if (t =? TypeAAAA)%Z then go "AAAA" else if (t =? TypeSRV)%Z then go "SRV"
  else if (t =? TypeOPT)%Z then go "OPT" else if (t =? TypeNSEC)%Z then go "NSEC"
  else if (t =? TypeAny)%Z then go "ANY" else go "TYPE" ++ Itoa t.

(** ** Data *)

Record Question := mkQuestion {
  q_Name : gostring;
  q_Type : Z;
  q_Class : Z
}.

(** [Text], [TypeBitMaps], [IP] and [RawData] are slices; a nil slice is the
    empty list. *)
Record ResourceRecord := mkRR {
  rr_Name : gostring;
  rr_Type : Z;
  rr_Class : Z;
  rr_TTL : Z;
  rr_CacheFlush : bool;
  rr_IP : IP;
  rr_Target : gostring;
  rr_Priority : Z;
  rr_Weight : Z;
  rr_Port : Z;
  rr_Text : list gostring;
  rr_NextDomain : gostring;
  rr_TypeBitMaps : list Z;
  rr_RawData : list byte
}.

#[export] Instance Question_eq_dec : EqDecision Question.
Proof. solve_decision. Defined.
#[export] Instance ResourceRecord_eq_dec : EqDecision ResourceRecord.
Proof. solve_decision. Defined.

(** [&ResourceRecord{Name: ..., Type: ..., Class: ..., TTL: ..., CacheFlush: ...}] *)
Definition newRR (name : gostring) (t class ttl : Z) (cf : bool) : ResourceRecord :=
  mkRR name t class ttl cf [] [] 0 0 0 [] [] [] [].

Definition set_TTL (ttl : Z) (rr : ResourceRecord) : ResourceRecord :=
  mkRR (rr_Name rr) (rr_Type rr) (rr_Class rr) ttl (rr_CacheFlush rr) (rr_IP rr) (rr_Target rr)
    (rr_Priority rr) (rr_Weight rr) (rr_Port rr) (rr_Text rr) (rr_NextDomain rr)
    (rr_TypeBitMaps rr) (rr_RawData rr).
Definition set_IP (ip : IP) (rr : ResourceRecord) : ResourceRecord :=
  mkRR (rr_Name rr) (rr_Type rr) (rr_Class rr) (rr_TTL rr) (rr_CacheFlush rr) ip (rr_Target rr)
    (rr_Priority rr) (rr_Weight rr) (rr_Port rr) (rr_Text rr) (rr_NextDomain rr)
    (rr_TypeBitMaps rr) (rr_RawData rr).
Definition set_Target (target : gostring) (rr : ResourceRecord) : ResourceRecord :=
  mkRR (rr_Name rr) (rr_Type rr) (rr_Class rr) (rr_TTL rr) (rr_CacheFlush rr) (rr_IP rr) target
    (rr_Priority rr) (rr_Weight rr) (rr_Port rr) (rr_Text rr) (rr_NextDomain rr)
    (rr_TypeBitMaps rr) (rr_RawData rr).
Definition set_SRV (pri wt port : Z) (rr : ResourceRecord) : ResourceRecord :=
  mkRR (rr_Name rr) (rr_Type rr) (rr_Class rr) (rr_TTL rr) (rr_CacheFlush rr) (rr_IP rr)
    (rr_Target rr) pri wt port (rr_Text rr) (rr_NextDomain rr) (rr_TypeBitMaps rr) (rr_RawData rr).
Definition set_Text (text : list gostring) (rr : ResourceRecord) : ResourceRecord :=
  mkRR (rr_Name rr) (rr_Type rr) (rr_Class rr) (rr_TTL rr) (rr_CacheFlush rr) (rr_IP rr)
    (rr_Target rr) (rr_Priority rr) (rr_Weight rr) (rr_Port rr) text (rr_NextDomain rr)
    (rr_TypeBitMaps rr) (rr_RawData rr).
Definition set_NSEC (next : gostring) (types : list Z) (rr : ResourceRecord) : ResourceRecord :=
  mkRR (rr_Name rr) (rr_Type rr) (rr_Class rr) (rr_TTL rr) (rr_CacheFlush rr) (rr_IP rr)
    (rr_Target rr) (rr_Priority rr) (rr_Weight rr) (rr_Port rr) (rr_Text rr) next types
    (rr_RawData rr).
Definition set_RawData (raw : list byte) (rr : ResourceRecord) : ResourceRecord :=
  mkRR (rr_Name rr) (rr_Type rr) (rr_Class rr) (rr_TTL rr) (rr_CacheFlush rr) (rr_IP rr)
    (rr_Target rr) (rr_Priority rr) (rr_Weight rr) (rr_Port rr) (rr_Text rr) (rr_NextDomain rr)
    (rr_TypeBitMaps rr) raw.

(** ** NSEC type bitmaps *)

(** One iteration of the grouping loop: [blocks[block]] with the bit of [t] set. *)
Definition add_type (blocks : gmap byte (list byte)) (t : Z) : gmap byte (list byte) :=
  let block := z2b (Z.shiftr t 8) in
  let bit := Z.land t 255 in
  let bits := default [] (blocks !! block) in
  let needed := Z.to_nat (bit / 8) + 1 in
  let bits := if length bits <? needed
              then bits ++ replicate (needed - length bits) Byte.x00 else bits in
  <[block := alter (λ b, z2b (Z.lor (b2z b) (Z.shiftr 128 (bit mod 8))))
               (Z.to_nat (bit / 8)) bits]> blocks.

(** One iteration of the output loop. *)
Definition encode_block (blocks : gmap byte (list byte)) (block : byte) : list byte :=
  match blocks !! block with
  | None => []
  | Some bits => block :: z2b (Z.of_nat (length bits)) :: bits
  end.

(** The values the counter [for block := uint8(0); block < 255; block++] takes. *)
Definition block_range : list byte := (λ n, z2b (Z.of_nat n)) <$> seq 0 255.

Definition encodeTypeBitMaps (types : list Z) : list byte :=
  if decide (types = []) then [] else
  let blocks := foldl add_type ∅ types in
  mjoin (encode_block blocks <$> block_range).

(** The types a bitmap byte stands for: byte [i] of the window [block]. *)
Definition byte_types (block : Z) (i : nat) (b : byte) : list Z :=
  if (b2z b =? 0)%Z then [] else
  (λ bit, u16 (u16 (block * 256) + u16 (Z.of_nat i * 8 + bit)))%Z <$>
    filter (λ bit, Z.land (b2z b) (Z.shiftr 128 bit) ≠ 0%Z) [0; 1; 2; 3; 4; 5; 6; 7]%Z.

Definition bitmap_types (block : Z) (bitmap : list byte) : list Z :=
  mjoin (imap (byte_types block) bitmap).

Fixpoint decodeTypeBitMaps_loop (fuel : nat) (msg : list byte) (pos end_ : nat)
    (types : list Z) : result (list Z) :=
  match fuel with
  | 0 => Err OutOfFuel
  | S fuel =>
      if end_ <=? pos then Ok types else
      if end_ <? pos + 2 then Err ErrNSECTruncated else
      block ← at_ msg pos;
      blen ← at_ msg (pos + 1);
      let bitmapLen := Z.to_nat (b2z blen) in
      if end_ <? pos + 2 + bitmapLen then Err ErrNSECExceeds else
      bitmap ← mapM (λ i, at_ msg (pos + 2 + i)) (seq 0 bitmapLen);
      decodeTypeBitMaps_loop fuel msg (pos + 2 + bitmapLen) end_
        (types ++ bitmap_types (b2z block) bitmap)
  end.

(** Each iteration advances by at least two bytes. *)
Definition decodeTypeBitMaps (msg : list byte) (offset end_ : nat) : result (list Z) :=
  decodeTypeBitMaps_loop (S (end_ - offset)) msg offset end_ [].

(** ** Packing *)

Definition Question_pack (q : Question) : writer unit :=
  _ ← writeName (q_Name q);
  _ ← append_bytes (be16 (q_Type q));
  append_bytes (be16 (q_Class q)).

Definition fullClass (rr : ResourceRecord) : Z :=
  if rr_CacheFlush rr then Z.lor (rr_Class rr) cacheFlushBit else rr_Class rr.

Fixpoint pack_text (text : list gostring) : writer unit :=
  match text with
  | [] => mret ()
  | s :: text =>
      if 255 <? length s then fail_with (ErrTXTTooLong (length s)) else
      _ ← append_bytes [z2b (Z.of_nat (length s))];
      _ ← append_bytes s;
      pack_text text
  end.

(** The [switch rr.Type] of [pack]. *)
Definition pack_rdata (rr : ResourceRecord) : writer unit :=
  if (rr_Type rr =? TypeA)%Z then
    match To4 (rr_IP rr) with
    | None => fail_with (ErrARecordIP (rr_IP rr))
    | Some ip4 => append_bytes ip4
    end
  else if (rr_Type rr =? TypeAAAA)%Z then
    match To16 (rr_IP rr) with
    | None => fail_with (ErrAAAARecordIP (rr_IP rr))
    | Some ip6 => append_bytes ip6
    end
  else if (rr_Type rr =? TypePTR)%Z || (rr_Type rr =? TypeCNAME)%Z || (rr_Type rr =? TypeNS)%Z
  then writeName (rr_Target rr)
  else if (rr_Type rr =? TypeSRV)%Z then
    _ ← append_bytes (be16 (rr_Priority rr));
    _ ← append_bytes (be16 (rr_Weight rr));
    _ ← append_bytes (be16 (rr_Port rr));
    writeName (rr_Target rr)
  else if (rr_Type rr =? TypeTXT)%Z then
    if decide (rr_Text rr = []) then append_bytes [z2b 0] else pack_text (rr_Text rr)
  else if (rr_Type rr =? TypeNSEC)%Z then
    _ ← writeName (rr_NextDomain rr);
    append_bytes (encodeTypeBitMaps (rr_TypeBitMaps rr))
  else append_bytes (rr_RawData rr).

(** [binary.BigEndian.PutUint16(( *buf)[pos:], z)] *)
Definition put16 (pos : nat) (z : Z) : writer unit := fun st =>
  (WState (<[pos + 1 := z2b z]> (<[pos := z2b (Z.shiftr z 8)]> (w_buf st))) (w_comp st), Ok ()).

Definition RR_pack (rr : ResourceRecord) : writer unit :=
  _ ← writeName (rr_Name rr);
  _ ← append_bytes (be16 (rr_Type rr));
  _ ← append_bytes (be16 (fullClass rr));
  _ ← append_bytes (be32 (rr_TTL rr));
  rdLenPos ← buf_len;
  _ ← append_bytes [z2b 0; z2b 0];
  rdStart ← buf_len;
  _ ← pack_rdata rr;
  rdEnd ← buf_len;
  put16 rdLenPos (u16 (Z.of_nat (rdEnd - rdStart))).

(** ** Unpacking *)

Fixpoint unpack_text (fuel : nat) (msg : list byte) (pos end_ : nat) (text : list gostring)
    : result (list gostring) :=
  match fuel with
  | 0 => Err OutOfFuel
  | S fuel =>
      if end_ <=? pos then Ok text else
      b ← at_ msg pos;
      let l := Z.to_nat (b2z b) in
      if end_ <? pos + 1 + l then Err ErrTXTTruncated else
      s ← slice msg (pos + 1) (pos + 1 + l);
      unpack_text fuel msg (pos + 1 + l) end_ (text ++ [s])
  end.

Definition unpackRDATA (rr : ResourceRecord) (msg : list byte) (offset rdlen : nat)
    : result ResourceRecord :=
  let end_ := offset + rdlen in
  if length msg <? end_ then Err (ErrRDATATruncated rdlen offset) else
  if (rr_Type rr =? TypeA)%Z then
    if negb (rdlen =? 4) then Err (ErrARDLength rdlen) else
    ip ← slice msg offset (offset + 4);
    Ok (set_IP ip rr)
  else if (rr_Type rr =? TypeAAAA)%Z then
    if negb (rdlen =? 16) then Err (ErrAAAARDLength rdlen) else
    ip ← slice msg offset (offset + 16);
    Ok (set_IP ip rr)
  else if (rr_Type rr =? TypePTR)%Z || (rr_Type rr =? TypeCNAME)%Z || (rr_Type rr =? TypeNS)%Z
  then
    '(name, _) ← readName msg offset;
    Ok (set_Target name rr)
  else if (rr_Type rr =? TypeSRV)%Z then
    if rdlen <? 7 then Err (ErrSRVTooShort rdlen) else
    pri ← get16 msg offset;
    wt ← get16 msg (offset + 2);
    port ← get16 msg (offset + 4);
    '(target, _) ← readName msg (offset + 6);
    Ok (set_Target target (set_SRV pri wt port rr))
  else if (rr_Type rr =? TypeTXT)%Z then
    text ← unpack_text (S (end_ - offset)) msg offset end_ [];
    Ok (set_Text text rr)
  else if (rr_Type rr =? TypeNSEC)%Z then
    '(nextDomain, nextOffset) ← readName msg offset;
    types ← decodeTypeBitMaps msg nextOffset end_;
    Ok (set_NSEC nextDomain types rr)
  else
    raw ← slice msg offset end_;
    Ok (set_RawData raw rr).

(** ** Text form *)

Definition RR_String (rr : ResourceRecord) : gostring :=
  let cf := if rr_CacheFlush rr then go " (flush)" else [] in
  let name := normalizeName (rr_Name rr) in
  if (rr_Type rr =? TypeA)%Z || (rr_Type rr =? TypeAAAA)%Z then
    name ++ go " " ++ RRType (rr_Type rr) ++ go " " ++ IP_String (rr_IP rr) ++ cf
  else if (rr_Type rr =? TypePTR)%Z || (rr_Type rr =? TypeCNAME)%Z || (rr_Type rr =? TypeNS)%Z
  then name ++ go " " ++ RRType (rr_Type rr) ++ go " " ++ rr_Target rr ++ cf
  else if (rr_Type rr =? TypeSRV)%Z then
    name ++ go " SRV pri=" ++ Itoa (rr_Priority rr) ++ go " wt=" ++ Itoa (rr_Weight rr)
      ++ go " port=" ++ Itoa (rr_Port rr) ++ go " target=" ++ rr_Target rr
  else if (rr_Type rr =? TypeTXT)%Z then name ++ go " TXT " ++ Join (rr_Text rr) (go ", ")
  else if (rr_Type rr =? TypeNSEC)%Z then
    name ++ go " NSEC next=" ++ rr_NextDomain rr ++ go " types=["
      ++ Join (RRType <$> rr_TypeBitMaps rr) (go ", ") ++ go "]"
  else name ++ go " TYPE" ++ Itoa (rr_Type rr) ++ go " ("
      ++ Itoa (Z.of_nat (length (rr_RawData rr))) ++ go " bytes)".
