(* ===== verification/DnsMessage.v ===== *)
(** * DNS messages (dns_message.go)

    The header predicates, [Pack] and [UnpackMessage]. *)

From S2P Require Export DnsRR.

Definition flagResponse : Z := 32768.       (* 0x8000 *)
Definition flagAuthoritative : Z := 1024.   (* 0x0400 *)
Definition flagTruncation : Z := 512.       (* 0x0200 *)
Definition opcodeMask : Z := 30720.         (* 0x7800 *)
Definition rcodeMask : Z := 15.             (* 0x000F *)

Record Header := mkHeader {
  h_ID : Z;
  h_Flags : Z;
  h_QDCount : Z;
  h_ANCount : Z;
  h_NSCount : Z;
  h_ARCount : Z
}.

Record Message := mkMessage {
  m_Header : Header;
  m_Questions : list Question;
  m_Answers : list ResourceRecord;
  m_Authorities : list ResourceRecord;
  m_Additionals : list ResourceRecord
}.

#[export] Instance Header_eq_dec : EqDecision Header.
Proof. solve_decision. Defined.
#[export] Instance Message_eq_dec : EqDecision Message.
Proof. solve_decision. Defined.

Definition m_ID (m : Message) : Z := h_ID (m_Header m).
Definition m_Flags (m : Message) : Z := h_Flags (m_Header m).

Definition Opcode (m : Message) : Z := Z.shiftr (Z.land (m_Flags m) opcodeMask) 11.
Definition RCode (m : Message) : Z := Z.land (m_Flags m) rcodeMask.
Definition IsQuery (m : Message) : bool := (Z.land (m_Flags m) flagResponse =? 0)%Z.
Definition IsResponse (m : Message) : bool := negb (Z.land (m_Flags m) flagResponse =? 0)%Z.
Definition IsTruncated (m : Message) : bool := negb (Z.land (m_Flags m) flagTruncation =? 0)%Z.
Definition IsProbe (m : Message) : bool := IsQuery m && (0 <? length (m_Authorities m)).

Definition IsValidmDNS (m : Message) : bool :=
  if negb (Opcode m =? 0)%Z then false
  else if IsResponse m && negb (RCode m =? 0)%Z then false
  else true.

(** ** Pack *)

(** A [for range] loop that stops at the first error. *)
Fixpoint pack_all {A} (pack : A -> writer unit) (xs : list A) : writer unit :=
  match xs with
  | [] => mret ()
  | x :: xs => _ ← pack x; pack_all pack xs
  end.

Definition pack_message (m : Message) : writer unit :=
  _ ← append_bytes (be16 (m_ID m));
  _ ← append_bytes (be16 (m_Flags m));
  _ ← append_bytes (be16 (u16 (Z.of_nat (length (m_Questions m)))));
  _ ← append_bytes (be16 (u16 (Z.of_nat (length (m_Answers m)))));
  _ ← append_bytes (be16 (u16 (Z.of_nat (length (m_Authorities m)))));
  _ ← append_bytes (be16 (u16 (Z.of_nat (length (m_Additionals m)))));
  _ ← pack_all Question_pack (m_Questions m);
  _ ← pack_all RR_pack (m_Answers m);
  _ ← pack_all RR_pack (m_Authorities m);
  pack_all RR_pack (m_Additionals m).

Definition Pack (m : Message) : result (list byte) :=
  match pack_message m (WState [] ∅) with
  | (_, Err e) => Err e
  | (st, Ok _) =>
      if (9000 <? Z.of_nat (length (w_buf st)))%Z
      then Err (ErrMessageTooLarge (length (w_buf st))) else Ok (w_buf st)
  end.

(** ** UnpackMessage *)

Definition readQuestion (data : list byte) (offset : nat) : result (Question * nat) :=
  '(name, offset) ← wrap_err ErrQuestionName (readName data offset);
  if length data <? offset + 4 then Err ErrTruncatedQuestion else
  t ← get16 data offset;
  c ← get16 data (offset + 2);
  Ok (mkQuestion name t c, offset + 4).

(** The loop over [m.QDCount] questions. *)
Fixpoint readQuestions (data : list byte) (offset count : nat) (qs : list Question)
    : result (list Question * nat) :=
  match count with
  | 0 => Ok (qs, offset)
  | S count =>
      '(q, offset) ← readQuestion data offset;
      readQuestions data offset count (qs ++ [q])
  end.

(** The body of the loop of [readRRs]; [i] is the record number. *)
Definition readRR (data : list byte) (offset i : nat) : result (ResourceRecord * nat) :=
  '(name, offset) ← wrap_err ErrRRName (readName data offset);
  if length data <? offset + 10 then Err (ErrTruncatedRRHeader i) else
  t ← get16 data offset;
  classField ← get16 data (offset + 2);
  ttl ← get32 data (offset + 4);
  rdl ← get16 data (offset + 8);
  let rr := newRR name t (Z.ldiff classField cacheFlushBit) ttl
              (negb (Z.land classField cacheFlushBit =? 0)%Z) in
  let rdlen := Z.to_nat rdl in
  let offset := offset + 10 in
  if length data <? offset + rdlen then Err (ErrTruncatedRDATA rdlen offset) else
  rr ← unpackRDATA rr data offset rdlen;
  Ok (rr, offset + rdlen).

Fixpoint readRRs_loop (data : list byte) (offset i count : nat) (rrs : list ResourceRecord)
    : result (list ResourceRecord * nat) :=
  match count with
  | 0 => Ok (rrs, offset)
  | S count =>
      '(rr, offset) ← readRR data offset i;
      readRRs_loop data offset (S i) count (rrs ++ [rr])
  end.

Definition readRRs (data : list byte) (offset count : nat)
    : result (list ResourceRecord * nat) := readRRs_loop data offset 0 count [].

Definition UnpackMessage (data : list byte) : result Message :=
  if length data <? 12 then Err (ErrMessageTooShort (length data)) else
  id ← get16 data 0;
  flags ← get16 data 2;
  qd ← get16 data 4;
  an ← get16 data 6;
  ns ← get16 data 8;
  ar ← get16 data 10;
  '(questions, offset) ← readQuestions data 12 (Z.to_nat qd) [];
  '(answers, offset) ← wrap_err ErrAnswers (readRRs data offset (Z.to_nat an));
  '(authorities, offset) ← wrap_err ErrAuthorities (readRRs data offset (Z.to_nat ns));
  '(additionals, offset) ← wrap_err ErrAdditionals (readRRs data offset (Z.to_nat ar));
  Ok (mkMessage (mkHeader id flags qd an ns ar) questions answers authorities additionals).
