(* ===== verification/WireSafety.v ===== *)
(** * Robustness of the parser

    Whatever the bytes of a packet, [UnpackMessage] returns: it does not index
    out of range, its loops end, and a message it accepts is well formed. *)

From S2P Require Export DnsMessage NameSpec.

(** ** The loops over RDATA *)

Lemma mapM_at_ok {A} (l : list A) base k n :
  base + k + n <= length l ->
  mapM (λ i, at_ l (base + i)) (seq k n) = Ok (take n (drop (base + k) l)).
Proof.
  revert k. induction n as [|n IH]; intros k Hn; [done|]. cbn [seq mapM].
  destruct (at_in_range l (base + k)) as (a & Ha & Hat); [lia|].
  unfold mapM in IH |- *. simpl. rewrite Hat. cbn [mbind result_bind].
  rewrite IH by lia. cbn. rewrite (drop_S _ _ _ Ha). simpl. by rewrite Nat.add_succ_r.
Qed.

Section Loops.
  Context (msg : list byte).

Lemma unpack_text_returns fuel pos end_ text :
  end_ <= length msg -> end_ - pos < fuel -> returns (unpack_text fuel msg pos end_ text).
Proof.
  revert pos text. induction fuel as [|fuel IH]; intros pos text Hend Hfuel; [lia|].
  cbn [unpack_text]. case_if; [done|]. bool_arith.
  destruct (at_in_range msg pos) as (b & _ & ->); [lia|]. cbn [mbind result_bind].
  case_if; [done|]. bool_arith. rewrite slice_in_range by lia. cbn [mbind result_bind].
  apply IH; lia.
Qed.

Lemma decodeTypeBitMaps_loop_returns fuel pos end_ types :
  end_ <= length msg -> end_ - pos < fuel ->
  returns (decodeTypeBitMaps_loop fuel msg pos end_ types).
Proof.
  revert pos types. induction fuel as [|fuel IH]; intros pos types Hend Hfuel; [lia|].
  cbn [decodeTypeBitMaps_loop]. case_if; [done|]. case_if; [done|]. bool_arith.
  destruct (at_in_range msg pos) as (b & _ & ->); [lia|]. cbn [mbind result_bind].
  destruct (at_in_range msg (pos + 1)) as (b1 & _ & ->); [lia|]. cbn [mbind result_bind].
  case_if; [done|]. bool_arith. rewrite (mapM_at_ok msg (pos + 2) 0) by lia.
  cbn [mbind result_bind]. apply IH; lia.
Qed.

Lemma readName_end_in_range pos name e : readName msg pos = Ok (name, e) -> e <= length msg.
Proof.
  rewrite readName_iff. intros (ls & j & Hn & _). clear name.
  induction Hn as [pos b Hb H0 | | pos b0 b1 ls j e Hb0 Hp Hb1 Hn IH].
  - apply lookup_lt_Some in Hb. lia.
  - done.
  - apply lookup_lt_Some in Hb1. lia.
Qed.

Lemma unpackRDATA_returns rr offset rdlen : returns (unpackRDATA rr msg offset rdlen).
Proof.
  unfold unpackRDATA. case_if; [done|]. bool_arith.
  case_if. { case_if; [done|]. bool_arith. by rewrite slice_in_range by lia. }
  case_if. { case_if; [done|]. bool_arith. by rewrite slice_in_range by lia. }
  case_if. { apply returns_bind; [apply readName_total|]. by intros []. }
  case_if.
  { case_if; [done|]. bool_arith.
    destruct (get16_in_range msg offset) as [? ->]; [lia|]. cbn [mbind result_bind].
    destruct (get16_in_range msg (offset + 2)) as [? ->]; [lia|]. cbn [mbind result_bind].
    destruct (get16_in_range msg (offset + 4)) as [? ->]; [lia|]. cbn [mbind result_bind].
    apply returns_bind; [apply readName_total|]. by intros []. }
  case_if. { apply returns_bind; [apply unpack_text_returns; lia|]. done. }
  case_if.
  { apply returns_bind; [apply readName_total|]. intros [next off] _.
    apply returns_bind; [|done]. unfold decodeTypeBitMaps.
    apply decodeTypeBitMaps_loop_returns; lia. }
  by rewrite slice_in_range by lia.
Qed.

Lemma readQuestion_returns offset : returns (readQuestion msg offset).
Proof.
  unfold readQuestion. apply returns_bind; [apply returns_wrap; [done|apply readName_total]|].
  intros [name off] _. case_if; [done|]. bool_arith.
  destruct (get16_in_range msg off) as [? ->]; [lia|]. cbn [mbind result_bind].
  by destruct (get16_in_range msg (off + 2)) as [? ->]; [lia|].
Qed.

Lemma readQuestions_returns offset count qs : returns (readQuestions msg offset count qs).
Proof.
  revert offset qs. induction count as [|count IH]; intros offset qs; [done|].
  cbn [readQuestions]. apply returns_bind; [apply readQuestion_returns|]. intros [q off] _. apply IH.
Qed.

Lemma readRR_returns offset i : returns (readRR msg offset i).
Proof.
  unfold readRR. apply returns_bind; [apply returns_wrap; [done|apply readName_total]|].
  intros [name off] _. case_if; [done|]. bool_arith.
  destruct (get16_in_range msg off) as [? ->]; [lia|]. cbn [mbind result_bind].
  destruct (get16_in_range msg (off + 2)) as [? ->]; [lia|]. cbn [mbind result_bind].
  destruct (get32_in_range msg (off + 4)) as [? ->]; [lia|]. cbn [mbind result_bind].
  destruct (get16_in_range msg (off + 8)) as [? ->]; [lia|]. cbn [mbind result_bind].
  case_if; [done|]. apply returns_bind; [apply unpackRDATA_returns|]. done.
Qed.

Lemma readRRs_loop_returns offset i count rrs : returns (readRRs_loop msg offset i count rrs).
Proof.
  revert offset i rrs. induction count as [|count IH]; intros offset i rrs; [done|].
  cbn [readRRs_loop]. apply returns_bind; [apply readRR_returns|]. intros [rr off] _. apply IH.
Qed.

End Loops.

(** ** Well-formed records and messages *)

(** The integer fields are in the range of their Go types, addresses have the
    length of their record type, names are fully qualified. *)
Definition name_wf (name : gostring) : Prop := exists s, name = s ++ [dot].

Definition Question_wf (q : Question) : Prop :=
  name_wf (q_Name q) /\ is_u16 (q_Type q) /\ is_u16 (q_Class q).

Definition RR_ints_ok (rr : ResourceRecord) : Prop :=
  is_u16 (rr_Type rr) /\ is_u16 (rr_Class rr) /\ is_u32 (rr_TTL rr) /\
  is_u16 (rr_Priority rr) /\ is_u16 (rr_Weight rr) /\ is_u16 (rr_Port rr) /\
  Forall is_u16 (rr_TypeBitMaps rr).

Definition RR_wf (rr : ResourceRecord) : Prop :=
  RR_ints_ok rr /\ name_wf (rr_Name rr) /\ (rr_Class rr < cacheFlushBit)%Z /\
  (rr_Type rr = TypeA -> length (rr_IP rr) = 4) /\
  (rr_Type rr = TypeAAAA -> length (rr_IP rr) = 16) /\
  (rr_Type rr ∈ [TypePTR; TypeCNAME; TypeNS; TypeSRV] -> name_wf (rr_Target rr)) /\
  (rr_Type rr = TypeTXT -> Forall (λ s, length s <= 255) (rr_Text rr)) /\
  (rr_Type rr = TypeNSEC -> name_wf (rr_NextDomain rr)).

Definition Message_wf (m : Message) : Prop :=
  is_u16 (m_ID m) /\ is_u16 (m_Flags m) /\
  h_QDCount (m_Header m) = Z.of_nat (length (m_Questions m)) /\
  h_ANCount (m_Header m) = Z.of_nat (length (m_Answers m)) /\
  h_NSCount (m_Header m) = Z.of_nat (length (m_Authorities m)) /\
  h_ARCount (m_Header m) = Z.of_nat (length (m_Additionals m)) /\
  Forall Question_wf (m_Questions m) /\ Forall RR_wf (m_Answers m) /\
  Forall RR_wf (m_Authorities m) /\ Forall RR_wf (m_Additionals m).

Lemma presentation_wf ls : name_wf (presentation ls).
Proof. destruct ls as [|l ls]; [by exists []|]. by eexists. Qed.

Lemma readName_wf msg pos name e : readName msg pos = Ok (name, e) -> name_wf name.
Proof. rewrite readName_iff. intros (ls & j & _ & _ & ->). apply presentation_wf. Qed.

Lemma unpack_text_wf msg fuel pos end_ text text' :
  Forall (λ s, length s <= 255) text ->
  unpack_text fuel msg pos end_ text = Ok text' -> Forall (λ s, length s <= 255) text'.
Proof.
  revert pos text. induction fuel as [|fuel IH]; intros pos text Ht H; [done|].
  cbn [unpack_text] in H. case_if_in H; [by injection H as <-|]. inv_bind.
  case_if_in H; [done|]. inv_bind. apply IH in H; [done|].
  apply Forall_app. split; [done|]. apply Forall_singleton.
  match goal with Hs : slice _ _ _ = Ok _ |- _ => apply slice_Ok in Hs as (_ & _ & ->) end.
  rewrite length_take. match goal with b : byte |- _ => pose proof (b2z_range b) end. lia.
Qed.

Lemma bitmap_types_u16 block bitmap : Forall is_u16 (bitmap_types block bitmap).
Proof.
  unfold bitmap_types. apply Forall_forall. intros t.
  rewrite list_elem_of_join. intros (l & Ht & (i & b & -> & _)%elem_of_lookup_imap).
  unfold byte_types in Ht. case_if_in Ht; [set_solver|].
  apply list_elem_of_fmap in Ht as (bit & -> & _). auto with mdns.
Qed.

Lemma decodeTypeBitMaps_wf msg fuel pos end_ types types' :
  Forall is_u16 types -> decodeTypeBitMaps_loop fuel msg pos end_ types = Ok types' ->
  Forall is_u16 types'.
Proof.
  revert pos types. induction fuel as [|fuel IH]; intros pos types Ht H; [done|].
  cbn [decodeTypeBitMaps_loop] in H. case_if_in H; [by injection H as <-|].
  case_if_in H; [done|]. inv_bind. case_if_in H; [done|]. inv_bind.
  apply IH in H; [done|]. apply Forall_app. split; [done|]. apply bitmap_types_u16.
Qed.

Ltac by_type := intros; unfold TypeA, TypeNS, TypeCNAME, TypePTR, TypeTXT, TypeAAAA, TypeSRV,
  TypeNSEC, newRR in *; simpl in *; lia.

Lemma type_in_targets t :
  t ∈ [TypePTR; TypeCNAME; TypeNS; TypeSRV] <->
  t = TypePTR \/ t = TypeCNAME \/ t = TypeNS \/ t = TypeSRV.
Proof. set_solver. Qed.

(** Only the fields of the record's type are set, and they are well formed. *)
Lemma unpackRDATA_wf name t c ttl cf msg offset rdlen rr :
  name_wf name -> is_u16 t -> is_u16 c -> (c < cacheFlushBit)%Z -> is_u32 ttl ->
  unpackRDATA (newRR name t c ttl cf) msg offset rdlen = Ok rr -> RR_wf rr.
Proof.
  intros Hname Ht Hc Hc' Httl H. unfold RR_wf, RR_ints_ok. rewrite type_in_targets.
  assert (Hz : is_u16 0) by (unfold is_u16; lia).
  unfold unpackRDATA in H. case_if_in H; [done|].
  case_if_in H.
  { case_if_in H; [done|]. inv_bind. bool_arith.
    match goal with Hs : slice _ _ _ = Ok _ |- _ => apply slice_Ok in Hs as (? & ? & ->) end.
    split_and!; simpl; auto; try by_type. intros _. rewrite length_take, length_drop. lia. }
  case_if_in H.
  { case_if_in H; [done|]. inv_bind. bool_arith.
    match goal with Hs : slice _ _ _ = Ok _ |- _ => apply slice_Ok in Hs as (? & ? & ->) end.
    split_and!; simpl; auto; try by_type. intros _. rewrite length_take, length_drop. lia. }
  case_if_in H.
  { apply result_bind_Ok in H as ([target e] & Hr%readName_wf & [= <-]). bool_arith.
    rewrite !orb_true_iff, !Z.eqb_eq in Heqb2.
    split_and!; simpl; auto; by_type. }
  case_if_in H.
  { case_if_in H; [done|]. inv_bind. destruct x2 as [target e]. injection H as <-. bool_arith.
    repeat match goal with H : get16 _ _ = Ok _ |- _ => apply get16_u16 in H end.
    match goal with H : readName _ _ = Ok _ |- _ => apply readName_wf in H end.
    split_and!; simpl; auto; by_type. }
  case_if_in H.
  { inv_bind. bool_arith. split_and!; simpl; auto; try by_type.
    intros _. by eapply unpack_text_wf. }
  case_if_in H.
  { inv_bind. destruct x as [next e]. inv_bind. bool_arith.
    match goal with H : readName _ _ = Ok _ |- _ => apply readName_wf in H end.
    split_and!; simpl; auto; try by_type. by eapply decodeTypeBitMaps_wf. }
  inv_bind. bool_arith.
  split_and!; simpl; auto; by_type.
Qed.

(** ** The class field *)

Lemma testbit_u16 z i : is_u16 z -> (16 <= i)%Z -> Z.testbit z i = false.
Proof.
  unfold is_u16. intros Hz Hi. destruct (decide (z = 0%Z)) as [->|]; [apply Z.bits_0|].
  apply Z.bits_above_log2; [lia|]. apply Z.lt_le_trans with 16%Z; [|done].
  apply Z.log2_lt_pow2; [lia|]. change (2 ^ 16)%Z with 65536%Z. lia.
Qed.

(** [classField & ^cacheFlushBit]: the low 15 bits. *)
Lemma ldiff_cacheFlush z : is_u16 z -> Z.ldiff z cacheFlushBit = (z mod 32768)%Z.
Proof.
  intros Hz. change 32768%Z with (2 ^ 15)%Z. rewrite <- Z.land_ones by lia.
  unfold cacheFlushBit. change 32768%Z with (2 ^ 15)%Z.
  apply Z.bits_inj'. intros i Hi. rewrite Z.ldiff_spec, Z.land_spec.
  rewrite Z.pow2_bits_eqb by lia. rewrite Z.testbit_ones by lia.
  destruct (Z.eqb_spec 15 i), (Z.ltb_spec i 15), (Z.leb_spec 0 i); try lia; simpl;
    rewrite ?andb_true_r, ?andb_false_r; try done.
  apply testbit_u16; [done|lia].
Qed.

(** [classField & cacheFlushBit != 0]: the top bit. *)
Lemma land_cacheFlush z :
  is_u16 z -> negb (Z.land z cacheFlushBit =? 0)%Z = Z.testbit z 15.
Proof.
  intros _. by apply (land_pow2_testbit z 15).
Qed.

Lemma ldiff_cacheFlush_range z :
  is_u16 z -> is_u16 (Z.ldiff z cacheFlushBit) /\ (Z.ldiff z cacheFlushBit < cacheFlushBit)%Z.
Proof.
  intros Hz. rewrite ldiff_cacheFlush by done. unfold is_u16, cacheFlushBit.
  pose proof (Z.mod_pos_bound z 32768 ltac:(lia)). lia.
Qed.

(** ** Messages *)

Lemma readRR_wf data offset i rr off :
  readRR data offset i = Ok (rr, off) -> RR_wf rr.
Proof.
  unfold readRR. intros H. apply result_bind_Ok in H as ([name e] & Hn & H).
  destruct (readName data offset) as [[? ?]|] eqn:Hr; simpl in Hn; [|done].
  injection Hn as -> ->. apply readName_wf in Hr.
  case_if_in H; [done|].
  apply result_bind_Ok in H as (t & Ht%get16_u16 & H).
  apply result_bind_Ok in H as (c & Hc%get16_u16 & H).
  apply result_bind_Ok in H as (ttl & Httl%get32_u32 & H).
  apply result_bind_Ok in H as (rdl & _ & H).
  case_if_in H; [done|]. apply result_bind_Ok in H as (rr' & Hu & [= <- _]).
  destruct (ldiff_cacheFlush_range c Hc). by eapply unpackRDATA_wf in Hu.
Qed.

Lemma readRRs_loop_wf data offset i count rrs rrs' off :
  Forall RR_wf rrs -> readRRs_loop data offset i count rrs = Ok (rrs', off) ->
  Forall RR_wf rrs' /\ length rrs' = length rrs + count.
Proof.
  revert offset i rrs. induction count as [|count IH]; intros offset i rrs Hf H.
  - injection H as <- <-. split; [done|lia].
  - cbn [readRRs_loop] in H. apply result_bind_Ok in H as ([rr e] & Hr%readRR_wf & H).
    apply IH in H as [? Hl]; [|by apply Forall_app_2; [|apply Forall_singleton]].
    rewrite length_app in Hl. simpl in Hl. split; [done|lia].
Qed.

Lemma readQuestions_wf data offset count qs qs' off :
  Forall Question_wf qs -> readQuestions data offset count qs = Ok (qs', off) ->
  Forall Question_wf qs' /\ length qs' = length qs + count.
Proof.
  revert offset qs. induction count as [|count IH]; intros offset qs Hf H.
  - injection H as <- <-. split; [done|lia].
  - cbn [readQuestions] in H. apply result_bind_Ok in H as ([q e] & Hq & H).
    apply IH in H as [? Hl].
    + rewrite length_app in Hl. simpl in Hl. split; [done|lia].
    + apply Forall_app_2; [done|]. apply Forall_singleton. unfold readQuestion in Hq.
      apply result_bind_Ok in Hq as ([name e'] & Hn & Hq).
      destruct (readName data offset) as [[? ?]|] eqn:Hr; simpl in Hn; [|done].
      injection Hn as -> ->. apply readName_wf in Hr. case_if_in Hq; [done|].
      apply result_bind_Ok in Hq as (t & Ht%get16_u16 & Hq).
      apply result_bind_Ok in Hq as (c & Hc%get16_u16 & [= <- _]). done.
Qed.

Lemma readRRs_wf w data offset n rrs off :
  is_u16 n -> wrap_err w (readRRs data offset (Z.to_nat n)) = Ok (rrs, off) ->
  Forall RR_wf rrs /\ n = Z.of_nat (length rrs).
Proof.
  intros Hn H. destruct (readRRs _ _ _) as [[]|] eqn:Hr; simpl in H; [|done].
  injection H as -> ->. apply readRRs_loop_wf in Hr as [? Hl]; [|done].
  split; [done|]. rewrite Hl. simpl. unfold is_u16 in Hn. lia.
Qed.

(** C12: Every message the parser accepts is well formed: integers within their
    widths, header counts equal to the sections, names ending in a dot, the
    cache-flush bit taken out of the class, addresses of the length of their type,
    TXT strings of at most 255 bytes. *)
Theorem UnpackMessage_Message_wf data m : UnpackMessage data = Ok m -> Message_wf m.
Proof.
  unfold UnpackMessage. intros H. case_if_in H; [done|].
  apply result_bind_Ok in H as (id & Hid%get16_u16 & H).
  apply result_bind_Ok in H as (fl & Hfl%get16_u16 & H).
  apply result_bind_Ok in H as (qd & Hqd%get16_u16 & H).
  apply result_bind_Ok in H as (an & Han%get16_u16 & H).
  apply result_bind_Ok in H as (ns & Hns%get16_u16 & H).
  apply result_bind_Ok in H as (ar & Har%get16_u16 & H).
  apply result_bind_Ok in H as ([qs o1] & Hq & H).
  apply result_bind_Ok in H as ([as_ o2] & Ha & H).
  apply result_bind_Ok in H as ([nss o3] & Hn & H).
  apply result_bind_Ok in H as ([ars o4] & Hr & [= <-]).
  apply readQuestions_wf in Hq as [Hqw Hql]; [|done].
  apply readRRs_wf in Ha as [? ?], Hn as [? ?], Hr as [? ?]; try done.
  unfold Message_wf, m_ID, m_Flags. simpl. split_and!; try done.
  rewrite Hql. simpl. unfold is_u16 in Hqd. lia.
Qed.

(** C2: [UnpackMessage] is total: on every byte string, compression loops included,
    it returns a message or an error; it never reads out of bounds. *)
Theorem UnpackMessage_total data : returns (UnpackMessage data).
Proof.
  unfold UnpackMessage. case_if; [done|]. bool_arith.
  destruct (get16_in_range data 0) as [? ->]; [lia|]. cbn [mbind result_bind].
  destruct (get16_in_range data 2) as [? ->]; [lia|]. cbn [mbind result_bind].
  destruct (get16_in_range data 4) as [? ->]; [lia|]. cbn [mbind result_bind].
  destruct (get16_in_range data 6) as [? ->]; [lia|]. cbn [mbind result_bind].
  destruct (get16_in_range data 8) as [? ->]; [lia|]. cbn [mbind result_bind].
  destruct (get16_in_range data 10) as [? ->]; [lia|]. cbn [mbind result_bind].
  apply returns_bind; [apply readQuestions_returns|]. intros [qs o1] _.
  do 3 (apply returns_bind; [apply returns_wrap; [done|]; apply readRRs_loop_returns|];
        intros [? ?] _).
  done.
Qed.
