(* ===== verification/Bitmap.v ===== *)
(** * NSEC type bitmaps: decoding inverts encoding

    [decodeTypeBitMaps] of what [encodeTypeBitMaps] wrote gives the types in
    ascending order without duplicates ([canon_types]), except those of the
    window 255, which the encoder's loop [block < 255] never writes. *)

From S2P Require Export WireSafety.

(** The types a bitmap can carry, in ascending order, each once. *)
Definition canon_types (types : list Z) : list Z :=
  merge_sort Z.le (remove_dups (filter (λ t, (t < 65280)%Z) types)).

(** ** Lists *)

Lemma mjoin_cons {A} (l : list A) ls : mjoin (l :: ls) = l ++ mjoin ls.
Proof. done. Qed.

Lemma omap_cons {A B} (f : A -> option B) x l :
  omap f (x :: l) = match f x with Some y => y :: omap f l | None => omap f l end.
Proof. done. Qed.


Lemma strictly_sorted_ext (l1 l2 : list Z) :
  StronglySorted Z.lt l1 -> StronglySorted Z.lt l2 -> (forall t, t ∈ l1 <-> t ∈ l2) -> l1 = l2.
Proof.
  intros H1 H2 Hext. apply (StronglySorted_unique_strong Z.lt).
  - intros x y _ _ ? ?. lia.
  - done.
  - done.
  - apply NoDup_Permutation; [| |done].
    + clear -H1. induction H1 as [|x l H1 IH Hf]; constructor; [|done].
      intros Hx. rewrite Forall_forall in Hf. specialize (Hf x Hx). lia.
    + clear -H2. induction H2 as [|x l H2 IH Hf]; constructor; [|done].
      intros Hx. rewrite Forall_forall in Hf. specialize (Hf x Hx). lia.
Qed.

Lemma sorted_nodup_strict (l : list Z) :
  StronglySorted Z.le l -> NoDup l -> StronglySorted Z.lt l.
Proof.
  induction 1 as [|x l Hs IH Hf]; intros [Hx Hnd]%NoDup_cons || intros; constructor; auto.
  rewrite Forall_forall in Hf |- *. intros y Hy. specialize (Hf y Hy).
  assert (x <> y) by (by intros ->). lia.
Qed.

Lemma sorted_filter {A} (R : relation A) (P : A -> Prop) `{!forall x, Decision (P x)} l :
  StronglySorted R l -> StronglySorted R (filter P l).
Proof.
  induction 1 as [|x l Hs IH Hf]; [constructor|].
  rewrite filter_cons. case_decide; [|done]. constructor; [done|].
  apply Forall_forall. intros y [_ Hy]%list_elem_of_filter.
  rewrite Forall_forall in Hf. by apply Hf.
Qed.

Lemma canon_types_sorted types : StronglySorted Z.lt (canon_types types).
Proof.
  apply sorted_nodup_strict; [apply (StronglySorted_merge_sort Z.le)|].
  unfold canon_types. rewrite merge_sort_Permutation. apply NoDup_remove_dups.
Qed.

Lemma elem_of_canon_types types t : t ∈ canon_types types <-> t ∈ types /\ (t < 65280)%Z.
Proof.
  unfold canon_types. rewrite merge_sort_Permutation, elem_of_remove_dups, list_elem_of_filter.
  tauto.
Qed.

(** ** The bits of a window *)

(** Bit [k] of a bitmap, in the order of RFC 4034 (most significant bit first). *)
Definition bit_of (bits : list byte) (k : Z) : bool :=
  match bits !! Z.to_nat (k / 8) with
  | Some b => Z.testbit (b2z b) (7 - k mod 8)
  | None => false
  end.

Lemma shiftr_128 n : (0 <= n < 8)%Z -> Z.shiftr 128 n = (2 ^ (7 - n))%Z.
Proof.
  intros Hn. rewrite Z.shiftr_div_pow2 by lia. change 128%Z with (2 ^ 7)%Z.
  by rewrite Z.pow_sub_r by lia.
Qed.

Lemma testbit_set_bit b n k :
  (0 <= n < 8)%Z -> (0 <= k < 8)%Z ->
  Z.testbit (b2z (z2b (Z.lor (b2z b) (Z.shiftr 128 n)))) (7 - k)
  = Z.testbit (b2z b) (7 - k) || (k =? n)%Z.
Proof.
  intros Hn Hk. rewrite z2b_spec, shiftr_128 by done. change 256%Z with (2 ^ 8)%Z.
  rewrite Z.mod_pow2_bits_low by lia. rewrite Z.lor_spec, Z.pow2_bits_eqb by lia.
  f_equal. destruct (Z.eqb_spec (7 - n) (7 - k)), (Z.eqb_spec k n); lia.
Qed.

Lemma bit_of_zeros bits n k : bit_of (bits ++ replicate n Byte.x00) k = bit_of bits k.
Proof.
  unfold bit_of. destruct (bits !! Z.to_nat (k / 8)) as [b|] eqn:E.
  - by rewrite (lookup_app_l_Some _ _ _ _ E).
  - rewrite lookup_app_r by (by apply lookup_ge_None).
    destruct (replicate n Byte.x00 !! _) as [b|] eqn:E'; [|done].
    apply lookup_replicate in E' as [-> _]. apply Z.bits_0.
Qed.

Lemma bit_of_alter bits j k :
  (0 <= j < 256)%Z -> (0 <= k < 256)%Z -> Z.to_nat (j / 8) < length bits ->
  bit_of (alter (λ b, z2b (Z.lor (b2z b) (Z.shiftr 128 (j mod 8)))) (Z.to_nat (j / 8)) bits) k
  = bit_of bits k || (k =? j)%Z.
Proof.
  intros Hj Hk Hlen. unfold bit_of.
  pose proof (Z.div_mod j 8 ltac:(lia)). pose proof (Z.div_mod k 8 ltac:(lia)).
  pose proof (Z.mod_pos_bound j 8 ltac:(lia)). pose proof (Z.mod_pos_bound k 8 ltac:(lia)).
  destruct (decide (Z.to_nat (k / 8) = Z.to_nat (j / 8))) as [E|E].
  - rewrite E, list_lookup_alter. apply lookup_lt_is_Some_2 in Hlen as [b ->].
    cbn [fmap option_fmap option_map]. rewrite decide_True by done. rewrite testbit_set_bit by done. f_equal.
    assert (k / 8 = j / 8)%Z by (pose proof (Z.div_pos j 8); pose proof (Z.div_pos k 8); lia).
    destruct (Z.eqb_spec (k mod 8) (j mod 8)), (Z.eqb_spec k j); lia.
  - rewrite list_lookup_alter_ne by done.
    destruct (Z.eqb_spec k j) as [->|]; [done|]. by rewrite orb_false_r.
Qed.

(** ** The blocks of the encoder *)

Definition window (blocks : gmap byte (list byte)) (w : byte) : list byte :=
  default [] (blocks !! w).

(** Each window holds the bits of the types seen so far, in at most 32 bytes. *)
Definition blocks_inv (blocks : gmap byte (list byte)) (types : list Z) : Prop :=
  forall w, length (window blocks w) <= 32 /\
    forall k, (0 <= k < 256)%Z ->
      bit_of (window blocks w) k = bool_decide (b2z w * 256 + k ∈ types)%Z.

Lemma type_split t :
  is_u16 t ->
  b2z (z2b (Z.shiftr t 8)) = (t / 256)%Z /\ Z.land t 255 = (t mod 256)%Z /\
  (0 <= t / 256 < 256)%Z.
Proof.
  unfold is_u16. intros Ht. rewrite z2b_spec, Z.shiftr_div_pow2 by lia.
  change 255%Z with (Z.ones 8). rewrite Z.land_ones by lia. change (2 ^ 8)%Z with 256%Z.
  assert (0 <= t / 256 < 256)%Z.
  { split; [apply Z.div_pos; lia | apply Z.div_lt_upper_bound; lia]. }
  by rewrite Z.mod_small.
Qed.

Lemma add_type_inv blocks types t :
  is_u16 t -> blocks_inv blocks types -> blocks_inv (add_type blocks t) (types ++ [t]).
Proof.
  intros Ht Hinv w. destruct (type_split t Ht) as (Hw & Hb & Hr).
  pose proof (Z.mod_pos_bound t 256 ltac:(lia)) as Hm.
  pose proof (Z.div_mod t 256 ltac:(lia)) as Hdm.
  unfold add_type. rewrite Hb. unfold window. rewrite lookup_insert. destruct (decide (z2b (Z.shiftr t 8) = w)) as [<-|Hne].
  - simpl. destruct (Hinv (z2b (Z.shiftr t 8))) as [Hlen Hbits].
    fold (window blocks (z2b (Z.shiftr t 8))). set (bits := window _ _) in *.
    assert (t mod 256 / 8 < 32)%Z by (apply Z.div_lt_upper_bound; lia).
    pose proof (Z.div_pos (t mod 256) 8 ltac:(lia) ltac:(lia)).
    split.
    + rewrite length_alter. case_if; [|done]. rewrite length_app, length_replicate.
      bool_arith. lia.
    + intros k Hk. rewrite bit_of_alter; [|lia|lia|].
      * assert (E : bit_of (if length bits <? Z.to_nat (t mod 256 / 8) + 1
           then bits ++ replicate (Z.to_nat (t mod 256 / 8) + 1 - length bits) Byte.x00
           else bits) k = bit_of bits k) by (case_if; [apply bit_of_zeros|done]).
        rewrite E, Hbits, Hw by done. apply eq_true_iff_eq.
        rewrite orb_true_iff, !bool_decide_eq_true, Z.eqb_eq, elem_of_app, list_elem_of_singleton.
        assert (k = t mod 256 <-> t / 256 * 256 + k = t)%Z by lia. tauto.
      * case_if; bool_arith; rewrite ?length_app, ?length_replicate; lia.
  - destruct (Hinv w) as [Hlen Hbits]. fold (window blocks w). split; [done|].
    intros k Hk. rewrite Hbits by done. apply eq_true_iff_eq.
    rewrite !bool_decide_eq_true, elem_of_app, list_elem_of_singleton.
    split; [by left|]. intros [|E]; [done|]. destruct Hne. apply b2z_inj. rewrite Hw.
    pose proof (b2z_range w). lia.
Qed.

Lemma blocks_inv_all types :
  Forall is_u16 types -> blocks_inv (foldl add_type ∅ types) types.
Proof.
  intros Hf. induction types as [|t types IH] using rev_ind.
  - intros w. unfold window. cbn [foldl]. rewrite lookup_empty. simpl. split; [lia|]. by intros k Hk.
  - apply Forall_app in Hf as [Hf [Ht _]%Forall_cons]. rewrite foldl_app. simpl.
    apply add_type_inv; [done | by apply IH].
Qed.

(** ** Decoding *)

(** A bitmap byte and the types it stands for. *)
Lemma elem_of_byte_types block i b t :
  (0 <= block < 256)%Z -> i < 32 ->
  t ∈ byte_types block i b <->
  exists n, (0 <= n < 8)%Z /\ t = (block * 256 + (Z.of_nat i * 8 + n))%Z /\
    Z.testbit (b2z b) (7 - n) = true.
Proof.
  intros Hb Hi. unfold byte_types.
  assert (Hu : forall n, (0 <= n < 8)%Z ->
    u16 (u16 (block * 256) + u16 (Z.of_nat i * 8 + n)) = (block * 256 + (Z.of_nat i * 8 + n))%Z).
  { intros n Hn. rewrite !u16_id; unfold is_u16; rewrite ?u16_id; unfold is_u16; lia. }
  assert (Hel : forall n : Z, n ∈ [0; 1; 2; 3; 4; 5; 6; 7]%Z <-> (0 <= n < 8)%Z).
  { intros n. rewrite !elem_of_cons, elem_of_nil. lia. }
  assert (Hbit : forall n, (0 <= n < 8)%Z ->
    Z.land (b2z b) (Z.shiftr 128 n) <> 0%Z <-> Z.testbit (b2z b) (7 - n) = true).
  { intros n Hn. rewrite shiftr_128 by done. rewrite <- land_pow2_testbit by lia.
    by rewrite negb_true_iff, Z.eqb_neq. }
  destruct (Z.eqb_spec (b2z b) 0) as [E|_].
  - split; [set_solver|]. intros (n & Hn & _ & Hbt). by rewrite E, Z.bits_0 in Hbt.
  - rewrite list_elem_of_fmap. split.
    + intros (n & -> & [Hl Hn%Hel]%list_elem_of_filter). exists n.
      split; [done|]. split; [by apply Hu | by apply Hbit].
    + intros (n & Hn & -> & Hbt). exists n. split; [by rewrite Hu|].
      apply list_elem_of_filter. split; [by apply Hbit | by apply Hel].
Qed.

Lemma byte_types_sorted block i b :
  (0 <= block < 256)%Z -> i < 32 -> StronglySorted Z.lt (byte_types block i b).
Proof.
  intros Hb Hi. unfold byte_types. case_if; [constructor|].
  set (f := λ bit : Z, u16 (u16 (block * 256) + u16 (Z.of_nat i * 8 + bit))).
  assert (Hf : forall n, (0 <= n < 8)%Z -> f n = (block * 256 + (Z.of_nat i * 8 + n))%Z).
  { intros n Hn. unfold f. rewrite !u16_id; unfold is_u16; rewrite ?u16_id; unfold is_u16; lia. }
  clearbody f.
  assert (Hs : StronglySorted (λ x y, 0 <= x < y /\ y < 8)%Z
    (filter (λ bit, Z.land (b2z b) (Z.shiftr 128 bit) ≠ 0%Z) [0; 1; 2; 3; 4; 5; 6; 7]%Z)).
  { apply sorted_filter. repeat constructor; lia. }
  induction Hs as [|x l Hs IH Hfx]; simpl; constructor; [done|].
  apply Forall_fmap. eapply Forall_impl; [exact Hfx|]. intros y Hy. simpl in Hy.
  cbn in Hy |- *. rewrite !Hf by lia. lia.
Qed.

(** A concatenation of sorted lists that follow each other is sorted. *)
Lemma sorted_app_lt (l1 l2 : list Z) m :
  StronglySorted Z.lt l1 -> StronglySorted Z.lt l2 ->
  (forall x, x ∈ l1 -> x < m)%Z -> (forall y, y ∈ l2 -> m <= y)%Z ->
  StronglySorted Z.lt (l1 ++ l2).
Proof.
  intros H1 H2 Hl Hr. apply StronglySorted_app_2; [|done|done].
  intros x y Hx Hy. specialize (Hl x Hx). specialize (Hr y Hy). lia.
Qed.

(** The types of a bitmap, starting at byte [k] of the window. *)
Lemma bitmap_tail_spec block bits k :
  (0 <= block < 256)%Z -> k + length bits <= 32 ->
  let ts := mjoin (imap (λ i, byte_types block (i + k)) bits) in
  StronglySorted Z.lt ts /\
  forall t, t ∈ ts <-> exists n, (0 <= n < 8 * Z.of_nat (length bits))%Z /\
    t = (block * 256 + 8 * Z.of_nat k + n)%Z /\ bit_of bits n = true.
Proof.
  intros Hb. revert k. induction bits as [|b bits IH]; intros k Hk ts.
  { split; [constructor|]. intros t. split; [set_solver|]. intros (n & Hn & _). simpl in Hn. lia. }
  assert (Ets : ts = byte_types block k b ++ mjoin (imap (λ i, byte_types block (i + S k)) bits)).
  { unfold ts. rewrite imap_cons. simpl. f_equal. f_equal. apply imap_ext. intros i x _. simpl.
    f_equal. lia. }
  simpl in Hk. destruct (IH (S k) ltac:(lia)) as [IHs IHe].
  assert (Hel := elem_of_byte_types block k b). split.
  - rewrite Ets. apply sorted_app_lt with (m := (block * 256 + 8 * Z.of_nat (S k))%Z).
    + by apply byte_types_sorted; [|lia].
    + done.
    + intros x (n & Hn & -> & _)%Hel; [lia|done|lia].
    + intros y (n & Hn & -> & _)%IHe. lia.
  - intros t. rewrite Ets, elem_of_app, Hel, IHe by (done || lia). simpl length.
    assert (Hbit0 : forall n, (0 <= n < 8)%Z -> bit_of (b :: bits) n = Z.testbit (b2z b) (7 - n)).
    { intros n Hn. unfold bit_of. rewrite Z.div_small, Z.mod_small by done. done. }
    assert (HbitS : forall n, (0 <= n)%Z -> bit_of (b :: bits) (8 + n) = bit_of bits n).
    { intros n Hn. unfold bit_of. replace (8 + n)%Z with (n + 1 * 8)%Z by lia.
      rewrite Z.div_add, Z.mod_add by lia.
      pose proof (Z.div_pos n 8). rewrite Z2Nat.inj_add by lia. by rewrite Nat.add_1_r. }
    split.
    + intros [(n & Hn & -> & Hbt) | (n & Hn & -> & Hbt)].
      * exists n. rewrite Hbit0 by done. split_and!; [lia..|done].
      * exists (8 + n)%Z. rewrite HbitS by lia. split_and!; [lia..|done].
    + intros (n & Hn & -> & Hbt). destruct (decide (n < 8)%Z).
      * left. exists n. rewrite Hbit0 in Hbt by lia. split_and!; [lia..|done].
      * right. exists (n - 8)%Z. replace n with (8 + (n - 8))%Z in Hbt by lia.
        rewrite HbitS in Hbt by lia. split_and!; [lia..|done].
Qed.

(** The bytes of a window on the wire. *)
Definition block_bytes (seg : byte * list byte) : list byte :=
  seg.1 :: z2b (Z.of_nat (length seg.2)) :: seg.2.

(** The decoder on a sequence of blocks. *)
Lemma decode_blocks segs : forall fuel pre post types,
  Forall (λ seg : byte * list byte, length seg.2 <= 32) segs ->
  length (mjoin (block_bytes <$> segs)) < fuel ->
  decodeTypeBitMaps_loop fuel (pre ++ mjoin (block_bytes <$> segs) ++ post) (length pre)
    (length pre + length (mjoin (block_bytes <$> segs))) types
  = Ok (types ++ mjoin ((λ seg, bitmap_types (b2z seg.1) seg.2) <$> segs)).
Proof.
  induction segs as [|[w bits] segs IH]; intros [|fuel] pre post types Hf Hfuel;
    try lia; cbn [decodeTypeBitMaps_loop].
  { simpl. rewrite Nat.add_0_r, Nat.leb_refl. by rewrite app_nil_r. }
  apply Forall_cons in Hf as [Hlen Hf]. cbn [fst snd] in Hlen.
  rewrite !fmap_cons. rewrite mjoin_cons.
  rewrite fmap_cons, mjoin_cons in Hfuel.
  specialize (IH fuel (pre ++ block_bytes (w, bits)) post (types ++ bitmap_types (b2z w) bits) Hf).
  set (out := mjoin (block_bytes <$> segs)) in *.
  rewrite length_app in Hfuel |- *. rewrite <- (app_assoc _ out post).
  rewrite <- !app_assoc in IH. unfold block_bytes in *. rewrite length_app in IH. simpl in Hfuel, IH |- *.
  destruct (Nat.leb_spec (length pre + S (S (length bits + length out))) (length pre)); [lia|].
  destruct (Nat.ltb_spec (length pre + S (S (length bits + length out))) (length pre + 2)); [lia|].
  rewrite at_mid, at_mid1. cbn [mbind result_bind].
  rewrite z2b_small, Nat2Z.id by lia.
  destruct (Nat.ltb_spec (length pre + S (S (length bits + length out)))
    (length pre + 2 + length bits)); [lia|].
  rewrite (mapM_at_ok _ (length pre + 2) 0) by (rewrite !length_app; simpl; rewrite !length_app; lia).
  cbn [mbind result_bind].
  assert (Ebits : take (length bits) (drop (length pre + 2 + 0)
    (pre ++ w :: z2b (Z.of_nat (length bits)) :: bits ++ out ++ post)) = bits).
  { pose proof (take_drop_mid (pre ++ [w; z2b (Z.of_nat (length bits))]) bits (out ++ post)
      (length pre + 2 + 0) (length bits)) as E. rewrite <- app_assoc in E. apply E; [|done].
    rewrite length_app. simpl. lia. }
  rewrite Ebits.
  replace (length pre + 2 + length bits) with (length pre + S (S (length bits))) by lia.
  replace (length pre + S (S (length bits + length out)))
    with (length pre + S (S (length bits)) + length out) by lia.
  by rewrite IH by lia.
Qed.

(** The blocks the encoder writes, in order. *)
Definition segments (blocks : gmap byte (list byte)) : list (byte * list byte) :=
  omap (λ w, (λ bits, (w, bits)) <$> blocks !! w) block_range.

Lemma encode_segments blocks :
  mjoin (encode_block blocks <$> block_range) = mjoin (block_bytes <$> segments blocks).
Proof.
  unfold segments. induction block_range as [|w ws IH]; [done|].
  rewrite fmap_cons, mjoin_cons, IH, omap_cons. unfold encode_block at 1.
  by destruct (blocks !! w).
Qed.

Lemma decoded_segments blocks :
  mjoin ((λ seg, bitmap_types (b2z seg.1) seg.2) <$> segments blocks)
  = mjoin ((λ w, bitmap_types (b2z w) (window blocks w)) <$> block_range).
Proof.
  unfold segments. induction block_range as [|w ws IH]; [done|].
  rewrite fmap_cons, mjoin_cons, <- IH, omap_cons. unfold window at 1.
  by destruct (blocks !! w).
Qed.

Lemma bit_of_range bits k :
  (0 <= k)%Z -> bit_of bits k = true -> (k < 8 * Z.of_nat (length bits))%Z.
Proof.
  unfold bit_of. intros Hk. destruct (bits !! _) eqn:E; [|done]. intros _.
  apply lookup_lt_Some in E. pose proof (Z.div_mod k 8). pose proof (Z.mod_pos_bound k 8).
  pose proof (Z.div_pos k 8). lia.
Qed.

Lemma bitmap_types_spec block bits :
  (0 <= block < 256)%Z -> length bits <= 32 ->
  StronglySorted Z.lt (bitmap_types block bits) /\
  forall t, t ∈ bitmap_types block bits <->
    exists n, (0 <= n < 256)%Z /\ t = (block * 256 + n)%Z /\ bit_of bits n = true.
Proof.
  intros Hb Hl. destruct (bitmap_tail_spec block bits 0 Hb ltac:(lia)) as [Hs He].
  assert (E : mjoin (imap (λ i, byte_types block (i + 0)) bits) = bitmap_types block bits).
  { unfold bitmap_types. f_equal. apply imap_ext. intros i x _. by rewrite Nat.add_0_r. }
  rewrite E in Hs, He. split; [done|]. intros t. rewrite He. split.
  - intros (n & Hn & -> & Hbt). exists n. split_and!; [lia..|done].
  - intros (n & Hn & -> & Hbt). exists n. apply bit_of_range in Hbt as Hr; [|lia].
    split_and!; [lia..|done].
Qed.

(** The types of the windows [lo .. lo + n - 1], in order. *)
Lemma windows_spec blocks types lo n :
  blocks_inv blocks types -> lo + n <= 256 ->
  let ts := mjoin ((λ w, bitmap_types (b2z w) (window blocks w)) <$>
                   ((λ i, z2b (Z.of_nat i)) <$> seq lo n)) in
  StronglySorted Z.lt ts /\
  forall t, t ∈ ts <-> t ∈ types /\ (256 * Z.of_nat lo <= t < 256 * Z.of_nat (lo + n))%Z.
Proof.
  intros Hinv. revert lo. induction n as [|n IH]; intros lo Hn ts.
  { split; [constructor|]. intros t. split; [set_solver | lia]. }
  destruct (IH (S lo) ltac:(lia)) as [IHs IHe].
  unfold ts. cbn [seq]. rewrite !fmap_cons.
  rewrite mjoin_cons.
  set (rest := mjoin _) in *. set (w := z2b (Z.of_nat lo)).
  assert (Hw : b2z w = Z.of_nat lo) by (apply z2b_small; lia).
  destruct (Hinv w) as [Hlen Hbits]. rewrite Hw in Hbits |- *.
  destruct (bitmap_types_spec (Z.of_nat lo) (window blocks w) ltac:(lia) Hlen) as [Hs He].
  split.
  - apply sorted_app_lt with (m := (256 * Z.of_nat (S lo))%Z); try done.
    + intros x (k & Hk & -> & _)%He. lia.
    + intros y [_ Hy]%IHe. lia.
  - intros t. rewrite elem_of_app, He, IHe. split.
    + intros [(k & Hk & -> & Hb)|[Ht Hr]]; [|split; [done|lia]].
      rewrite Hbits in Hb by done. apply bool_decide_eq_true in Hb. split; [done|lia].
    + intros [Ht Hr]. destruct (decide (t < 256 * Z.of_nat (S lo))%Z) as [Hlt|]; [left|right].
      * exists (t - Z.of_nat lo * 256)%Z. split; [lia|]. split; [lia|].
        rewrite Hbits by lia. apply bool_decide_eq_true.
        by replace (Z.of_nat lo * 256 + (t - Z.of_nat lo * 256))%Z with t by lia.
      * split; [done|lia].
Qed.

Lemma block_range_spec blocks types :
  blocks_inv blocks types ->
  StronglySorted Z.lt (mjoin ((λ w, bitmap_types (b2z w) (window blocks w)) <$> block_range)) /\
  forall t, t ∈ mjoin ((λ w, bitmap_types (b2z w) (window blocks w)) <$> block_range) <->
    t ∈ types /\ (0 <= t < 65280)%Z.
Proof. intros Hinv. exact (windows_spec blocks types 0 255 Hinv ltac:(lia)). Qed.

Lemma segments_bounded blocks types :
  blocks_inv blocks types ->
  Forall (λ seg : byte * list byte, length seg.2 <= 32) (segments blocks).
Proof.
  intros Hinv. unfold segments. generalize block_range. intros ws.
  apply Forall_forall. intros [w bits] (w' & _ & Hb)%list_elem_of_omap.
  apply fmap_Some in Hb as (bits' & Hb & [= -> ->]). destruct (Hinv w') as [Hl _].
  unfold window in Hl. by rewrite Hb in Hl.
Qed.

Lemma decoded_segments_canon blocks types :
  Forall is_u16 types -> blocks_inv blocks types ->
  mjoin ((λ seg, bitmap_types (b2z seg.1) seg.2) <$> segments blocks) = canon_types types.
Proof.
  intros Hf Hinv. rewrite decoded_segments.
  destruct (block_range_spec blocks types Hinv) as [Hs He].
  apply strictly_sorted_ext; [done | apply canon_types_sorted |].
  intros t. rewrite elem_of_canon_types, He.
  split; [intros [? ?]; split; [done|lia]|]. intros [Ht Hlt]. split; [done|].
  rewrite Forall_forall in Hf. specialize (Hf t Ht). unfold is_u16 in Hf. lia.
Qed.

Lemma encodeTypeBitMaps_segments types :
  types <> [] ->
  encodeTypeBitMaps types = mjoin (block_bytes <$> segments (foldl add_type ∅ types)).
Proof. intros H. unfold encodeTypeBitMaps. rewrite decide_False by done. apply encode_segments. Qed.

(** Decoding what the encoder wrote, inside any message. *)
Lemma decode_encode_bitmap types pre post :
  Forall is_u16 types ->
  decodeTypeBitMaps (pre ++ encodeTypeBitMaps types ++ post) (length pre)
    (length pre + length (encodeTypeBitMaps types)) = Ok (canon_types types).
Proof.
  intros Hf. destruct (decide (types = [])) as [->|Hne].
  { unfold decodeTypeBitMaps. simpl. by rewrite Nat.add_0_r, Nat.sub_diag, Nat.leb_refl. }
  pose proof (blocks_inv_all types Hf) as Hinv.
  rewrite encodeTypeBitMaps_segments by done. unfold decodeTypeBitMaps.
  rewrite decode_blocks; [|by eapply segments_bounded|lia].
  by rewrite (decoded_segments_canon _ types).
Qed.

(** C24: NSEC type bitmaps.  Decoding what [encodeTypeBitMaps] wrote, in any message,
    gives the types in strictly ascending order, and exactly those below 65280: the
    types of the last window are lost. *)
Theorem type_bitmaps_roundtrip types pre post :
  Forall is_u16 types ->
  exists types', decodeTypeBitMaps (pre ++ encodeTypeBitMaps types ++ post) (length pre)
      (length pre + length (encodeTypeBitMaps types)) = Ok types' /\
    StronglySorted Z.lt types' /\ forall t, t ∈ types' <-> t ∈ types /\ (t < 65280)%Z.
Proof.
  intros Hf. exists (canon_types types).
  split_and!; [by apply decode_encode_bitmap | apply canon_types_sorted | apply elem_of_canon_types].
Qed.
