(* ===== verification/WireRoundtrip.v ===== *)
(** * The wire format round trip: UnpackMessage inverts Pack

    [canon_msg m] is the message a receiver sees: names in their normal form
    with a final dot, IPv4 addresses of A records in 4-byte form, the fields of
    the record's own type only, and the header counts of the sections.  The
    codec of an item (a question, a resource record) is an instance of the class
    [WireCodec]; the lists and the message are proved against the class. *)

From S2P Require Export Bitmap.

(** ** What a receiver sees *)

Definition canon_question (q : Question) : Question :=
  mkQuestion (normalizeName (q_Name q)) (q_Type q) (q_Class q).

Definition canon_text (text : list gostring) : list gostring :=
  if decide (text = []) then [[]] else text.

(** The RDATA fields of the type of [rr], set in [hdr]. *)
Definition canon_rdata (rr hdr : ResourceRecord) : ResourceRecord :=
  if (rr_Type rr =? TypeA)%Z then set_IP (default [] (To4 (rr_IP rr))) hdr
  else if (rr_Type rr =? TypeAAAA)%Z then set_IP (default [] (To16 (rr_IP rr))) hdr
  else if (rr_Type rr =? TypePTR)%Z || (rr_Type rr =? TypeCNAME)%Z || (rr_Type rr =? TypeNS)%Z
  then set_Target (normalizeName (rr_Target rr)) hdr
  else if (rr_Type rr =? TypeSRV)%Z then
    set_Target (normalizeName (rr_Target rr))
      (set_SRV (rr_Priority rr) (rr_Weight rr) (rr_Port rr) hdr)
  else if (rr_Type rr =? TypeTXT)%Z then set_Text (canon_text (rr_Text rr)) hdr
  else if (rr_Type rr =? TypeNSEC)%Z then
    set_NSEC (normalizeName (rr_NextDomain rr)) (canon_types (rr_TypeBitMaps rr)) hdr
  else set_RawData (rr_RawData rr) hdr.

Definition canon_rr (rr : ResourceRecord) : ResourceRecord :=
  canon_rdata rr (newRR (normalizeName (rr_Name rr)) (rr_Type rr) (rr_Class rr mod 32768)
    (rr_TTL rr) (rr_CacheFlush rr || Z.testbit (rr_Class rr) 15)).

Definition canon_msg (m : Message) : Message :=
  mkMessage
    (mkHeader (m_ID m) (m_Flags m) (Z.of_nat (length (m_Questions m)))
       (Z.of_nat (length (m_Answers m))) (Z.of_nat (length (m_Authorities m)))
       (Z.of_nat (length (m_Additionals m))))
    (canon_question <$> m_Questions m) (canon_rr <$> m_Answers m)
    (canon_rr <$> m_Authorities m) (canon_rr <$> m_Additionals m).

(** The items whose fields fit their widths and whose names have no empty label
    and at most 128 labels. *)
Definition question_packable (q : Question) : Prop :=
  name_ok (q_Name q) = true /\ is_u16 (q_Type q) /\ is_u16 (q_Class q).

Definition rr_packable (rr : ResourceRecord) : Prop :=
  RR_ints_ok rr /\ name_ok (rr_Name rr) = true /\
  (rr_Type rr ∈ [TypePTR; TypeCNAME; TypeNS; TypeSRV] -> name_ok (rr_Target rr) = true) /\
  (rr_Type rr = TypeNSEC -> name_ok (rr_NextDomain rr) = true).

Definition msg_packable (m : Message) : Prop :=
  is_u16 (m_ID m) /\ is_u16 (m_Flags m) /\
  Forall question_packable (m_Questions m) /\ Forall rr_packable (m_Answers m) /\
  Forall rr_packable (m_Authorities m) /\ Forall rr_packable (m_Additionals m).

#[export] Instance question_packable_dec q : Decision (question_packable q).
Proof. unfold question_packable. apply _. Defined.
#[export] Instance rr_packable_dec rr : Decision (rr_packable rr).
Proof. unfold rr_packable, RR_ints_ok. apply _. Defined.
#[export] Instance msg_packable_dec m : Decision (msg_packable m).
Proof. unfold msg_packable. apply _. Defined.

(** ** Writers that only lengthen the buffer *)

Definition grows (m : writer unit) : Prop :=
  forall st st', m st = (st', Ok ()) -> length (w_buf st) <= length (w_buf st').

Lemma appends_run (m : writer unit) buf comp st' r :
  appends m -> m (WState buf comp) = (st', r) ->
  exists out, w_buf st' = buf ++ out /\
    forall buf2, length buf2 = length buf ->
      m (WState buf2 comp) = (WState (buf2 ++ out) (w_comp st'), r).
Proof.
  intros Hm H. destruct (Hm buf buf comp eq_refl) as (out & c' & r' & E & _).
  rewrite H in E. injection E as -> ->. exists out. split; [done|].
  intros buf2 Hl. destruct (Hm buf buf2 comp (eq_sym Hl)) as (out2 & c2 & r2 & E1 & E2).
  rewrite H in E1. injection E1 as E1 <- <-. apply app_inv_head in E1 as <-. exact E2.
Qed.

Lemma appends_grows (m : writer unit) : appends m -> grows m.
Proof.
  intros Hm [buf comp] st' H. apply appends_run in H as (out & -> & _); [|done].
  rewrite length_app. simpl. lia.
Qed.

Lemma pack_text_appends text : appends (pack_text text).
Proof.
  induction text as [|s text IH]; cbn [pack_text]; [auto with mdns|].
  case_if; auto 10 with mdns.
Qed.

#[export] Hint Resolve appends_grows pack_text_appends : mdns.

Lemma Question_pack_appends q : appends (Question_pack q).
Proof. unfold Question_pack. auto 10 with mdns. Qed.

Lemma pack_rdata_appends rr : appends (pack_rdata rr).
Proof.
  unfold pack_rdata. case_if; [case_match; auto with mdns|].
  case_if; [case_match; auto with mdns|].
  case_if; [auto with mdns|]. case_if; [auto 10 with mdns|].
  case_if; [case_decide; auto with mdns|]. case_if; auto with mdns.
Qed.

#[export] Hint Resolve Question_pack_appends pack_rdata_appends : mdns.

(** ** RR_pack without the back-patch *)

(** The bytes of a record between its name and its RDATA. *)
Definition rr_fixed (rr : ResourceRecord) (rdlen : Z) : list byte :=
  be16 (rr_Type rr) ++ be16 (fullClass rr) ++ be32 (rr_TTL rr) ++ be16 rdlen.

Lemma put16_app b out pos z a1 a2 :
  pos = length b ->
  <[pos + 1 := z2b z]> (<[pos := z2b (Z.shiftr z 8)]> (b ++ a1 :: a2 :: out)) = b ++ be16 z ++ out.
Proof.
  intros ->. rewrite (insert_app_r_alt b _ (length b)) by lia.
  rewrite (insert_app_r_alt b _ (length b + 1)) by lia.
  replace (length b + 1 - length b) with 1 by lia. by rewrite Nat.sub_diag.
Qed.

(** [rr.pack] writes what it would write if it knew RDLENGTH beforehand. *)
Lemma RR_pack_run rr buf comp st' :
  RR_pack rr (WState buf comp) = (st', Ok ()) ->
  exists st1 out,
    writeName (rr_Name rr) (WState buf comp) = (st1, Ok ()) /\
    let rdlen := u16 (Z.of_nat (length out)) in
    w_buf st' = w_buf st1 ++ rr_fixed rr rdlen ++ out /\
    pack_rdata rr (WState (w_buf st1 ++ rr_fixed rr rdlen) (w_comp st1)) = (st', Ok ()).
Proof.
  unfold RR_pack. intros H.
  apply writer_bind_Ok in H as (st1 & [] & Hname & H).
  do 3 (apply writer_bind_Ok in H as (? & [] & ->%append_bytes_Ok & H); cbn [w_buf w_comp] in H).
  apply writer_bind_Ok in H as (? & pos & [-> ->]%buf_len_Ok & H). cbn [w_buf w_comp] in H.
  apply writer_bind_Ok in H as (? & [] & ->%append_bytes_Ok & H). cbn [w_buf w_comp] in H.
  apply writer_bind_Ok in H as (? & start & [-> ->]%buf_len_Ok & H). cbn [w_buf w_comp] in H.
  apply writer_bind_Ok in H as (st2 & [] & Hrd & H).
  apply writer_bind_Ok in H as (? & end_ & [-> ->]%buf_len_Ok & H).
  injection H as <-. apply appends_run in Hrd as (out & Hbuf & Hrun); [|auto with mdns].
  exists st1, out. split; [done|]. cbn [w_buf w_comp].
  set (pre := ((w_buf st1 ++ _) ++ _) ++ _) in *.
  assert (Hpre : forall z, w_buf st1 ++ rr_fixed rr z = pre ++ be16 z).
  { intros z. unfold pre, rr_fixed. by rewrite <- !app_assoc. }
  assert (E : length (w_buf st2) - length (pre ++ [z2b 0; z2b 0]) = length out).
  { rewrite Hbuf, length_app. lia. }
  rewrite E. rewrite Hbuf, <- app_assoc. cbn [app].
  rewrite put16_app by done. split; [by rewrite app_assoc, <- Hpre, <- app_assoc|].
  rewrite Hpre, Hrun by (by rewrite !length_app). by rewrite <- app_assoc.
Qed.

Lemma rr_fixed_length rr z : length (rr_fixed rr z) = 10.
Proof. done. Qed.

Lemma RR_pack_grows rr : grows (RR_pack rr).
Proof.
  intros [buf comp] st' H. apply RR_pack_run in H as (st1 & out & Hn & -> & _).
  apply (appends_grows _ (writeName_appends _)) in Hn. cbn [w_buf] in *.
  rewrite !length_app. lia.
Qed.

(** ** TXT strings *)

Definition txt_bytes (s : gostring) : list byte := z2b (Z.of_nat (length s)) :: s.

Lemma pack_text_Ok text st st' :
  pack_text text st = (st', Ok ()) ->
  st' = WState (w_buf st ++ mjoin (txt_bytes <$> text)) (w_comp st) /\
  Forall (λ s, length s <= 255) text.
Proof.
  revert st. induction text as [|s text IH]; intros st H; cbn [pack_text] in H.
  { injection H as <-. simpl. rewrite app_nil_r. by destruct st. }
  case_if_in H; [done|]. bool_arith.
  do 2 (apply writer_bind_Ok in H as (? & [] & ->%append_bytes_Ok & H); cbn [w_buf w_comp] in H).
  apply IH in H as [-> Hf]. cbn [w_buf w_comp]. split; [|by constructor].
  rewrite fmap_cons, mjoin_cons. unfold txt_bytes at 2. by rewrite <- !app_assoc.
Qed.

Lemma unpack_text_bytes text : forall fuel pre post acc,
  Forall (λ s, length s <= 255) text ->
  length (mjoin (txt_bytes <$> text)) < fuel ->
  unpack_text fuel (pre ++ mjoin (txt_bytes <$> text) ++ post) (length pre)
    (length pre + length (mjoin (txt_bytes <$> text))) acc = Ok (acc ++ text).
Proof.
  induction text as [|s text IH]; intros [|fuel] pre post acc Hf Hfuel; try lia;
    cbn [unpack_text].
  { simpl. rewrite Nat.add_0_r, Nat.leb_refl. by rewrite app_nil_r. }
  apply Forall_cons in Hf as [Hs Hf]. rewrite fmap_cons, mjoin_cons in Hfuel |- *.
  specialize (IH fuel (pre ++ txt_bytes s) post (acc ++ [s]) Hf).
  set (out := mjoin (txt_bytes <$> text)) in *.
  rewrite length_app in Hfuel |- *. rewrite <- (app_assoc _ out post).
  rewrite <- !app_assoc in IH. unfold txt_bytes in *. rewrite length_app in IH.
  simpl in Hfuel, IH |- *.
  destruct (Nat.leb_spec (length pre + S (length s + length out)) (length pre)); [lia|].
  rewrite at_mid. cbn [mbind result_bind]. rewrite z2b_small, Nat2Z.id by lia.
  destruct (Nat.ltb_spec (length pre + S (length s + length out)) (length pre + 1 + length s)); [lia|].
  pose proof (slice_app_mid (pre ++ [z2b (Z.of_nat (length s))]) s (out ++ post)
    (length pre + 1) (length pre + 1 + length s)) as E.
  rewrite length_app, <- app_assoc in E. simpl in E. rewrite E by lia.
  cbn [mbind result_bind].
  replace (length pre + 1 + length s) with (length pre + S (length s)) by lia.
  replace (length pre + S (length s + length out)) with (length pre + S (length s) + length out) by lia.
  apply IH. lia.
Qed.

(** ** RDATA *)

Lemma writeName_Ok name buf comp st' :
  name_ok name = true -> comp_ok buf comp -> writeName name (WState buf comp) = (st', Ok ()) ->
  exists out, w_buf st' = buf ++ out /\ 1 <= length out /\ comp_ok (w_buf st') (w_comp st') /\
    forall rest, readName (w_buf st' ++ rest) (length buf)
                 = Ok (normalizeName name, length (w_buf st')).
Proof.
  intros Hok Hcomp H. pose proof Hok as [Hne _]%name_ok_spec.
  pose proof H as (out & j & Hbuf & Hn & _ & _ & Hc)%writeName_spec; [|done|done].
  exists out. split_and!; [done | | done |].
  - apply name_at_end in Hn. rewrite Hbuf, length_app in Hn. lia.
  - intros rest. by apply (writeName_readName name buf comp).
Qed.

Lemma type_tests rr :
  (rr_Type rr =? TypePTR)%Z || (rr_Type rr =? TypeCNAME)%Z || (rr_Type rr =? TypeNS)%Z
    || (rr_Type rr =? TypeSRV)%Z = true ->
  rr_Type rr ∈ [TypePTR; TypeCNAME; TypeNS; TypeSRV].
Proof. rewrite !orb_true_iff, !Z.eqb_eq, type_in_targets. tauto. Qed.

(** What a receiver makes of the bytes a writer [m] appends as the RDATA of [rr]. *)
Definition rdata_spec (rr hdr : ResourceRecord) (m : writer unit) : Prop :=
  forall buf comp st', comp_ok buf comp -> m (WState buf comp) = (st', Ok ()) ->
  exists out, w_buf st' = buf ++ out /\ comp_ok (w_buf st') (w_comp st') /\
    forall rest, unpackRDATA hdr (w_buf st' ++ rest) (length buf) (length out)
                 = Ok (canon_rdata rr hdr).

(** Enters the branch of [unpackRDATA] for the type the context determines. *)
Ltac enter_rdata :=
  unfold unpackRDATA, canon_rdata;
  match goal with
  | H : rr_Type ?hdr = rr_Type ?rr |- context [rr_Type ?hdr] => rewrite !H
  end;
  repeat match goal with
  | H : (rr_Type _ =? _)%Z = _ |- _ => rewrite !H
  | H : (_ || _)%bool = _ |- _ => rewrite !H
  end;
  match goal with
  | |- context [if length ?l <? ?n then _ else _] =>
      destruct (Nat.ltb_spec (length l) n); [rewrite ?length_app in *; lia|]
  end.

Section Rdata.
  Context (rr hdr : ResourceRecord) (Hrr : rr_packable rr) (Htype : rr_Type hdr = rr_Type rr).

(** RDATA that is a fixed sequence of bytes. *)
Lemma rdata_bytes_spec bs :
  (forall pre rest, unpackRDATA hdr (pre ++ bs ++ rest) (length pre) (length bs)
                    = Ok (canon_rdata rr hdr)) ->
  rdata_spec rr hdr (append_bytes bs).
Proof.
  intros Hun buf comp st' Hc ->%append_bytes_Ok. exists bs.
  split_and!; [done | by apply comp_ok_app|]. intros rest. cbn [w_buf]. rewrite <- app_assoc.
  apply Hun.
Qed.

Lemma rdata_address_spec (f : IP -> option IP) n e t :
  (forall ip a, f ip = Some a -> length a = n) ->
  (t = TypeA /\ n = 4 /\ f = To4) \/ (t = TypeAAAA /\ n = 16 /\ f = To16) ->
  rr_Type rr = t ->
  rdata_spec rr hdr
    match f (rr_IP rr) with Some a => append_bytes a | None => fail_with (e (rr_IP rr)) end.
Proof.
  intros Hlen Hcase Ht. destruct (f (rr_IP rr)) as [a|] eqn:E; [|by intros ? ? ? ?].
  apply Hlen in E as Hl. apply rdata_bytes_spec. intros pre rest.
  unfold unpackRDATA, canon_rdata. rewrite !Htype, !Ht, Hl.
  destruct (Nat.ltb_spec (length (pre ++ a ++ rest)) (length pre + n));
    [rewrite !length_app in *; lia|].
  destruct Hcase as [(-> & -> & ->)|(-> & -> & ->)]; simpl;
    rewrite (slice_app_mid pre a rest) by lia; cbn [mbind result_bind]; by rewrite E.
Qed.

Lemma rdata_target_spec :
  (rr_Type rr =? TypePTR)%Z || (rr_Type rr =? TypeCNAME)%Z || (rr_Type rr =? TypeNS)%Z = true ->
  (rr_Type rr =? TypeA)%Z = false -> (rr_Type rr =? TypeAAAA)%Z = false ->
  rdata_spec rr hdr (writeName (rr_Target rr)).
Proof.
  intros Ht HA H4 buf comp st' Hc H. destruct Hrr as (_ & _ & Htgt & _).
  apply writeName_Ok in H as (out & Hbuf & Hl & Hc' & Hread); [|apply Htgt, type_tests; by rewrite Ht|done].
  exists out. split_and!; [done..|]. intros rest. rewrite Hbuf in *. enter_rdata.
  by rewrite Hread.
Qed.

Lemma rdata_srv_spec :
  rr_Type rr = TypeSRV ->
  rdata_spec rr hdr (_ ← append_bytes (be16 (rr_Priority rr));
                     _ ← append_bytes (be16 (rr_Weight rr));
                     _ ← append_bytes (be16 (rr_Port rr));
                     writeName (rr_Target rr)).
Proof.
  intros Ht buf comp st' Hc H. destruct Hrr as ((_ & _ & _ & Hp & Hw & Ho & _) & _ & Htgt & _).
  do 3 (apply writer_bind_Ok in H as (? & [] & ->%append_bytes_Ok & H); cbn [w_buf w_comp] in H).
  set (b3 := ((buf ++ _) ++ _) ++ _) in *.
  assert (Hb3 : b3 = buf ++ be16 (rr_Priority rr) ++ be16 (rr_Weight rr) ++ be16 (rr_Port rr))
    by (unfold b3; by rewrite <- !app_assoc).
  apply writeName_Ok in H as (out & Hbuf & Hl & Hc' & Hread);
    [|apply Htgt; rewrite Ht; set_solver | by unfold b3; do 3 apply comp_ok_app].
  exists (be16 (rr_Priority rr) ++ be16 (rr_Weight rr) ++ be16 (rr_Port rr) ++ out).
  split_and!; [by rewrite Hbuf, Hb3, <- !app_assoc | done |]. intros rest.
  specialize (Hread rest). rewrite Hbuf in *. rewrite Hb3, !length_app in Hread.
  rewrite Hb3. rewrite <- !app_assoc in *. simpl length in *.
  unfold unpackRDATA, canon_rdata. rewrite !Htype, !Ht.
  destruct (Nat.ltb_spec (length (buf ++ be16 (rr_Priority rr) ++ be16 (rr_Weight rr)
    ++ be16 (rr_Port rr) ++ out ++ rest)) (length buf + S (S (S (S (S (S (length out))))))));
    [rewrite !length_app in *; simpl in *; lia|].
  simpl (_ =? _)%Z. cbn [orb]. destruct (Nat.ltb_spec (S (S (S (S (S (S (length out))))))) 7); [lia|].
  rewrite (get16_be16 buf _ _ (length buf)) by done. cbn [mbind result_bind].
  rewrite (app_assoc buf). rewrite (get16_be16 (buf ++ _) _ _ (length buf + 2)) by (done || by rewrite length_app).
  cbn [mbind result_bind]. rewrite app_assoc.
  rewrite (get16_be16 ((buf ++ _) ++ _) _ _ (length buf + 4)) by (done || by rewrite !length_app, <- Nat.add_assoc).
  cbn [mbind result_bind]. rewrite <- !app_assoc.
  change (2 + (2 + 2)) with 6 in Hread. by rewrite Hread.
Qed.

Lemma rdata_text_spec :
  rr_Type rr = TypeTXT ->
  rdata_spec rr hdr (if decide (rr_Text rr = []) then append_bytes [z2b 0] else pack_text (rr_Text rr)).
Proof.
  intros Ht.
  assert (Hun : forall text pre rest, Forall (λ s, length s <= 255) text ->
    canon_text (rr_Text rr) = text ->
    unpackRDATA hdr (pre ++ mjoin (txt_bytes <$> text) ++ rest) (length pre)
      (length (mjoin (txt_bytes <$> text))) = Ok (canon_rdata rr hdr)).
  { intros text pre rest Hf Hct. unfold unpackRDATA, canon_rdata. rewrite !Htype, !Ht.
    set (out := mjoin (txt_bytes <$> text)).
    destruct (Nat.ltb_spec (length (pre ++ out ++ rest)) (length pre + length out));
      [rewrite !length_app in *; lia|].
    simpl (_ =? _)%Z. cbn [orb]. unfold out. rewrite unpack_text_bytes; [|done|lia].
    cbn [mbind result_bind app]. by rewrite Hct. }
  unfold canon_text in Hun. destruct (decide (rr_Text rr = [])) as [E|E].
  - apply rdata_bytes_spec. intros pre rest. apply (Hun [[]]); [|done].
    apply Forall_cons. split; [simpl; lia | done].
  - intros buf comp st' Hc [-> Hf]%pack_text_Ok. cbn [w_buf w_comp].
    exists (mjoin (txt_bytes <$> rr_Text rr)). split_and!; [done | by apply comp_ok_app |].
    intros rest. rewrite <- app_assoc. by apply Hun.
Qed.

Lemma rdata_nsec_spec :
  rr_Type rr = TypeNSEC ->
  rdata_spec rr hdr (_ ← writeName (rr_NextDomain rr);
                     append_bytes (encodeTypeBitMaps (rr_TypeBitMaps rr))).
Proof.
  intros Ht buf comp st' Hc H. destruct Hrr as ((_ & _ & _ & _ & _ & _ & Hty) & _ & _ & Hnext).
  apply writer_bind_Ok in H as (st1 & [] & H & ->%append_bytes_Ok).
  apply writeName_Ok in H as (out & Hbuf & Hl & Hc' & Hread); [|by apply Hnext|done].
  cbn [w_buf w_comp]. set (bm := encodeTypeBitMaps (rr_TypeBitMaps rr)).
  exists (out ++ bm). split_and!; [by rewrite Hbuf, app_assoc | by apply comp_ok_app |].
  intros rest. specialize (Hread (bm ++ rest)). rewrite app_assoc in Hread.
  unfold unpackRDATA, canon_rdata. rewrite !Htype, !Ht.
  assert (Hend : length buf + length (out ++ bm) = length (w_buf st1) + length bm).
  { rewrite Hbuf, !length_app. lia. }
  rewrite Hend. destruct (Nat.ltb_spec (length ((w_buf st1 ++ bm) ++ rest))
    (length (w_buf st1) + length bm)); [rewrite !length_app in *; lia|].
  simpl (_ =? _)%Z. cbn [orb]. rewrite Hread. cbn [mbind result_bind].
  rewrite <- app_assoc. unfold bm. by rewrite decode_encode_bitmap.
Qed.
End Rdata.

Lemma pack_rdata_spec rr hdr :
  rr_packable rr -> rr_Type hdr = rr_Type rr -> rdata_spec rr hdr (pack_rdata rr).
Proof.
  intros Hrr Ht. unfold pack_rdata.
  destruct (rr_Type rr =? TypeA)%Z eqn:HA.
  { apply Z.eqb_eq in HA. eapply (rdata_address_spec _ _ Ht _ _ ErrARecordIP _ To4_length); [by left | done]. }
  destruct (rr_Type rr =? TypeAAAA)%Z eqn:H4.
  { apply Z.eqb_eq in H4.
    eapply (rdata_address_spec _ _ Ht _ _ ErrAAAARecordIP _ To16_length); [by right | done]. }
  destruct ((rr_Type rr =? TypePTR)%Z || _ || _) eqn:Hp; [by apply rdata_target_spec|].
  destruct (rr_Type rr =? TypeSRV)%Z eqn:HS; [by apply (rdata_srv_spec _ _ Hrr Ht), Z.eqb_eq|].
  destruct (rr_Type rr =? TypeTXT)%Z eqn:HT; [by apply (rdata_text_spec _ _ Ht), Z.eqb_eq|].
  destruct (rr_Type rr =? TypeNSEC)%Z eqn:HN; [by apply (rdata_nsec_spec _ _ Hrr Ht), Z.eqb_eq|].
  apply rdata_bytes_spec. intros pre rest. unfold unpackRDATA, canon_rdata.
  rewrite !Ht, HA, H4, Hp, HS, HT, HN.
  destruct (Nat.ltb_spec (length (pre ++ rr_RawData rr ++ rest))
    (length pre + length (rr_RawData rr))); [rewrite !length_app in *; lia|].
  by rewrite slice_app_mid.
Qed.

(** ** Codecs *)

(** What a message format promises of an item: its writer only lengthens the
    buffer, by at least one byte, and its reader gets back [canon a] from what
    the writer wrote, whatever follows. *)
Class WireCodec {A B} (pack : A -> writer unit) (valid : A -> Prop)
    (read : list byte -> nat -> nat -> result (B * nat)) (canon : A -> B) : Prop := {
  codec_grows a : grows (pack a);
  codec_roundtrip a buf comp st' i rest :
    valid a -> comp_ok buf comp -> pack a (WState buf comp) = (st', Ok ()) ->
    (Z.of_nat (length (w_buf st')) < 65536)%Z ->
    exists out, w_buf st' = buf ++ out /\ 1 <= length out /\ comp_ok (w_buf st') (w_comp st') /\
      read (w_buf st' ++ rest) (length buf) i = Ok (canon a, length (w_buf st'))
}.

(** The loop over a section, for any item reader; [i] is the item's number. *)
Fixpoint read_all {B} (read : list byte -> nat -> nat -> result (B * nat))
    (data : list byte) (offset i count : nat) (acc : list B) : result (list B * nat) :=
  match count with
  | 0 => Ok (acc, offset)
  | S count =>
      '(x, offset) ← read data offset i;
      read_all read data offset (S i) count (acc ++ [x])
  end.

Lemma readQuestions_read_all data offset i count qs :
  readQuestions data offset count qs
  = read_all (λ data offset _, readQuestion data offset) data offset i count qs.
Proof.
  revert offset i qs. induction count as [|count IH]; intros offset i qs; [done|].
  cbn [readQuestions read_all]. destruct (readQuestion data offset) as [[q o]|]; [|done].
  cbn [mbind result_bind]. apply IH.
Qed.

Lemma readRRs_read_all data offset i count rrs :
  readRRs_loop data offset i count rrs = read_all readRR data offset i count rrs.
Proof.
  revert offset i rrs. induction count as [|count IH]; intros offset i rrs; [done|].
  cbn [readRRs_loop read_all]. destruct (readRR data offset i) as [[r o]|]; [|done].
  cbn [mbind result_bind]. apply IH.
Qed.

Section Sections.
  Context {A B} (pack : A -> writer unit) (valid : A -> Prop)
    (read : list byte -> nat -> nat -> result (B * nat)) (canon : A -> B)
    `{!WireCodec pack valid read canon}.

Lemma pack_all_grows xs : grows (pack_all pack xs).
Proof.
  induction xs as [|x xs IH]; intros st st' H; [by injection H as <-|].
  apply writer_bind_Ok in H as (st1 & [] & H1%codec_grows & H%IH). lia.
Qed.

(** A section of a message: it is read back item by item, and it is longer than
    the number of its items. *)
Lemma pack_all_spec xs : forall buf comp st',
  Forall valid xs -> comp_ok buf comp ->
  pack_all pack xs (WState buf comp) = (st', Ok ()) ->
  (Z.of_nat (length (w_buf st')) < 65536)%Z ->
  exists out, w_buf st' = buf ++ out /\ length xs <= length out /\
    comp_ok (w_buf st') (w_comp st') /\
    forall i rest acc, read_all read (w_buf st' ++ rest) (length buf) i (length xs) acc
      = Ok (acc ++ (canon <$> xs), length (w_buf st')).
Proof.
  induction xs as [|x xs IH]; intros buf comp st' Hv Hc H Hlt; cbn [pack_all] in H.
  { injection H as <-. exists []. cbn [w_buf w_comp]. rewrite app_nil_r.
    split_and!; [done..|]. intros i rest acc. simpl. by rewrite app_nil_r. }
  apply Forall_cons in Hv as [Hx Hv].
  apply writer_bind_Ok in H as ([b1 c1] & [] & H1 & H). cbn [w_buf w_comp] in *.
  pose proof (pack_all_grows _ _ _ H) as Hg. cbn [w_buf] in Hg.
  pose proof (λ i rest, codec_roundtrip _ _ _ _ i rest Hx Hc H1 ltac:(cbn [w_buf]; lia)) as Hrd.
  cbn [w_buf w_comp] in Hrd.
  destruct (Hrd 0 []) as (out1 & Hb1 & Hl1 & Hc1 & _).
  destruct (IH b1 c1 st' Hv Hc1 H Hlt) as (out2 & Hb2 & Hl2 & Hc2 & Hall).
  exists (out1 ++ out2). split_and!.
  - by rewrite Hb2, Hb1, app_assoc.
  - rewrite length_app. simpl. lia.
  - done.
  - intros i rest acc. cbn [read_all length]. destruct (Hrd i (out2 ++ rest)) as (_ & _ & _ & _ & E).
    rewrite Hb2 at 1. rewrite <- app_assoc, E. cbn [mbind result_bind].
    rewrite Hall. by rewrite <- app_assoc.
Qed.
End Sections.

#[export] Instance question_codec :
  WireCodec Question_pack question_packable (λ data offset _, readQuestion data offset) canon_question.
Proof.
  split; [auto with mdns|].
  intros q buf comp st' i rest (Hn & Ht & Hcl) Hc H _. unfold Question_pack in H.
  apply writer_bind_Ok in H as (st1 & [] & H & H2).
  apply writer_bind_Ok in H2 as (? & [] & ->%append_bytes_Ok & ->%append_bytes_Ok).
  apply writeName_Ok in H as (out & Hb & Hl & Hc' & Hrd); [|done|done]. cbn [w_buf w_comp].
  exists (out ++ be16 (q_Type q) ++ be16 (q_Class q)). split_and!.
  - by rewrite Hb, <- !app_assoc.
  - rewrite length_app. lia.
  - by do 2 apply comp_ok_app.
  - unfold readQuestion. rewrite <- !app_assoc, Hrd. cbn [wrap_err mbind result_bind].
    rewrite !length_app. simpl length.
    destruct (Nat.ltb_spec (length (w_buf st1) + (2 + (2 + length rest))) (length (w_buf st1) + 4)); [lia|].
    rewrite (get16_be16 (w_buf st1) _ _ (length (w_buf st1))) by done. cbn [mbind result_bind]. rewrite app_assoc.
    rewrite (get16_be16 (w_buf st1 ++ _) _ _ (length (w_buf st1) + 2)) by (done || by rewrite length_app).
    cbn [mbind result_bind]. done.
Qed.

(** The class field on the wire: the top bit is the cache-flush bit. *)
Lemma fullClass_spec rr :
  is_u16 (rr_Class rr) ->
  is_u16 (fullClass rr) /\ (fullClass rr mod 32768 = rr_Class rr mod 32768)%Z /\
  Z.testbit (fullClass rr) 15 = rr_CacheFlush rr || Z.testbit (rr_Class rr) 15.
Proof.
  intros Hc. unfold fullClass. destruct (rr_CacheFlush rr); [|done].
  change cacheFlushBit with (2 ^ 15)%Z. split_and!.
  - unfold is_u16 in *. split; [apply Z.lor_nonneg; lia|].
    change 65536%Z with (2 ^ 16)%Z. apply Z.log2_lt_cancel.
    rewrite Z.log2_lor, Z.log2_pow2, Z.log2_pow2 by lia.
    apply Z.max_lub_lt; [|done]. destruct (decide (rr_Class rr = 0%Z)) as [->|]; [done|].
    apply Z.log2_lt_pow2; [lia|]. change (2 ^ 16)%Z with 65536%Z. lia.
  - change 32768%Z with (2 ^ 15)%Z. apply Z.bits_inj'. intros n Hn.
    destruct (decide (n < 15)%Z).
    + rewrite !Z.mod_pow2_bits_low, Z.lor_spec, Z.pow2_bits_eqb by lia.
      destruct (Z.eqb_spec 15 n); [lia|]. by rewrite orb_false_r.
    + by rewrite !Z.mod_pow2_bits_high by lia.
  - rewrite Z.lor_spec, Z.pow2_bits_true by lia. by rewrite orb_true_r.
Qed.

(** The header of a record, read back. *)
Lemma readRR_fixed rr name pos b out rest i :
  is_u16 (rr_Type rr) -> is_u16 (rr_Class rr) -> is_u32 (rr_TTL rr) ->
  (Z.of_nat (length out) < 65536)%Z ->
  let data := b ++ rr_fixed rr (Z.of_nat (length out)) ++ out ++ rest in
  readName data pos = Ok (name, length b) ->
  readRR data pos i =
    (rr' ← unpackRDATA (newRR name (rr_Type rr) (rr_Class rr mod 32768) (rr_TTL rr)
             (rr_CacheFlush rr || Z.testbit (rr_Class rr) 15)) data (length b + 10) (length out);
     Ok (rr', length b + 10 + length out)).
Proof.
  intros Ht Hcl Httl Hlen data Hname. destruct (fullClass_spec rr Hcl) as (Hfc & Hmod & Hbit).
  unfold readRR. rewrite Hname. cbn [wrap_err mbind result_bind].
  assert (Hdl : length data = length b + 10 + length out + length rest).
  { unfold data. rewrite !length_app. change (length (rr_fixed _ _)) with 10. lia. }
  rewrite Hdl.
  destruct (Nat.ltb_spec (length b + 10 + length out + length rest) (length b + 10)); [lia|].
  assert (Hd : forall p1 m p2, rr_fixed rr (Z.of_nat (length out)) = p1 ++ m ++ p2 ->
    data = (b ++ p1) ++ m ++ p2 ++ out ++ rest).
  { intros p1 m p2 E. unfold data. by rewrite E, <- !app_assoc. }
  assert (G1 : get16 data (length b) = Ok (rr_Type rr)).
  { rewrite (Hd [] (be16 (rr_Type rr)) _ eq_refl), app_nil_r. by apply get16_be16. }
  assert (G2 : get16 data (length b + 2) = Ok (fullClass rr)).
  { rewrite (Hd (be16 _) (be16 (fullClass rr)) _ eq_refl).
    apply get16_be16; [done | by rewrite length_app]. }
  assert (G3 : get32 data (length b + 4) = Ok (rr_TTL rr)).
  { rewrite (Hd (be16 _ ++ be16 _) (be32 (rr_TTL rr)) _ eq_refl).
    apply get32_be32; [done | by rewrite length_app]. }
  assert (G4 : get16 data (length b + 8) = Ok (Z.of_nat (length out))).
  { rewrite (Hd (be16 _ ++ be16 _ ++ be32 _) (be16 (Z.of_nat (length out))) [] eq_refl).
    apply get16_be16; [unfold is_u16; lia | by rewrite length_app]. }
  rewrite G1, G2, G3, G4. cbn [mbind result_bind].
  rewrite ldiff_cacheFlush, land_cacheFlush, Hmod, Hbit by done.
  rewrite Nat2Z.id.
  destruct (Nat.ltb_spec (length b + 10 + length out + length rest)
    (length b + 10 + length out)); [lia|]. done.
Qed.

#[export] Instance rr_codec : WireCodec RR_pack rr_packable readRR canon_rr.
Proof.
  split; [apply RR_pack_grows|].
  intros rr buf comp st' i rest Hrr Hc H Hlt.
  pose proof Hrr as ((Ht & Hcl & Httl & _) & Hn & _).
  apply RR_pack_run in H as (st1 & out & H & Hbuf & Hrd).
  apply writeName_Ok in H as (name & Hb1 & Hl1 & Hc1 & Hrn); [|done|done].
  assert (Hlo : (Z.of_nat (length out) < 65536)%Z) by (rewrite Hbuf, !length_app in Hlt; lia).
  rewrite u16_id in * by (unfold is_u16; lia).
  apply (pack_rdata_spec rr (newRR (normalizeName (rr_Name rr)) (rr_Type rr)
    (rr_Class rr mod 32768) (rr_TTL rr) (rr_CacheFlush rr || Z.testbit (rr_Class rr) 15)) Hrr
    eq_refl) in Hrd as (out' & Hb' & Hc' & Hun); [|by apply comp_ok_app].
  assert (out' = out) as ->.
  { rewrite Hbuf, <- app_assoc in Hb'. by do 2 apply app_inv_head in Hb'. }
  exists (name ++ rr_fixed rr (Z.of_nat (length out)) ++ out). split_and!; [| |done|].
  - by rewrite Hbuf, Hb1, <- !app_assoc.
  - rewrite length_app. lia.
  - specialize (Hun rest). rewrite Hbuf in *. rewrite <- !app_assoc in *.
    rewrite (readRR_fixed rr (normalizeName (rr_Name rr))) by done.
    rewrite length_app in Hun. change (length (rr_fixed _ _)) with 10 in Hun.
    rewrite Hun. cbn [mbind result_bind]. rewrite !length_app.
    change (length (rr_fixed _ _)) with 10. by rewrite Nat.add_assoc.
Qed.

(** ** Messages *)

Definition header_bytes (m : Message) : list byte :=
  be16 (m_ID m) ++ be16 (m_Flags m)
  ++ be16 (u16 (Z.of_nat (length (m_Questions m)))) ++ be16 (u16 (Z.of_nat (length (m_Answers m))))
  ++ be16 (u16 (Z.of_nat (length (m_Authorities m))))
  ++ be16 (u16 (Z.of_nat (length (m_Additionals m)))).

Lemma pack_message_run m st' :
  pack_message m (WState [] ∅) = (st', Ok ()) ->
  exists st1 st2 st3,
    pack_all Question_pack (m_Questions m) (WState (header_bytes m) ∅) = (st1, Ok ()) /\
    pack_all RR_pack (m_Answers m) st1 = (st2, Ok ()) /\
    pack_all RR_pack (m_Authorities m) st2 = (st3, Ok ()) /\
    pack_all RR_pack (m_Additionals m) st3 = (st', Ok ()).
Proof.
  unfold pack_message. intros H.
  do 6 (apply writer_bind_Ok in H as (? & [] & ->%append_bytes_Ok & H); cbn [w_buf w_comp] in H).
  apply writer_bind_Ok in H as (st1 & [] & H1 & H).
  apply writer_bind_Ok in H as (st2 & [] & H2 & H).
  apply writer_bind_Ok in H as (st3 & [] & H3 & H).
  by exists st1, st2, st3.
Qed.

(** The sections of a message read back in order. *)
Lemma sections_read m st' :
  msg_packable m -> pack_message m (WState [] ∅) = (st', Ok ()) ->
  (Z.of_nat (length (w_buf st')) < 65536)%Z ->
  (exists out, w_buf st' = header_bytes m ++ out /\
     length (m_Questions m) + length (m_Answers m) + length (m_Authorities m)
       + length (m_Additionals m) <= length out) /\
  exists o1 o2 o3,
    readQuestions (w_buf st') 12 (length (m_Questions m)) []
      = Ok (canon_question <$> m_Questions m, o1) /\
    readRRs (w_buf st') o1 (length (m_Answers m)) = Ok (canon_rr <$> m_Answers m, o2) /\
    readRRs (w_buf st') o2 (length (m_Authorities m)) = Ok (canon_rr <$> m_Authorities m, o3) /\
    readRRs (w_buf st') o3 (length (m_Additionals m))
      = Ok (canon_rr <$> m_Additionals m, length (w_buf st')).
Proof.
  intros (_ & _ & Vq & Va & Vn & Vx) H Hlt.
  apply pack_message_run in H as ([b1 c1] & [b2 c2] & [b3 c3] & Hq & Ha & Hn & Hx).
  pose proof (pack_all_grows RR_pack rr_packable readRR canon_rr _ _ _ Ha).
  pose proof (pack_all_grows RR_pack rr_packable readRR canon_rr _ _ _ Hn).
  pose proof (pack_all_grows RR_pack rr_packable readRR canon_rr _ _ _ Hx). cbn [w_buf] in *.
  destruct (pack_all_spec _ _ _ _ _ _ _ _ Vq (comp_ok_empty _) Hq ltac:(cbn [w_buf]; lia))
    as (o1 & E1 & L1 & C1 & R1).
  destruct (pack_all_spec _ _ _ _ _ _ _ _ Va C1 Ha ltac:(cbn [w_buf]; lia))
    as (o2 & E2 & L2 & C2 & R2).
  destruct (pack_all_spec _ _ _ _ _ _ _ _ Vn C2 Hn ltac:(cbn [w_buf]; lia))
    as (o3 & E3 & L3 & C3 & R3).
  destruct (pack_all_spec _ _ _ _ _ _ _ _ Vx C3 Hx Hlt) as (o4 & E4 & L4 & C4 & R4).
  cbn [w_buf w_comp] in *. split.
  - exists (o1 ++ o2 ++ o3 ++ o4). split; [|rewrite !length_app; lia].
    by rewrite E4, E3, E2, E1, <- !app_assoc.
  - exists (length b1), (length b2), (length b3). unfold readRRs. rewrite !readRRs_read_all.
    rewrite (readQuestions_read_all _ _ 0). split_and!.
    + rewrite E4, E3, E2, <- !app_assoc. by rewrite R1.
    + rewrite E4, E3, <- !app_assoc. by rewrite R2.
    + rewrite E4. by rewrite R3.
    + specialize (R4 0 [] []). by rewrite app_nil_r in R4.
Qed.

(** The header, read back. *)
Lemma header_read m out :
  is_u16 (m_ID m) -> is_u16 (m_Flags m) ->
  let data := header_bytes m ++ out in
  get16 data 0 = Ok (m_ID m) /\ get16 data 2 = Ok (m_Flags m) /\
  get16 data 4 = Ok (u16 (Z.of_nat (length (m_Questions m)))) /\
  get16 data 6 = Ok (u16 (Z.of_nat (length (m_Answers m)))) /\
  get16 data 8 = Ok (u16 (Z.of_nat (length (m_Authorities m)))) /\
  get16 data 10 = Ok (u16 (Z.of_nat (length (m_Additionals m)))).
Proof.
  intros Hid Hfl data.
  assert (Hd : forall off p z q, header_bytes m = p ++ be16 z ++ q -> off = length p -> is_u16 z ->
    get16 data off = Ok z).
  { intros off p z q E -> Hz. unfold data. rewrite E, <- !app_assoc. by apply get16_be16. }
  split_and!; [apply (Hd _ [] _ _ eq_refl) | apply (Hd _ (be16 _) _ _ eq_refl)
    | apply (Hd _ (be16 _ ++ be16 _) _ _ eq_refl) | apply (Hd _ (be16 _ ++ be16 _ ++ be16 _) _ _ eq_refl)
    | apply (Hd _ (be16 _ ++ be16 _ ++ be16 _ ++ be16 _) _ _ eq_refl)
    | apply (Hd _ (be16 _ ++ be16 _ ++ be16 _ ++ be16 _ ++ be16 _) _ [] eq_refl)];
    done || apply u16_range.
Qed.

Lemma Pack_Ok m data :
  Pack m = Ok data <->
  exists st', pack_message m (WState [] ∅) = (st', Ok ()) /\ data = w_buf st' /\
    (Z.of_nat (length data) <= 9000)%Z.
Proof.
  unfold Pack. destruct (pack_message m _) as [st' [[]|e]]; split.
  - case_if; [done|]. bool_arith. intros [= <-]. by exists st'.
  - intros (? & [= <-] & -> & Hl). destruct (Z.ltb_spec 9000 (Z.of_nat (length (w_buf st')))); [lia|done].
  - done.
  - by intros (? & ? & _).
Qed.

(** The message read back. *)
Lemma UnpackMessage_Pack m data :
  msg_packable m -> Pack m = Ok data -> UnpackMessage data = Ok (canon_msg m).
Proof.
  intros Hm (st' & H & -> & Hl)%Pack_Ok. pose proof Hm as (Hid & Hfl & _).
  apply sections_read in H as [(out & Hbuf & Hlen) (o1 & o2 & o3 & R1 & R2 & R3 & R4)];
    [|done|lia].
  destruct (header_read m out Hid Hfl) as (G0 & G2 & G4 & G6 & G8 & G10). rewrite <- Hbuf in *.
  assert (Hlb : length (w_buf st') = 12 + length out) by (by rewrite Hbuf, length_app).
  unfold UnpackMessage. destruct (Nat.ltb_spec (length (w_buf st')) 12); [lia|].
  rewrite !u16_id in * by (unfold is_u16; lia).
  rewrite G0, G2, G4, G6, G8, G10. cbn [mbind result_bind].
  rewrite !Nat2Z.id, R1. cbn [mbind result_bind]. rewrite R2. cbn [wrap_err mbind result_bind].
  rewrite R3. cbn [wrap_err mbind result_bind]. by rewrite R4.
Qed.

(** C1: [UnpackMessage] inverts [Pack].  If the fields of a message fit their
    widths and its names have no empty label and at most 128 labels, then what
    [Pack] writes, name compression included, is read back as the canonical form
    of the message: every question and record, in order, in its section. *)
Theorem Pack_UnpackMessage m data :
  msg_packable m -> Pack m = Ok data -> UnpackMessage data = Ok (canon_msg m).
Proof. apply UnpackMessage_Pack. Qed.
