(* ===== verification/PackErrors.v ===== *)
(** * The errors of Pack

    [Pack] always returns, and what it returns tells exactly what is wrong with the
    message: a label over 63 bytes in one of its names, a TXT string over 255 bytes, an
    address of the wrong family, or more than 9000 bytes.  In particular a compression
    entry never lies beyond the reach of a pointer, so [ErrInvalidPointer] is
    unreachable, and so is [ErrNameTooLong]. *)

From S2P Require Export WireRoundtrip.

(** ** What a message holds, without compression *)

Definition short_label (l : gostring) : Prop := length l <= 63.

Definition short_labels (name : gostring) : Prop := Forall short_label (labels_of name).

(** The bytes of a name that is written out in full. *)
Definition labels_size (ls : list gostring) : nat := sum_list_with (λ l, S (length l)) ls.

Definition name_size (name : gostring) : nat := S (labels_size (labels_of name)).

(** The names in the RDATA of a record. *)
Definition rdata_names (rr : ResourceRecord) : list gostring :=
  if (rr_Type rr =? TypePTR)%Z || (rr_Type rr =? TypeCNAME)%Z || (rr_Type rr =? TypeNS)%Z
     || (rr_Type rr =? TypeSRV)%Z then [rr_Target rr]
  else if (rr_Type rr =? TypeNSEC)%Z then [rr_NextDomain rr] else [].

(** The other bytes of the RDATA. *)
Definition rdata_size (rr : ResourceRecord) : nat :=
  if (rr_Type rr =? TypeA)%Z then 4
  else if (rr_Type rr =? TypeAAAA)%Z then 16
  else if (rr_Type rr =? TypePTR)%Z || (rr_Type rr =? TypeCNAME)%Z || (rr_Type rr =? TypeNS)%Z then 0
  else if (rr_Type rr =? TypeSRV)%Z then 6
  else if (rr_Type rr =? TypeTXT)%Z then
    if decide (rr_Text rr = []) then 1 else labels_size (rr_Text rr)
  else if (rr_Type rr =? TypeNSEC)%Z then length (encodeTypeBitMaps (rr_TypeBitMaps rr))
  else length (rr_RawData rr).

Definition rr_names (rr : ResourceRecord) : list gostring := rr_Name rr :: rdata_names rr.

Definition rr_size (rr : ResourceRecord) : nat :=
  sum_list_with name_size (rr_names rr) + 10 + rdata_size rr.

Definition message_records (m : Message) : list ResourceRecord :=
  m_Answers m ++ m_Authorities m ++ m_Additionals m.

Definition message_names (m : Message) : list gostring :=
  (q_Name <$> m_Questions m) ++ (message_records m ≫= rr_names).

Definition message_size (m : Message) : nat :=
  12 + sum_list_with (λ q, name_size (q_Name q) + 4) (m_Questions m)
  + sum_list_with rr_size (message_records m).

(** ** What can be wrong with it *)

Definition label_error (names : list gostring) (e : goerror) : Prop :=
  exists name label, name ∈ names /\ label ∈ labels_of name /\ 63 < length label /\
    e = ErrLabelTooLong (length label).

Definition rdata_error (rr : ResourceRecord) (e : goerror) : Prop :=
  (rr_Type rr = TypeA /\ To4 (rr_IP rr) = None /\ e = ErrARecordIP (rr_IP rr)) \/
  (rr_Type rr = TypeAAAA /\ To16 (rr_IP rr) = None /\ e = ErrAAAARecordIP (rr_IP rr)) \/
  (rr_Type rr = TypeTXT /\ exists s, s ∈ rr_Text rr /\ 255 < length s /\ e = ErrTXTTooLong (length s)).

Definition pack_error (m : Message) (e : goerror) : Prop :=
  label_error (message_names m) e \/
  (exists rr, rr ∈ message_records m /\ rdata_error rr e) \/
  (exists n, e = ErrMessageTooLarge n /\ (9000 < Z.of_nat n)%Z /\ n <= message_size m).

(** What is right about a message that can be packed. *)
Definition rdata_sound (rr : ResourceRecord) : Prop :=
  (rr_Type rr = TypeA -> is_Some (To4 (rr_IP rr))) /\
  (rr_Type rr = TypeAAAA -> is_Some (To16 (rr_IP rr))) /\
  (rr_Type rr = TypeTXT -> Forall (λ s : gostring, length s <= 255) (rr_Text rr)).

Definition rr_sound (rr : ResourceRecord) : Prop :=
  Forall short_labels (rr_names rr) /\ rdata_sound rr.

Definition message_sound (m : Message) : Prop :=
  Forall short_labels (message_names m) /\ Forall rdata_sound (message_records m).

(** ** Writers and their outcomes *)

(** A key of the compression map: a name whose labels are short. *)
Definition key_sound (key : gostring) : Prop :=
  exists s, key = s ++ [dot] /\ Forall short_label (Split s dot).

(** The map holds sound names, at offsets a pointer can express. *)
Definition offsets_bounded (comp : gmap gostring nat) : Prop :=
  map_Forall (λ _ off, (Z.of_nat off <= 16383)%Z) comp.

Definition comp_sound (comp : gmap gostring nat) : Prop :=
  offsets_bounded comp /\ map_Forall (λ key _, key_sound key) comp.

Lemma comp_sound_empty : comp_sound ∅.
Proof. split; apply map_Forall_empty. Qed.

(** A writer that keeps the map sound.  When it succeeds, [sound] holds and it has
    written [size] bytes at most; its errors are in [P]. *)
Definition packs {A} (sound : Prop) (size : nat) (P : goerror -> Prop) (m : writer A) : Prop :=
  forall st, comp_sound (w_comp st) ->
    match m st with
    | (st', Ok _) => comp_sound (w_comp st') /\ sound /\ length (w_buf st') <= length (w_buf st) + size
    | (_, Err e) => P e
    end.

Lemma packs_weaken {A} (s s' : Prop) (k k' : nat) (P P' : goerror -> Prop) (m : writer A) :
  packs s k P m -> (s -> s') -> k <= k' -> (forall e, P e -> P' e) -> packs s' k' P' m.
Proof.
  intros Hm Hs Hk HP st H. specialize (Hm st H). destruct (m st) as [st1 [a|e]]; [|by apply HP].
  destruct Hm as (Hc & Hs1 & Hl). split_and!; [done|by apply Hs|lia].
Qed.

(** The same errors. *)
Lemma packs_mono {A} (s s' : Prop) (k k' : nat) (P : goerror -> Prop) (m : writer A) :
  packs s k P m -> (s -> s') -> k <= k' -> packs s' k' P m.
Proof. intros Hm Hs Hk. by apply (packs_weaken s s' k k' P P m). Qed.

(** Other errors. *)
Lemma packs_errors {A} (s : Prop) (k : nat) (P P' : goerror -> Prop) (m : writer A) :
  packs s k P m -> (forall e, P e -> P' e) -> packs s k P' m.
Proof. intros Hm HP. by apply (packs_weaken s s k k P P' m). Qed.

Section Packs.
  Context (P : goerror -> Prop).

Lemma packs_ret {A} (a : A) : packs True 0 P (mret a).
Proof. intros st H. cbn. split_and!; [done|done|lia]. Qed.

Lemma packs_bytes bs : packs True (length bs) P (append_bytes bs).
Proof. intros st H. cbn. rewrite length_app. done. Qed.

Lemma packs_buf_len : packs True 0 P buf_len.
Proof. intros st H. cbn. split_and!; [done|done|lia]. Qed.

Lemma packs_put16 pos z : packs True 0 P (put16 pos z).
Proof. intros st H. cbn. rewrite !length_insert. split_and!; [done|done|lia]. Qed.

Lemma packs_fail {A} s k e : P e -> packs s k P (@fail_with A e).
Proof. by intros He st H. Qed.

Lemma packs_bind {A B} s1 s2 k1 k2 (m : writer A) (f : A -> writer B) :
  packs s1 k1 P m -> (forall a, packs s2 k2 P (f a)) -> packs (s1 /\ s2) (k1 + k2) P (m ≫= f).
Proof.
  intros Hm Hf st H. specialize (Hm st H). unfold mbind, writer_bind.
  destruct (m st) as [st1 [a|e]]; [|done]. destruct Hm as (Hc & Hs & Hl).
  specialize (Hf a st1 Hc). destruct (f a st1) as [st2 [b|e]]; [|done].
  destruct Hf as (Hc2 & Hs2 & Hl2). split_and!; [done|done|done|lia].
Qed.

End Packs.

(** Walks through a writer, leaving the calls that are not plain bytes. *)
Ltac pack_steps :=
  repeat first [ apply packs_bytes | apply packs_buf_len | apply packs_put16 | apply packs_ret
               | eapply packs_bind; [|intros ?] ].

(** ** Names *)

Lemma Split_next_label s label rest :
  next_label s = (label, rest) ->
  length rest < length s /\ Split s dot = label :: Split rest dot \/ rest = [] /\ Split s dot = [label].
Proof.
  unfold next_label. destruct (IndexByte s dot) as [i|] eqn:Hi; intros [= <- <-].
  - left. apply IndexByte_Some in Hi as (s1 & s2 & -> & <- & Hd).
    rewrite take_app_length. replace (length s1 + 1) with (length (s1 ++ [dot])) by (by rewrite length_app).
    change (s1 ++ dot :: s2) with (s1 ++ [dot] ++ s2). rewrite app_assoc, drop_app_length.
    split; [rewrite !length_app; cbn; lia|]. rewrite <- app_assoc. by apply Split_app.
  - right. split; [done|]. apply Split_single. by apply IndexByte_None.
Qed.

(** What [writeName_loop] does to a map whose unsound keys, if any, are longer than
    the name: they are the names it is in the middle of. *)
Definition pending_ok (n : nat) (comp : gmap gostring nat) : Prop :=
  map_Forall (λ key _, key_sound key \/ n < length key) comp.

Definition loop_outcome (s : gostring) (st : wstate) (r : wstate * result unit) : Prop :=
  match r with
  | (st', Ok _) =>
      offsets_bounded (w_comp st') /\
      (forall key, is_Some (w_comp st' !! key) -> is_Some (w_comp st !! key) \/ key_sound key) /\
      Forall short_label (Split s dot) /\
      length (w_buf st') <= length (w_buf st) + S (labels_size (Split s dot))
  | (_, Err e) =>
      exists label, label ∈ Split s dot /\ 63 < length label /\ e = ErrLabelTooLong (length label)
  end.

(** The name is found in the map. *)
Lemma writeName_loop_hit fuel s st off :
  s <> [] -> offsets_bounded (w_comp st) -> pending_ok (S (length s)) (w_comp st) ->
  w_comp st !! (s ++ [dot]) = Some off -> loop_outcome s st (writeName_loop (S fuel) s st).
Proof.
  intros Hs Hb Hp Hfound. cbn [writeName_loop]. rewrite decide_False by done.
  unfold mbind, writer_bind at 1, comp_get. rewrite Hfound.
  pose proof (Hb _ _ Hfound) as Hoff. cbn in Hoff.
  destruct (Z.ltb_spec 16383 (Z.of_nat off)); [lia|]. cbn.
  split_and!; [done|by left| |].
  - destruct (Hp _ _ Hfound) as [(s' & E & Hsh)|Hl]; [|rewrite length_app in Hl; cbn in Hl; lia].
    by apply app_inj_tail in E as [-> _].
  - rewrite length_app. pose proof (Split_nonempty s dot). destruct (Split s dot); [done|]. cbn. lia.
Qed.

(** The steps before the rest of the name is written. *)
Lemma label_written s label st :
  let st1 := WState (w_buf st ++ [z2b (Z.of_nat (length label))] ++ label)
    (if (Z.of_nat (length (w_buf st)) <=? 16383)%Z then <[s ++ [dot] := length (w_buf st)]> (w_comp st)
     else w_comp st) in
  offsets_bounded (w_comp st) ->
  offsets_bounded (w_comp st1) /\
  (forall key, is_Some (w_comp st1 !! key) -> is_Some (w_comp st !! key) \/ key = s ++ [dot]).
Proof.
  intros st1 Hb. unfold st1. cbn [w_comp]. case_if; bool_arith; [|by split; [|left]]. split.
  - by apply map_Forall_insert_2.
  - intros key [off Hk]. apply lookup_insert_Some in Hk as [[<- _]|[_ Hk]]; [by right|left; by eexists].
Qed.

Lemma writeName_loop_outcome fuel : forall s st,
  length s < fuel -> s <> [] -> offsets_bounded (w_comp st) -> pending_ok (S (length s)) (w_comp st) ->
  loop_outcome s st (writeName_loop fuel s st).
Proof.
  induction fuel as [|fuel IH]; intros s st Hfuel Hs Hb Hp; [lia|].
  destruct (w_comp st !! (s ++ [dot])) as [off|] eqn:Hfound; [by eapply writeName_loop_hit|].
  cbn [writeName_loop]. rewrite decide_False by done. unfold mbind, writer_bind at 1, comp_get. rewrite Hfound.
  destruct (next_label s) as [label rest] eqn:Hnl. apply Split_next_label in Hnl as Hsplit.
  assert (Hlab : label ∈ Split s dot) by (destruct Hsplit as [[_ ->]|[_ ->]]; by left).
  destruct (Nat.ltb_spec 63 (length label)) as [Hlong|Hshort].
  { by exists label. }
  pose proof (label_written s label st Hb) as Hw. cbv zeta in Hw.
  set (st1 := WState (w_buf st ++ [z2b (Z.of_nat (length label))] ++ label) _) in Hw.
  assert (Hlen : length (w_buf st1) = length (w_buf st) + S (length label)).
  { unfold st1. cbn [w_buf]. rewrite !length_app. done. }
  match goal with |- loop_outcome _ _ ?r => assert (E : r =
    (if decide (rest = []) then append_bytes [z2b 0] else writeName_loop fuel rest) st1) end.
  { unfold writer_bind, buf_len, st1. case_if; cbn; by rewrite <- app_assoc. }
  rewrite E. clear E. destruct Hw as [Hb1 Hkeys]. case_decide as Hrest.
  - subst rest. cbn.
    assert (Hsh : Forall short_label (Split s dot)).
    { destruct Hsplit as [[_ ->]|[_ ->]]; repeat (apply Forall_cons; split); unfold short_label; cbn; try lia;
        by apply Forall_nil. }
    split_and!; [done| |done|].
    + intros key Hk. destruct (Hkeys key Hk) as [| ->]; [by left|]. right. by exists s.
    + rewrite !length_app. destruct Hsplit as [[_ ->]|[_ ->]]; cbn in *; lia.
  - destruct Hsplit as [[Hl Hsplit]|[Hr _]]; [|done].
    assert (Hp1 : pending_ok (S (length rest)) (w_comp st1)).
    { intros key off Hk. destruct (Hkeys key) as [[o Ho]| ->]; [by eexists| |].
      - destruct (Hp _ _ Ho); [by left|right; lia].
      - right. rewrite length_app. cbn. lia. }
    specialize (IH rest st1 ltac:(lia) Hrest Hb1 Hp1).
    destruct (writeName_loop fuel rest st1) as [st2 [u|e]]; cbn [loop_outcome] in IH |- *.
    + destruct IH as (Hb2 & Hk2 & Hsh & Hl2).
      assert (Hs2 : Forall short_label (Split s dot)) by (rewrite Hsplit; by constructor).
      split_and!; [done| |done|].
      * intros key Hk. destruct (Hk2 key Hk) as [Hk1|]; [|by right].
        destruct (Hkeys key Hk1) as [| ->]; [by left|right; by exists s].
      * rewrite Hsplit. unfold labels_size in *. cbn [sum_list_with]. lia.
    + destruct IH as (l & Hin & Hrest'). exists l. split; [rewrite Hsplit; by right|done].
Qed.

(** A writer with one name: its errors are those of the name. *)
Lemma writeName_packs name :
  packs (short_labels name) (name_size name) (label_error [name]) (writeName name).
Proof.
  intros st [Hb Hk]. unfold writeName, short_labels, name_size, label_error, labels_of.
  case_decide as Hd.
  { cbn. rewrite length_app. split_and!; [done|by apply Forall_nil|cbn; lia]. }
  set (s := TrimSuffix _ [dot]).
  assert (Hs : s <> []).
  { unfold s. destruct (normalizeName_cases name) as [|[E Hne]]; [done|]. intros E0.
    rewrite E0 in E. done. }
  assert (Hpending : pending_ok (S (length s)) (w_comp st)) by (intros key off Hkey; left; by eapply Hk).
  pose proof (writeName_loop_outcome (S (length s)) s st ltac:(lia) Hs Hb Hpending) as Ho.
  destruct (writeName_loop _ s st) as [st1 [[]|e]]; cbn [loop_outcome] in Ho.
  - destruct Ho as (Hb1 & Hk1 & Hsh & Hl). split_and!; [split|done|done]; [done|].
    intros key off Hkey. destruct (Hk1 key) as [[o Ho]|]; [by eexists|by eapply Hk|done].
  - destruct Ho as (label & Hin & Hlong & ->). exists name, label. rewrite list_elem_of_singleton.
    by rewrite decide_False.
Qed.

(** ** Records *)

Lemma pack_text_packs text :
  packs (Forall (λ s : gostring, length s <= 255) text) (labels_size text)
    (λ e, exists s, s ∈ text /\ 255 < length s /\ e = ErrTXTTooLong (length s)) (pack_text text).
Proof.
  induction text as [|s text IH]; cbn [pack_text].
  { eapply packs_mono; [apply packs_ret|by intros|apply Nat.le_0_l]. }
  destruct (Nat.ltb_spec 255 (length s)) as [Hl|Hl].
  { apply packs_fail. exists s. split_and!; [by left|done|done]. }
  eapply packs_mono.
  - pack_steps. eapply packs_errors; [exact IH|]. intros e (x & Hx & Hr). exists x. split; [by right|exact Hr].
  - intros (_ & _ & Hf). by constructor.
  - unfold labels_size. cbn. lia.
Qed.

Definition rr_error (rr : ResourceRecord) (e : goerror) : Prop :=
  label_error (rr_names rr) e \/ rdata_error rr e.

(** A name of a record. *)
Lemma rr_name_packs rr name :
  name ∈ rr_names rr -> packs (short_labels name) (name_size name) (rr_error rr) (writeName name).
Proof.
  intros Hin. eapply packs_errors; [apply writeName_packs|].
  intros e (n & l & ->%list_elem_of_singleton & Hr). left. by exists name, l.
Qed.

Lemma pack_rdata_packs rr :
  packs (Forall short_labels (rdata_names rr) /\ rdata_sound rr)
    (sum_list_with name_size (rdata_names rr) + rdata_size rr) (rr_error rr) (pack_rdata rr).
Proof.
  assert (Hname : forall name, name ∈ rdata_names rr ->
    packs (short_labels name) (name_size name) (rr_error rr) (writeName name)).
  { intros name Hin. apply rr_name_packs. by right. }
  unfold pack_rdata, rdata_size, rdata_sound, rdata_names, rr_error, rdata_error in *.
  destruct (Z.eqb_spec (rr_Type rr) TypeA) as [Ha|Ha].
  { rewrite Ha in *. cbn [sum_list_with] in *. destruct (To4 (rr_IP rr)) as [ip4|] eqn:E.
    - eapply packs_mono; [apply packs_bytes| |by apply To4_length in E as ->].
      intros _. split_and!; done.
    - apply packs_fail. right. left. done. }
  destruct (Z.eqb_spec (rr_Type rr) TypeAAAA) as [Haaaa|Haaaa].
  { rewrite Haaaa in *. cbn [sum_list_with] in *. destruct (To16 (rr_IP rr)) as [ip6|] eqn:E.
    - eapply packs_mono; [apply packs_bytes| |by apply To16_length in E as ->].
      intros _. split_and!; done.
    - apply packs_fail. right. right. left. done. }
  destruct ((rr_Type rr =? TypePTR)%Z || (rr_Type rr =? TypeCNAME)%Z || (rr_Type rr =? TypeNS)%Z) eqn:Hptr.
  { cbn [orb] in *. eapply packs_mono; [apply Hname; by left| |cbn [sum_list_with]; lia].
    intros Hn. split_and!; [by constructor|done|done|intros E]. by rewrite E in Hptr. }
  destruct (Z.eqb_spec (rr_Type rr) TypeSRV) as [Hsrv|Hsrv].
  { cbn [orb] in *. eapply packs_mono; [pack_steps; apply Hname; by left| |cbn [sum_list_with length be16 app]; lia].
    intros (_ & _ & _ & Hn). split_and!; [by constructor|done|done|intros E; by rewrite E in Hsrv]. }
  destruct (Z.eqb_spec (rr_Type rr) TypeTXT) as [Htxt|Htxt].
  { rewrite (proj2 (Z.eqb_neq (rr_Type rr) TypeNSEC)) in * by (by rewrite Htxt).
    cbn [orb sum_list_with] in *. case_decide as Hempty.
    - eapply packs_mono; [apply packs_bytes| |cbn; lia]. intros _. rewrite Hempty.
      split_and!; [by constructor|done|done|intros _; by constructor].
    - eapply packs_mono.
      + eapply packs_errors; [apply pack_text_packs|]. intros e He. by do 3 right.
      + intros H. by split_and!.
      + cbn. lia. }
  destruct (Z.eqb_spec (rr_Type rr) TypeNSEC) as [Hnsec|Hnsec].
  { cbn [orb] in *. eapply packs_mono; [pack_steps; apply Hname; by left| |cbn [sum_list_with]; lia].
    intros (Hn & _). split_and!; [by constructor|done|done|done]. }
  eapply packs_mono; [apply packs_bytes| |cbn; lia]. intros _. by split_and!.
Qed.

Lemma RR_pack_packs rr : packs (rr_sound rr) (rr_size rr) (rr_error rr) (RR_pack rr).
Proof.
  unfold RR_pack. eapply packs_mono.
  - pack_steps; [apply rr_name_packs; by left|apply pack_rdata_packs].
  - intros (Hn & _ & _ & _ & _ & _ & _ & (Hns & Hr) & _). split; [by constructor|done].
  - unfold rr_size. cbn [sum_list_with rr_names length be16 be32 app]. lia.
Qed.

Lemma Question_pack_packs q :
  packs (short_labels (q_Name q)) (name_size (q_Name q) + 4) (label_error [q_Name q]) (Question_pack q).
Proof.
  unfold Question_pack. eapply packs_mono; [pack_steps; apply writeName_packs|by intros (Hn & _)|].
  cbn [length be16 app]. lia.
Qed.

(** ** Messages *)

Lemma pack_all_packs {A} (pack : A -> writer unit) (sound : A -> Prop) (size : A -> nat)
    (error : A -> goerror -> Prop) (xs : list A) :
  (forall x, packs (sound x) (size x) (error x) (pack x)) ->
  packs (Forall sound xs) (sum_list_with size xs) (λ e, exists x, x ∈ xs /\ error x e) (pack_all pack xs).
Proof.
  intros Hp. induction xs as [|x xs IH]; cbn [pack_all].
  { eapply packs_mono; [apply packs_ret|by intros|apply Nat.le_0_l]. }
  eapply packs_mono.
  - eapply packs_bind; [|intros _].
    + eapply packs_errors; [apply Hp|]. intros e He. exists x. split; [by left|done].
    + eapply packs_errors; [exact IH|]. intros e (y & Hy & He). exists y. split; [by right|done].
  - intros [Hx Hxs]. by constructor.
  - done.
Qed.

Lemma label_error_sub names names' e : names ⊆ names' -> label_error names e -> label_error names' e.
Proof. intros Hsub (n & l & Hn & Hr). exists n, l. split; [by apply Hsub|done]. Qed.

(** The records of a message have all their errors in [pack_error]. *)
Lemma record_errors m rrs e :
  rrs ⊆ message_records m -> (exists rr, rr ∈ rrs /\ rr_error rr e) -> pack_error m e.
Proof.
  intros Hsub (rr & Hrr & [He|He]).
  - left. eapply label_error_sub; [|done]. intros n Hn. unfold message_names.
    apply elem_of_app. right. apply list_elem_of_bind. exists rr. auto.
  - right; left. exists rr. auto.
Qed.

Lemma pack_message_packs m :
  packs (message_sound m) (message_size m) (pack_error m) (pack_message m).
Proof.
  unfold pack_message, message_sound, message_size. eapply packs_mono.
  - pack_steps.
    + eapply packs_errors; [apply (pack_all_packs _ _ _ _ _ Question_pack_packs)|].
      intros e (q & Hq & He). left. eapply label_error_sub; [|exact He].
      intros n ->%list_elem_of_singleton. apply elem_of_app. left. by apply list_elem_of_fmap_2.
    + eapply packs_errors; [apply (pack_all_packs _ _ _ _ _ RR_pack_packs)|].
      intros e. apply record_errors. unfold message_records. set_solver.
    + eapply packs_errors; [apply (pack_all_packs _ _ _ _ _ RR_pack_packs)|].
      intros e. apply record_errors. unfold message_records. set_solver.
    + eapply packs_errors; [apply (pack_all_packs _ _ _ _ _ RR_pack_packs)|].
      intros e. apply record_errors. unfold message_records. set_solver.
  - intros (_ & _ & _ & _ & _ & _ & Hq & Han & Hns & Har). 
    assert (Hr : Forall rr_sound (message_records m)) by (by repeat apply Forall_app_2).
    split.
    + apply Forall_app_2; [by apply Forall_fmap|]. apply Forall_bind.
      eapply Forall_impl; [exact Hr|]. by intros rr [H _].
    + eapply Forall_impl; [exact Hr|]. by intros rr [_ H].
  - unfold message_records. rewrite !sum_list_with_app. cbn [length be16 app]. lia.
Qed.

Lemma Pack_outcome m :
  match Pack m with
  | Ok data => (Z.of_nat (length data) <= 9000)%Z /\ length data <= message_size m /\ message_sound m
  | Err e => pack_error m e
  end.
Proof.
  unfold Pack. pose proof (pack_message_packs m (WState [] ∅) comp_sound_empty) as Hp.
  destruct (pack_message m _) as [st [[]|e]]; [|done]. destruct Hp as (_ & Hs & Hl). cbn in Hl.
  destruct (Z.ltb_spec 9000 (Z.of_nat (length (w_buf st)))) as [Hlt|Hle].
  - right; right. eauto.
  - by split_and!.
Qed.

(** So a message with nothing wrong, and small enough without compression, is packed. *)
Lemma Pack_fits m :
  message_sound m -> (Z.of_nat (message_size m) <= 9000)%Z -> is_ok (Pack m) = true.
Proof.
  intros [Hn Hr] Hsize. pose proof (Pack_outcome m) as Hp. destruct (Pack m) as [|e]; [done|].
  rewrite Forall_forall in Hn; rewrite Forall_forall in Hr.
  destruct Hp as [(n & l & Hin & Hl & Hlong & _)|[(rr & Hin & He)|(n & _ & Hlarge & Hle)]]; [| |lia].
  - specialize (Hn n Hin). unfold short_labels, short_label in Hn. rewrite Forall_forall in Hn.
    specialize (Hn l Hl). lia.
  - destruct (Hr rr Hin) as (Ha & Haaaa & Htxt).
    destruct He as [(Ht & E & _)|[(Ht & E & _)|(Ht & s & Hs & Hlong & _)]].
    + apply Ha in Ht as [? Ht]. by rewrite Ht in E.
    + apply Haaaa in Ht as [? Ht]. by rewrite Ht in E.
    + apply Htxt in Ht. rewrite Forall_forall in Ht. specialize (Ht s Hs). lia.
Qed.

(** C8: [Pack] succeeds only on a message in which every label of every name is at most
    63 bytes long, every A and AAAA record has an address of its family and every TXT
    string at most 255 bytes; the datagram then has at most 9000 bytes, and never more
    than the message takes without compression.  An error names what is wrong with the
    message itself: the length of a label over 63 bytes that is in one of its names, the
    length of a TXT string over 255 bytes or the address of an A or AAAA record that is
    in one of its records, or a length over 9000 bytes, which the message takes or
    exceeds without compression.  So a message without any of these is packed, and in
    particular no compression entry ever lies beyond the reach of a pointer. *)
Theorem Pack_errors m :
  match Pack m with
  | Ok data => (Z.of_nat (length data) <= 9000)%Z /\ length data <= message_size m /\ message_sound m
  | Err e => pack_error m e
  end.
Proof. apply Pack_outcome. Qed.
