(* ===== verification/Cache.v ===== *)
(** * The record cache (cache.go)

    A [Cache] is the map from [CacheKey] to the cached records, in insertion
    order.  The clock is explicit: [now] is the reading of [time.Now()] in
    nanoseconds, and a function that reads the clock a second time
    ([time.Until]) takes the second reading as well.  Go iterates over a map in
    an unspecified order, so a function that ranges over [c.records] takes the
    order, a permutation of the map's entries.

    Cached records are kept by value.  The pointers [Lookup] hands out are only
    written through by [handlePassiveObservation], modelled as [cap_ttls]. *)

From S2P Require Export DnsMessage.

Record CacheKey := mkKey { k_Name : gostring; k_Type : Z }.

#[export] Instance CacheKey_eq_dec : EqDecision CacheKey.
Proof. solve_decision. Defined.
#[export] Instance CacheKey_countable : Countable CacheKey.
Proof.
  refine (inj_countable' (λ k, (k_Name k, k_Type k)) (λ p, mkKey p.1 p.2) _). by intros [].
Defined.

(** [time.Second], in nanoseconds. *)
Definition Second : Z := 1000000000.
Definition Millisecond : Z := 1000000.

Record cachedRecord := mkCached {
  cr_rr : ResourceRecord;
  cr_expires : Z;
  cr_received : Z
}.

#[export] Instance cachedRecord_eq_dec : EqDecision cachedRecord.
Proof. solve_decision. Defined.

Abbreviation Cache := (gmap CacheKey (list cachedRecord)).

Definition NewCache : Cache := ∅.

Section WithUnicode.
  Context `{UnicodeTables}.

Definition rrKey (name : gostring) (rrType : Z) : CacheKey :=
  mkKey (lowerName (normalizeName name)) rrType.

(** ** Record equality *)

Definition recordsEqual (a b : ResourceRecord) : bool :=
  if negb (rr_Type a =? rr_Type b)%Z
     || negb (bool_decide (lowerName (rr_Name a) = lowerName (rr_Name b))) then false
  else if (rr_Type a =? TypeA)%Z || (rr_Type a =? TypeAAAA)%Z then IP_Equal (rr_IP a) (rr_IP b)
  else if (rr_Type a =? TypePTR)%Z || (rr_Type a =? TypeCNAME)%Z || (rr_Type a =? TypeNS)%Z
  then bool_decide (lowerName (rr_Target a) = lowerName (rr_Target b))
  else if (rr_Type a =? TypeSRV)%Z then
    bool_decide (lowerName (rr_Target a) = lowerName (rr_Target b))
    && (rr_Port a =? rr_Port b)%Z && (rr_Priority a =? rr_Priority b)%Z
    && (rr_Weight a =? rr_Weight b)%Z
  else if (rr_Type a =? TypeTXT)%Z then
    if negb (length (rr_Text a) =? length (rr_Text b)) then false
    else forallb (λ p : gostring * gostring, bool_decide (p.1 = p.2))
           (zip (rr_Text a) (rr_Text b))
  else bool_decide (rr_RawData a = rr_RawData b).

Definition sameIP (a b : IP) : bool :=
  if bool_decide (a = []) && bool_decide (b = []) then true
  else if bool_decide (a = []) || bool_decide (b = []) then false
  else IP_Equal a b.

Definition matchDomain (name suffix : gostring) : bool :=
  HasSuffix (lowerName name) (lowerName suffix).

(** ** Operations *)

(** [time.Duration(rr.TTL) * time.Second] *)
Definition ttl_duration (rr : ResourceRecord) : Z := (rr_TTL rr * Second)%Z.

(** The loop of [Upsert] over the existing records: the first equal one is
    refreshed. *)
Fixpoint refresh_first (now : Z) (rr : ResourceRecord) (existing : list cachedRecord)
    : option (list cachedRecord) :=
  match existing with
  | [] => None
  | cr :: rest =>
      if recordsEqual (cr_rr cr) rr
      then Some (mkCached (set_TTL (rr_TTL rr) (cr_rr cr)) (now + ttl_duration rr) now :: rest)
      else (λ rest', cr :: rest') <$> refresh_first now rr rest
  end.

(** [Upsert] always reports that the cache was modified. *)
Definition Upsert (now : Z) (rr : ResourceRecord) (c : Cache) : Cache * bool :=
  let key := rrKey (rr_Name rr) (rr_Type rr) in
  let existing := if rr_CacheFlush rr then [] else default [] (c !! key) in
  match refresh_first now rr existing with
  | Some existing' => (<[key := existing']> c, true)
  | None => (<[key := existing ++ [mkCached rr (now + ttl_duration rr) now]]> c, true)
  end.

(** [cr.expires.After(now)] *)
Definition valid (now : Z) (cr : cachedRecord) : bool := (now <? cr_expires cr)%Z.

Definition records_of (c : Cache) (key : CacheKey) : list cachedRecord := default [] (c !! key).

Definition Lookup (now : Z) (key : CacheKey) (c : Cache) : list ResourceRecord :=
  cr_rr <$> filter (λ cr, valid now cr = true) (records_of c key).

Definition LookupName (now : Z) (name : gostring) (order : list (CacheKey * list cachedRecord))
    : list ResourceRecord :=
  let ln := lowerName (normalizeName name) in
  mjoin ((λ e : CacheKey * list cachedRecord,
    if bool_decide (k_Name e.1 = ln) then cr_rr <$> filter (λ cr, valid now cr = true) e.2
    else []) <$> order).

Definition Remove (key : CacheKey) (c : Cache) : Cache := delete key c.

Definition RemoveName (name : gostring) (c : Cache) : Cache :=
  let ln := lowerName (normalizeName name) in
  filter (λ e : CacheKey * list cachedRecord, k_Name e.1 <> ln) c.

(** [Expire] rewrites each entry on its own, so the order does not matter. *)
Definition Expire (now : Z) (c : Cache) : Cache * nat :=
  (omap (λ recs,
     let filtered := filter (λ cr, valid now cr = true) recs in
     if decide (filtered = []) then None else Some filtered) c,
   map_fold (λ _ recs n, n + length (filter (λ cr, valid now cr = false) recs)) 0 c).

Definition HasValidRecord (now : Z) (key : CacheKey) (c : Cache) : bool :=
  existsb (valid now) (records_of c key).

(** [now2] is the reading of [time.Until]. *)
Fixpoint remaining_ttl (now now2 : Z) (recs : list cachedRecord) : Z :=
  match recs with
  | [] => 0
  | cr :: recs =>
      if valid now cr then
        let remaining := (cr_expires cr - now2)%Z in
        if (0 <? ttl_duration (cr_rr cr))%Z then u32 (Z.quot remaining Second)
        else remaining_ttl now now2 recs
      else remaining_ttl now now2 recs
  end.

Definition RecordRemainingTTL (now now2 : Z) (key : CacheKey) (c : Cache) : Z :=
  remaining_ttl now now2 (records_of c key).

Definition RecordOriginalTTL (now : Z) (key : CacheKey) (c : Cache) : Z :=
  match filter (λ cr, valid now cr = true) (records_of c key) with
  | cr :: _ => rr_TTL (cr_rr cr)
  | [] => 0
  end.

Definition AllRecords (now : Z) (order : list (CacheKey * list cachedRecord))
    : list ResourceRecord :=
  mjoin ((λ e : CacheKey * list cachedRecord,
    cr_rr <$> filter (λ cr, valid now cr = true) e.2) <$> order).

(** The clock of [time.Until] is read once per record: [now2 i] for record [i]. *)
Definition KnownAnswers (now : Z) (now2 : nat -> Z) (name : gostring) (rrType : Z) (c : Cache)
    : list ResourceRecord :=
  mjoin (imap (λ i cr,
    let remaining := (cr_expires cr - now2 i)%Z in
    if (Z.quot (ttl_duration (cr_rr cr)) 2 <? remaining)%Z && valid now cr
    then [cr_rr cr] else [])
    (records_of c (rrKey name rrType))).

(** ** Passive observation

    [cap_ttls] is the loop of [handlePassiveObservation] (server.go) over the
    records [LookupName] returned: it writes [rr.TTL = 10] through the cached
    pointers. *)
Definition cap_ttl (now : Z) (cr : cachedRecord) : cachedRecord :=
  if valid now cr && (10 <? rr_TTL (cr_rr cr))%Z
  then mkCached (set_TTL 10 (cr_rr cr)) (cr_expires cr) (cr_received cr) else cr.

Definition cap_ttls (now : Z) (name : gostring) (c : Cache) : Cache :=
  let ln := lowerName (normalizeName name) in
  map_imap (λ key recs,
    Some (if bool_decide (k_Name key = ln) then map (cap_ttl now) recs else recs)) c.

End WithUnicode.
