(* ===== verification/CacheSpec.v ===== *)
(** * The cache keeps one live copy of each record

    Record equality is equality of an identity ([rr_id]); the cache never holds
    two records of the same identity, files every record under its own key, and
    its lookups show exactly the records that have not expired. *)

From S2P Require Export Cache.

(** ** Record identity *)

Definition canonIP (ip : IP) : IP := default ip (To16 ip).

Lemma canonIP_length ip :
  (length ip = 4 \/ length ip = 16) /\ To16 ip = Some (canonIP ip) \/
  (length ip <> 4 /\ length ip <> 16) /\ canonIP ip = ip.
Proof.
  unfold canonIP, To16. destruct (Nat.eqb_spec (length ip) 4); [by left; split; [left|]|].
  destruct (Nat.eqb_spec (length ip) 16); [by left; split; [right|] | by right].
Qed.

Lemma IP_Equal_canon a b : IP_Equal a b = true <-> canonIP a = canonIP b.
Proof.
  destruct (canonIP_length a) as [[Ha Ea]|[Ha Ea]], (canonIP_length b) as [[Hb Eb]|[Hb Eb]].
  - by apply IP_Equal_To16.
  - pose proof (To16_length _ _ Ea) as Hl. rewrite Eb. split; [|intros E; rewrite E in Hl; lia].
    unfold IP_Equal. destruct (Nat.eqb_spec (length a) (length b)); [lia|].
    destruct (Nat.eqb_spec (length b) 16), (Nat.eqb_spec (length b) 4); try lia.
    by rewrite !andb_false_r.
  - pose proof (To16_length _ _ Eb) as Hl. rewrite Ea. split; [|intros E; rewrite <- E in Hl; lia].
    unfold IP_Equal. destruct (Nat.eqb_spec (length a) (length b)); [lia|].
    destruct (Nat.eqb_spec (length a) 16), (Nat.eqb_spec (length a) 4); try lia. done.
  - rewrite Ea, Eb. unfold IP_Equal. destruct (Nat.eqb_spec (length a) (length b)) as [|Hne].
    + by rewrite bool_decide_eq_true.
    + destruct (Nat.eqb_spec (length a) 4), (Nat.eqb_spec (length a) 16); try lia. simpl.
      split; [done|]. by intros ->.
Qed.

Section Identity.
  Context `{UnicodeTables}.

(** The name, type and RDATA [recordsEqual] looks at, in canonical form. *)
Definition rr_id (rr : ResourceRecord) : ResourceRecord :=
  let base := newRR (lowerName (rr_Name rr)) (rr_Type rr) 0 0 false in
  if (rr_Type rr =? TypeA)%Z || (rr_Type rr =? TypeAAAA)%Z then set_IP (canonIP (rr_IP rr)) base
  else if (rr_Type rr =? TypePTR)%Z || (rr_Type rr =? TypeCNAME)%Z || (rr_Type rr =? TypeNS)%Z
  then set_Target (lowerName (rr_Target rr)) base
  else if (rr_Type rr =? TypeSRV)%Z then
    set_Target (lowerName (rr_Target rr))
      (set_SRV (rr_Priority rr) (rr_Weight rr) (rr_Port rr) base)
  else if (rr_Type rr =? TypeTXT)%Z then set_Text (rr_Text rr) base
  else set_RawData (rr_RawData rr) base.

Lemma forallb_zip_eq (a b : list gostring) :
  length a = length b ->
  forallb (λ p : gostring * gostring, bool_decide (p.1 = p.2)) (zip a b) = true <-> a = b.
Proof.
  revert b. induction a as [|x a IH]; intros [|y b] Hl; try done.
  simpl in *. rewrite andb_true_iff, bool_decide_eq_true, IH by lia.
  split; [by intros [-> ->] | by intros [= -> ->]].
Qed.

(** [rr_id] keeps the type and the name. *)
Lemma rr_id_key rr : rr_Type (rr_id rr) = rr_Type rr /\ rr_Name (rr_id rr) = lowerName (rr_Name rr).
Proof. unfold rr_id. by repeat case_if. Qed.

Lemma recordsEqual_iff a b : recordsEqual a b = true <-> rr_id a = rr_id b.
Proof.
  destruct (decide (rr_Type a = rr_Type b /\ lowerName (rr_Name a) = lowerName (rr_Name b)))
    as [[Ht Hn]|Hne].
  - unfold recordsEqual, rr_id. rewrite <- Hn, <- Ht, Z.eqb_refl, bool_decide_true by done.
    simpl negb. cbn [orb]. case_if.
    { rewrite IP_Equal_canon. split; [by intros -> | by intros [= ->]]. }
    case_if. { rewrite bool_decide_eq_true. split; [by intros -> | by intros [= ->]]. }
    case_if.
    { rewrite !andb_true_iff, bool_decide_eq_true, !Z.eqb_eq.
      split; [by intros [[[-> ->] ->] ->] | by intros [= -> -> -> ->]]. }
    case_if.
    { destruct (Nat.eqb_spec (length (rr_Text a)) (length (rr_Text b))) as [Hl|Hl]; simpl negb.
      - cbn. rewrite forallb_zip_eq by done. split; [by intros -> | by intros [= ->]].
      - split; [done|]. intros [= E]. by rewrite E in Hl. }
    rewrite bool_decide_eq_true. split; [by intros -> | by intros [= ->]].
  - split.
    + unfold recordsEqual. intros Hr. case_if_in Hr; [done|]. bool_arith. destruct Hne.
      done.
    + intros E. destruct (rr_id_key a) as [Ta Na], (rr_id_key b) as [Tb Nb].
      destruct Hne. rewrite <- Ta, <- Tb, <- Na, <- Nb. by rewrite E.
Qed.

#[export] Instance recordsEqual_equivalence : Equivalence (λ a b, recordsEqual a b = true).
Proof.
  split; [intros a | intros a b | intros a b c]; rewrite !recordsEqual_iff; congruence.
Qed.

Lemma recordsEqual_refl rr : recordsEqual rr rr = true.
Proof. by apply recordsEqual_iff. Qed.

Lemma recordsEqual_sym a b : recordsEqual a b = recordsEqual b a.
Proof. apply eq_true_iff_eq. rewrite !recordsEqual_iff. split; intros E; by rewrite E. Qed.

#[export] Instance recordsEqual_proper :
  Proper ((λ a b, recordsEqual a b = true) ==> (λ a b, recordsEqual a b = true) ==> eq) recordsEqual.
Proof.
  intros a a' Ha%recordsEqual_iff b b' Hb%recordsEqual_iff. apply eq_true_iff_eq.
  by rewrite !recordsEqual_iff, Ha, Hb.
Qed.

Lemma rr_id_set_TTL ttl rr : rr_id (set_TTL ttl rr) = rr_id rr.
Proof. done. Qed.

End Identity.

(** ** The cache invariant *)

Section CacheInvariant.
  Context `{UnicodeTables}.

Definition entry_wf (key : CacheKey) (recs : list cachedRecord) : Prop :=
  recs <> [] /\
  Forall (λ cr, rrKey (rr_Name (cr_rr cr)) (rr_Type (cr_rr cr)) = key) recs /\
  NoDup (rr_id ∘ cr_rr <$> recs).

Definition cache_wf (c : Cache) : Prop := map_Forall entry_wf c.

Lemma records_of_Some c key recs : c !! key = Some recs -> records_of c key = recs.
Proof. unfold records_of. by intros ->. Qed.

Lemma records_of_wf c key :
  cache_wf c -> Forall (λ cr, rrKey (rr_Name (cr_rr cr)) (rr_Type (cr_rr cr)) = key) (records_of c key)
    /\ NoDup (rr_id ∘ cr_rr <$> records_of c key).
Proof.
  unfold records_of. intros Hc. destruct (c !! key) as [recs|] eqn:E; simpl.
  - apply Hc in E as (_ & ? & ?). done.
  - split; constructor.
Qed.

(** *** The loop of Upsert *)

Lemma refresh_first_None now rr recs :
  refresh_first now rr recs = None <-> rr_id rr ∉ (rr_id ∘ cr_rr <$> recs).
Proof.
  induction recs as [|cr recs IH]; cbn [refresh_first].
  { split; [set_solver|done]. }
  rewrite fmap_cons, not_elem_of_cons, <- IH. simpl.
  destruct (recordsEqual (cr_rr cr) rr) eqn:E.
  - apply recordsEqual_iff in E. rewrite E. split; [done | by intros [[] _]].
  - assert (rr_id rr <> rr_id (cr_rr cr)).
    { intros E'. symmetry in E'. apply recordsEqual_iff in E'. congruence. }
    rewrite fmap_None. tauto.
Qed.

Lemma refresh_first_Some now rr recs recs' :
  refresh_first now rr recs = Some recs' ->
  exists l1 cr l2, recs = l1 ++ cr :: l2 /\ rr_id (cr_rr cr) = rr_id rr /\
    recs' = l1 ++ mkCached (set_TTL (rr_TTL rr) (cr_rr cr)) (now + ttl_duration rr) now :: l2.
Proof.
  revert recs'. induction recs as [|cr recs IH]; intros recs' E; cbn [refresh_first] in E; [done|].
  destruct (recordsEqual (cr_rr cr) rr) eqn:Eq.
  - injection E as <-. apply recordsEqual_iff in Eq. by exists [], cr, recs.
  - apply fmap_Some in E as (rest & E & ->). apply IH in E as (l1 & x & l2 & -> & Hid & ->).
    by exists (cr :: l1), x, l2.
Qed.

(** What [Upsert] leaves under the record's key. *)
Lemma Upsert_records now rr c :
  exists l1 cr l2,
    records_of (Upsert now rr c).1 (rrKey (rr_Name rr) (rr_Type rr)) = l1 ++ cr :: l2 /\
    rr_id (cr_rr cr) = rr_id rr /\ rr_TTL (cr_rr cr) = rr_TTL rr /\
    cr_expires cr = (now + ttl_duration rr)%Z /\ cr_received cr = now /\
    (rr_CacheFlush rr = true -> l1 = [] /\ l2 = [] /\ cr_rr cr = rr) /\
    (rr_CacheFlush rr = false ->
      (l2 = [] /\ l1 = records_of c (rrKey (rr_Name rr) (rr_Type rr)) /\
        (rr_id rr ∉ (rr_id ∘ cr_rr <$> l1)) /\ cr_rr cr = rr) \/
      (exists old, records_of c (rrKey (rr_Name rr) (rr_Type rr)) = l1 ++ old :: l2 /\
        rr_id (cr_rr old) = rr_id rr /\ cr_rr cr = set_TTL (rr_TTL rr) (cr_rr old))).
Proof.
  unfold Upsert, records_of. set (key := rrKey _ _).
  destruct (rr_CacheFlush rr).
  { simpl. rewrite lookup_insert_eq. simpl. by eexists [], _, []. }
  destruct (refresh_first _ _ _) as [recs'|] eqn:E; simpl; rewrite lookup_insert_eq; simpl.
  - apply refresh_first_Some in E as (l1 & x & l2 & E & Hid & ->).
    eexists l1, _, l2. split_and!; try done. intros _. right. by exists x.
  - apply refresh_first_None in E. eexists _, _, []. split_and!; try done. intros _. by left.
Qed.

Lemma Upsert_other now rr c key :
  key <> rrKey (rr_Name rr) (rr_Type rr) -> (Upsert now rr c).1 !! key = c !! key.
Proof.
  intros Hk. unfold Upsert. by destruct (refresh_first _ _ _); simpl; rewrite lookup_insert_ne by done.
Qed.

Lemma Upsert_wf now rr c : cache_wf c -> cache_wf (Upsert now rr c).1.
Proof.
  intros Hc key recs Hk. destruct (decide (key = rrKey (rr_Name rr) (rr_Type rr))) as [->|Hne].
  2: { rewrite Upsert_other in Hk by done. by apply Hc. }
  apply records_of_Some in Hk as <-.
  destruct (records_of_wf c (rrKey (rr_Name rr) (rr_Type rr)) Hc) as [Hkeys Hnd].
  destruct (Upsert_records now rr c) as (l1 & cr & l2 & -> & Hid & _ & _ & _ & Hf & Hn).
  split; [by destruct l1|]. destruct (rr_CacheFlush rr).
  { destruct Hf as (-> & -> & Hcr); [done|]. split; [|apply NoDup_singleton].
    constructor; [cbn; by rewrite Hcr | done]. }
  destruct Hn as [(-> & -> & Hnew & Hcr)|(old & E & Hold & Hcr)]; [done|..].
  - split.
    { apply Forall_app_2; [done|]. constructor; [cbn; by rewrite Hcr | done]. }
    rewrite fmap_app. apply NoDup_app.
    split; [done|]. split; [|apply NoDup_singleton]. intros x Hx ->%list_elem_of_singleton.
    cbn in Hx. by rewrite Hid in Hx.
  - rewrite E in Hkeys, Hnd. apply Forall_app in Hkeys as [Hk1 [Hk2 Hk3]%Forall_cons]. split.
    + apply Forall_app_2; [done|]. constructor; [|done]. cbn. by rewrite Hcr.
    + rewrite !fmap_app, !fmap_cons in *. simpl in *. by rewrite Hid, <- Hold.
Qed.

(** *** The other operations *)

Lemma entry_wf_sublist key recs recs' :
  recs' `sublist_of` recs -> recs' <> [] -> entry_wf key recs -> entry_wf key recs'.
Proof.
  intros Hs Hne (_ & Hk & Hnd). split_and!; [done | |].
  - apply Forall_forall. intros cr Hcr. rewrite Forall_forall in Hk.
    apply Hk. by eapply elem_of_sublist.
  - eapply sublist_NoDup; [exact Hnd|]. clear -Hs.
    induction Hs; simpl; by constructor.
Qed.

Lemma Remove_wf key c : cache_wf c -> cache_wf (Remove key c).
Proof. unfold Remove. intros Hc k recs [_ Hk]%lookup_delete_Some. by apply Hc. Qed.

Lemma RemoveName_wf name c : cache_wf c -> cache_wf (RemoveName name c).
Proof. unfold RemoveName. intros Hc k recs [Hk _]%map_lookup_filter_Some. by apply Hc. Qed.

Lemma Expire_lookup now c key :
  (Expire now c).1 !! key = 
    (c !! key) ≫= λ recs,
      let filtered := filter (λ cr, valid now cr = true) recs in
      if decide (filtered = []) then None else Some filtered.
Proof. apply lookup_omap. Qed.

Lemma Expire_wf now c : cache_wf c -> cache_wf (Expire now c).1.
Proof.
  intros Hc key recs. rewrite Expire_lookup. intros (recs0 & Hk & E)%bind_Some.
  apply Hc in Hk. cbn zeta in E. destruct (decide _) as [|Hne] in E; [done|]. injection E as <-.
  eapply entry_wf_sublist; [apply sublist_filter | done | done].
Qed.

Lemma cap_ttl_id now cr : rr_id (cr_rr (cap_ttl now cr)) = rr_id (cr_rr cr).
Proof. unfold cap_ttl. by case_if. Qed.

Lemma cap_ttl_ids now recs : rr_id ∘ cr_rr <$> map (cap_ttl now) recs = rr_id ∘ cr_rr <$> recs.
Proof.
  induction recs as [|cr recs IH]; [done|]. cbn. rewrite cap_ttl_id. f_equal. exact IH.
Qed.

Lemma cap_ttl_valid now now' cr : valid now' (cap_ttl now cr) = valid now' cr.
Proof. unfold cap_ttl. by case_if. Qed.

Lemma cap_ttls_records now name c key :
  records_of (cap_ttls now name c) key
  = if bool_decide (k_Name key = lowerName (normalizeName name))
    then map (cap_ttl now) (records_of c key) else records_of c key.
Proof.
  unfold records_of, cap_ttls. rewrite map_lookup_imap.
  destruct (c !! key); simpl; by case_bool_decide.
Qed.

Lemma cap_ttls_wf now name c : cache_wf c -> cache_wf (cap_ttls now name c).
Proof.
  intros Hc key recs. unfold cap_ttls. rewrite map_lookup_imap.
  intros (recs0 & Hk & [= <-])%bind_Some. apply Hc in Hk. case_bool_decide; [|done].
  destruct Hk as (Hne & Hkey & Hnd). split_and!.
  - by destruct recs0.
  - apply Forall_map. eapply Forall_impl; [exact Hkey|]. intros cr Hcr. unfold cap_ttl. cbn.
    by case_if.
  - rewrite cap_ttl_ids. exact Hnd.
Qed.

(** ** Reachable caches *)

(** The operations that change a cache, with their clock readings. *)
Inductive cache_step : Cache -> Cache -> Prop :=
  | step_Upsert now rr c : cache_step c (Upsert now rr c).1
  | step_Remove key c : cache_step c (Remove key c)
  | step_RemoveName name c : cache_step c (RemoveName name c)
  | step_Expire now c : cache_step c (Expire now c).1
  | step_cap now name c : cache_step c (cap_ttls now name c).

Definition cache_reachable : Cache -> Prop := rtc cache_step NewCache.

Lemma cache_step_wf c c' : cache_step c c' -> cache_wf c -> cache_wf c'.
Proof.
  destruct 1; auto using Upsert_wf, Remove_wf, RemoveName_wf, Expire_wf, cap_ttls_wf.
Qed.

Lemma cache_steps_wf c c' : rtc cache_step c c' -> cache_wf c -> cache_wf c'.
Proof. induction 1; eauto using cache_step_wf. Qed.

Lemma NewCache_wf : cache_wf NewCache.
Proof. apply map_Forall_empty. Qed.

End CacheInvariant.

#[export] Hint Resolve Upsert_wf Remove_wf RemoveName_wf Expire_wf cap_ttls_wf NewCache_wf : mdns.

(** ** What lookups show *)

Section Lookups.
  Context `{UnicodeTables}.

Lemma elem_of_Lookup now key c rr :
  rr ∈ Lookup now key c <->
  exists cr, cr ∈ records_of c key /\ cr_rr cr = rr /\ (now < cr_expires cr)%Z.
Proof.
  unfold Lookup. rewrite list_elem_of_fmap. split.
  - intros (cr & -> & [Hv Hin]%list_elem_of_filter). apply Z.ltb_lt in Hv. eauto.
  - intros (cr & Hin & <- & Hv%Z.ltb_lt). exists cr. split; [done|].
    by apply list_elem_of_filter.
Qed.

Lemma filter_valid_later now now' (recs : list cachedRecord) :
  (now <= now')%Z ->
  filter (λ cr, valid now' cr = true) (filter (λ cr, valid now cr = true) recs)
  = filter (λ cr, valid now' cr = true) recs.
Proof.
  intros Hle. rewrite list_filter_filter_l; [done|].
  intros cr Hv%Z.ltb_lt. apply Z.ltb_lt. lia.
Qed.

Lemma Expire_records now c key :
  records_of (Expire now c).1 key = filter (λ cr, valid now cr = true) (records_of c key).
Proof.
  unfold records_of. rewrite Expire_lookup. destruct (c !! key) as [recs|]; [|done].
  cbn [mbind option_bind]. cbn zeta. destruct (decide _) as [E|]; [|done].
  simpl. by rewrite E.
Qed.

(** The number of records, expired or not. *)
Definition cache_size (c : Cache) : nat := map_fold (λ _ recs n, n + length recs) 0 c.

Lemma count_fold (f : list cachedRecord -> nat) (c : Cache) key recs :
  c !! key = None ->
  map_fold (λ _ recs n, n + f recs) 0 (<[key := recs]> c)
  = map_fold (λ _ recs n, n + f recs) 0 c + f recs.
Proof. intros Hk. rewrite map_fold_insert_L; [done | | done]. intros. lia. Qed.

Lemma filter_split_length now (recs : list cachedRecord) :
  length recs = length (filter (λ cr, valid now cr = true) recs)
    + length (filter (λ cr, valid now cr = false) recs).
Proof.
  induction recs as [|cr recs IH]; [done|]. rewrite !filter_cons.
  destruct (valid now cr); simpl; lia.
Qed.

Lemma Expire_size now c : cache_size c = cache_size (Expire now c).1 + (Expire now c).2.
Proof.
  unfold cache_size, Expire. simpl.
  induction c as [|key recs c Hk IH] using map_ind; [done|].
  rewrite !count_fold by done. pose proof (filter_split_length now recs) as Hlen.
  rewrite omap_insert. cbn zeta.
  destruct (decide (filter (λ cr, valid now cr = true) recs = [])) as [E|E].
  - rewrite delete_id by (by rewrite lookup_omap, Hk). rewrite E in Hlen. simpl in Hlen. lia.
  - rewrite count_fold by (by rewrite lookup_omap, Hk). lia.
Qed.

Lemma elem_of_LookupName now name c order :
  order ≡ₚ map_to_list c ->
  forall rr, rr ∈ LookupName now name order <->
    exists t, rr ∈ Lookup now (mkKey (lowerName (normalizeName name)) t) c.
Proof.
  intros Ho rr. unfold LookupName. rewrite list_elem_of_join. split.
  - intros (l & Hrr & ([k recs] & -> & Hin)%list_elem_of_fmap).
    cbn in Hrr. case_bool_decide as Hk; [|set_solver].
    rewrite Ho in Hin. apply elem_of_map_to_list, records_of_Some in Hin.
    apply list_elem_of_fmap in Hrr as (cr & -> & [Hv%Z.ltb_lt Hcr]%list_elem_of_filter).
    destruct k as [kn kt]. cbn in Hk. subst kn. exists kt.
    apply elem_of_Lookup. exists cr. by rewrite Hin.
  - intros (t & (cr & Hcr & <- & Hv%Z.ltb_lt)%elem_of_Lookup). revert Hcr. unfold records_of.
    destruct (c !! _) as [recs|] eqn:E; [|set_solver]. cbn. intros Hcr. eexists. split.
    2: { apply list_elem_of_fmap. eexists. split; [reflexivity|].
         rewrite Ho. by apply elem_of_map_to_list. }
    cbn. rewrite bool_decide_true by done. apply list_elem_of_fmap. exists cr.
    split; [done|]. by apply list_elem_of_filter.
Qed.

Lemma HasValidRecord_Lookup now key c :
  HasValidRecord now key c = true <-> Lookup now key c <> [].
Proof.
  unfold HasValidRecord, Lookup. rewrite existsb_exists. split.
  - intros (cr & Hcr%list_elem_of_In & Hv) E. apply fmap_nil_inv in E.
    assert (Hin : cr ∈ filter (λ cr, valid now cr = true) (records_of c key))
      by (by apply list_elem_of_filter).
    rewrite E in Hin. by apply elem_of_nil in Hin.
  - intros Hne. destruct (filter _ _) as [|cr l] eqn:E; [done|].
    assert (Hin : cr ∈ filter (λ cr, valid now cr = true) (records_of c key))
      by (rewrite E; left).
    apply list_elem_of_filter in Hin as [Hv Hin]. exists cr. by rewrite <- list_elem_of_In.
Qed.

End Lookups.

(** ** Properties *)

Section Properties.
  Context `{UnicodeTables}.

Lemma lookup_split now (recs l1 l2 : list cachedRecord) cr r :
  recs = l1 ++ cr :: l2 ->
  (exists x, x ∈ recs /\ cr_rr x = r /\ (now < cr_expires x)%Z) <->
  (cr_rr cr = r /\ (now < cr_expires cr)%Z) \/
  (exists x, x ∈ l1 ++ l2 /\ cr_rr x = r /\ (now < cr_expires x)%Z).
Proof. intros ->. set_solver. Qed.

(** Distinct identities in a bucket. *)
Lemma bucket_ids (l1 l2 : list cachedRecord) cr x :
  NoDup (rr_id ∘ cr_rr <$> l1 ++ cr :: l2) -> x ∈ l1 ++ l2 -> rr_id (cr_rr x) <> rr_id (cr_rr cr).
Proof.
  intros Hnd Hx E. rewrite fmap_app, fmap_cons in Hnd.
  rewrite <- Permutation_middle, <- fmap_app in Hnd.
  apply NoDup_cons in Hnd as [Hni _]. apply Hni. apply list_elem_of_fmap. by exists x.
Qed.

(** [Upsert] then lookup.  After a record is added, its bucket shows one
    record of its identity, with its TTL, until it expires; of the other records
    of the bucket it shows those it showed before, or none if the record had the
    cache-flush bit; other buckets are unchanged. *)
Theorem Upsert_Lookup now now' rr c :
  cache_wf c ->
  let key := rrKey (rr_Name rr) (rr_Type rr) in
  let c' := (Upsert now rr c).1 in
  (forall k, k <> key -> Lookup now' k c' = Lookup now' k c) /\
  (forall r, rr_id r <> rr_id rr ->
     r ∈ Lookup now' key c' <-> rr_CacheFlush rr = false /\ r ∈ Lookup now' key c) /\
  (forall r, r ∈ Lookup now' key c' -> rr_id r = rr_id rr ->
     rr_TTL r = rr_TTL rr /\ (now' < now + ttl_duration rr)%Z) /\
  ((now' < now + ttl_duration rr)%Z -> exists r, r ∈ Lookup now' key c' /\ rr_id r = rr_id rr).
Proof.
  intros Hc key c'. pose proof (Upsert_wf now rr c Hc) as Hc'.
  destruct (records_of_wf c' key Hc') as [_ Hnd].
  destruct (Upsert_records now rr c) as (l1 & cr & l2 & E & Hid & Httl & Hexp & _ & Hf & Hn).
  fold c' key in E. rewrite E in Hnd.
  assert (Hother : forall x, x ∈ l1 ++ l2 -> rr_id (cr_rr x) <> rr_id rr).
  { intros x Hx. rewrite <- Hid. by apply (bucket_ids l1 l2). }
  split_and!.
  - intros k Hk. unfold Lookup, records_of, c'. by rewrite Upsert_other.
  - intros r Hr. rewrite !elem_of_Lookup, (lookup_split _ _ _ _ _ _ E).
    destruct (rr_CacheFlush rr).
    + destruct Hf as (-> & -> & _); [done|]. split; [|by intros []].
      intros [[<- _]|(x & Hx & _)]; [done | by apply elem_of_nil in Hx].
    + destruct Hn as [(-> & -> & _)|(old & E' & Hold & _)]; [done|..].
      * rewrite app_nil_r. split; [intros [[<- _]|Hx]; [done|by split] | intros [_ Hx]; by right].
      * fold key in E'. rewrite (lookup_split _ _ _ _ _ _ E').
        split; [intros [[<- _]|Hx]; [done|split; [done|by right]]|].
        intros [_ [[<- _]|Hx]]; [done | by right].
  - intros r. rewrite elem_of_Lookup, (lookup_split _ _ _ _ _ _ E).
    intros [[<- Hlt]|(x & Hx & <- & _)] Hr; [|by apply Hother in Hx].
    split; [done|lia].
  - intros Hlt. exists (cr_rr cr). split; [|done]. apply elem_of_Lookup. exists cr.
    rewrite E. split_and!; [set_solver | done | lia].
Qed.

(** Every cache the operations can produce, in any order and at any
    clock readings, files each record under its own name and type, holds no two
    records of the same identity and no empty bucket. *)
Theorem cache_reachable_wf c : cache_reachable c -> cache_wf c.
Proof. intros Hc. by eapply cache_steps_wf, NewCache_wf. Qed.

(** [Expire] removes exactly the expired records: no lookup from now on can
    tell the difference, every record left is live, and the count returned is
    the number of records removed. *)
Theorem Expire_spec now c :
  (forall now' key, (now <= now')%Z -> Lookup now' key (Expire now c).1 = Lookup now' key c) /\
  (forall key cr, cr ∈ records_of (Expire now c).1 key -> (now < cr_expires cr)%Z) /\
  cache_size c = cache_size (Expire now c).1 + (Expire now c).2.
Proof.
  split_and!.
  - intros now' key Hle. unfold Lookup. rewrite Expire_records. by rewrite filter_valid_later.
  - intros key cr. rewrite Expire_records, list_elem_of_filter. intros [Hv%Z.ltb_lt _]. done.
  - apply Expire_size.
Qed.

(** [LookupName] finds the live records of a name under every type, in
    whatever order the map is visited; [HasValidRecord] tells whether [Lookup]
    finds any. *)
Theorem LookupName_spec now name c order :
  order ≡ₚ map_to_list c ->
  (forall rr, rr ∈ LookupName now name order <->
     exists t, rr ∈ Lookup now (mkKey (lowerName (normalizeName name)) t) c) /\
  (forall key, HasValidRecord now key c = true <-> Lookup now key c <> []).
Proof. intros Ho. split; [by apply elem_of_LookupName | intros key; apply HasValidRecord_Lookup]. Qed.

(** The known answers sent along with a query are live records of that name
    and type with more than half of their TTL to run. *)
Theorem KnownAnswers_sound now now2 name t c rr :
  (forall i, now <= now2 i)%Z -> rr ∈ KnownAnswers now now2 name t c ->
  rr ∈ Lookup now (rrKey name t) c /\
  exists cr, cr ∈ records_of c (rrKey name t) /\ cr_rr cr = rr /\
    (Z.quot (ttl_duration rr) 2 < cr_expires cr - now)%Z.
Proof.
  intros Hclock Hrr. unfold KnownAnswers in Hrr.
  apply list_elem_of_join in Hrr as (l & Hrr & (i & cr & -> & Hcr)%elem_of_lookup_imap).
  apply list_elem_of_lookup_2 in Hcr. cbn in Hrr. case_if_in Hrr; [|by apply elem_of_nil in Hrr].
  apply list_elem_of_singleton in Hrr as ->. bool_arith. specialize (Hclock i).
  split; [|exists cr; split_and!; [done|done|lia]].
  apply elem_of_Lookup. exists cr. split_and!; [done|done|by apply Z.ltb_lt].
Qed.

(** Passive observation lowers the TTL field of the cached records but not
    the time they expire, so every record is found exactly as long as before. *)
Theorem passive_observation_keeps_expiry now now' name key c :
  HasValidRecord now' key (cap_ttls now name c) = HasValidRecord now' key c.
Proof.
  unfold HasValidRecord. rewrite cap_ttls_records. case_bool_decide; [|done].
  induction (records_of c key) as [|cr recs IH]; [done|]. simpl. by rewrite cap_ttl_valid, IH.
Qed.

End Properties.
