(* ===== verification/CacheRefine.v ===== *)
(** * The cache implements a map of record identities

    The specification of the cache: under each key, each record identity is either
    absent or shown as a record with the time it expires.  Buckets, their order, the
    search for an equal record and the sweeps of [Expire] are implementation: the
    operations of the cache simulate those of the specification step by step, and
    every lookup answers from the specification alone. *)

From S2P Require Export CacheSpec.

Section CacheRefine.
  Context `{UnicodeTables}.

(** ** The specification *)

Definition store : Type := CacheKey -> ResourceRecord -> option (ResourceRecord * Z).

Definition empty_store : store := λ _ _, None.

(** A known identity keeps its record and gets the new TTL and expiry; the
    cache-flush bit forgets every other identity of the key, and the old record. *)
Definition store_upsert (now : Z) (rr : ResourceRecord) (a : store) : store := λ key id,
  if bool_decide (key = rrKey (rr_Name rr) (rr_Type rr)) then
    if bool_decide (id = rr_id rr) then
      let kept := match a key id, rr_CacheFlush rr with
                  | Some (old, _), false => set_TTL (rr_TTL rr) old
                  | _, _ => rr
                  end in
      Some (kept, (now + ttl_duration rr)%Z)
    else if rr_CacheFlush rr then None else a key id
  else a key id.

Definition store_remove (key : CacheKey) (a : store) : store := λ k id,
  if bool_decide (k = key) then None else a k id.

Definition store_remove_name (name : gostring) (a : store) : store := λ k id,
  if bool_decide (k_Name k = lowerName (normalizeName name)) then None else a k id.

Definition store_expire (now : Z) (a : store) : store := λ key id,
  v ← a key id; if (now <? v.2)%Z then Some v else None.

Definition store_cap (now : Z) (name : gostring) (a : store) : store := λ key id,
  (λ v : ResourceRecord * Z,
     if bool_decide (k_Name key = lowerName (normalizeName name)) && (now <? v.2)%Z
        && (10 <? rr_TTL v.1)%Z
     then (set_TTL 10 v.1, v.2) else v) <$> a key id.

(** ** Operations on either side *)

Inductive cache_op :=
  | OpUpsert (now : Z) (rr : ResourceRecord)
  | OpRemove (key : CacheKey)
  | OpRemoveName (name : gostring)
  | OpExpire (now : Z)
  | OpCap (now : Z) (name : gostring).

Definition cache_exec (c : Cache) (op : cache_op) : Cache :=
  match op with
  | OpUpsert now rr => (Upsert now rr c).1
  | OpRemove key => Remove key c
  | OpRemoveName name => RemoveName name c
  | OpExpire now => (Expire now c).1
  | OpCap now name => cap_ttls now name c
  end.

Definition store_exec (a : store) (op : cache_op) : store :=
  match op with
  | OpUpsert now rr => store_upsert now rr a
  | OpRemove key => store_remove key a
  | OpRemoveName name => store_remove_name name a
  | OpExpire now => store_expire now a
  | OpCap now name => store_cap now name a
  end.

Definition run_cache (ops : list cache_op) : Cache := foldl cache_exec NewCache ops.
Definition run_store (ops : list cache_op) : store := foldl store_exec empty_store ops.

(** ** The simulation *)

(** [cr] is the entry of identity [id] under [key]. *)
Definition holds (c : Cache) (key : CacheKey) (id : ResourceRecord) (v : ResourceRecord * Z) : Prop :=
  exists cr, cr ∈ records_of c key /\ rr_id (cr_rr cr) = id /\ v = (cr_rr cr, cr_expires cr).

Definition simulates (c : Cache) (a : store) : Prop :=
  cache_wf c /\ forall key id v, a key id = Some v <-> holds c key id v.

Lemma holds_inj c key id v v' : cache_wf c -> holds c key id v -> holds c key id v' -> v = v'.
Proof.
  intros Hc (cr & Hin & Hid & ->) (cr' & Hin' & Hid' & ->).
  destruct (records_of_wf c key Hc) as [_ Hnd].
  apply list_elem_of_split in Hin as (l1 & l2 & E). rewrite E in Hnd, Hin'.
  destruct (decide (cr' ∈ l1 ++ l2)) as [Hx|Hx].
  { apply (bucket_ids l1 l2 cr cr' Hnd) in Hx. congruence. }
  set_solver.
Qed.

Lemma simulates_None c a key id : simulates c a -> a key id = None <-> forall v, ~ holds c key id v.
Proof.
  intros [_ Ha]. rewrite eq_None_not_Some. split.
  - intros Hn v Hv%Ha. apply Hn. by exists v.
  - intros Hn [v Hv%Ha]. by apply (Hn v).
Qed.

Lemma holds_Upsert_other now rr c key id v :
  key <> rrKey (rr_Name rr) (rr_Type rr) ->
  holds (Upsert now rr c).1 key id v <-> holds c key id v.
Proof. intros Hk. unfold holds, records_of. by rewrite Upsert_other. Qed.

(** What [Upsert] leaves under the key of the record, identity by identity. *)
Lemma holds_Upsert_key now rr c a id v :
  simulates c a -> let key := rrKey (rr_Name rr) (rr_Type rr) in
  store_upsert now rr a key id = Some v <-> holds (Upsert now rr c).1 key id v.
Proof.
  intros [Hc Ha] key. pose proof (Upsert_wf now rr c Hc) as Hc'.
  unfold store_upsert. rewrite bool_decide_true by done.
  destruct (records_of_wf _ key Hc') as [_ Hnd].
  destruct (Upsert_records now rr c) as (l1 & cr & l2 & E & Hid & _ & Hexp & _ & Hf & Hn).
  fold key in E, Hn. unfold holds. rewrite E in *. case_bool_decide as Hi; [subst id|].
  - assert (Ecr : match a key (rr_id rr), rr_CacheFlush rr with
                  | Some (old, _), false => set_TTL (rr_TTL rr) old | _, _ => rr end = cr_rr cr).
    { destruct (rr_CacheFlush rr).
      { destruct Hf as (_ & _ & ->); [done|]. by destruct (a key _) as [[]|]. }
      destruct Hn as [(_ & -> & Hni & ->)|(old & Eold & Hold & ->)]; [done|..].
      - replace (a key (rr_id rr)) with (@None (ResourceRecord * Z)); [done|]. symmetry.
        apply (simulates_None c); [done|]. intros w (x & Hx & Hxid & _). apply Hni.
        apply list_elem_of_fmap. by exists x.
      - replace (a key (rr_id rr)) with (Some (cr_rr old, cr_expires old)); [done|]. symmetry.
        apply Ha. exists old. rewrite Eold. split_and!; [set_solver|done|done]. }
    cbn zeta. rewrite Ecr, <- Hexp. split.
    + intros [= <-]. exists cr. split_and!; [set_solver|done|done].
    + intros (x & Hx & Hxid & ->). destruct (decide (x ∈ l1 ++ l2)) as [Hin|Hin].
      { apply (bucket_ids l1 l2 cr x Hnd) in Hin. congruence. }
      assert (x = cr) as -> by set_solver. done.
  - destruct (rr_CacheFlush rr).
    + destruct Hf as (-> & -> & _); [done|]. split; [done|].
      intros (x & ->%list_elem_of_singleton & Hx & _). congruence.
    + rewrite Ha. unfold holds.
      destruct Hn as [(-> & -> & _)|(old & -> & Hold & _)]; [done|..]; split;
        intros (x & Hx & Hxid & ->); exists x; (split_and!; [|done|done]);
        assert (x <> cr) by congruence; try assert (x <> old) by congruence; set_solver.
Qed.

Lemma simulates_Upsert now rr c a :
  simulates c a -> simulates (Upsert now rr c).1 (store_upsert now rr a).
Proof.
  intros Hsim. split; [apply Upsert_wf, Hsim|]. intros key id v.
  destruct (decide (key = rrKey (rr_Name rr) (rr_Type rr))) as [->|Hne]; [by apply holds_Upsert_key|].
  rewrite holds_Upsert_other by done. unfold store_upsert. rewrite bool_decide_false by done.
  apply Hsim.
Qed.

(** The operations that only drop entries. *)
Lemma simulates_filtered c c' a a' (keep : CacheKey -> ResourceRecord * Z -> Prop) :
  simulates c a -> cache_wf c' ->
  (forall key id v, a' key id = Some v <-> a key id = Some v /\ keep key v) ->
  (forall key cr, cr ∈ records_of c' key <->
     cr ∈ records_of c key /\ keep key (cr_rr cr, cr_expires cr)) ->
  simulates c' a'.
Proof.
  intros [_ Ha] Hc' Ha' Hr. split; [done|]. intros key id v. rewrite Ha', Ha. unfold holds. split.
  - intros [(cr & Hin & Hid & ->) Hk]. exists cr. rewrite Hr. done.
  - intros (cr & [Hin Hk]%Hr & Hid & ->). split; [by exists cr|done].
Qed.

Lemma simulates_Remove key c a : simulates c a -> simulates (Remove key c) (store_remove key a).
Proof.
  intros Hsim. apply (simulates_filtered c _ a _ (λ k _, k <> key));
    [done | apply Remove_wf, Hsim | |].
  - intros k id v. unfold store_remove. case_bool_decide; naive_solver.
  - intros k cr. unfold records_of, Remove. destruct (decide (k = key)) as [->|Hne].
    + rewrite lookup_delete_eq. split; [intros Hin; by apply elem_of_nil in Hin | by intros []].
    + rewrite lookup_delete_ne by done. tauto.
Qed.

Lemma simulates_RemoveName name c a :
  simulates c a -> simulates (RemoveName name c) (store_remove_name name a).
Proof.
  intros Hsim.
  apply (simulates_filtered c _ a _ (λ k _, k_Name k <> lowerName (normalizeName name)));
    [done | apply RemoveName_wf, Hsim | |].
  - intros k id v. unfold store_remove_name. case_bool_decide; naive_solver.
  - intros k cr. unfold records_of, RemoveName. cbn zeta. rewrite map_lookup_filter.
    destruct (c !! k) as [recs|] eqn:E; cbn [mbind option_bind default from_option].
    + case_guard; cbn; [tauto|]. split; [intros Hin; by apply elem_of_nil in Hin | tauto].
    + split; [intros Hin; by apply elem_of_nil in Hin | by intros [Hin%elem_of_nil _]].
Qed.

Lemma simulates_Expire now c a : simulates c a -> simulates (Expire now c).1 (store_expire now a).
Proof.
  intros Hsim. apply (simulates_filtered c _ a _ (λ _ v, (now < v.2)%Z));
    [done | apply Expire_wf, Hsim | |].
  - intros k id v. unfold store_expire. destruct (a k id) as [w|]; cbn; [|naive_solver].
    destruct (Z.ltb_spec now w.2); naive_solver lia.
  - intros k cr. rewrite Expire_records, list_elem_of_filter. cbn. unfold valid.
    rewrite Z.ltb_lt. tauto.
Qed.

Lemma simulates_cap now name c a :
  simulates c a -> simulates (cap_ttls now name c) (store_cap now name a).
Proof.
  intros [Hc Ha]. split; [by apply cap_ttls_wf|]. intros key id v. unfold store_cap, holds.
  rewrite cap_ttls_records. case_bool_decide; cbn [andb]; cycle 1.
  { rewrite fmap_Some. unfold holds in Ha. naive_solver. }
  rewrite fmap_Some. split.
  - intros (w & (cr & Hin & Hid & ->)%Ha & ->). exists (cap_ttl now cr). cbn.
    rewrite cap_ttl_id. split_and!; [apply list_elem_of_fmap; by exists cr | done |].
    unfold cap_ttl, valid. by case_if.
  - intros (x & (cr & -> & Hin)%list_elem_of_fmap & Hid & ->). rewrite cap_ttl_id in Hid.
    exists (cr_rr cr, cr_expires cr). split; [apply Ha; by exists cr|]. cbn.
    unfold cap_ttl, valid. by case_if.
Qed.

Lemma simulates_exec op c a : simulates c a -> simulates (cache_exec c op) (store_exec a op).
Proof.
  intros Hsim. destruct op; [by apply simulates_Upsert | by apply simulates_Remove
    | by apply simulates_RemoveName | by apply simulates_Expire | by apply simulates_cap].
Qed.

Lemma simulates_run ops : simulates (run_cache ops) (run_store ops).
Proof.
  unfold run_cache, run_store.
  assert (Hgen : forall c a, simulates c a ->
    simulates (foldl cache_exec c ops) (foldl store_exec a ops)).
  { induction ops as [|op ops IH]; intros c a Hsim; cbn; [done|]. by apply IH, simulates_exec. }
  apply Hgen. split; [apply NewCache_wf|]. intros key id v. split; [done|].
  by intros (cr & Hin%elem_of_nil & _).
Qed.

(** ** What the lookups answer *)

(** The records an identity of the key shows at [now]. *)
Definition shown (now : Z) (a : store) (key : CacheKey) (rr : ResourceRecord) : Prop :=
  exists id e, a key id = Some (rr, e) /\ (now < e)%Z.

Lemma Lookup_shown now key c a rr :
  simulates c a -> rr ∈ Lookup now key c <-> shown now a key rr.
Proof.
  intros [_ Ha]. rewrite elem_of_Lookup. split.
  - intros (cr & Hin & <- & Hlt). exists (rr_id (cr_rr cr)), (cr_expires cr).
    split; [|done]. apply Ha. by exists cr.
  - intros (id & e & (cr & Hin & _ & [= -> ->])%Ha & Hlt). by exists cr.
Qed.

Lemma Lookup_ids now key c : cache_wf c -> NoDup (rr_id <$> Lookup now key c).
Proof.
  intros Hc. destruct (records_of_wf c key Hc) as [_ Hnd]. unfold Lookup.
  rewrite <- list_fmap_compose. eapply sublist_NoDup; [exact Hnd|].
  apply (fmap_sublist _ _ _), sublist_filter.
Qed.

Lemma AllRecords_elem now c order rr :
  order ≡ₚ map_to_list c ->
  rr ∈ AllRecords now order <-> exists key, rr ∈ Lookup now key c.
Proof.
  intros Ho. unfold AllRecords. rewrite list_elem_of_join. split.
  - intros (l & Hrr & ([k recs] & -> & Hin)%list_elem_of_fmap). exists k.
    rewrite Ho in Hin. apply elem_of_map_to_list, records_of_Some in Hin.
    unfold Lookup. by rewrite Hin.
  - intros (key & Hrr). unfold Lookup, records_of in Hrr.
    destruct (c !! key) as [recs|] eqn:E; [|by apply elem_of_nil in Hrr].
    eexists. split; [exact Hrr|]. apply list_elem_of_fmap. exists (key, recs). split; [done|].
    rewrite Ho. by apply elem_of_map_to_list.
Qed.

Lemma KnownAnswers_elem now now2 name t c rr :
  rr ∈ KnownAnswers now (λ _, now2) name t c <->
  exists cr, cr ∈ records_of c (rrKey name t) /\ cr_rr cr = rr /\ (now < cr_expires cr)%Z /\
    (Z.quot (ttl_duration rr) 2 < cr_expires cr - now2)%Z.
Proof.
  unfold KnownAnswers. rewrite list_elem_of_join. split.
  - intros (l & Hrr & (i & cr & -> & Hcr)%elem_of_lookup_imap). apply list_elem_of_lookup_2 in Hcr.
    cbn in Hrr. case_if_in Hrr; [|by apply elem_of_nil in Hrr].
    apply list_elem_of_singleton in Hrr as ->. bool_arith. unfold valid in *. bool_arith.
    exists cr. split_and!; done || lia.
  - intros (cr & Hin & <- & Hv & Hlt). apply list_elem_of_lookup_1 in Hin as [i Hi].
    exists [cr_rr cr]. split; [by left|]. apply elem_of_lookup_imap. exists i, cr. split; [|done].
    cbn. unfold valid. by rewrite (proj2 (Z.ltb_lt _ _) Hlt), (proj2 (Z.ltb_lt _ _) Hv).
Qed.

End CacheRefine.

(** ** Properties *)

Section CacheRefineProperties.
  Context `{UnicodeTables}.

(** C6: The cache refines a map of identities.  After any sequence of additions,
    removals, sweeps and passive observations, the readings of its records answer from
    the abstract map alone (not so [RecordRemainingTTL] and [RecordOriginalTTL], which
    depend on the order of the records): a lookup shows the records whose expiry is still to
    come, one for each identity; a lookup by name, the listing of all records and the
    test for a live record show the same ones; the known answers are those with more
    than half of their TTL to run. *)
Theorem cache_refines_store ops now :
  let c := run_cache ops in
  let a := run_store ops in
  (forall key rr, rr ∈ Lookup now key c <-> shown now a key rr) /\
  (forall key, NoDup (rr_id <$> Lookup now key c)) /\
  (forall key, HasValidRecord now key c = true <-> exists rr, shown now a key rr) /\
  (forall name order rr, order ≡ₚ map_to_list c ->
     rr ∈ LookupName now name order <->
     exists t, shown now a (mkKey (lowerName (normalizeName name)) t) rr) /\
  (forall order rr, order ≡ₚ map_to_list c ->
     rr ∈ AllRecords now order <-> exists key, shown now a key rr) /\
  (forall now2 name t rr, rr ∈ KnownAnswers now (λ _, now2) name t c <->
     exists id e, a (rrKey name t) id = Some (rr, e) /\ (now < e)%Z /\
       (Z.quot (ttl_duration rr) 2 < e - now2)%Z).
Proof.
  intros c a. pose proof (simulates_run ops) as Hsim. fold c a in Hsim.
  assert (Hl : forall key rr, rr ∈ Lookup now key c <-> shown now a key rr)
    by (intros; by apply Lookup_shown).
  split_and!; [done | intros key; apply Lookup_ids, Hsim | | | |].
  - intros key. rewrite HasValidRecord_Lookup. setoid_rewrite <- Hl. split.
    + intros Hne. destruct (Lookup now key c) as [|rr l]; [done|]. exists rr. by left.
    + intros (rr & Hrr) E. rewrite E in Hrr. by apply elem_of_nil in Hrr.
  - intros name order rr Ho. rewrite elem_of_LookupName by exact Ho. by setoid_rewrite Hl.
  - intros order rr Ho. rewrite AllRecords_elem by exact Ho. by setoid_rewrite Hl.
  - intros now2 name t rr. rewrite KnownAnswers_elem. destruct Hsim as [_ Ha]. split.
    + intros (cr & Hin & <- & Hv & Hlt). exists (rr_id (cr_rr cr)), (cr_expires cr).
      split; [|done]. apply Ha. by exists cr.
    + intros (id & e & (cr & Hin & _ & [= -> ->])%Ha & Hv & Hlt). by exists cr.
Qed.

End CacheRefineProperties.
