(* ===== verification/Matching.v ===== *)
(** * Matching, known answers, tie-breaking and rate limiting (server.go)

    The functions the handlers of the server are made of, with the properties
    the protocol relies on. *)

From S2P Require Export CacheSpec.

Section Definitions.
  Context `{UnicodeTables}.

(** ** Questions and known answers *)

Definition matchesQuestion (rr : ResourceRecord) (q : Question) : bool :=
  let qType := q_Type q in
  let qClass := Z.ldiff (q_Class q) cacheFlushBit in
  let rrClass := rr_Class rr in
  if (qType =? TypeAny)%Z
  then bool_decide (lowerName (rr_Name rr) = lowerName (normalizeName (q_Name q)))
  else (rr_Type rr =? qType)%Z
       && bool_decide (lowerName (rr_Name rr) = lowerName (normalizeName (q_Name q)))
       && ((qClass =? ClassAny)%Z || (rrClass =? ClassAny)%Z || (rrClass =? qClass)%Z).

Fixpoint inKnownAnswers (rr : ResourceRecord) (known : list ResourceRecord) : bool :=
  match known with
  | [] => false
  | ka :: known =>
      if recordsEqual rr ka && (rr_TTL rr / 2 <=? rr_TTL ka)%Z then true
      else inKnownAnswers rr known
  end.

Fixpoint containsRR (records : list ResourceRecord) (rr : ResourceRecord) : bool :=
  match records with
  | [] => false
  | r :: records => if recordsEqual r rr then true else containsRR records rr
  end.

Definition recordsConflict (a b : ResourceRecord) : bool :=
  if negb (rr_Type a =? rr_Type b)%Z
     || negb (bool_decide (lowerName (rr_Name a) = lowerName (rr_Name b))) then false
  else negb (recordsEqual a b).

(** ** Probe tie-breaking *)

(** The buffer after [_ = writeName(tempBuf, name, comp)]: an error is ignored,
    what was written before it stays. *)
Definition written_name (buf : list byte) (name : gostring) : list byte :=
  w_buf (writeName name (WState buf ∅)).1.

Definition canonicalRDATA (rr : ResourceRecord) : list byte :=
  if (rr_Type rr =? TypeA)%Z || (rr_Type rr =? TypeAAAA)%Z then
    if bool_decide (rr_IP rr = []) then [] else
    match To4 (rr_IP rr), (rr_Type rr =? TypeA)%Z with
    | Some ip4, true => ip4
    | _, _ => match To16 (rr_IP rr), (rr_Type rr =? TypeAAAA)%Z with
              | Some ip6, true => ip6
              | _, _ => []
              end
    end
  else if (rr_Type rr =? TypeSRV)%Z then
    written_name (be16 (rr_Priority rr) ++ be16 (rr_Weight rr) ++ be16 (rr_Port rr))
      (lowerName (normalizeName (rr_Target rr)))
  else if (rr_Type rr =? TypePTR)%Z || (rr_Type rr =? TypeCNAME)%Z || (rr_Type rr =? TypeNS)%Z
  then written_name [] (lowerName (normalizeName (rr_Target rr)))
  else if (rr_Type rr =? TypeTXT)%Z then
    mjoin ((λ s : gostring, z2b (Z.of_nat (length s)) :: s) <$> rr_Text rr)
  else rr_RawData rr.

Definition probeLoses (ours theirs : ResourceRecord) : bool :=
  str_ltb (canonicalRDATA ours) (canonicalRDATA theirs).

(** ** Deduplication *)

(** The loop that keeps the records not yet in [skip] or among those kept. *)
Definition dedup (skip records : list ResourceRecord) : list ResourceRecord :=
  foldl (λ kept rr, if containsRR skip rr || containsRR kept rr then kept else kept ++ [rr])
    [] records.

(** ** Rate limiting *)

Definition rdataKey (rr : ResourceRecord) : gostring :=
  let raw := hex_bytes (rr_RawData rr) in
  if (rr_Type rr =? TypeA)%Z || (rr_Type rr =? TypeAAAA)%Z then
    if bool_decide (rr_IP rr = []) then raw else IP_String (rr_IP rr)
  else if (rr_Type rr =? TypePTR)%Z || (rr_Type rr =? TypeCNAME)%Z || (rr_Type rr =? TypeNS)%Z
  then lowerName (normalizeName (rr_Target rr))
  else if (rr_Type rr =? TypeSRV)%Z then
    lowerName (normalizeName (rr_Target rr)) ++ go ":" ++ Itoa (rr_Port rr)
  else if (rr_Type rr =? TypeTXT)%Z then Join (rr_Text rr) (go ",")
  else raw.

Definition rateKey (rr : ResourceRecord) : gostring :=
  lowerName (normalizeName (rr_Name rr)) ++ go ":" ++ Itoa (rr_Type rr) ++ go ":" ++ rdataKey rr.

(** [now] is the reading of [time.Since], [now2] that of [time.Now]. *)
Definition canSendMulticast (now now2 : Z) (rr : ResourceRecord) (tracker : gmap gostring Z)
    : gmap gostring Z * bool :=
  let key := rateKey rr in
  match tracker !! key with
  | Some last =>
      if (now - last <? Second)%Z then (tracker, false) else (<[key := now2]> tracker, true)
  | None => (<[key := now2]> tracker, true)
  end.

Definition cleanupRateTracker (now : Z) (tracker : gmap gostring Z) : gmap gostring Z :=
  filter (λ e : gostring * Z, ~ (now - e.2 > 5 * Second)%Z) tracker.

End Definitions.

(** ** Lemmas *)

Section Lemmas.
  Context `{UnicodeTables}.

Lemma containsRR_iff records rr :
  containsRR records rr = true <-> rr_id rr ∈ rr_id <$> records.
Proof.
  induction records as [|r records IH]; cbn [containsRR]; [set_solver|].
  rewrite fmap_cons, elem_of_cons. destruct (recordsEqual r rr) eqn:E.
  - apply recordsEqual_iff in E. by split; [left|].
  - rewrite IH. assert (rr_id rr <> rr_id r).
    { intros E'. symmetry in E'. apply recordsEqual_iff in E'. congruence. }
    tauto.
Qed.

Lemma containsRR_false records rr :
  containsRR records rr = false <-> rr_id rr ∉ rr_id <$> records.
Proof. by rewrite <- containsRR_iff, not_true_iff_false. Qed.

#[export] Instance containsRR_proper records :
  Proper ((λ a b, recordsEqual a b = true) ==> eq) (containsRR records).
Proof.
  intros a b E%recordsEqual_iff. apply eq_true_iff_eq. by rewrite !containsRR_iff, E.
Qed.

Lemma inKnownAnswers_iff rr known :
  inKnownAnswers rr known = true <->
  exists ka, ka ∈ known /\ rr_id ka = rr_id rr /\ (rr_TTL rr / 2 <= rr_TTL ka)%Z.
Proof.
  induction known as [|ka known IH]; cbn [inKnownAnswers].
  { split; [done|]. intros (ka & Hka & _). by apply elem_of_nil in Hka. }
  destruct (recordsEqual rr ka && _) eqn:E.
  - apply andb_true_iff in E as [E%recordsEqual_iff Hle%Z.leb_le].
    split; [|done]. intros _. exists ka. by split; [left|].
  - rewrite IH. split.
    + intros (k & Hk & Hrest). exists k. by split; [right|].
    + intros (k & [->|Hk]%elem_of_cons & Hid & Hle); [|by exists k].
      symmetry in Hid. apply recordsEqual_iff in Hid. apply Z.leb_le in Hle.
      by rewrite Hid, Hle in E.
Qed.

Lemma dedup_snoc skip records rr :
  dedup skip (records ++ [rr])
  = if containsRR skip rr || containsRR (dedup skip records) rr then dedup skip records
    else dedup skip records ++ [rr].
Proof. unfold dedup. by rewrite foldl_app. Qed.

Lemma ids_snoc records rr : rr_id <$> records ++ [rr] = (rr_id <$> records) ++ [rr_id rr].
Proof. by rewrite fmap_app. Qed.

Lemma dedup_spec skip records :
  NoDup (rr_id <$> dedup skip records) /\
  dedup skip records `sublist_of` records /\
  forall i, i ∈ rr_id <$> dedup skip records <->
            i ∈ rr_id <$> records /\ i ∉ rr_id <$> skip.
Proof.
  induction records as [|rr records (Hnd & Hsub & Hel)] using rev_ind.
  { split_and!; [constructor|constructor|]. set_solver. }
  rewrite dedup_snoc. destruct (containsRR skip rr) eqn:Es; cbn [orb].
  { apply containsRR_iff in Es. split_and!; [done|by apply sublist_inserts_r|].
    intros i. rewrite Hel, ids_snoc, elem_of_app, list_elem_of_singleton.
    split; [by intros []; split; [left|]|]. intros [[Hi|Hi] Hs]; [done|]. by subst i. }
  apply containsRR_false in Es. destruct (containsRR (dedup skip records) rr) eqn:Ed.
  - apply containsRR_iff in Ed. split_and!; [done|by apply sublist_inserts_r|].
    intros i. rewrite ids_snoc, elem_of_app, list_elem_of_singleton. split.
    + intros [? ?]%Hel. split; [by left|done].
    + intros [[Hi|Hi] Hs]; [by apply Hel|]. by subst i.
  - apply containsRR_false in Ed. split_and!.
    + rewrite ids_snoc. apply NoDup_app. split_and!; [done| |apply NoDup_singleton].
      intros x Hx Hx'%list_elem_of_singleton. by subst x.
    + by apply sublist_app.
    + intros i. rewrite !ids_snoc, !elem_of_app, Hel, list_elem_of_singleton.
      split; [intros [[? ?]|Hi]|].
      * split; [by left|done].
      * split; [by right | by subst i].
      * intros [[?|Hi] ?]; [by left | by right].
Qed.

End Lemmas.

(** ** Rate limiting as a step relation

    The tracker together with the sends it allowed, oldest first, as the pairs
    of clock readings of each [canSendMulticast]; [clock] is the last reading. *)

Section RateLimit.
  Context `{UnicodeTables}.

Record rate_state := RateState {
  rs_tracker : gmap gostring Z;
  rs_sent : list (gostring * (Z * Z));
  rs_clock : Z
}.

Definition rate_init : rate_state := RateState ∅ [] 0.

Inductive rate_step : rate_state -> rate_state -> Prop :=
  | rate_can_send now now2 rr tracker tracker' ok st :
      (rs_clock st <= now)%Z -> (now <= now2)%Z -> tracker = rs_tracker st ->
      canSendMulticast now now2 rr tracker = (tracker', ok) ->
      rate_step st (RateState tracker'
        (if ok then rs_sent st ++ [(rateKey rr, (now, now2))] else rs_sent st) now2)
  | rate_cleanup now st :
      (rs_clock st <= now)%Z ->
      rate_step st (RateState (cleanupRateTracker now (rs_tracker st)) (rs_sent st) now).

(** The sends of a key, oldest first. *)
Definition sends_of (key : gostring) (sent : list (gostring * (Z * Z))) : list (Z * Z) :=
  (filter (λ e : gostring * (Z * Z), e.1 = key) sent).*2.

(** Consecutive sends are a second apart. *)
Definition spaced (sends : list (Z * Z)) : Prop :=
  StronglySorted (λ s t : Z * Z, s.2 + Second <= t.1)%Z sends.

(** A key is spaced, its sends are in the past, and unless its last send is more
    than a second ago the tracker remembers it. *)
Definition rate_inv (st : rate_state) : Prop :=
  forall key, spaced (sends_of key (rs_sent st)) /\
    Forall (λ s : Z * Z, s.2 <= rs_clock st /\
      (s.2 + Second <= rs_clock st \/
       exists last, rs_tracker st !! key = Some last /\ s.2 <= last))%Z
      (sends_of key (rs_sent st)).

Lemma sends_of_app key s1 s2 : sends_of key (s1 ++ s2) = sends_of key s1 ++ sends_of key s2.
Proof. unfold sends_of. by rewrite filter_app, fmap_app. Qed.

Lemma sends_of_single key key' s :
  sends_of key [(key', s)] = if decide (key' = key) then [s] else [].
Proof. unfold sends_of. rewrite filter_cons. simpl. by destruct (decide _). Qed.

Lemma rate_inv_later st now :
  rate_inv st -> (rs_clock st <= now)%Z ->
  rate_inv (RateState (rs_tracker st) (rs_sent st) now).
Proof.
  intros Hinv Hle key. destruct (Hinv key) as [Hs Hf]. split; [done|].
  eapply Forall_impl; [exact Hf|]. intros s [Hs2 [Hsec|Htr]]; simpl; (split; [lia|]); [left; lia | by right].
Qed.

Lemma canSend_false_inv now now2 rr st tracker' :
  rate_inv st -> (rs_clock st <= now2)%Z ->
  canSendMulticast now now2 rr (rs_tracker st) = (tracker', false) ->
  rate_inv (RateState tracker' (rs_sent st) now2).
Proof.
  intros Hinv Hle Hc. unfold canSendMulticast in Hc.
  destruct (rs_tracker st !! rateKey rr) as [last|]; [|done].
  case_if_in Hc; [|done]. injection Hc as <-. by apply rate_inv_later.
Qed.

Lemma canSend_true_inv now now2 rr st tracker' :
  rate_inv st -> (rs_clock st <= now)%Z -> (now <= now2)%Z ->
  canSendMulticast now now2 rr (rs_tracker st) = (tracker', true) ->
  rate_inv (RateState tracker' (rs_sent st ++ [(rateKey rr, (now, now2))]) now2).
Proof.
  intros Hinv Hle Hle2 Hc.
  assert (tracker' = <[rateKey rr := now2]> (rs_tracker st) /\
    forall last, rs_tracker st !! rateKey rr = Some last -> (last + Second <= now)%Z) as [-> Hlast].
  { unfold canSendMulticast in Hc. destruct (rs_tracker st !! rateKey rr) as [last|].
    - case_if_in Hc; [done|]. injection Hc as <-. bool_arith. split; [done|]. intros ? [= <-]. lia.
    - by injection Hc as <-. }
  intros key. destruct (Hinv key) as [Hs Hf]. cbn [rs_tracker rs_sent rs_clock].
  rewrite sends_of_app, sends_of_single. unfold Second in *.
  destruct (decide (rateKey rr = key)) as [<-|Hne].
  - split.
    + apply StronglySorted_app_2; [|done|repeat constructor].
      intros s t Hin ->%list_elem_of_singleton. rewrite Forall_forall in Hf. cbn.
      destruct (Hf s Hin) as [_ [Hsec|(last & Hl & Hle3)]]; [unfold Second in *; lia|].
      apply Hlast in Hl. unfold Second in *. lia.
    + apply Forall_app_2; [|apply Forall_cons; split; [|done]]; cycle 1.
      { cbn. rewrite lookup_insert_eq. split; [lia|]. right. exists now2. split; [done|lia]. }
      eapply Forall_impl; [exact Hf|]. intros s [Hs2 _]. rewrite lookup_insert_eq.
      split; [lia|]. right. exists now2. split; [done|lia].
  - rewrite app_nil_r, lookup_insert_ne by done. split; [done|].
    eapply Forall_impl; [exact Hf|]. intros s [Hs2 Hor].
    split; [lia|]. destruct Hor as [?|?]; [left; lia | by right].
Qed.

Lemma rate_step_inv st st' : rate_step st st' -> rate_inv st -> rate_inv st'.
Proof.
  intros Hstep Hinv. destruct Hstep as [now now2 rr tracker tracker' ok st Hle Hle2 -> Hc|now st Hle].
  - destruct ok; [by eapply canSend_true_inv | eapply canSend_false_inv; [done|lia|done]].
  - intros key. destruct (Hinv key) as [Hs Hf]. split; [done|]. cbn [rs_tracker rs_sent rs_clock].
    eapply Forall_impl; [exact Hf|]. intros s [Hs2 Hor]. split; [lia|].
    destruct Hor as [?|(last & Hl & Hle2)]; [left; lia|].
    destruct (decide (now - last > 5 * Second)%Z) as [Hold|Hold].
    + left. unfold Second in *. lia.
    + right. exists last. split; [|done]. unfold cleanupRateTracker.
      by apply map_lookup_filter_Some.
Qed.

Lemma rate_steps_inv st : rtc rate_step rate_init st -> rate_inv st.
Proof.
  intros Hsteps. assert (Hinit : rate_inv rate_init) by (intros key; split; constructor).
  induction Hsteps as [st|st1 st2 st3 Hs _ IH]; [done|]. eauto using rate_step_inv.
Qed.

End RateLimit.

(** ** Properties *)

Section MatchingProperties.
  Context `{UnicodeTables}.

(** Tie-breaking is decisive and consistent.  When two probers compare the
    same pair of records, at most one of them loses, and exactly one does unless
    the canonical RDATA is the same. *)
Theorem probeLoses_decisive ours theirs :
  ~ (probeLoses ours theirs = true /\ probeLoses theirs ours = true) /\
  (canonicalRDATA ours <> canonicalRDATA theirs <->
   (probeLoses ours theirs = true \/ probeLoses theirs ours = true)).
Proof.
  unfold probeLoses. split.
  - intros [H1 H2]. apply str_ltb_asym in H1. congruence.
  - split.
    + intros Hne. destruct (str_ltb (canonicalRDATA ours) _) eqn:E1; [by left|].
      destruct (str_ltb (canonicalRDATA theirs) _) eqn:E2; [by right|].
      by pose proof (str_ltb_total _ _ E1 E2).
    + intros [H1|H1] E; rewrite E, str_ltb_irrefl in H1; done.
Qed.

(** C25: the rate limiter.  However calls of [canSendMulticast] and clean-ups of
    the tracker follow each other, two sends it allows for the same record are at
    least a second apart, from the clock reading that recorded the first to the
    reading that allowed the second. *)
Theorem rate_limit_one_per_second st key :
  rtc rate_step rate_init st -> spaced (sends_of key (rs_sent st)).
Proof. intros Hsteps. by apply rate_steps_inv. Qed.

(** Known-answer suppression drops a record exactly when the query lists an
    equal record with at least half of the TTL (integer division), whatever the
    spelling of the names or the form of the addresses. *)
Theorem known_answer_suppression rr rr' known :
  recordsEqual rr rr' = true -> rr_TTL rr = rr_TTL rr' ->
  inKnownAnswers rr known = inKnownAnswers rr' known /\
  (inKnownAnswers rr known = true <->
   exists ka, ka ∈ known /\ recordsEqual ka rr = true /\ (rr_TTL rr / 2 <= rr_TTL ka)%Z).
Proof.
  intros Heq%recordsEqual_iff Httl. split.
  - apply eq_true_iff_eq. rewrite !inKnownAnswers_iff, Heq, Httl. done.
  - rewrite inKnownAnswers_iff. by setoid_rewrite recordsEqual_iff.
Qed.

End MatchingProperties.
