(* ===== verification/Config.v ===== *)
(** * Configuration and services (config.go, and the pure parts of mdns.go and
    service.go)

    Service names, the ordering of addresses, and the records a service and a
    host advertise.  Go visits a map in an unspecified order: the class
    [MapOrder] gives the order of each visit, and every theorem holds for all
    its instances. *)

From S2P Require Export Matching.

(** [visit n l] is the order of the [n]-th visit to a map with entries [l]. *)
Class MapOrder := {
  visit : nat -> forall {A}, list A -> list A;
  visit_perm n {A} (l : list A) : visit n l ≡ₚ l
}.

(** The order of the entries as listed, to evaluate the model. *)
Definition listed_order : MapOrder := {| visit := λ _ _ l, l; visit_perm := λ _ _ l, reflexivity l |}.

(** ** Constants *)

Definition DefaultPort : Z := 53533.
Definition DefaultDomain : gostring := go "local.".
Definition DefaultHostTTL : Z := (120 * Second)%Z.
Definition DefaultOtherTTL : Z := (75 * Second)%Z.
Definition DefaultProbeWait : Z := (250 * Millisecond)%Z.
Definition DefaultProbeCount : Z := 3.
Definition DefaultAnnounceTTL : Z := Second.

(** [uint32(DefaultHostTTL / time.Second)] *)
Definition hostTTL : Z := u32 (Z.quot DefaultHostTTL Second).
Definition otherTTL : Z := u32 (Z.quot DefaultOtherTTL Second).

(** ** Data *)

(** The callbacks of [Config] only receive log lines and are left out. *)
Record Config := mkConfig {
  cfg_Port : Z;
  cfg_Domain : gostring;
  cfg_EnableIPv6 : bool;
  cfg_HostName : gostring;
  cfg_Interfaces : list gostring
}.

Definition DefaultConfig : Config := mkConfig DefaultPort DefaultDomain false [] [].

Record ServiceInstance := mkService {
  si_Type : gostring;
  si_Name : gostring;
  si_Domain : gostring;
  si_Host : gostring;
  si_Port : Z;
  si_IPs : list IP;
  si_Text : list gostring;
  si_Priority : Z;
  si_Weight : Z;
  si_TTL : Z
}.

#[export] Instance ServiceInstance_eq_dec : EqDecision ServiceInstance.
Proof. solve_decision. Defined.

Definition set_Name (name : gostring) (s : ServiceInstance) : ServiceInstance :=
  mkService (si_Type s) name (si_Domain s) (si_Host s) (si_Port s) (si_IPs s) (si_Text s)
    (si_Priority s) (si_Weight s) (si_TTL s).

(** ** Names *)

Definition normalizeServiceType (t : gostring) : gostring := t.

Definition ensureDomain (d : gostring) : gostring :=
  if bool_decide (d = []) then DefaultDomain else normalizeName d.

Definition ServiceType (s : ServiceInstance) : gostring :=
  normalizeServiceType (si_Type s) ++ [dot] ++ ensureDomain (si_Domain s).

Definition InstanceName (s : ServiceInstance) : gostring :=
  si_Name s ++ [dot] ++ ServiceType s.

(** The characters [defaultHostName] keeps, replaces by a hyphen, or drops; [host]
    is what [os.Hostname] returned, empty on an error. *)
Definition host_rune (r : Z) : list byte :=
  if between 97 r 122 || between 65 r 90 || between 48 r 57 || (r =? 45)%Z then [z2b r]
  else if (r =? 46)%Z || (r =? 32)%Z then [Byte.x2d] else [].

Definition defaultHostName (host : gostring) : gostring :=
  if bool_decide (host = []) then go "mdns-host" else
  let result := mjoin (host_rune <$> decode_runes host) in
  if bool_decide (result = []) then go "mdns-host" else result.

(** The configuration [NewServer] works with. *)
Definition NewServer_config (os_hostname : gostring) (c : Config) : Config :=
  let port := if (cfg_Port c =? 0)%Z then DefaultPort else cfg_Port c in
  let domain := if bool_decide (cfg_Domain c = []) then DefaultDomain else cfg_Domain c in
  let host := if bool_decide (cfg_HostName c = []) then defaultHostName os_hostname
              else cfg_HostName c in
  let host := if negb (HasSuffix host [dot]) then host ++ [dot] ++ domain else host in
  mkConfig port domain (cfg_EnableIPv6 c) host (cfg_Interfaces c).

(** The wrap-around of Go's [int], 64 bits wide. *)
Definition int64 (z : Z) : Z :=
  ((z + 9223372036854775808) mod 18446744073709551616 - 9223372036854775808)%Z.

Lemma int64_small z : (- max_int64 <= z <= max_int64)%Z -> int64 z = z.
Proof. unfold int64, max_int64. intros Hz. rewrite Z.mod_small by lia. lia. Qed.

(** The suffix of a conflict rename. *)
Definition incrementNameSuffix (name : gostring) : gostring :=
  let plain := name ++ go " (2)" in
  match LastIndex name (go " (") with
  | Some idx =>
      if 0 <? idx then
        let suffix := drop (idx + 2) name in
        if HasSuffix suffix (go ")") then
          let numStr := take (length suffix - 1) suffix in
          match Atoi numStr with
          | Some num =>
              if (2 <=? num)%Z then take idx name ++ go " (" ++ Itoa (int64 (num + 1)) ++ go ")"
              else plain
          | None => plain
          end
        else plain
      else plain
  | None => plain
  end.

(** ** Addresses *)

Definition str_le (a b : gostring) : Prop := str_ltb b a = false.

#[export] Instance str_le_dec a b : Decision (str_le a b).
Proof. unfold str_le. apply _. Defined.

(** [sort.Slice] by text form; it may swap addresses with the same text. *)
Definition sort_ips (ips : list IP) : list IP :=
  merge_sort (λ a b, str_le (IP_String a) (IP_String b)) ips.

Definition is_ipv4 (ip : IP) : bool := match To4 ip with Some _ => true | None => false end.

Definition sortIPsIPv4First (ips : list IP) : list IP :=
  let v4 := filter (λ ip, is_ipv4 ip = true) ips in
  let v6 := filter (λ ip, is_ipv4 ip = false) ips in
  sort_ips v4 ++ sort_ips v6.

(** The A or AAAA record of a host address. *)
Definition address_record (hostName : gostring) (ttl : Z) (ip : IP) : ResourceRecord :=
  match To4 ip with
  | Some ip4 => set_IP ip4 (newRR hostName TypeA ClassIN ttl true)
  | None => set_IP ip (newRR hostName TypeAAAA ClassIN ttl true)
  end.

(** ** Records *)

Definition generateServiceRecords (svc : ServiceInstance) : list ResourceRecord :=
  let svcType := ServiceType svc in
  let instanceName := InstanceName svc in
  let hostName := normalizeName (si_Host svc) in
  let host := if (0 <? si_TTL svc)%Z then si_TTL svc else hostTTL in
  let other := if (0 <? si_TTL svc)%Z then si_TTL svc else otherTTL in
  [set_Target instanceName (newRR svcType TypePTR ClassIN other false);
   set_Target hostName (set_SRV (si_Priority svc) (si_Weight svc) (si_Port svc)
     (newRR instanceName TypeSRV ClassIN host true));
   set_Text (si_Text svc) (newRR instanceName TypeTXT ClassIN other true)]
  ++ (address_record hostName host <$> sortIPsIPv4First (si_IPs svc)).

(** The [hostRecords] built by [registerHostRecords]. *)
Definition registerHostRecords (c : Config) (hostIPs : list IP) : list ResourceRecord :=
  address_record (normalizeName (cfg_HostName c)) hostTTL <$> sortIPsIPv4First hostIPs.

(** The loop of [buildProbeMessage]: one question per distinct name. *)
Fixpoint probe_questions `{UnicodeTables} (seen : gset gostring) (records : list ResourceRecord)
    : list Question :=
  match records with
  | [] => []
  | rr :: records =>
      let ln := lowerName (rr_Name rr) in
      if bool_decide (ln ∈ seen) then probe_questions seen records
      else mkQuestion (rr_Name rr) TypeAny ClassIN :: probe_questions ({[ln]} ∪ seen) records
  end.

Definition buildProbeMessage `{UnicodeTables} (records : list ResourceRecord) : Message :=
  let questions := probe_questions ∅ records in
  mkMessage (mkHeader 0 0 (u16 (Z.of_nat (length questions))) 0
               (u16 (Z.of_nat (length records))) 0)
    questions [] records [].

(** A response: [Header{Flags: flagResponse | flagAuthoritative, ...}]. *)
Definition response (id : Z) (answers additionals : list ResourceRecord) : Message :=
  mkMessage (mkHeader id (Z.lor flagResponse flagAuthoritative) 0
               (u16 (Z.of_nat (length answers))) 0 (u16 (Z.of_nat (length additionals))))
    [] answers [] additionals.

(** The message of [sendGoodbye]: copies of the records with TTL 0. *)
Definition goodbye (records : list ResourceRecord) : Message :=
  response 0 (set_TTL 0 <$> records) [].

(** The types seen under a name, and the NSEC record that lists them. *)
Definition types_of `{UnicodeTables} (name : gostring) (records : list ResourceRecord) : gset Z :=
  list_to_set (rr_Type <$> filter (λ rr,
    lowerName (normalizeName (rr_Name rr)) = lowerName (normalizeName name)) records).

Definition generateNSEC `{UnicodeTables, MapOrder} (name : gostring) (records : list ResourceRecord)
    : option ResourceRecord :=
  let seen := types_of name records in
  if decide (seen = ∅) then None
  else Some (set_NSEC name (visit 0 (elements seen)) (newRR name TypeNSEC ClassIN otherTTL true)).
