(* ===== verification/Reverse.v ===== *)
(** * Reverse address mapping (server.go)

    [reverseNameToIP] and [hexNibble].  [fmt.Sscanf(part, "%d", &b)] is modelled
    as the [fmt] package specifies it: it skips white space, takes an optional
    sign and the digits that follow, and ignores the rest of the input. *)

From S2P Require Export Config.

(** ** [fmt.Sscanf] *)

(** The runes [fmt] counts as white space (fmt/scan.go); a newline stops the scan
    with an error, and so does a carriage return before one. *)
Definition is_scan_space (r : Z) : bool :=
  between 9 r 13 || (r =? 32)%Z || (r =? 133)%Z || (r =? 160)%Z || (r =? 5760)%Z
  || between 8192 r 8202 || between 8232 r 8233 || (r =? 8239)%Z || (r =? 8287)%Z
  || (r =? 12288)%Z.

Fixpoint skip_space (runes : list Z) : option (list Z) :=
  match runes with
  | [] => Some []
  | r :: rest =>
      if (r =? 10)%Z then None
      else if is_scan_space r then skip_space rest else Some runes
  end.

Definition rune_digit (r : Z) : bool := between 48 r 57.

Fixpoint take_digits (runes : list Z) : list Z :=
  match runes with
  | r :: rest => if rune_digit r then r :: take_digits rest else []
  | [] => []
  end.

Definition Sscanf_d (s : gostring) : option Z :=
  match skip_space (decode_runes s) with
  | None => None
  | Some runes =>
      let '(neg, ds) := match runes with
        | r :: rest => if (r =? 45)%Z then (true, rest) else if (r =? 43)%Z then (false, rest)
                       else (false, runes)
        | [] => (false, runes)
        end in
      let tok := z2b <$> take_digits ds in
      if bool_decide (tok = []) then None else int64_of neg tok
  end.

(** ** hexNibble *)

Definition hexNibble (s : gostring) : result Z :=
  match s with
  | [b] =>
      let c := b2z b in
      if between 48 c 57 then Ok (c - 48)%Z
      else if between 97 c 102 then Ok (c - 97 + 10)%Z
      else if between 65 c 70 then Ok (c - 65 + 10)%Z
      else Err (ErrHexDigit s)
  | _ => Err (ErrHexDigit s)
  end.

(** ** reverseNameToIP *)

Definition in_addr_arpa : gostring := go ".in-addr.arpa".
Definition ip6_arpa : gostring := go ".ip6.arpa".

(** [octets[i]], from [parts[3-i]]. *)
Definition reverse_octet (parts : list gostring) (i : nat) : option byte :=
  part ← parts !! (3 - i);
  b ← Sscanf_d part;
  if (b <? 0)%Z || (255 <? b)%Z then None else Some (z2b b).

(** [ip[i]], from the nibbles [parts[31-2i]] and [parts[30-2i]]. *)
Definition reverse_byte (parts : list gostring) (i : nat) : option byte :=
  hi ← parts !! (31 - i * 2);
  lo ← parts !! (30 - i * 2);
  match hexNibble hi, hexNibble lo with
  | Ok h, Ok l => Some (z2b (Z.lor (Z.shiftl h 4) l))
  | _, _ => None
  end.

Definition reverseNameToIP `{UnicodeTables} (name : gostring) : option IP :=
  let ln := TrimSuffix (lowerName name) [dot] in
  if HasSuffix ln in_addr_arpa then
    let parts := Split (TrimSuffix ln in_addr_arpa) dot in
    if negb (length parts =? 4) then None else
    octets ← mapM (reverse_octet parts) (seq 0 4);
    Some (v4InV6Prefix ++ octets)
  else if HasSuffix ln ip6_arpa then
    let parts := Split (TrimSuffix ln ip6_arpa) dot in
    if negb (length parts =? 32) then None else
    mapM (reverse_byte parts) (seq 0 16)
  else None.

(** ** The reverse name of an address *)

(** The name a resolver asks for: octets or nibbles, least significant first. *)
Definition reverse_name4 (ip4 : list byte) : gostring :=
  Join ((λ b, Itoa (b2z b)) <$> rev ip4) [dot] ++ in_addr_arpa ++ [dot].

Definition nibbles (b : byte) : list gostring :=
  [[hex_digit (Z.land (b2z b) 15)]; [hex_digit (Z.shiftr (b2z b) 4)]].

Definition reverse_name6 (ip6 : list byte) : gostring :=
  Join (mjoin (nibbles <$> rev ip6)) [dot] ++ ip6_arpa ++ [dot].

(** ** Lemmas *)

Section ReverseLemmas.
  Context `{UnicodeTables}.

(** Lower-case ASCII text is its own lower-case form. *)
Definition lower_ascii (b : byte) : bool := is_ascii b && bool_decide (byte_lower b = b).

Lemma lowerName_ascii s : forallb lower_ascii s = true -> lowerName s = s.
Proof.
  intros Hs. unfold lowerName, ToLower.
  assert (Ha : forallb is_ascii s = true).
  { rewrite forallb_forall in Hs |- *. intros b Hb. apply Hs in Hb.
    by apply andb_true_iff in Hb as [? _]. }
  rewrite Ha. rewrite forallb_forall in Hs. clear Ha.
  induction s as [|b s IH]; [done|]. rewrite fmap_cons, IH.
  - f_equal. specialize (Hs b (or_introl eq_refl)). apply andb_true_iff in Hs as [_ Hb].
    by apply bool_decide_eq_true in Hb.
  - intros c Hc. apply Hs. by right.
Qed.

Lemma lower_ascii_Join ls sep :
  forallb lower_ascii sep = true -> Forall (λ l, forallb lower_ascii l = true) ls ->
  forallb lower_ascii (Join ls sep) = true.
Proof.
  intros Hsep Hls. induction Hls as [|l ls Hl Hls IH]; [done|].
  destruct ls as [|l' ls]; [done|].
  change (Join (l :: l' :: ls) sep) with (l ++ sep ++ Join (l' :: ls) sep). by rewrite !forallb_app, Hl, Hsep, IH.
Qed.

(** An octet prints without dots, in lower case, and scans back. *)
Lemma octet_text b :
  forallb lower_ascii (Itoa (b2z b)) = true /\ (dot ∉ Itoa (b2z b)) /\
  Sscanf_d (Itoa (b2z b)) = Some (b2z b).
Proof.
  assert (E : bool_decide (forallb lower_ascii (Itoa (b2z b)) = true /\ (dot ∉ Itoa (b2z b)) /\
    Sscanf_d (Itoa (b2z b)) = Some (b2z b)) = true).
  { revert b. apply byte_forall. by vm_compute. }
  by apply bool_decide_eq_true in E.
Qed.

Lemma reverse_octet_ok parts i b :
  parts !! (3 - i) = Some (Itoa (b2z b)) -> reverse_octet parts i = Some b.
Proof.
  unfold reverse_octet. intros ->. cbn [mbind option_bind].
  destruct (octet_text b) as (_ & _ & ->). cbn [mbind option_bind]. pose proof (b2z_range b).
  destruct (Z.ltb_spec (b2z b) 0); [lia|]. destruct (Z.ltb_spec 255 (b2z b)); [lia|].
  cbn [orb]. by rewrite z2b_b2z.
Qed.

(** A nibble prints as one hexadecimal digit and scans back. *)
Lemma nibble_text b :
  let lo := [hex_digit (Z.land (b2z b) 15)] in
  let hi := [hex_digit (Z.shiftr (b2z b) 4)] in
  forallb lower_ascii lo = true /\ forallb lower_ascii hi = true /\ (dot ∉ lo) /\ (dot ∉ hi) /\
  hexNibble lo = Ok (Z.land (b2z b) 15) /\ hexNibble hi = Ok (Z.shiftr (b2z b) 4) /\
  z2b (Z.lor (Z.shiftl (Z.shiftr (b2z b) 4) 4) (Z.land (b2z b) 15)) = b.
Proof.
  intros lo hi.
  assert (E : bool_decide (forallb lower_ascii lo = true /\ forallb lower_ascii hi = true /\
    (dot ∉ lo) /\ (dot ∉ hi) /\
    hexNibble lo = Ok (Z.land (b2z b) 15) /\ hexNibble hi = Ok (Z.shiftr (b2z b) 4) /\
    z2b (Z.lor (Z.shiftl (Z.shiftr (b2z b) 4) 4) (Z.land (b2z b) 15)) = b) = true).
  { subst lo hi. revert b. apply byte_forall. by vm_compute. }
  by apply bool_decide_eq_true in E.
Qed.

Lemma reverse_byte_ok parts i b :
  parts !! (31 - i * 2) = Some [hex_digit (Z.shiftr (b2z b) 4)] ->
  parts !! (30 - i * 2) = Some [hex_digit (Z.land (b2z b) 15)] ->
  reverse_byte parts i = Some b.
Proof.
  unfold reverse_byte. intros -> ->. cbn [mbind option_bind].
  destruct (nibble_text b) as (_ & _ & _ & _ & -> & -> & ->). done.
Qed.

(** A reverse name splits into its parts. *)
Lemma reverse_name_parts parts suffix :
  parts <> [] -> Forall (λ l, forallb lower_ascii l = true /\ dot ∉ l) parts ->
  forallb lower_ascii suffix = true ->
  let ln := TrimSuffix (lowerName (Join parts [dot] ++ suffix ++ [dot])) [dot] in
  ln = Join parts [dot] ++ suffix /\ Split (TrimSuffix ln suffix) dot = parts.
Proof.
  intros Hne Hparts Hsuf ln. apply Forall_and in Hparts as [Hl Hd].
  assert (Eln : ln = Join parts [dot] ++ suffix).
  { unfold ln. rewrite lowerName_ascii; [by rewrite app_assoc, TrimSuffix_app|].
    by rewrite !forallb_app, Hsuf, lower_ascii_Join. }
  split; [done|]. rewrite Eln, TrimSuffix_app. by apply Split_Join.
Qed.

Lemma HasSuffix_ip6_not_in_addr s : HasSuffix (s ++ ip6_arpa) in_addr_arpa = false.
Proof.
  apply HasSuffix_false. intros [k E]. apply (f_equal (λ l, rev l)) in E.
  rewrite !rev_app_distr in E. discriminate E.
Qed.

(** The reverse names of IPv4 addresses. *)
Lemma reverse_name4_ok a b c d :
  reverseNameToIP (reverse_name4 [a; b; c; d]) = Some (IPv4 a b c d).
Proof.
  unfold reverseNameToIP, reverse_name4. cbn [rev app].
  set (parts := _ <$> [d; c; b; a]).
  destruct (reverse_name_parts parts in_addr_arpa) as [-> E]; [done| |done|].
  { apply Forall_fmap, Forall_forall. intros x _. destruct (octet_text x) as (? & ? & _). done. }
  rewrite HasSuffix_app, TrimSuffix_app in *.
  rewrite (Split_Join parts) by
    (done || (apply Forall_fmap, Forall_forall; intros x _; apply octet_text)).
  cbn [length negb Nat.eqb]. unfold mapM. cbn [seq].
  by rewrite (reverse_octet_ok parts 0 a), (reverse_octet_ok parts 1 b),
    (reverse_octet_ok parts 2 c), (reverse_octet_ok parts 3 d).
Qed.

(** The reverse names of IPv6 addresses. *)
Lemma reverse_name6_ok ip :
  length ip = 16 -> reverseNameToIP (reverse_name6 ip) = Some ip.
Proof.
  intros Hlen. unfold reverseNameToIP, reverse_name6.
  set (parts := mjoin (nibbles <$> rev ip)).
  assert (Hparts : Forall (λ l, forallb lower_ascii l = true /\ dot ∉ l) parts).
  { unfold parts. apply Forall_forall. intros l (ns & Hl & (b & -> & _)%list_elem_of_fmap)%list_elem_of_join.
    destruct (nibble_text b) as (? & ? & ? & ? & _). unfold nibbles in Hl.
    apply elem_of_cons in Hl as [-> | Hl]; [done|].
    by apply list_elem_of_singleton in Hl as ->. }
  assert (Hl : length parts = 32).
  { unfold parts. do 16 (destruct ip as [|? ip]; [done|]). by destruct ip. }
  destruct (reverse_name_parts parts ip6_arpa) as [-> E]; [by intros E; rewrite E in Hl|done|done|].
  rewrite HasSuffix_ip6_not_in_addr, HasSuffix_app, TrimSuffix_app in *.
  rewrite (Split_Join parts); [|by intros E'; rewrite E' in Hl | eapply Forall_impl; [exact Hparts|]; by intros ? []].
  rewrite Hl. cbn [negb Nat.eqb]. unfold parts. clear -Hlen.
  do 16 (destruct ip as [|? ip]; [discriminate Hlen|]). destruct ip; [|discriminate Hlen].
  unfold mapM. cbn [seq]. 
  erewrite !reverse_byte_ok by (cbn; reflexivity). done.
Qed.

(** C27: [reverseNameToIP] inverts the reverse names of addresses: the octets of an
    IPv4 address in decimal, the nibbles of an IPv6 address in hexadecimal, least
    significant first.  An IPv4 address comes back in its 16-byte form, which
    [net.IP.Equal] does not tell apart from the 4 bytes. *)
Theorem reverseNameToIP_roundtrip ip :
  (length ip = 4 -> exists ip', reverseNameToIP (reverse_name4 ip) = Some ip' /\
     length ip' = 16 /\ IP_Equal ip' ip = true) /\
  (length ip = 16 -> reverseNameToIP (reverse_name6 ip) = Some ip).
Proof.
  split; [|apply reverse_name6_ok]. intros Hl.
  do 4 (destruct ip as [|? ip]; [discriminate Hl|]). destruct ip; [|discriminate Hl].
  rewrite reverse_name4_ok. eexists. split_and!; [reflexivity|done|].
  change (bool_decide (v4InV6Prefix = v4InV6Prefix) && bool_decide ([b; b0; b1; b2] = [b; b0; b1; b2])
          = true).
  by rewrite !bool_decide_true.
Qed.

End ReverseLemmas.
