(* ===== verification/Responder.v ===== *)
(** * Answering queries (the pure core of handleQuery and its relatives, server.go)

    What the responder answers, as functions of the registered services, the
    cache and the query.  [handleQuery] itself, with its locks and goroutines, is
    in [Server]. *)

From S2P Require Export Reverse.

(** ** Registered services *)

Inductive serviceState :=
  stateIdle | stateProbing | stateAnnounced | stateConflictLost | stateConflictRenamed.

#[export] Instance serviceState_eq_dec : EqDecision serviceState.
Proof. solve_decision. Defined.

(** [rs_instance] is a pointer to the caller's [ServiceInstance]; [probeCh] is
    only ever closed, so its state is whether it is closed. *)
Record registeredService := mkRS {
  rs_instance : nat;
  rs_records : list ResourceRecord;
  rs_state : serviceState;
  rs_probeClosed : bool
}.

Definition set_state (s : serviceState) (rs : registeredService) : registeredService :=
  mkRS (rs_instance rs) (rs_records rs) s (rs_probeClosed rs).

(** A registered service with the instance it points to. *)
Abbreviation service := (ServiceInstance * registeredService)%type.

Definition announced (svc : service) : bool :=
  bool_decide (rs_state svc.2 = stateAnnounced).

(** ** Reverse mapping *)

Definition address_owner (ip : IP) (records : list ResourceRecord) : option ResourceRecord :=
  head (filter (λ rr,
    ((rr_Type rr =? TypeA)%Z || (rr_Type rr =? TypeAAAA)%Z)
    && negb (bool_decide (rr_IP rr = [])) && IP_Equal (rr_IP rr) ip = true) records).

Section Responder.
  Context `{UnicodeTables, MapOrder}.

Definition reverse_ptr (name target : gostring) : ResourceRecord :=
  set_Target target (newRR name TypePTR ClassIN hostTTL true).

(** [services] is in the order of the visit. *)
Definition handleReverseMapping (cfg : Config) (hostIPs : list IP) (services : list service)
    (q : Question) : option ResourceRecord :=
  let ln := lowerName (normalizeName (q_Name q)) in
  if negb (HasSuffix ln (go ".in-addr.arpa.")) && negb (HasSuffix ln (go ".ip6.arpa."))
  then None
  else if negb (q_Type q =? TypePTR)%Z && negb (q_Type q =? TypeAny)%Z then None
  else match reverseNameToIP (q_Name q) with
  | None => None
  | Some ip =>
      if existsb (λ hostIP, IP_Equal hostIP ip) hostIPs
      then Some (reverse_ptr (q_Name q) (normalizeName (cfg_HostName cfg)))
      else
        rr ← head (omap (λ svc : service,
               if announced svc then address_owner ip (rs_records svc.2) else None) services);
        Some (reverse_ptr (q_Name q) (normalizeName (rr_Name rr)))
  end.

(** ** The reply under construction *)

Record reply := mkReply {
  r_answers : list ResourceRecord;
  r_additionals : list ResourceRecord;
  r_unique : bool
}.

Definition empty_reply : reply := mkReply [] [] false.

Definition add_answer (rr : ResourceRecord) (unique : bool) (r : reply) : reply :=
  mkReply (r_answers r ++ [rr]) (r_additionals r) (r_unique r || unique).

(** The loop over the records of an announced service. *)
Definition add_records (q : Question) (known : list ResourceRecord) (r : reply)
    (rr : ResourceRecord) : reply :=
  if matchesQuestion rr q && negb (inKnownAnswers rr known)
  then add_answer rr (rr_CacheFlush rr) r else r.

(** The loop that adds the SRV, TXT and address records of a browsed service. *)
Definition add_additional (r : reply) (rr : ResourceRecord) : reply :=
  if ((rr_Type rr =? TypeSRV)%Z || (rr_Type rr =? TypeTXT)%Z || (rr_Type rr =? TypeA)%Z
      || (rr_Type rr =? TypeAAAA)%Z)
     && negb (containsRR (r_answers r) rr) && negb (containsRR (r_additionals r) rr)
  then mkReply (r_answers r) (r_additionals r ++ [rr]) (r_unique r) else r.

(** The NSEC record for a type the instance does not have. *)
Definition add_nsec (q : Question) (ln : gostring) (svc : service)
    (known : list ResourceRecord) (r : reply) : reply :=
  let instanceName := lowerName (normalizeName (InstanceName svc.1)) in
  if bool_decide (ln = instanceName) && negb (q_Type q =? TypeAny)%Z && negb (q_Type q =? TypePTR)%Z
  then
    let hasType := existsb (λ rr, (rr_Type rr =? q_Type q)%Z
                     && bool_decide (lowerName (normalizeName (rr_Name rr)) = ln))
                     (rs_records svc.2) in
    if hasType then r else
    match generateNSEC (q_Name q) (rs_records svc.2) with
    | Some nsec => if inKnownAnswers nsec known then r else add_answer nsec true r
    | None => r
    end
  else r.

(** One registered service, for one question. *)
Definition answer_service (q : Question) (known : list ResourceRecord) (r : reply)
    (svc : service) : reply :=
  if negb (announced svc) then r else
  let ln := lowerName (normalizeName (q_Name q)) in
  let r := foldl (add_records q known) r (rs_records svc.2) in
  let r := if ((q_Type q =? TypePTR)%Z || (q_Type q =? TypeAny)%Z)
              && bool_decide (lowerName (ServiceType svc.1) = ln)
           then foldl add_additional r (rs_records svc.2) else r in
  add_nsec q ln svc known r.

(** The loop over the cached records of the name. *)
Definition add_cached (q : Question) (known : list ResourceRecord) (r : reply)
    (rr : ResourceRecord) : reply :=
  if matchesQuestion rr q && negb (inKnownAnswers rr known) && negb (containsRR (r_answers r) rr)
  then add_answer rr (rr_CacheFlush rr) r else r.

(** The enumeration of the service types. *)
Definition enumeration_ptr (q : Question) (svc : service) : ResourceRecord :=
  set_Target (InstanceName svc.1) (newRR (q_Name q) TypePTR ClassIN otherTTL false).

Definition add_enumeration (q : Question) (known : list ResourceRecord) (r : reply)
    (svc : service) : reply :=
  if negb (announced svc) then r else
  let ptr := enumeration_ptr q svc in
  if negb (inKnownAnswers ptr known) && negb (containsRR (r_answers r) ptr)
  then add_answer ptr false r else r.

(** What the responder knows: its configuration, the services, the cache at the
    time of the query, and whether the host records have been probed. *)
Record knowledge := mkKnowledge {
  kn_config : Config;
  kn_hostIPs : list IP;
  kn_hostProbed : bool;
  kn_services : list service;
  kn_cache : Cache
}.

(** One question.  [i] numbers the question: each of its visits to a map has an
    order of its own. *)
Definition answer_question (k : knowledge) (now : Z) (known : list ResourceRecord) (i : nat)
    (r : reply) (q : Question) : reply :=
  let ln := lowerName (normalizeName (q_Name q)) in
  match handleReverseMapping (kn_config k) (kn_hostIPs k) (visit (4 * i) (kn_services k)) q with
  | Some ptr => if inKnownAnswers ptr known then r else add_answer ptr false r
  | None =>
      let r := foldl (answer_service q known) r (visit (4 * i + 1) (kn_services k)) in
      let r := if kn_hostProbed k
               then foldl (add_cached q known) r
                      (LookupName now ln (visit (4 * i + 2) (map_to_list (kn_cache k))))
               else r in
      if bool_decide (ln = go "_services._dns-sd._udp." ++ lowerName (cfg_Domain (kn_config k)))
      then foldl (add_enumeration q known) r (visit (4 * i + 3) (kn_services k)) else r
  end.

(** The loop over the questions; [now i] is the clock reading of the cache
    lookup of question [i]. *)
Fixpoint answer_questions (k : knowledge) (now : nat -> Z) (known : list ResourceRecord) (i : nat)
    (r : reply) (qs : list Question) : reply :=
  match qs with
  | [] => r
  | q :: qs => answer_questions k now known (S i) (answer_question k (now i) known i r q) qs
  end.

(** The QU bit of the questions. *)
Definition unicast_requested (qs : list Question) : bool :=
  existsb (λ q, negb (Z.land (q_Class q) cacheFlushBit =? 0)%Z) qs.

(** The records of a legacy unicast response. *)
Definition legacy_records (services : nat -> list service) (qs : list Question)
    : list ResourceRecord :=
  mjoin (imap (λ i q, mjoin ((λ svc : service,
    if announced svc then filter (λ rr, matchesQuestion rr q = true) (rs_records svc.2) else [])
    <$> services i)) qs).

(** ** Sending *)

(** [sendResponseWithAdditional] up to the call of [Pack]: the message to send,
    if any, and the new state of the rate limiter.  [now]/[now2] are the clock
    readings of [canSendMulticast] for each answer. *)
Fixpoint rate_filter (now now2 : nat -> Z) (i : nat) (tracker : gmap gostring Z)
    (answers : list ResourceRecord) : gmap gostring Z * list ResourceRecord :=
  match answers with
  | [] => (tracker, [])
  | rr :: answers =>
      let '(tracker, ok) := canSendMulticast (now i) (now2 i) rr tracker in
      let '(tracker, kept) := rate_filter now now2 (S i) tracker answers in
      (tracker, if ok then rr :: kept else kept)
  end.

Definition prepare_response (now now2 : nat -> Z) (answers additionals : list ResourceRecord)
    (multicast : bool) (tracker : gmap gostring Z) : gmap gostring Z * option Message :=
  let dedupAnswers := dedup [] answers in
  let dedupAdditionals := dedup dedupAnswers additionals in
  if multicast then
    let '(tracker, filtered) := rate_filter now now2 0 tracker dedupAnswers in
    if bool_decide (filtered = []) && negb (bool_decide (dedupAnswers = []))
    then (tracker, None)
    else (tracker, Some (response 0 (if bool_decide (filtered = []) then dedupAnswers else filtered)
                           dedupAdditionals))
  else (tracker, Some (response 0 dedupAnswers dedupAdditionals)).

End Responder.

(** ** Source address check *)

Definition isLocalSubnet (subnets : list IPNet) (ip : IP) : bool :=
  if IsLoopback ip then true
  else if IsLinkLocalUnicast ip then true
  else existsb (λ subnet, IPNet_Contains subnet ip) subnets.
