(* ===== verification/ResponderSpec.v ===== *)
(** * What the responder may and must answer

    Soundness: each record of a reply has a source ([answer_source]) that
    entitles the responder to it, answers a question of the query and is not
    suppressed by a known answer.  Completeness: every matching record of an
    announced service is in the reply.  Responses are duplicate-free. *)

From S2P Require Export Responder.

(** Once true, a property of the accumulator that the loop keeps stays true
    from the element that makes it so. *)
Lemma foldl_reaches {A B} (P : B -> Prop) (f : B -> A -> B) l b x :
  x ∈ l -> (forall b, P (f b x)) -> (forall y b, P b -> P (f b y)) -> P (foldl f b l).
Proof.
  revert b. induction l as [|y l IH]; intros b Hx Hnow Hkeep; [by apply elem_of_nil in Hx|].
  simpl. apply elem_of_cons in Hx as [->|Hx]; [|by apply IH].
  apply foldl_inv; [apply Hnow|]. intros z b' _. apply Hkeep.
Qed.

Section Sources.
  Context `{UnicodeTables, MapOrder}.

(** Why the responder may answer [rr] to [q]. *)
Inductive answer_source (k : knowledge) (now : Z) (q : Question) : ResourceRecord -> Prop :=
  | src_service svc rr :
      svc ∈ kn_services k -> announced svc = true -> rr ∈ rs_records svc.2 ->
      matchesQuestion rr q = true -> answer_source k now q rr
  | src_nsec svc rr :
      svc ∈ kn_services k -> announced svc = true ->
      lowerName (normalizeName (q_Name q)) = lowerName (normalizeName (InstanceName svc.1)) ->
      generateNSEC (q_Name q) (rs_records svc.2) = Some rr ->
      ~ (exists x, x ∈ rs_records svc.2 /\ rr_Type x = q_Type q /\
           lowerName (normalizeName (rr_Name x)) = lowerName (normalizeName (q_Name q))) ->
      answer_source k now q rr
  | src_reverse n rr :
      handleReverseMapping (kn_config k) (kn_hostIPs k) (visit n (kn_services k)) q = Some rr ->
      answer_source k now q rr
  | src_cache rr :
      kn_hostProbed k = true ->
      (exists t, rr ∈ Lookup now (mkKey (lowerName (normalizeName (lowerName
                   (normalizeName (q_Name q))))) t) (kn_cache k)) ->
      matchesQuestion rr q = true -> answer_source k now q rr
  | src_enumeration svc :
      svc ∈ kn_services k -> announced svc = true ->
      lowerName (normalizeName (q_Name q))
        = go "_services._dns-sd._udp." ++ lowerName (cfg_Domain (kn_config k)) ->
      answer_source k now q (enumeration_ptr q svc).

(** Additional records: the SRV, TXT and address records of an announced service
    whose type is asked for. *)
Definition additional_source (k : knowledge) (q : Question) (rr : ResourceRecord) : Prop :=
  exists svc, svc ∈ kn_services k /\ announced svc = true /\ rr ∈ rs_records svc.2 /\
    lowerName (ServiceType svc.1) = lowerName (normalizeName (q_Name q)) /\
    (q_Type q = TypePTR \/ q_Type q = TypeAny) /\
    rr_Type rr ∈ [TypeSRV; TypeTXT; TypeA; TypeAAAA].

(** The answers of a reply are justified by [P], its additionals by [Q]. *)
Definition reply_from (P Q : ResourceRecord -> Prop) (r : reply) : Prop :=
  Forall P (r_answers r) /\ Forall Q (r_additionals r).

Lemma reply_from_add (P Q : ResourceRecord -> Prop) rr u r :
  reply_from P Q r -> P rr -> reply_from P Q (add_answer rr u r).
Proof.
  intros [Ha Hx] Hrr. split; [|done]. apply Forall_app_2; [done|]. by constructor.
Qed.

Section Question.
  Context (k : knowledge) (now : Z) (q : Question) (known : list ResourceRecord)
    (P Q : ResourceRecord -> Prop).
  Context (HP : forall rr, answer_source k now q rr -> inKnownAnswers rr known = false -> P rr).
  Context (HQ : forall rr, additional_source k q rr -> Q rr).

Lemma answer_service_from svc r :
  svc ∈ kn_services k -> reply_from P Q r -> reply_from P Q (answer_service q known r svc).
Proof.
  intros Hsvc Hr. unfold answer_service. destruct (announced svc) eqn:Hann; [|done]. cbn [negb].
  set (r1 := foldl (add_records q known) r _).
  assert (H1 : reply_from P Q r1).
  { apply foldl_inv; [done|]. intros rr b Hrr Hb. unfold add_records.
    destruct (matchesQuestion rr q && _) eqn:E; [|done]. bool_arith.
    apply reply_from_add; [done|]. apply HP; [|done]. by eapply src_service. }
  set (r2 := if _ : bool then _ else _). assert (H2 : reply_from P Q r2).
  { unfold r2. destruct (((q_Type q =? TypePTR)%Z || _) && _) eqn:E; [|done].
    apply andb_true_iff in E as [Et En%bool_decide_eq_true].
    rewrite orb_true_iff, !Z.eqb_eq in Et.
    apply foldl_inv; [done|]. intros rr b Hrr [Ha Hx]. unfold add_additional.
    destruct (_ && _) eqn:E; [|done].
    apply andb_true_iff in E as [[Hty _]%andb_true_iff _].
    rewrite !orb_true_iff, !Z.eqb_eq in Hty. split; [done|]. apply Forall_app_2; [done|].
    constructor; [|done]. apply HQ. exists svc. split_and!; try done.
    rewrite !elem_of_cons. tauto. }
  clearbody r1 r2. unfold add_nsec. destruct (_ && _) eqn:E; [|done].
  apply andb_true_iff in E as [[En%bool_decide_eq_true _]%andb_true_iff _].
  destruct (existsb _ _) eqn:Ex; [done|].
  destruct (generateNSEC _ _) as [nsec|] eqn:Eg; [|done].
  destruct (inKnownAnswers nsec known) eqn:Ek; [done|].
  apply reply_from_add; [done|]. apply HP; [|done]. eapply src_nsec; [done..|].
  intros (x & Hx & Ht & Hn). apply not_true_iff_false in Ex. apply Ex.
  apply existsb_exists. exists x. split; [by apply list_elem_of_In|].
  by rewrite Ht, Z.eqb_refl, bool_decide_true.
Qed.

Lemma answer_question_from i r :
  reply_from P Q r -> reply_from P Q (answer_question k now known i r q).
Proof.
  intros Hr. unfold answer_question.
  destruct (handleReverseMapping _ _ _ _) as [ptr|] eqn:Erev.
  { destruct (inKnownAnswers ptr known) eqn:Ek; [done|]. apply reply_from_add; [done|].
    apply HP; [by eapply src_reverse | done]. }
  set (r1 := foldl (answer_service q known) r _).
  assert (H1 : reply_from P Q r1).
  { apply foldl_inv; [done|]. intros svc b Hsvc. rewrite visit_perm in Hsvc.
    by apply answer_service_from. }
  set (r2 := if kn_hostProbed k then _ else _). assert (H2 : reply_from P Q r2).
  { unfold r2. destruct (kn_hostProbed k) eqn:Ep; [|done]. apply foldl_inv; [done|].
    intros rr b Hrr Hb. unfold add_cached. destruct (_ && _) eqn:E; [|done]. bool_arith.
    apply reply_from_add; [done|]. apply HP; [|done]. eapply src_cache; [done| |done].
    by apply (elem_of_LookupName _ _ _ _ (visit_perm _ _)) in Hrr. }
  clearbody r1 r2. case_bool_decide as Een; [|done].
  apply foldl_inv; [done|]. intros svc b Hsvc Hb. rewrite visit_perm in Hsvc.
  unfold add_enumeration. destruct (announced svc) eqn:Hann; [|done]. cbn [negb].
  destruct (_ && _) eqn:E; [|done]. bool_arith.
  apply reply_from_add; [done|]. apply HP; [by apply src_enumeration | done].
Qed.

End Question.
End Sources.

Section ReplyProperties.
  Context `{UnicodeTables, MapOrder}.

(** The justification of an answer and of an additional record of a query. *)
Definition answer_ok (k : knowledge) (now : nat -> Z) (known : list ResourceRecord)
    (qs : list Question) (rr : ResourceRecord) : Prop :=
  inKnownAnswers rr known = false /\
  exists i q, q ∈ qs /\ answer_source k (now i) q rr.

Definition additional_ok (k : knowledge) (qs : list Question) (rr : ResourceRecord) : Prop :=
  exists q, q ∈ qs /\ additional_source k q rr.

Lemma answer_questions_from k now known qs all i r :
  qs ⊆ all -> reply_from (answer_ok k now known all) (additional_ok k all) r ->
  reply_from (answer_ok k now known all) (additional_ok k all)
    (answer_questions k now known i r qs).
Proof.
  revert i r. induction qs as [|q qs IH]; intros i r Hsub Hr; [done|]. cbn [answer_questions].
  apply IH; [set_solver|]. apply answer_question_from; [| |done].
  - intros rr Hsrc Hk. split; [done|]. exists i, q. split; [set_solver|done].
  - intros rr Hsrc. exists q. split; [set_solver|done].
Qed.

(** A reply is only ever extended. *)
Definition keeps (rr : ResourceRecord) (r : reply) : Prop := rr ∈ r_answers r.

Lemma keeps_add rr x u r : keeps rr r -> keeps rr (add_answer x u r).
Proof. unfold keeps. cbn. set_solver. Qed.

Lemma add_nsec_keeps rr q ln svc known r : keeps rr r -> keeps rr (add_nsec q ln svc known r).
Proof.
  intros Hr. unfold add_nsec. repeat case_if; try done. destruct (generateNSEC _ _); [|done].
  case_if; [done|]. by apply keeps_add.
Qed.

Lemma add_additional_keeps rr x r : keeps rr r -> keeps rr (add_additional r x).
Proof. intros Hr. unfold add_additional. by case_if. Qed.

Lemma add_records_keeps rr q known x r : keeps rr r -> keeps rr (add_records q known r x).
Proof. intros Hr. unfold add_records. case_if; [by apply keeps_add|done]. Qed.

Lemma add_cached_keeps rr q known x r : keeps rr r -> keeps rr (add_cached q known r x).
Proof. intros Hr. unfold add_cached. case_if; [by apply keeps_add|done]. Qed.

Lemma add_enumeration_keeps rr q known x r : keeps rr r -> keeps rr (add_enumeration q known r x).
Proof.
  intros Hr. unfold add_enumeration. case_if; [done|]. case_if; [by apply keeps_add|done].
Qed.

Lemma foldl_keeps {A} rr (f : reply -> A -> reply) l r :
  (forall x r, keeps rr r -> keeps rr (f r x)) -> keeps rr r -> keeps rr (foldl f r l).
Proof. intros Hf Hr. apply foldl_inv; [done|]. intros x b _. apply Hf. Qed.

#[local] Hint Resolve keeps_add add_nsec_keeps add_additional_keeps add_records_keeps
  add_cached_keeps add_enumeration_keeps foldl_keeps : mdns.

Lemma answer_service_tail_keeps rr q known svc r :
  keeps rr r ->
  keeps rr (add_nsec q (lowerName (normalizeName (q_Name q))) svc known
    (if ((q_Type q =? TypePTR)%Z || (q_Type q =? TypeAny)%Z)
        && bool_decide (lowerName (ServiceType svc.1) = lowerName (normalizeName (q_Name q)))
     then foldl add_additional r (rs_records svc.2) else r)).
Proof. intros Hr. apply add_nsec_keeps. case_if; auto with mdns. Qed.

Lemma answer_service_keeps rr q known svc r :
  keeps rr r -> keeps rr (answer_service q known r svc).
Proof.
  intros Hr. unfold answer_service. case_if; [done|]. apply answer_service_tail_keeps.
  auto with mdns.
Qed.

Lemma answer_service_reaches rr q known svc r :
  announced svc = true -> rr ∈ rs_records svc.2 -> matchesQuestion rr q = true ->
  inKnownAnswers rr known = false -> keeps rr (answer_service q known r svc).
Proof.
  intros Hann Hrr Hm Hk. unfold answer_service. rewrite Hann. cbn [negb].
  apply answer_service_tail_keeps.
  apply (foldl_reaches (keeps rr) _ _ _ rr); [done| |auto with mdns].
  intros b. unfold add_records. rewrite Hm, Hk. cbn. unfold keeps. cbn. set_solver.
Qed.

#[local] Hint Resolve answer_service_keeps : mdns.

Lemma answer_question_keeps k now known i r q rr :
  keeps rr r -> keeps rr (answer_question k now known i r q).
Proof.
  intros Hr. unfold answer_question. destruct (handleReverseMapping _ _ _ _).
  { case_if; auto with mdns. }
  assert (H1 : keeps rr (foldl (answer_service q known) r (visit (4 * i + 1) (kn_services k))))
    by auto with mdns.
  destruct (kn_hostProbed k); case_bool_decide; auto with mdns.
Qed.

Lemma answer_question_reaches k now known i r q rr svc :
  (forall n, handleReverseMapping (kn_config k) (kn_hostIPs k) (visit n (kn_services k)) q = None) ->
  svc ∈ kn_services k -> announced svc = true -> rr ∈ rs_records svc.2 ->
  matchesQuestion rr q = true -> inKnownAnswers rr known = false ->
  keeps rr (answer_question k now known i r q).
Proof.
  intros Hrev Hsvc Hann Hrr Hm Hk. unfold answer_question. rewrite Hrev.
  assert (H1 : keeps rr (foldl (answer_service q known) r (visit (4 * i + 1) (kn_services k)))).
  { apply (foldl_reaches (keeps rr) _ _ _ svc); [by rewrite visit_perm| |auto with mdns].
    intros b. by apply answer_service_reaches. }
  destruct (kn_hostProbed k); case_bool_decide; auto with mdns.
Qed.

Lemma answer_questions_keeps k now known qs i r rr :
  keeps rr r -> keeps rr (answer_questions k now known i r qs).
Proof.
  revert i r. induction qs as [|q qs IH]; intros i r Hr; [done|].
  apply IH. by apply answer_question_keeps.
Qed.

(** C21: everything the responder answers, it may answer.  Each answer responds
    to a question of the query, is not suppressed by a known answer, and is a
    record of an announced service, an NSEC record for a type such a service does
    not have, a reverse mapping, a service enumeration or, once the host records
    are probed, a live cached record; each additional record belongs to an
    announced service whose type is asked for. *)
Theorem answers_justified k now known qs :
  let r := answer_questions k now known 0 empty_reply qs in
  Forall (answer_ok k now known qs) (r_answers r) /\
  Forall (additional_ok k qs) (r_additionals r).
Proof. apply answer_questions_from; [done|]. split; constructor. Qed.

(** C22: everything the responder must answer, it answers.  A record of an
    announced service that matches a question is among the answers unless a
    known answer suppresses it (or the question is a reverse mapping). *)
Theorem answers_complete k now known qs q svc rr :
  q ∈ qs -> svc ∈ kn_services k -> announced svc = true -> rr ∈ rs_records svc.2 ->
  matchesQuestion rr q = true -> inKnownAnswers rr known = false ->
  (forall n, handleReverseMapping (kn_config k) (kn_hostIPs k) (visit n (kn_services k)) q = None) ->
  rr ∈ r_answers (answer_questions k now known 0 empty_reply qs).
Proof.
  intros Hq Hsvc Hann Hrr Hm Hk Hrev. generalize empty_reply as r. generalize 0 as i.
  induction qs as [|q' qs IH]; intros i r; [by apply elem_of_nil in Hq|].
  cbn [answer_questions]. apply elem_of_cons in Hq as [<-|Hq].
  - apply answer_questions_keeps. by eapply answer_question_reaches.
  - by apply IH.
Qed.

(** ** Responses *)

Lemma rate_filter_sublist now now2 i tracker answers :
  (rate_filter now now2 i tracker answers).2 `sublist_of` answers.
Proof.
  revert i tracker. induction answers as [|rr answers IH]; intros i tracker; [constructor|].
  cbn [rate_filter]. destruct (canSendMulticast _ _ _ _) as [t ok].
  specialize (IH (S i) t). destruct (rate_filter _ _ _ _ _) as [t' kept].
  destruct ok; cbn in *; by constructor.
Qed.

Lemma ids_sublist (l1 l2 : list ResourceRecord) :
  l1 `sublist_of` l2 -> rr_id <$> l1 `sublist_of` rr_id <$> l2.
Proof. induction 1; simpl; by constructor. Qed.

(** C26: a response holds no record twice.  Its answers are distinct and come
    from the answers given, its additionals are distinct, come from the
    additionals given, and leave out every record of the deduplicated answers. *)
Theorem response_deduplicated now now2 answers additionals mc tracker tracker' m :
  prepare_response now now2 answers additionals mc tracker = (tracker', Some m) ->
  NoDup (rr_id <$> m_Answers m) /\ m_Answers m `sublist_of` answers /\
  NoDup (rr_id <$> m_Additionals m) /\ m_Additionals m `sublist_of` additionals /\
  (forall i, i ∈ rr_id <$> m_Additionals m -> i ∉ rr_id <$> answers).
Proof.
  destruct (dedup_spec [] answers) as (Ha & Hs & Hia).
  destruct (dedup_spec (dedup [] answers) additionals) as (Hx & Hxs & Hix).
  assert (Hout : forall l, l `sublist_of` dedup [] answers ->
    let m := response 0 l (dedup (dedup [] answers) additionals) in
    NoDup (rr_id <$> m_Answers m) /\ m_Answers m `sublist_of` answers /\
    NoDup (rr_id <$> m_Additionals m) /\ m_Additionals m `sublist_of` additionals /\
    (forall i, i ∈ rr_id <$> m_Additionals m -> i ∉ rr_id <$> answers)).
  { intros l Hl. cbn. split_and!; [|by etrans|done|done|].
    - eapply sublist_NoDup; [exact Ha|]. by apply ids_sublist.
    - intros i Hi Hin. apply Hix in Hi as [_ Hi]. apply Hi, Hia. set_solver. }
  unfold prepare_response. destruct mc; [|intros [= _ <-]; by apply Hout].
  pose proof (rate_filter_sublist now now2 0 tracker (dedup [] answers)) as Hf.
  destruct (rate_filter _ _ _ _ _) as [t filtered]. cbn in Hf.
  destruct (_ && _); [done|]. intros [= _ <-]. apply Hout. by case_bool_decide.
Qed.

End ReplyProperties.
