(* ===== verification/ServiceSpec.v ===== *)
(** * Services, their names and their records

    The records a service advertises fit the wire format and are recognised as
    its own when they come back; renaming counts upwards; probe messages ask for
    each name once. *)

From S2P Require Export WireRoundtrip ResponderSpec.

(** ** Names with a final dot *)

Lemma normalizeName_dot s : normalizeName (s ++ [dot]) = s ++ [dot].
Proof.
  unfold normalizeName. destruct (bool_decide_reflect (s ++ [dot] = [])) as [E|]; [by destruct s|].
  case_bool_decide as E; [done|]. cbn [orb]. by rewrite HasSuffix_app.
Qed.

Lemma normalizeName_wf name : name_wf (normalizeName name).
Proof.
  destruct (normalizeName_cases name) as [->|[-> _]]; [by exists []|]. by eexists.
Qed.

Lemma normalizeName_id name : name_wf name -> normalizeName name = name.
Proof. intros [s ->]. apply normalizeName_dot. Qed.

Lemma name_wf_app s name : name_wf name -> name_wf (s ++ name).
Proof. intros [t ->]. exists (s ++ t). by rewrite app_assoc. Qed.

Lemma ensureDomain_wf d : name_wf (ensureDomain d).
Proof.
  unfold ensureDomain. case_bool_decide; [by exists (go "local")|]. apply normalizeName_wf.
Qed.

Lemma ServiceType_wf svc : name_wf (ServiceType svc).
Proof. unfold ServiceType. do 2 apply name_wf_app. apply ensureDomain_wf. Qed.

Lemma InstanceName_wf svc : name_wf (InstanceName svc).
Proof. unfold InstanceName. do 2 apply name_wf_app. apply ServiceType_wf. Qed.

(** ** Sorting addresses *)

#[export] Instance str_le_total : Total str_le.
Proof.
  intros a b. unfold str_le. destruct (str_ltb b a) eqn:E; [right|by left]. by apply str_ltb_asym.
Qed.

#[export] Instance str_le_trans : Transitive str_le.
Proof.
  intros a b c Hab Hbc. unfold str_le in *. destruct (str_ltb c a) eqn:E; [|done].
  destruct (str_ltb a b) eqn:E1.
  - by rewrite (str_ltb_trans _ _ _ E E1) in Hbc.
  - pose proof (str_ltb_total a b E1 Hab) as ->. congruence.
Qed.

Definition text_le (a b : IP) : Prop := str_le (IP_String a) (IP_String b).

#[export] Instance text_le_dec a b : Decision (text_le a b).
Proof. unfold text_le. apply _. Defined.
#[export] Instance text_le_total : Total text_le.
Proof. intros a b. apply str_le_total. Qed.
#[export] Instance text_le_trans : Transitive text_le.
Proof. intros a b c. apply str_le_trans. Qed.

Lemma sort_ips_sorted ips : StronglySorted text_le (sort_ips ips).
Proof. exact (StronglySorted_merge_sort text_le ips). Qed.

Lemma sort_ips_perm ips : sort_ips ips ≡ₚ ips.
Proof. apply merge_sort_Permutation. Qed.

Lemma filter_v4_v6 (ips : list IP) :
  filter (λ ip, is_ipv4 ip = true) ips ++ filter (λ ip, is_ipv4 ip = false) ips ≡ₚ ips.
Proof.
  induction ips as [|ip ips IH]; [done|]. rewrite !filter_cons.
  destruct (is_ipv4 ip); simpl; [by rewrite IH|]. by rewrite <- Permutation_middle, IH.
Qed.

Lemma elem_of_sortIPs ip ips : ip ∈ sortIPsIPv4First ips <-> ip ∈ ips.
Proof.
  unfold sortIPsIPv4First. by rewrite !sort_ips_perm, filter_v4_v6.
Qed.

(** ** Service records *)

(** The fields of a service the wire format can carry. *)
Definition service_ok (svc : ServiceInstance) : Prop :=
  is_u16 (si_Port svc) /\ is_u16 (si_Priority svc) /\ is_u16 (si_Weight svc) /\
  is_u32 (si_TTL svc) /\
  Forall (λ ip : IP, length ip = 4 \/ length ip = 16) (si_IPs svc) /\
  name_ok (ServiceType svc) = true /\ name_ok (InstanceName svc) = true /\
  name_ok (normalizeName (si_Host svc)) = true.

#[export] Instance service_ok_dec svc : Decision (service_ok svc).
Proof. unfold service_ok. apply _. Defined.

Lemma address_record_fields host ttl ip :
  let rr := address_record host ttl ip in
  rr_Name rr = host /\ rr_Class rr = ClassIN /\ rr_TTL rr = ttl /\ rr_CacheFlush rr = true /\
  rr_Priority rr = 0%Z /\ rr_Weight rr = 0%Z /\ rr_Port rr = 0%Z /\ rr_TypeBitMaps rr = [] /\
  ((rr_Type rr = TypeA /\ To4 ip = Some (rr_IP rr)) \/
   (rr_Type rr = TypeAAAA /\ To4 ip = None /\ rr_IP rr = ip)).
Proof.
  unfold address_record. destruct (To4 ip) eqn:E; cbn; split_and!; try done; [by left | by right].
Qed.

Lemma address_record_packable host ttl ip :
  is_u32 ttl -> name_ok host = true -> rr_packable (address_record host ttl ip).
Proof.
  intros Httl Hn. destruct (address_record_fields host ttl ip)
    as (En & Ec & Et & _ & Ep & Ew & Eo & Eb & Hty).
  assert (Hz : is_u16 0) by (unfold is_u16; lia).
  unfold rr_packable, RR_ints_ok. rewrite En, Ec, Et, Ep, Ew, Eo, Eb.
  assert (Hr : rr_Type (address_record host ttl ip) = TypeA \/
               rr_Type (address_record host ttl ip) = TypeAAAA) by (destruct Hty as [[? _]|[? _]]; auto).
  destruct Hr as [-> | ->]; split_and!; try done; try (by intros ?%type_in_targets; naive_solver);
    try (unfold is_u16, ClassIN, TypeA, TypeAAAA; lia).
Qed.

(** The TTLs of a service's records. *)
Lemma service_ttls_u32 svc :
  is_u32 (si_TTL svc) ->
  is_u32 (if (0 <? si_TTL svc)%Z then si_TTL svc else hostTTL) /\
  is_u32 (if (0 <? si_TTL svc)%Z then si_TTL svc else otherTTL).
Proof. intros Ht. destruct (0 <? si_TTL svc)%Z; [done|]. by vm_compute. Qed.

Lemma generateServiceRecords_packable svc :
  service_ok svc -> Forall rr_packable (generateServiceRecords svc).
Proof.
  intros (Hport & Hpri & Hw & Httl & _ & Hst & Hin & Hh).
  destruct (service_ttls_u32 svc Httl) as [Hht Hot].
  assert (Hz : is_u16 0) by (unfold is_u16; lia).
  unfold generateServiceRecords. cbn [app].
  repeat apply Forall_cons_2.
  - unfold rr_packable, RR_ints_ok. cbn. split_and!; try done; by unfold is_u16, TypePTR, ClassIN.
  - unfold rr_packable, RR_ints_ok. cbn. split_and!; try done; by unfold is_u16, TypeSRV, ClassIN.
  - unfold rr_packable, RR_ints_ok. cbn. split_and!; try done; by unfold is_u16, TypeTXT, ClassIN.
  - apply Forall_fmap, Forall_forall. intros ip _. by apply address_record_packable.
Qed.

(** ** A service recognises its own records *)

Section OwnRecords.
  Context `{UnicodeTables}.

Lemma recordsEqual_fields a b :
  rr_Type a = rr_Type b -> rr_Name a = rr_Name b -> canonIP (rr_IP a) = canonIP (rr_IP b) ->
  rr_Target a = rr_Target b -> rr_Priority a = rr_Priority b -> rr_Weight a = rr_Weight b ->
  rr_Port a = rr_Port b -> rr_Text a = rr_Text b -> rr_RawData a = rr_RawData b ->
  recordsEqual a b = true.
Proof.
  intros Ht Hn Hip Htg Hp Hw Hpo Htx Hr. apply recordsEqual_iff. unfold rr_id.
  by rewrite Ht, Hn, Hip, Htg, Hp, Hw, Hpo, Htx, Hr.
Qed.

Lemma canonIP_To4 ip ip4 : To4 ip = Some ip4 -> canonIP ip4 = canonIP ip.
Proof.
  intros E. apply To4_length in E as Hl. unfold canonIP, To16. rewrite Hl. cbn [Nat.eqb].
  revert E. unfold To4. destruct (Nat.eqb_spec (length ip) 4); [by intros [= <-]|].
  destruct (Nat.eqb_spec (length ip) 16); [|done].
  case_bool_decide as Ht; [|done]. cbn [andb]. intros [= <-]. cbn [default from_option].
  rewrite <- Ht at 1. apply take_drop.
Qed.

Lemma address_record_own host ttl ip :
  name_wf host -> (length ip = 4 \/ length ip = 16) ->
  recordsEqual (address_record host ttl ip) (canon_rr (address_record host ttl ip)) = true.
Proof.
  intros Hh Hip. unfold address_record. destruct (To4 ip) as [ip4|] eqn:E.
  - apply recordsEqual_fields; cbn; try done; [by rewrite normalizeName_id|].
    by rewrite To4_4 by (by eapply To4_length).
  - apply recordsEqual_fields; cbn; try done; [by rewrite normalizeName_id|].
    assert (Hl : length ip = 16) by (destruct Hip as [Hl|]; [by rewrite To4_4 in E|done]).
    by rewrite To16_16.
Qed.

Lemma generateServiceRecords_own svc rr :
  service_ok svc -> si_Text svc <> [] -> rr ∈ generateServiceRecords svc ->
  recordsEqual rr (canon_rr rr) = true.
Proof.
  intros (_ & _ & _ & _ & Hips & _) Htext Hrr. unfold generateServiceRecords in Hrr.
  cbn [app] in Hrr. rewrite !elem_of_cons in Hrr. destruct Hrr as [-> | [-> | [-> | Hrr]]].
  - apply recordsEqual_fields; cbn; try done;
      symmetry; apply normalizeName_id; [apply ServiceType_wf | apply InstanceName_wf].
  - apply recordsEqual_fields; cbn; try done;
      symmetry; apply normalizeName_id; [apply InstanceName_wf | apply normalizeName_wf].
  - apply recordsEqual_fields; cbn; try done;
      [symmetry; apply normalizeName_id, InstanceName_wf|].
    unfold canon_text. by rewrite decide_False.
  - apply list_elem_of_fmap in Hrr as (ip & -> & Hip). rewrite elem_of_sortIPs in Hip.
    apply address_record_own; [apply normalizeName_wf|].
    rewrite Forall_forall in Hips. by apply Hips.
Qed.

(** ** Probe messages *)

Lemma probe_questions_spec records : forall seen,
  Forall (λ q, q_Type q = TypeAny /\ q_Class q = ClassIN) (probe_questions seen records) /\
  NoDup (lowerName ∘ q_Name <$> probe_questions seen records) /\
  (forall n, n ∈ lowerName ∘ q_Name <$> probe_questions seen records <->
     n ∈ lowerName ∘ rr_Name <$> records /\ n ∉ seen) /\
  (forall q, q ∈ probe_questions seen records -> exists rr, rr ∈ records /\ q_Name q = rr_Name rr).
Proof.
  induction records as [|rr records IH]; intros seen; cbn [probe_questions].
  { split_and!; [done | constructor | set_solver | set_solver]. }
  case_bool_decide as Hseen.
  - destruct (IH seen) as (Ha & Hnd & Hel & Hsrc). split_and!; [done|done| |].
    + intros n. rewrite Hel, fmap_cons, elem_of_cons. split; [by intros []; split; [right|]|].
      intros [[-> | Hn] Hs]; [by destruct Hs|done].
    + intros q (x & Hx & Hq)%Hsrc. exists x. split; [by right|done].
  - destruct (IH ({[lowerName (rr_Name rr)]} ∪ seen)) as (Ha & Hnd & Hel & Hsrc).
    rewrite fmap_cons. split_and!.
    + by constructor.
    + apply NoDup_cons. split; [|done]. rewrite Hel. cbn. set_solver.
    + intros n. rewrite elem_of_cons, Hel, fmap_cons, elem_of_cons. cbn.
      rewrite not_elem_of_union, not_elem_of_singleton. split.
      * intros [-> | [Hn [_ Hs]]]; [split; [by left|done] | split; [by right|done]].
      * intros [[-> | Hn] Hs]; [by left|].
        destruct (decide (n = lowerName (rr_Name rr))); [by left | by right].
    + intros q [-> | Hq]%elem_of_cons; [exists rr; split; [by left|done]|].
      apply Hsrc in Hq as (x & Hx & Hq). exists x. split; [by right|done].
Qed.

Lemma buildProbeMessage_packable records :
  Forall rr_packable records -> msg_packable (buildProbeMessage records).
Proof.
  intros Hrr. destruct (probe_questions_spec records ∅) as (Ha & _ & _ & Hsrc).
  unfold msg_packable. cbn. split_and!; try done; try (unfold is_u16; lia).
  rewrite Forall_forall in Ha. rewrite Forall_forall in Hrr. apply Forall_forall. intros q Hq. apply Ha in Hq as Ht.
  apply Hsrc in Hq as (rr & Hin & Hn). destruct Ht as [Ht Hc].
  unfold question_packable. rewrite Hn, Ht, Hc. apply Hrr in Hin as (_ & Hname & _).
  split_and!; [done | by unfold is_u16, TypeAny | by unfold is_u16, ClassIN].
Qed.

End OwnRecords.

(** ** Renaming *)

(** The name with a counter. *)
Definition counted (base : gostring) (n : Z) : gostring :=
  base ++ go " (" ++ Itoa n ++ go ")".

Lemma digits_no_space d ds : forallb is_digit (d :: ds) = true -> Byte.x20 ∉ d :: ds.
Proof.
  rewrite forallb_forall. intros Hd Hin. by specialize (Hd _ (proj1 (list_elem_of_In _ _) Hin)).
Qed.

Lemma incrementNameSuffix_counted base n :
  base <> [] -> (2 <= n < max_int64)%Z ->
  incrementNameSuffix (counted base n) = counted base (n + 1).
Proof.
  intros Hbase Hn. destruct (Itoa_digits n) as (d & ds & Ed & Hd & _); [unfold max_int64 in *; lia|].
  pose proof (Atoi_Itoa n ltac:(unfold max_int64 in *; lia)) as HA. unfold incrementNameSuffix.
  assert (Ename : counted base n = base ++ Byte.x20 :: [Byte.x28] ++ (Itoa n ++ [Byte.x29])) by done.
  assert (Eidx : LastIndex (counted base n) (go " (") = Some (length base)).
  { rewrite Ename. apply LastIndex_app. rewrite Ed. intros Hin.
    apply elem_of_app in Hin as [Hin|[Hin|Hin]%elem_of_app]; [by vm_compute in Hin; set_solver| |].
    - by eapply digits_no_space.
    - apply list_elem_of_singleton in Hin. done. }
  rewrite Eidx. assert (0 < length base) by (destruct base; [done|simpl; lia]).
  destruct (Nat.ltb_spec 0 (length base)); [|lia].
  assert (Edrop : drop (length base + 2) (counted base n) = Itoa n ++ [Byte.x29]).
  { rewrite Ename. change (Byte.x20 :: [Byte.x28] ++ ?l) with ([Byte.x20; Byte.x28] ++ l).
    rewrite app_assoc. apply drop_app_length'. by rewrite length_app. }
  assert (Etake : take (length base) (counted base n) = base) by (rewrite Ename; apply take_app_length).
  rewrite Edrop, Etake. change (go ")") with [Byte.x29]. rewrite HasSuffix_app.
  rewrite length_app, Nat.add_sub, take_app_length, HA.
  destruct (Z.leb_spec 2 n); [|lia]. unfold counted.
  rewrite int64_small by (unfold max_int64 in *; lia). done.
Qed.

(** A name that does not end in a parenthesis has no counter yet. *)
Lemma incrementNameSuffix_plain name :
  HasSuffix name (go ")") = false -> incrementNameSuffix name = counted name 2.
Proof.
  intros Hp. unfold incrementNameSuffix. destruct (LastIndex name (go " (")) as [idx|]; [|done].
  case_if; [|done]. destruct (HasSuffix (drop (idx + 2) name) (go ")")) eqn:E; [|done].
  apply HasSuffix_spec in E. apply HasSuffix_false in Hp. destruct Hp.
  destruct E as [k Hk]. exists (take (idx + 2) name ++ k).
  by rewrite <- app_assoc, <- Hk, take_drop.
Qed.

Lemma incrementNameSuffix_iter base k :
  base <> [] -> HasSuffix base (go ")") = false -> (Z.of_nat k + 2 < max_int64)%Z ->
  Nat.iter (S k) incrementNameSuffix base = counted base (Z.of_nat k + 2).
Proof.
  intros Hb Hp. induction k as [|k IH]; intros Hk.
  - by apply incrementNameSuffix_plain.
  - change (Nat.iter (S (S k)) incrementNameSuffix base)
      with (incrementNameSuffix (Nat.iter (S k) incrementNameSuffix base)).
    rewrite IH by lia. rewrite incrementNameSuffix_counted by (done || lia). f_equal. lia.
Qed.

Lemma counted_inj base n n' : counted base n = counted base n' -> n = n'.
Proof.
  unfold counted. intros E. do 2 apply app_inv_head in E. apply app_inv_tail in E.
  by apply Itoa_inj in E.
Qed.

(** ** Properties *)

Section ServiceProperties.
  Context `{UnicodeTables}.

(** C29: Renaming after a conflict counts upwards: the k-th rename of a name [base]
    that is not empty and does not end in ")" is [base (k+1)], so renaming never comes back to a name it
    has already tried. *)
Theorem rename_sequence base k :
  base <> [] -> HasSuffix base (go ")") = false -> (Z.of_nat k + 2 < max_int64)%Z ->
  Nat.iter (S k) incrementNameSuffix base = base ++ go " (" ++ Itoa (Z.of_nat k + 2) ++ go ")" /\
  forall j, j < S k ->
    Nat.iter j incrementNameSuffix base <> Nat.iter (S k) incrementNameSuffix base.
Proof.
  intros Hb Hp Hk. split; [by apply incrementNameSuffix_iter|]. intros j Hj.
  rewrite (incrementNameSuffix_iter base k) by done. destruct j as [|j].
  - simpl. intros E. apply HasSuffix_false in Hp. apply Hp. rewrite E.
    exists (base ++ go " (" ++ Itoa (Z.of_nat k + 2)). unfold counted. by rewrite <- !app_assoc.
  - rewrite incrementNameSuffix_iter by (done || lia). intros E%counted_inj. lia.
Qed.

(** The "IPv4 first" order: the same addresses, every IPv4 address before every
    other, and each group in the order of its text form. *)
Theorem sortIPsIPv4First_spec ips :
  sortIPsIPv4First ips ≡ₚ ips /\
  exists v4 v6, sortIPsIPv4First ips = v4 ++ v6 /\
    Forall (λ ip, is_ipv4 ip = true) v4 /\ Forall (λ ip, is_ipv4 ip = false) v6 /\
    StronglySorted text_le v4 /\ StronglySorted text_le v6.
Proof.
  unfold sortIPsIPv4First. split; [by rewrite !sort_ips_perm, filter_v4_v6|].
  eexists _, _. split; [reflexivity|].
  split_and!; try apply sort_ips_sorted; rewrite sort_ips_perm; apply Forall_forall;
    by intros ip [? _]%list_elem_of_filter.
Qed.

(** C39: A probe message for a list of records that is not empty asks, with type ANY, for each
    name of the records exactly once, up to case, and for no other name, and carries all
    of the records as authority records; it is a valid mDNS query that receivers take for
    a probe. *)
Theorem buildProbeMessage_spec records :
  records <> [] ->
  let m := buildProbeMessage records in
  IsQuery m = true /\ IsProbe m = true /\ IsValidmDNS m = true /\ m_Authorities m = records /\
  Forall (λ q, q_Type q = TypeAny /\ q_Class q = ClassIN) (m_Questions m) /\
  NoDup (lowerName ∘ q_Name <$> m_Questions m) /\
  (forall n, n ∈ lowerName ∘ q_Name <$> m_Questions m <-> n ∈ lowerName ∘ rr_Name <$> records).
Proof.
  intros Hne m. destruct (probe_questions_spec records ∅) as (Ha & Hnd & Hel & _).
  split_and!; try done; [by destruct records|].
  intros n. cbn. rewrite Hel. set_solver.
Qed.

(** C30: A service is not disturbed by the loopback of its own probes.  Whatever
    of its own probe message comes back through the network, each authority
    record equals one of the service's records, provided the service has TXT
    data. *)
Theorem own_probe_recognised svc data :
  service_ok svc -> si_Text svc <> [] ->
  Pack (buildProbeMessage (generateServiceRecords svc)) = Ok data ->
  exists m, UnpackMessage data = Ok m /\
    Forall (λ ns, exists rr, rr ∈ generateServiceRecords svc /\ recordsEqual rr ns = true)
      (m_Authorities m).
Proof.
  intros Hok Htext Hpack.
  apply UnpackMessage_Pack in Hpack.
  2: { by apply buildProbeMessage_packable, generateServiceRecords_packable. }
  eexists. split; [exact Hpack|]. cbn [canon_msg m_Authorities buildProbeMessage].
  apply Forall_forall. intros ns (rr & -> & Hrr)%list_elem_of_fmap.
  exists rr. split; [done|]. by apply (generateServiceRecords_own svc).
Qed.

(** A service without TXT data takes its own probe for a rival's and loses.
    Its TXT record goes out as one empty string, comes back different from the
    record it is compared with, and wins the tie-break against it. *)
Theorem empty_text_loses_to_itself svc :
  si_Text svc = [] ->
  exists txt, txt ∈ generateServiceRecords svc /\
    recordsEqual txt (canon_rr txt) = false /\ recordsConflict txt (canon_rr txt) = true /\
    probeLoses txt (canon_rr txt) = true.
Proof.
  intros Ht. unfold generateServiceRecords. rewrite Ht.
  set (txt := set_Text [] _). exists txt.
  assert (Hn : normalizeName (InstanceName svc) = InstanceName svc)
    by apply normalizeName_id, InstanceName_wf.
  assert (Heq : recordsEqual txt (canon_rr txt) = false).
  { apply not_true_iff_false. rewrite recordsEqual_iff. done. }
  split_and!; [cbn; set_solver | done | | done].
  unfold recordsConflict. rewrite Heq. cbn. by rewrite Hn, bool_decide_true.
Qed.

End ServiceProperties.
