(* ===== verification/Multicast.v ===== *)
(** * Interfaces and sockets (multicast.go, and localIPs of server.go)

    The choices the program makes among what the operating system reports: which
    interfaces and addresses it uses, which socket it sends on, when it warns of a
    broken route, and the bounded queue of received packets.  The list of the
    interfaces, and the results of the system calls that send or join a group, are
    arguments. *)

From S2P Require Export Config.

(** ** What the operating system reports *)

(** The dynamic types of [net.Addr] the code looks for, and any other. *)
Inductive Addr :=
  | AddrIPNet (n : IPNet)
  | AddrIPAddr (ip : IP)
  | AddrOther.

(** One [net.Interface], with what its [Addrs()] returns, [None] for an error. *)
Record Interface := mkInterface {
  if_Index : Z;
  if_Name : gostring;
  if_Flags : Z;
  if_Addrs : option (list Addr)
}.

(** Package net's flag bits. *)
Definition FlagUp : Z := 1.
Definition FlagMulticast : Z := 16.

Definition has_flag (i : Interface) (f : Z) : bool := negb (Z.land (if_Flags i) f =? 0)%Z.

Section Interfaces.
  Context `{UnicodeTables}.

(** ** Choosing interfaces *)

(** [len(nameSet) > 0 && !nameSet[name]] *)
Definition name_excluded (names : list gostring) (name : gostring) : bool :=
  let nameSet : gset gostring := list_to_set names in
  bool_decide (nameSet <> ∅) && bool_decide (name ∉ nameSet).

(** The body of the loop: whether the interface is kept. *)
Definition keep_interface (names : list gostring) (iface : Interface) : bool :=
  if negb (has_flag iface FlagUp) then false
  else if negb (has_flag iface FlagMulticast) then false
  else match if_Addrs iface with
       | None | Some [] => false
       | Some _ => negb (name_excluded names (if_Name iface))
       end.

(** [ifaces] is the result of [net.Interfaces()], [None] for an error. *)
Definition activeMulticastInterfacesFor (ifaces : option (list Interface)) (names : list gostring)
    : list Interface :=
  filter (λ iface, keep_interface names iface = true) (default [] ifaces).

(** The first address of the list that is an IPv4 network address and no loopback. *)
Fixpoint first_ipv4 (addrs : list Addr) : option IP :=
  match addrs with
  | [] => None
  | AddrIPNet n :: addrs =>
      match To4 (net_IP n) with
      | Some ip4 => if negb (IsLoopback ip4) then Some ip4 else first_ipv4 addrs
      | None => first_ipv4 addrs
      end
  | _ :: addrs => first_ipv4 addrs
  end.

Definition firstIPv4 (iface : Interface) : option IP :=
  addrs ← if_Addrs iface; first_ipv4 addrs.

Definition virtualPrefixes : list gostring :=
  go <$> ["docker"; "wsl"; "vethernet"; "hyper-v"; "tap"; "tun"; "radmin"; "meta"; "hamachi";
    "zerotier"; "tailscale"; "wireguard"; "openvpn"; "ppp"; "isatap"; "teredo"; "6to4";
    "loopback pseudo"; "vpn"]%string.

Definition physicalHints : list gostring :=
  go <$> ["ethernet"; "wi-fi"; "wifi"; "wlan"; "以太网"; "无线"; "local area"]%string.

Definition scoreInterface (name : gostring) (ip : IP) : Z :=
  let nameLower := ToLower name in
  if existsb (Contains nameLower) virtualPrefixes then 0%Z else
  let score := 1%Z in
  let score := if IsPrivate ip then (score + 10)%Z else score in
  if existsb (Contains nameLower) physicalHints then (score + 5)%Z else score.

(** The loop of [defaultRouteIPv4], with its variables [bestIP] and [bestScore]. *)
Fixpoint best_ipv4 (ifaces : list Interface) (bestIP : option IP) (bestScore : Z) : option IP :=
  match ifaces with
  | [] => bestIP
  | iface :: ifaces =>
      match firstIPv4 iface with
      | None => best_ipv4 ifaces bestIP bestScore
      | Some ip4 =>
          if IsLoopback ip4 then best_ipv4 ifaces bestIP bestScore else
          let score := scoreInterface (if_Name iface) ip4 in
          if (bestScore <? score)%Z then best_ipv4 ifaces (Some ip4) score
          else best_ipv4 ifaces bestIP bestScore
      end
  end.

Definition defaultRouteIPv4 (ifaces : option (list Interface)) : option IP :=
  best_ipv4 (activeMulticastInterfacesFor ifaces []) None 0.

(** The address [setOutgoingInterface] gives to [setOutgoingInterfaceV4]. *)
Definition outgoing_address (ifaces : option (list Interface)) (interfaces : list gostring)
    : option IP :=
  let explicit := if bool_decide (interfaces = []) then None
    else head (omap firstIPv4 (activeMulticastInterfacesFor ifaces interfaces)) in
  match explicit with
  | Some ip4 => Some ip4
  | None =>
      match defaultRouteIPv4 ifaces with
      | Some ip4 => Some ip4
      | None => head (omap (λ iface,
                  ip4 ← firstIPv4 iface; if negb (IsLoopback ip4) then Some ip4 else None)
                  (activeMulticastInterfacesFor ifaces []))
      end
  end.

(** ** The addresses of the host *)

(** A nil [net.IP] stands for an address of another type. *)
Definition addr_ip (a : Addr) : IP :=
  match a with AddrIPNet n => net_IP n | AddrIPAddr ip => ip | AddrOther => [] end.

Definition ipsForInterfaces (ifaces : option (list Interface)) (interfaces : list gostring)
    : list IP :=
  mjoin ((λ iface,
    if negb (has_flag iface FlagUp) then []
    else if name_excluded interfaces (if_Name iface) then []
    else filter (λ ip, ip <> [] /\ IsLoopback ip = false)
           (addr_ip <$> default [] (if_Addrs iface)))
    <$> default [] ifaces).

Definition localIPs (ifaces : option (list Interface)) (interfaces : list gostring) : list IP :=
  if bool_decide (interfaces <> []) then ipsForInterfaces ifaces interfaces else
  match defaultRouteIPv4 ifaces with
  | Some ip => [ip]
  | None => ipsForInterfaces ifaces []
  end.

Definition localSubnets (ifaces : option (list Interface)) : list IPNet :=
  mjoin ((λ iface,
    if negb (has_flag iface FlagUp) then []
    else omap (λ a, match a with AddrIPNet n => Some n | _ => None end)
           (default [] (if_Addrs iface))) <$> default [] ifaces).

End Interfaces.

(** ** Joining groups *)

(** The loop of [joinGroups] and of [joinGroupsV6]: [results] are the results of the
    joins that were tried, an error or none, in order. *)
Definition join_result {E} (results : list (option E)) : option E :=
  let joined := existsb (λ r : option E, match r with None => true | Some _ => false end)
                  results in
  let lastErr := foldl (λ acc r, match r with Some e => Some e | None => acc end) None results in
  if negb joined then lastErr else None.

(** The IPv4 addresses a join is tried on, interface by interface. *)
Definition join_addresses (ifaces : list Interface) : list IP :=
  mjoin ((λ iface, omap (λ a, match a with AddrIPNet n => To4 (net_IP n) | _ => None end)
    (default [] (if_Addrs iface))) <$> ifaces).

(** ** Sending *)

Definition isRouteError (s : gostring) : bool :=
  Contains s (go "no route to host") || Contains s (go "network is unreachable").

(** The sockets of a [MulticastConn]: which of them exist, whether it is closed, the
    counter of consecutive route errors, an [int32], and the packets received. *)
Record MulticastConn := mkConn {
  mc_v6 : bool;
  mc_closed : bool;
  mc_sendFailures : Z;
  mc_packets : list (list byte * UDPAddr)
}.

Definition int32 (z : Z) : Z := ((z + 2147483648) mod 4294967296 - 2147483648)%Z.

Definition set_failures (n : Z) (mc : MulticastConn) : MulticastConn :=
  mkConn (mc_v6 mc) (mc_closed mc) n (mc_packets mc).

(** [trackSendFailure]: the new counter, and whether [warnFn] is called. *)
Definition trackSendFailure (mc : MulticastConn) : MulticastConn * bool :=
  let count := int32 (mc_sendFailures mc + 1) in
  (set_failures count mc, (count =? 3)%Z).

(** [err] is the error of [WriteToUDP], if any. *)
Definition WriteMulticastV4 (err : option gostring) (mc : MulticastConn) : MulticastConn * bool :=
  match err with
  | Some e => if isRouteError e then trackSendFailure mc else (set_failures 0 mc, false)
  | None => (set_failures 0 mc, false)
  end.

(** The sockets a datagram is written to. *)
Inductive socket := V4 | V6.

Definition WriteMulticastV6 (err6 : option gostring) (mc : MulticastConn)
    : list socket * option gostring :=
  if mc_v6 mc then ([V6], err6) else ([], Some (go "mdns: IPv6 not enabled")).

(** [WriteMulticast]: an error of the IPv4 socket is returned, and then nothing is
    sent on the IPv6 socket, whose errors are ignored. *)
Definition WriteMulticast (err4 err6 : option gostring) (mc : MulticastConn)
    : MulticastConn * bool * list socket * option gostring :=
  let '(mc, warned) := WriteMulticastV4 err4 mc in
  match err4 with
  | Some e => (mc, warned, [V4], Some e)
  | None => (mc, warned, V4 :: (if mc_v6 mc then (WriteMulticastV6 err6 mc).1 else []), None)
  end.

Definition WriteTo (addr : UDPAddr) (mc : MulticastConn) : socket :=
  match To4 (addr_IP addr) with
  | Some _ => V4
  | None => if mc_v6 mc then V6 else V4
  end.

(** ** Receiving and closing *)

Definition packet_capacity : nat := 256.
Definition PacketBufferSize : nat := Z.to_nat 9000.

(** A round of [recvLoop]: the datagram is cut to the buffer, and dropped if the
    channel is full. *)
Definition receive (data : list byte) (src : UDPAddr) (mc : MulticastConn) : MulticastConn :=
  let pkt := take PacketBufferSize data in
  if length (mc_packets mc) <? packet_capacity
  then mkConn (mc_v6 mc) (mc_closed mc) (mc_sendFailures mc) (mc_packets mc ++ [(pkt, src)])
  else mc.

(** [Close]; the second component tells whether the sockets and the channel are
    closed, which a second call must not do. *)
Definition Conn_Close (mc : MulticastConn) : MulticastConn * bool :=
  (mkConn (mc_v6 mc) true (mc_sendFailures mc) (mc_packets mc), negb (mc_closed mc)).
