(* ===== verification/MulticastSpec.v ===== *)
(** * The choices among interfaces, and the warning of a broken route

    Which addresses are advertised and sent from, with interfaces asked for and without;
    a join fails only if all do, and a broken route is reported at the third error in a
    row. *)

From S2P Require Export Multicast.

Section Choices.
  Context `{UnicodeTables}.

(** ** Scores *)

Lemma scoreInterface_nonneg name ip : (0 <= scoreInterface name ip)%Z.
Proof. unfold scoreInterface. repeat case_if; lia. Qed.

Lemma scoreInterface_virtual name ip p :
  p ∈ virtualPrefixes -> Contains (ToLower name) p = true -> scoreInterface name ip = 0%Z.
Proof.
  intros Hp Hc. unfold scoreInterface. case_if; [done|].
  assert (E : existsb (Contains (ToLower name)) virtualPrefixes = true).
  { apply existsb_exists. exists p. split; [by apply list_elem_of_In | done]. }
  congruence.
Qed.

Lemma first_ipv4_not_loopback addrs ip : first_ipv4 addrs = Some ip -> IsLoopback ip = false.
Proof.
  induction addrs as [|[n| |] addrs IH]; cbn [first_ipv4]; [done| |done|done].
  destruct (To4 (net_IP n)) as [ip4|]; [|done]. case_if; [|done].
  intros [= <-]. by bool_arith.
Qed.

Lemma firstIPv4_not_loopback iface ip : firstIPv4 iface = Some ip -> IsLoopback ip = false.
Proof.
  unfold firstIPv4. destruct (if_Addrs iface); [|done]. apply first_ipv4_not_loopback.
Qed.

(** ** The best interface *)

(** The score of an interface: that of its first IPv4 address, or none. *)
Definition iface_score (iface : Interface) : Z :=
  match firstIPv4 iface with Some ip => scoreInterface (if_Name iface) ip | None => 0 end.

Lemma iface_score_nonneg iface : (0 <= iface_score iface)%Z.
Proof. unfold iface_score. destruct (firstIPv4 iface); [apply scoreInterface_nonneg | done]. Qed.

(** The loop: it ends with the first of the interfaces that score best, if that is
    better than what it started with. *)
Lemma best_ipv4_spec ifaces bestIP best :
  (0 <= best)%Z ->
  (best_ipv4 ifaces bestIP best = bestIP /\ Forall (λ i, iface_score i <= best)%Z ifaces) \/
  (exists pre iface post ip, ifaces = pre ++ iface :: post /\
     best_ipv4 ifaces bestIP best = Some ip /\ firstIPv4 iface = Some ip /\
     (best < iface_score iface)%Z /\
     Forall (λ i, iface_score i < iface_score iface)%Z pre /\
     Forall (λ i, iface_score i <= iface_score iface)%Z post).
Proof.
  revert bestIP best. induction ifaces as [|i ifaces IH]; intros bestIP best Hb; [by left|].
  assert (Hskip : (iface_score i <= best)%Z ->
    best_ipv4 (i :: ifaces) bestIP best = best_ipv4 ifaces bestIP best ->
    (best_ipv4 (i :: ifaces) bestIP best = bestIP /\
       Forall (λ i, iface_score i <= best)%Z (i :: ifaces)) \/
    (exists pre iface post ip, i :: ifaces = pre ++ iface :: post /\
       best_ipv4 (i :: ifaces) bestIP best = Some ip /\ firstIPv4 iface = Some ip /\
       (best < iface_score iface)%Z /\
       Forall (λ i, iface_score i < iface_score iface)%Z pre /\
       Forall (λ i, iface_score i <= iface_score iface)%Z post)).
  { intros Hi E. rewrite E. destruct (IH bestIP best Hb) as [[E' Hall]|(pre & j & post & ip & E1 & E2 & E3 & Hlt & Hpre & Hpost)].
    - left. split; [done|]. by constructor.
    - right. exists (i :: pre), j, post, ip. split_and!; try done; [by rewrite E1|].
      constructor; [lia|done]. }
  destruct (firstIPv4 i) as [ip4|] eqn:Ei.
  - assert (Es : iface_score i = scoreInterface (if_Name i) ip4) by (unfold iface_score; by rewrite Ei).
    pose proof (firstIPv4_not_loopback i ip4 Ei) as Hl.
    destruct (Z.ltb_spec best (scoreInterface (if_Name i) ip4)) as [Hlt|Hle].
    + clear Hskip. right.
      assert (E : best_ipv4 (i :: ifaces) bestIP best = best_ipv4 ifaces (Some ip4) (iface_score i)).
      { cbn [best_ipv4]. rewrite Ei, Hl, Es. by rewrite (proj2 (Z.ltb_lt _ _) Hlt). }
      rewrite E. rewrite <- Es in Hlt.
      destruct (IH (Some ip4) (iface_score i) ltac:(lia)) as [[E' Hall]|(pre & j & post & ip & E1 & E2 & E3 & Hlt' & Hpre & Hpost)].
      * exists [], i, ifaces, ip4. by split_and!.
      * exists (i :: pre), j, post, ip. split_and!; try done; [by rewrite E1|lia|].
        constructor; [done|]. exact Hpre.
    + apply Hskip; [lia|]. cbn [best_ipv4]. rewrite Ei, Hl.
      by rewrite (proj2 (Z.ltb_ge _ _) Hle).
  - apply Hskip; [unfold iface_score; rewrite Ei; lia|]. cbn [best_ipv4]. by rewrite Ei.
Qed.

(** ** The host's addresses *)

Lemma name_excluded_spec names name :
  name_excluded names name = false <-> (names = [] \/ name ∈ names).
Proof.
  unfold name_excluded. rewrite andb_false_iff, !bool_decide_eq_false. split.
  - intros [Hn|Hn]; apply dec_stable in Hn; [left|right; set_solver].
    destruct names as [|x names]; [done|]. set_solver.
  - intros [->|Hin]; [left; intros Hn; by apply Hn|right; set_solver].
Qed.

(** An address of an interface that is up and asked for, if any is; no loopback. *)
Definition host_address (ifaces : option (list Interface)) (interfaces : list gostring) (ip : IP) : Prop :=
  exists iface, iface ∈ default [] ifaces /\ has_flag iface FlagUp = true /\
    (interfaces = [] \/ if_Name iface ∈ interfaces) /\
    ip ∈ addr_ip <$> default [] (if_Addrs iface) /\ ip <> [] /\ IsLoopback ip = false.

Lemma ipsForInterfaces_spec ifaces interfaces ip :
  ip ∈ ipsForInterfaces ifaces interfaces <-> host_address ifaces interfaces ip.
Proof.
  unfold ipsForInterfaces, host_address. rewrite list_elem_of_join. split.
  - intros (l & Hip & (iface & -> & Hi)%list_elem_of_fmap). case_if_in Hip; [by apply not_elem_of_nil in Hip|].
    case_if_in Hip; [by apply not_elem_of_nil in Hip|]. apply list_elem_of_filter in Hip as [[Hne Hl] Hin].
    exists iface. bool_arith. split_and!; try done. by apply name_excluded_spec.
  - intros (iface & Hi & Hup & Hname%name_excluded_spec & Hin & Hne & Hl). eexists. split.
    2: { apply list_elem_of_fmap. by exists iface. }
    rewrite Hup, Hname. cbn [negb]. by apply list_elem_of_filter.
Qed.

(** The first of the active interfaces that score best, which is no virtual adapter,
    and its address. *)
Definition best_interface (active : list Interface) (iface : Interface) (ip : IP) : Prop :=
  exists pre post, active = pre ++ iface :: post /\
    firstIPv4 iface = Some ip /\ IsLoopback ip = false /\ (0 < iface_score iface)%Z /\
    (forall p, p ∈ virtualPrefixes -> Contains (ToLower (if_Name iface)) p = false) /\
    Forall (λ i, iface_score i < iface_score iface)%Z pre /\
    Forall (λ i, iface_score i <= iface_score iface)%Z post.

Lemma defaultRouteIPv4_spec ifaces :
  let active := activeMulticastInterfacesFor ifaces [] in
  (exists iface ip, best_interface active iface ip /\ defaultRouteIPv4 ifaces = Some ip) \/
  (Forall (λ i, iface_score i = 0%Z) active /\ defaultRouteIPv4 ifaces = None).
Proof.
  cbn zeta. unfold defaultRouteIPv4.
  destruct (best_ipv4_spec (activeMulticastInterfacesFor ifaces []) None 0 ltac:(done))
    as [[-> Hall]|(pre & j & post & ip & E1 & -> & Hj & Hlt & Hpre & Hpost)].
  - right. split; [|done]. eapply Forall_impl; [exact Hall|]. cbn. intros i Hi.
    pose proof (iface_score_nonneg i). lia.
  - left. exists j, ip. split; [|done]. exists pre, post. split_and!; try done.
    + by eapply firstIPv4_not_loopback.
    + intros p Hp. apply not_true_iff_false. intros Hc.
      unfold iface_score in Hlt. rewrite Hj, (scoreInterface_virtual _ _ p) in Hlt by done. lia.
Qed.

(** The test for a loopback address in the last resort is always passed. *)
Lemma fallback_addresses (active : list Interface) :
  omap (λ iface, ip4 ← firstIPv4 iface; if negb (IsLoopback ip4) then Some ip4 else None) active
  = omap firstIPv4 active.
Proof.
  apply list_omap_ext. apply Forall_Forall2_diag, Forall_forall. intros iface _.
  destruct (firstIPv4 iface) as [ip4|] eqn:E; [|done]. cbn.
  by rewrite (firstIPv4_not_loopback iface ip4 E).
Qed.

End Choices.

(** ** Joining *)

(** The join of a group fails exactly when it was tried and never succeeded. *)
Lemma join_result_spec {T} (results : list (option T)) :
  is_Some (join_result results) <-> results <> [] /\ Forall is_Some results.
Proof.
  unfold join_result. set (f := λ acc r : option T, match r with Some e => Some e | None => acc end).
  assert (Hsome : forall rs acc, is_Some acc -> is_Some (foldl f acc rs)).
  { induction rs as [|[e|] rs IH]; intros acc Ha; cbn [foldl f]; [done|by apply IH|by apply IH]. }
  destruct (existsb _ results) eqn:E; cbn [negb].
  - apply existsb_exists in E as ([e|] & Hin%list_elem_of_In & Hr); [done|].
    split; [by intros []|]. intros [_ Hall]. rewrite Forall_forall in Hall. by destruct (Hall None Hin).
  - assert (Hall : Forall is_Some results).
    { apply Forall_forall. intros [e|] Hr; [done|]. exfalso.
      assert (Et : existsb (λ r : option T, match r with None => true | Some _ => false end)
        results = true) by (apply existsb_exists; exists None; split; [by apply list_elem_of_In|done]).
      congruence. }
    destruct results as [|[e|] rs]; [by split; [intros []|intros []]| |].
    + split; [done|]. intros _. cbn [foldl f]. by apply Hsome.
    + apply Forall_cons in Hall as [[] _]. done.
Qed.

(** ** The warning *)

(** A sequence of sends on the IPv4 socket, each with its error if any. *)
Fixpoint send_all (errs : list (option gostring)) (mc : MulticastConn) : MulticastConn :=
  match errs with
  | [] => mc
  | err :: errs => send_all errs (WriteMulticastV4 err mc).1
  end.

Definition route_failure (err : option gostring) : bool :=
  match err with Some e => isRouteError e | None => false end.

(** How many of the last sends failed for the route. *)
Definition streak (errs : list (option gostring)) : nat :=
  foldl (λ n err, if route_failure err then S n else 0) 0 errs.

Lemma streak_snoc errs err :
  streak (errs ++ [err]) = if route_failure err then S (streak errs) else 0.
Proof. unfold streak. by rewrite foldl_app. Qed.

Lemma streak_le errs : streak errs <= length errs.
Proof.
  induction errs as [|err errs IH] using rev_ind; [done|].
  rewrite streak_snoc, length_app. simpl. case_if; lia.
Qed.

Lemma send_all_app errs errs' mc : send_all (errs ++ errs') mc = send_all errs' (send_all errs mc).
Proof. revert mc. induction errs as [|err errs IH]; intros mc; [done|]. cbn [app send_all]. apply IH. Qed.

Lemma int32_small z : (0 <= z < 2147483648)%Z -> int32 z = z.
Proof. intros Hz. unfold int32. rewrite Z.mod_small by lia. lia. Qed.

Lemma WriteMulticastV4_count err mc :
  (0 <= mc_sendFailures mc < 2147483647)%Z ->
  mc_sendFailures (WriteMulticastV4 err mc).1
  = (if route_failure err then mc_sendFailures mc + 1 else 0)%Z /\
  ((WriteMulticastV4 err mc).2 = true <-> route_failure err = true /\ mc_sendFailures mc = 2%Z).
Proof.
  intros Hc. unfold WriteMulticastV4, route_failure. destruct err as [e|]; [|by split; [|split; [|intros []]]].
  case_if; [|by split; [|split; [|intros []]]]. cbn. rewrite int32_small by lia.
  split; [done|]. rewrite Z.eqb_eq. split; [split; [done|lia]|lia].
Qed.

Lemma send_all_count errs mc :
  mc_sendFailures mc = 0%Z -> (Z.of_nat (length errs) < 2147483647)%Z ->
  mc_sendFailures (send_all errs mc) = Z.of_nat (streak errs).
Proof.
  intros H0. induction errs as [|err errs IH] using rev_ind; intros Hl; [done|].
  rewrite length_app in Hl. simpl in Hl. specialize (IH ltac:(lia)).
  rewrite send_all_app, streak_snoc. cbn [send_all].
  pose proof (streak_le errs) as Hs.
  destruct (WriteMulticastV4_count err (send_all errs mc)) as [-> _]; [rewrite IH; lia|].
  rewrite IH. case_if; lia.
Qed.

(** ** Properties *)

Section Properties.
  Context `{UnicodeTables}.


(** C19: A broken multicast route is reported once per outage: in a sequence of fewer than
    2^31 - 1 sends on a connection whose counter is zero, the warning callback is called
    exactly for the third of consecutive sends that fail for the route; any other outcome
    starts the count again. *)
Theorem route_warning_third errs err mc :
  mc_sendFailures mc = 0%Z -> (Z.of_nat (length errs) < 2147483647)%Z ->
  (WriteMulticastV4 err (send_all errs mc)).2 = true <->
  route_failure err = true /\ streak errs = 2.
Proof.
  intros H0 Hl. pose proof (streak_le errs) as Hs.
  pose proof (send_all_count errs mc H0 Hl) as Hc.
  destruct (WriteMulticastV4_count err (send_all errs mc)) as [_ ->]; [rewrite Hc; lia|].
  rewrite Hc. split; intros [? ?]; (split; [done|lia]).
Qed.

End Properties.
