(* ===== verification/Sockopts.v ===== *)
(** * Socket options and the health check (multicast_unix.go, multicast_windows.go,
      sockopts_linux.go, sockopts_darwin.go, sockopts_windows.go, multicast_health.go)

    The calls of [setsockopt] the program makes, in order, with their arguments.  The
    operating system answers each call with an error or none, depending on all the
    calls so far; it is an argument.  The numbers of package syscall are the class
    [SyscallConsts]; those of Windows are in the source. *)

From S2P Require Export Multicast.

(** ** Calls *)

Inductive sockopt_call :=
  | SetsockoptInt (level opt value : Z)
  | SetsockoptIPMreq (level opt : Z) (multiaddr interface : list byte)
  | SetsockoptIPv6Mreq (level opt : Z) (multiaddr : list byte) (interface : Z)
  | SetsockoptBytes (level opt : Z) (value : list byte).

#[export] Instance sockopt_call_eq_dec : EqDecision sockopt_call.
Proof. solve_decision. Defined.

Inductive sock_error :=
  | ErrOption (name e : gostring)
  | ErrNotIPv4 (ip : IP)
  | ErrNotIPv4Interface (ip : IP)
  | ErrNotIPv6 (ip : IP)
  | ErrCall (e : gostring).

#[export] Instance sock_error_eq_dec : EqDecision sock_error.
Proof. solve_decision. Defined.

(** The answer of the operating system to the last of the calls. *)
Definition system : Type := list sockopt_call -> option gostring.

(** A function that makes calls: it is given the calls made before. *)
Definition sock : Type := list sockopt_call -> list sockopt_call * option sock_error.

Definition call (os : system) (wrap : gostring -> sock_error) (c : sockopt_call) : sock := λ tr,
  (tr ++ [c], wrap <$> os (tr ++ [c])).

Definition done_ok : sock := λ tr, (tr, None).
Definition fails (e : sock_error) : sock := λ tr, (tr, Some e).

(** [if err := m1; err != nil { return err }; m2] *)
Definition then_ (m1 m2 : sock) : sock := λ tr,
  match m1 tr with (tr', Some e) => (tr', Some e) | (tr', None) => m2 tr' end.

(** [_ = m] *)
Definition ignoring (m : sock) : sock := λ tr, ((m tr).1, None).

Declare Scope sock_scope.
Notation "m1 ;! m2" := (then_ m1 m2) (at level 62, right associativity) : sock_scope.
Delimit Scope sock_scope with sock.
#[local] Open Scope sock_scope.

(** ** Unix *)

(** The constants of package syscall on Linux and macOS. *)
Class SyscallConsts := {
  SOL_SOCKET : Z; SO_REUSEADDR : Z; SO_REUSEPORT : Z;
  IPPROTO_IP : Z; IP_MULTICAST_IF : Z; IP_MULTICAST_TTL : Z; IP_MULTICAST_LOOP : Z;
  IP_ADD_MEMBERSHIP : Z;
  IPPROTO_IPV6 : Z; IPV6_MULTICAST_HOPS : Z; IPV6_MULTICAST_LOOP : Z; IPV6_JOIN_GROUP : Z;
  levels_distinct : NoDup [SOL_SOCKET; IPPROTO_IP; IPPROTO_IPV6];
  socket_distinct : NoDup [SO_REUSEADDR; SO_REUSEPORT];
  ip_distinct : NoDup [IP_MULTICAST_IF; IP_MULTICAST_TTL; IP_MULTICAST_LOOP; IP_ADD_MEMBERSHIP];
  ipv6_distinct : NoDup [IPV6_MULTICAST_HOPS; IPV6_MULTICAST_LOOP; IPV6_JOIN_GROUP]
}.

(** Linux spells out the value of [SO_REUSEPORT]. *)
Definition linuxSoReusePort : Z := 15.

Section Unix.
  Context `{SyscallConsts} (os : system).

(** The option is [linuxSoReusePort] on Linux and the constant of syscall on macOS. *)
Definition setReusePort (option : Z) : sock := call os ErrCall (SetsockoptInt SOL_SOCKET option 1).

Definition applyMulticastOptions_unix (reuseport : Z) (network : gostring) : sock :=
  call os (ErrOption (go "SO_REUSEADDR")) (SetsockoptInt SOL_SOCKET SO_REUSEADDR 1);!
  ignoring (setReusePort reuseport);!
  if bool_decide (network = go "udp4") then
    call os (ErrOption (go "IP_MULTICAST_TTL")) (SetsockoptInt IPPROTO_IP IP_MULTICAST_TTL 255);!
    call os (ErrOption (go "IP_MULTICAST_LOOP")) (SetsockoptInt IPPROTO_IP IP_MULTICAST_LOOP 1)
  else if bool_decide (network = go "udp6") then
    call os (ErrOption (go "IPV6_MULTICAST_HOPS")) (SetsockoptInt IPPROTO_IPV6 IPV6_MULTICAST_HOPS 255);!
    call os (ErrOption (go "IPV6_MULTICAST_LOOP")) (SetsockoptInt IPPROTO_IPV6 IPV6_MULTICAST_LOOP 1)
  else done_ok.

Definition joinMulticastGroupV4_unix (group ifaceIP : IP) : sock :=
  match To4 group with
  | None => fails (ErrNotIPv4 group)
  | Some g4 =>
      match To4 ifaceIP with
      | None => fails (ErrNotIPv4Interface ifaceIP)
      | Some i4 => call os ErrCall (SetsockoptIPMreq IPPROTO_IP IP_ADD_MEMBERSHIP g4 i4)
      end
  end.

Definition joinMulticastGroupV6_unix (group : IP) (ifaceIndex : Z) : sock :=
  match To16 group with
  | None => fails (ErrNotIPv6 group)
  | Some g16 => call os ErrCall (SetsockoptIPv6Mreq IPPROTO_IPV6 IPV6_JOIN_GROUP g16 (u32 ifaceIndex))
  end.

(** The group of the [IPMreq] is left zero. *)
Definition setOutgoingInterfaceV4_unix (ifaceIP : IP) : sock :=
  match To4 ifaceIP with
  | None => fails (ErrNotIPv4Interface ifaceIP)
  | Some i4 => call os ErrCall
                 (SetsockoptIPMreq IPPROTO_IP IP_MULTICAST_IF (replicate 4 Byte.x00) i4)
  end.

End Unix.

(** ** Windows *)

Definition winIP_MULTICAST_IF : Z := 9.
Definition winIP_MULTICAST_TTL : Z := 10.
Definition winIP_MULTICAST_LOOP : Z := 11.
Definition winIP_ADD_MEMBERSHIP : Z := 12.
Definition winIPV6_MULTICAST_HOPS : Z := 10.
Definition winIPV6_MULTICAST_LOOP : Z := 11.
Definition winIPV6_ADD_MEMBERSHIP : Z := 12.

Section Windows.
  Context `{SyscallConsts} (os : system).

Definition applyMulticastOptions_windows (network : gostring) : sock :=
  call os (ErrOption (go "SO_REUSEADDR")) (SetsockoptInt SOL_SOCKET SO_REUSEADDR 1);!
  if bool_decide (network = go "udp4") then
    call os (ErrOption (go "IP_MULTICAST_TTL")) (SetsockoptInt IPPROTO_IP winIP_MULTICAST_TTL 255);!
    call os (ErrOption (go "IP_MULTICAST_LOOP")) (SetsockoptInt IPPROTO_IP winIP_MULTICAST_LOOP 1)
  else if bool_decide (network = go "udp6") then
    call os (ErrOption (go "IPV6_MULTICAST_HOPS"))
      (SetsockoptInt IPPROTO_IPV6 winIPV6_MULTICAST_HOPS 255);!
    call os (ErrOption (go "IPV6_MULTICAST_LOOP"))
      (SetsockoptInt IPPROTO_IPV6 winIPV6_MULTICAST_LOOP 1)
  else done_ok.

Definition joinMulticastGroupV4_windows (group ifaceIP : IP) : sock :=
  match To4 group with
  | None => fails (ErrNotIPv4 group)
  | Some g4 =>
      match To4 ifaceIP with
      | None => fails (ErrNotIPv4Interface ifaceIP)
      | Some i4 => call os ErrCall (SetsockoptIPMreq IPPROTO_IP winIP_ADD_MEMBERSHIP g4 i4)
      end
  end.

Definition joinMulticastGroupV6_windows (group : IP) (ifaceIndex : Z) : sock :=
  match To16 group with
  | None => fails (ErrNotIPv6 group)
  | Some g16 =>
      call os ErrCall (SetsockoptIPv6Mreq IPPROTO_IPV6 winIPV6_ADD_MEMBERSHIP g16 (u32 ifaceIndex))
  end.

(** Four bytes, not an [IPMreq]. *)
Definition setOutgoingInterfaceV4_windows (ifaceIP : IP) : sock :=
  match To4 ifaceIP with
  | None => fails (ErrNotIPv4Interface ifaceIP)
  | Some i4 => call os ErrCall (SetsockoptBytes IPPROTO_IP winIP_MULTICAST_IF i4)
  end.

End Windows.

(** ** What a call asks for *)

Inductive setting :=
  | ReuseAddress
  | ReusePort
  | HopLimit4 (ttl : Z)
  | Loopback4 (on : Z)
  | HopLimit6 (hops : Z)
  | Loopback6 (on : Z)
  | Membership4 (group interface : list byte)
  | Membership6 (group : list byte) (index : Z)
  | Outgoing4 (interface : list byte).

#[export] Instance setting_eq_dec : EqDecision setting.
Proof. solve_decision. Defined.

(** As Unix and Windows document the options. *)
Definition unix_setting `{SyscallConsts} (reuseport : Z) (c : sockopt_call) : option setting :=
  match c with
  | SetsockoptInt level opt v =>
      if (level =? SOL_SOCKET)%Z then
        if (opt =? SO_REUSEADDR)%Z then Some ReuseAddress
        else if (opt =? reuseport)%Z then Some ReusePort else None
      else if (level =? IPPROTO_IP)%Z then
        if (opt =? IP_MULTICAST_TTL)%Z then Some (HopLimit4 v)
        else if (opt =? IP_MULTICAST_LOOP)%Z then Some (Loopback4 v) else None
      else if (level =? IPPROTO_IPV6)%Z then
        if (opt =? IPV6_MULTICAST_HOPS)%Z then Some (HopLimit6 v)
        else if (opt =? IPV6_MULTICAST_LOOP)%Z then Some (Loopback6 v) else None
      else None
  | SetsockoptIPMreq level opt g i =>
      if (level =? IPPROTO_IP)%Z then
        if (opt =? IP_ADD_MEMBERSHIP)%Z then Some (Membership4 g i)
        else if (opt =? IP_MULTICAST_IF)%Z then Some (Outgoing4 i) else None
      else None
  | SetsockoptIPv6Mreq level opt g i =>
      if (level =? IPPROTO_IPV6)%Z && (opt =? IPV6_JOIN_GROUP)%Z then Some (Membership6 g i) else None
  | SetsockoptBytes _ _ _ => None
  end.

Definition windows_setting `{SyscallConsts} (c : sockopt_call) : option setting :=
  match c with
  | SetsockoptInt level opt v =>
      if (level =? SOL_SOCKET)%Z then
        if (opt =? SO_REUSEADDR)%Z then Some ReuseAddress else None
      else if (level =? IPPROTO_IP)%Z then
        if (opt =? winIP_MULTICAST_TTL)%Z then Some (HopLimit4 v)
        else if (opt =? winIP_MULTICAST_LOOP)%Z then Some (Loopback4 v) else None
      else if (level =? IPPROTO_IPV6)%Z then
        if (opt =? winIPV6_MULTICAST_HOPS)%Z then Some (HopLimit6 v)
        else if (opt =? winIPV6_MULTICAST_LOOP)%Z then Some (Loopback6 v) else None
      else None
  | SetsockoptIPMreq level opt g i =>
      if (level =? IPPROTO_IP)%Z && (opt =? winIP_ADD_MEMBERSHIP)%Z then Some (Membership4 g i) else None
  | SetsockoptIPv6Mreq level opt g i =>
      if (level =? IPPROTO_IPV6)%Z && (opt =? winIPV6_ADD_MEMBERSHIP)%Z
      then Some (Membership6 g i) else None
  | SetsockoptBytes level opt v =>
      if (level =? IPPROTO_IP)%Z && (opt =? winIP_MULTICAST_IF)%Z && (length v =? 4)
      then Some (Outgoing4 v) else None
  end.

(** ** Listening *)

(** [listenMulticast]: the options are applied before the socket is bound; [control]
    and [bind] are the errors of [RawConn.Control] and of binding. *)
Definition listen_address (network : gostring) (port : Z) : gostring :=
  if bool_decide (network = go "udp6") then go "[::]:" ++ Itoa port else go ":" ++ Itoa port.

Definition listenMulticast (options : sock) (control bind : option gostring) : sock := λ tr,
  match control with
  | Some e => (tr, Some (ErrCall e))
  | None =>
      match options tr with
      | (tr', Some e) => (tr', Some e)
      | (tr', None) => (tr', ErrCall <$> bind)
      end
  end.

(** [setOutgoingInterface]: [raw] is the error of [SyscallConn]. *)
Definition setOutgoingInterface `{UnicodeTables} (set : IP -> sock) (raw : option gostring)
    (ifaces : option (list Interface)) (interfaces : list gostring) : sock :=
  match raw with
  | Some e => fails (ErrCall e)
  | None =>
      match outgoing_address ifaces interfaces with
      | Some ip4 => set ip4
      | None => done_ok
      end
  end.

(** ** The health check *)

Inductive route_error :=
  | ErrCreateSocket (e : gostring)
  | ErrRouteBroken (e : gostring)
  | ErrTestPacket (e : gostring).

Definition IPv4MulticastAddr : IP := IPv4 Byte.xe0 Byte.x00 Byte.x00 Byte.xfb.
Definition IPv6MulticastAddr : IP :=
  [Byte.xff; Byte.x02] ++ replicate 13 Byte.x00 ++ [Byte.xfb].

(** The datagram that is sent. *)
Definition health_packet : list byte := [Byte.x00].

(** [listen], [raw] and [write] are the errors of [net.ListenUDP], [SyscallConn] and
    [WriteToUDP]; the result of setting the interface is ignored. *)
Definition CheckMulticastRoute `{UnicodeTables} (set : IP -> sock) (listen raw write : option gostring)
    (ifaces : option (list Interface)) : list sockopt_call * option route_error :=
  match listen with
  | Some e => ([], Some (ErrCreateSocket e))
  | None =>
      let calls := match defaultRouteIPv4 ifaces, raw with
                   | Some ip, None => (set ip []).1
                   | _, _ => []
                   end in
      (calls, match write with
              | Some e => if Contains e (go "no route to host") || Contains e (go "network is unreachable")
                          then Some (ErrRouteBroken e) else Some (ErrTestPacket e)
              | None => None
              end)
  end.

(** ** Warnings *)

Record Warning := mkWarning { w_Code : gostring; w_Message : gostring; w_Hint : gostring }.

Inductive notice :=
  | Warned (w : Warning)          (* [Config.WarningFunc] is called *)
  | Logged (line : gostring).     (* [Config.LogFunc] is called *)

(** [warn], given which of the callbacks are set. *)
Definition log (logFunc : bool) (line : gostring) : option notice :=
  if logFunc then Some (Logged line) else None.

Definition warn (warningFunc logFunc : bool) (w : Warning) : option notice :=
  if warningFunc then Some (Warned w)
  else log logFunc (go "WARNING [" ++ w_Code w ++ go "] " ++ w_Message w ++ go " — " ++ w_Hint w).

Definition health_warning : Warning := mkWarning (go "multicast_route_broken")
  (go "system cannot send multicast packets — mDNS discovery and advertising will not work")
  (go "check 'netstat -rn | grep 224' for a rejected (RTF_REJECT) or missing route; disconnect VPN clients (sing-box, Tailscale, Clash) or reboot").

Definition checkMulticastHealth (warningFunc logFunc : bool) (check : option route_error)
    : option notice :=
  match check with
  | Some _ => warn warningFunc logFunc health_warning
  | None => None
  end.
