(* ===== verification/SockoptsSpec.v ===== *)
(** * Socket options: the platforms agree

    The calls of the Unix and of the Windows files ask for the same settings, but for
    [SO_REUSEPORT]; they stop at the first option that is refused; and they decline the
    same addresses with the same errors. *)

From S2P Require Export Sockopts MulticastSpec.

(** ** Evaluating scripts *)

(** Decides the tests of [unix_setting] on the constants of syscall. *)
Ltac consts :=
  repeat match goal with
  | |- context [ (?a =? ?a)%Z ] => rewrite (Z.eqb_refl a)
  | |- context [ (?a =? ?b)%Z ] => rewrite (proj2 (Z.eqb_neq a b)) by congruence
  end.

Section Scripts.
  Context `{SyscallConsts}.

Lemma consts_distinct :
  SOL_SOCKET <> IPPROTO_IP /\ SOL_SOCKET <> IPPROTO_IPV6 /\ IPPROTO_IP <> IPPROTO_IPV6 /\
  SO_REUSEADDR <> SO_REUSEPORT /\ IP_MULTICAST_IF <> IP_ADD_MEMBERSHIP /\
  IP_MULTICAST_TTL <> IP_MULTICAST_LOOP /\ IPV6_MULTICAST_HOPS <> IPV6_MULTICAST_LOOP.
Proof.
  pose proof levels_distinct. pose proof socket_distinct. pose proof ip_distinct.
  pose proof ipv6_distinct. rewrite !NoDup_cons, !not_elem_of_cons in *. naive_solver.
Qed.

(** A sequence of calls: one with a name must succeed, the error of another is
    ignored. *)
Fixpoint run_script (os : system) (script : list (option gostring * sockopt_call)) : sock :=
  match script with
  | [] => done_ok
  | (Some name, c) :: script => (call os (ErrOption name) c ;! run_script os script)%sock
  | (None, c) :: script => (ignoring (call os ErrCall c) ;! run_script os script)%sock
  end.

(** All calls are made and those that must succeed do, or the calls end with one that
    must succeed and does not. *)
Lemma run_script_cases os script : forall tr,
  let r := run_script os script tr in
  (r = (tr ++ script.*2, None) /\
   forall k name c, script !! k = Some (Some name, c) -> os (tr ++ take (S k) script.*2) = None) \/
  (exists k name c msg, script !! k = Some (Some name, c) /\
     r = (tr ++ take (S k) script.*2, Some (ErrOption name msg)) /\
     os (tr ++ take (S k) script.*2) = Some msg).
Proof.
  induction script as [|[[name|] c] script IH]; intros tr; cbn [run_script].
  - left. rewrite app_nil_r. split; [done|]. intros k n c. by rewrite lookup_nil.
  - unfold then_, call. destruct (os (tr ++ [c])) as [msg|] eqn:E; cbn [fmap option_fmap option_map].
    { right. by exists 0, name, c, msg. }
    destruct (IH (tr ++ [c])) as [[Er Hk]|(k & n & d & msg & Hs & Er & Ho)].
    + left. rewrite <- app_assoc in Er. split; [exact Er|]. intros [|k] n d Hs; [done|].
      specialize (Hk k n d Hs). by rewrite <- app_assoc in Hk.
    + right. exists (S k), n, d, msg. rewrite <- app_assoc in *. done.
  - unfold then_, ignoring. cbn [call fst].
    destruct (IH (tr ++ [c])) as [[Er Hk]|(k & n & d & msg & Hs & Er & Ho)].
    + left. rewrite <- app_assoc in Er. split; [exact Er|]. intros [|k] n d Hs; [done|].
      specialize (Hk k n d Hs). by rewrite <- app_assoc in Hk.
    + right. exists (S k), n, d, msg. rewrite <- app_assoc in *. done.
Qed.

(** The options of a Unix socket, in order. *)
Definition unix_script (reuseport : Z) (network : gostring) : list (option gostring * sockopt_call) :=
  [(Some (go "SO_REUSEADDR"), SetsockoptInt SOL_SOCKET SO_REUSEADDR 1);
   (None, SetsockoptInt SOL_SOCKET reuseport 1)]
  ++ (if bool_decide (network = go "udp4") then
        [(Some (go "IP_MULTICAST_TTL"), SetsockoptInt IPPROTO_IP IP_MULTICAST_TTL 255);
         (Some (go "IP_MULTICAST_LOOP"), SetsockoptInt IPPROTO_IP IP_MULTICAST_LOOP 1)]
      else if bool_decide (network = go "udp6") then
        [(Some (go "IPV6_MULTICAST_HOPS"), SetsockoptInt IPPROTO_IPV6 IPV6_MULTICAST_HOPS 255);
         (Some (go "IPV6_MULTICAST_LOOP"), SetsockoptInt IPPROTO_IPV6 IPV6_MULTICAST_LOOP 1)]
      else []).

Lemma then_done os wrap c tr : (call os wrap c ;! done_ok)%sock tr = call os wrap c tr.
Proof. unfold then_, call, done_ok. by destruct (os _). Qed.

Lemma unix_script_run os reuseport network tr :
  applyMulticastOptions_unix os reuseport network tr = run_script os (unix_script reuseport network) tr.
Proof.
  assert (Hthen : forall wrap c m1 m2 tr, (forall tr, m1 tr = m2 tr) ->
    (call os wrap c ;! m1)%sock tr = (call os wrap c ;! m2)%sock tr).
  { intros wrap c m1 m2 tr0 Hm. unfold then_. destruct (call os wrap c tr0) as [tr1 [e|]]; [done|apply Hm]. }
  unfold applyMulticastOptions_unix, unix_script. cbn [app run_script].
  apply Hthen. intros tr1. unfold then_ at 1, ignoring, setReusePort. unfold then_ at 2.
  repeat (case_bool_decide; [apply Hthen; intros; by rewrite then_done|]). done.
Qed.

(** A system where nothing is refused. *)
Definition accepting : system := λ _, None.

(** The options of a Windows socket, in order. *)
Definition windows_script (network : gostring) : list (option gostring * sockopt_call) :=
  [(Some (go "SO_REUSEADDR"), SetsockoptInt SOL_SOCKET SO_REUSEADDR 1)]
  ++ (if bool_decide (network = go "udp4") then
        [(Some (go "IP_MULTICAST_TTL"), SetsockoptInt IPPROTO_IP winIP_MULTICAST_TTL 255);
         (Some (go "IP_MULTICAST_LOOP"), SetsockoptInt IPPROTO_IP winIP_MULTICAST_LOOP 1)]
      else if bool_decide (network = go "udp6") then
        [(Some (go "IPV6_MULTICAST_HOPS"), SetsockoptInt IPPROTO_IPV6 winIPV6_MULTICAST_HOPS 255);
         (Some (go "IPV6_MULTICAST_LOOP"), SetsockoptInt IPPROTO_IPV6 winIPV6_MULTICAST_LOOP 1)]
      else []).

Lemma windows_script_run os network tr :
  applyMulticastOptions_windows os network tr = run_script os (windows_script network) tr.
Proof.
  assert (Hthen : forall wrap c m1 m2 tr, (forall tr, m1 tr = m2 tr) ->
    (call os wrap c ;! m1)%sock tr = (call os wrap c ;! m2)%sock tr).
  { intros wrap c m1 m2 tr0 Hm. unfold then_. destruct (call os wrap c tr0) as [tr1 [e|]]; [done|apply Hm]. }
  unfold applyMulticastOptions_windows, windows_script. cbn [app run_script].
  apply Hthen. intros tr1.
  repeat (case_bool_decide; [apply Hthen; intros; by rewrite then_done|]). done.
Qed.

(** The settings both ask for. *)
Definition option_settings (network : gostring) : list setting :=
  ReuseAddress ::
    if bool_decide (network = go "udp4") then [HopLimit4 255; Loopback4 1]
    else if bool_decide (network = go "udp6") then [HopLimit6 255; Loopback6 1] else [].

Lemma unix_script_settings reuseport network :
  reuseport <> SO_REUSEADDR ->
  filter (λ s, s <> Some ReusePort) (unix_setting reuseport <$> (unix_script reuseport network).*2)
  = Some <$> option_settings network.
Proof.
  intros Hr. destruct consts_distinct as (D1 & D2 & D3 & _ & _ & D4 & D5).
  unfold unix_script, option_settings. repeat (case_bool_decide; [|]); cbn; consts; done.
Qed.

Lemma windows_script_settings network :
  windows_setting <$> (windows_script network).*2 = Some <$> option_settings network.
Proof.
  destruct consts_distinct as (D1 & D2 & D3 & _ & _ & D4 & D5).
  unfold windows_script, option_settings. repeat (case_bool_decide; [|]); cbn; consts; done.
Qed.

(** ** What an operation on a socket does *)

(** It makes the calls of the script, in order, all of them or up to the first one with
    a name that is refused, whose error it returns under that name. *)
Definition applies (os : system) (script : list (option gostring * sockopt_call)) (m : sock) : Prop :=
  (m [] = (script.*2, None) /\
   forall k name c, script !! k = Some (Some name, c) -> os (take (S k) script.*2) = None) \/
  (exists k name c msg, script !! k = Some (Some name, c) /\
     m [] = (take (S k) script.*2, Some (ErrOption name msg)) /\
     os (take (S k) script.*2) = Some msg).

Lemma run_script_applies os script (m : sock) :
  (forall tr, m tr = run_script os script tr) -> applies os script m.
Proof. intros Hm. unfold applies. rewrite Hm. exact (run_script_cases os script []). Qed.

(** It makes one call, which asks for [s], and returns its error, if any. *)
Definition asks (meaning : sockopt_call -> option setting) (os : system) (m : sock) (s : setting) : Prop :=
  exists c, meaning c = Some s /\ m [] = ([c], ErrCall <$> os [c]).

(** It makes no call and returns the error. *)
Definition declines (m : sock) (e : sock_error) : Prop := m [] = ([], Some e).

(** What joins and the choice of the outgoing interface ask for, on any platform. *)
Definition joins_v4 (meaning : sockopt_call -> option setting) (os : system) (m : sock) (group iface : IP) : Prop :=
  match To4 group, To4 iface with
  | None, _ => declines m (ErrNotIPv4 group)
  | Some _, None => declines m (ErrNotIPv4Interface iface)
  | Some g, Some i => asks meaning os m (Membership4 g i)
  end.

Definition joins_v6 (meaning : sockopt_call -> option setting) (os : system) (m : sock) (group : IP) (index : Z)
    : Prop :=
  match To16 group with
  | None => declines m (ErrNotIPv6 group)
  | Some g => asks meaning os m (Membership6 g (u32 index))
  end.

Definition sets_outgoing (meaning : sockopt_call -> option setting) (os : system) (m : sock) (ip : IP) : Prop :=
  match To4 ip with
  | None => declines m (ErrNotIPv4Interface ip)
  | Some i => asks meaning os m (Outgoing4 i)
  end.

Lemma call_asks meaning os c s :
  meaning c = Some s -> asks meaning os (call os ErrCall c) s.
Proof. intros Hc. by exists c. Qed.

Lemma join_v4_platforms reuseport os group iface :
  joins_v4 (unix_setting reuseport) os (joinMulticastGroupV4_unix os group iface) group iface /\
  joins_v4 windows_setting os (joinMulticastGroupV4_windows os group iface) group iface.
Proof.
  unfold joins_v4, joinMulticastGroupV4_unix, joinMulticastGroupV4_windows.
  destruct (To4 group); [|done]. destruct (To4 iface); [|done].
  split; apply call_asks; cbn; by consts.
Qed.

Lemma join_v6_platforms reuseport os group index :
  joins_v6 (unix_setting reuseport) os (joinMulticastGroupV6_unix os group index) group index /\
  joins_v6 windows_setting os (joinMulticastGroupV6_windows os group index) group index.
Proof.
  unfold joins_v6, joinMulticastGroupV6_unix, joinMulticastGroupV6_windows.
  destruct (To16 group); [|done]. split; apply call_asks; cbn; by consts.
Qed.

Lemma outgoing_platforms reuseport os ip :
  sets_outgoing (unix_setting reuseport) os (setOutgoingInterfaceV4_unix os ip) ip /\
  sets_outgoing windows_setting os (setOutgoingInterfaceV4_windows os ip) ip.
Proof.
  destruct consts_distinct as (_ & _ & _ & _ & Hif & _).
  unfold sets_outgoing, setOutgoingInterfaceV4_unix, setOutgoingInterfaceV4_windows.
  destruct (To4 ip) as [i4|] eqn:E; [|done]. apply To4_length in E.
  split; apply call_asks; cbn; consts; by rewrite ?E.
Qed.

End Scripts.

(** ** Properties *)

Section SockoptsProperties.
  Context `{SyscallConsts}.

(** C38: The platforms agree, whatever the operating system refuses.  The Unix and the
    Windows files apply the same options in the same order - address reuse, and for a
    network udp4 or udp6 its hop limit of 255 and its loopback - but for [SO_REUSEPORT],
    which only Unix sets, under a number that is not that of [SO_REUSEADDR], and which
    may be refused; each stops at the first other option
    that is refused and returns its error.  Joining a group and choosing the outgoing
    interface make one call, which asks for the same on both, and return its error; for
    a group or interface address of the wrong family both make no call and return the
    same error. *)
Theorem sockopts_platforms_agree reuseport os network group iface index :
  reuseport <> SO_REUSEADDR ->
  let settings := option_settings network in
  (applies os (unix_script reuseport network) (applyMulticastOptions_unix os reuseport network) /\
   filter (λ s, s <> Some ReusePort) (unix_setting reuseport <$> (unix_script reuseport network).*2)
   = Some <$> settings) /\
  (applies os (windows_script network) (applyMulticastOptions_windows os network) /\
   windows_setting <$> (windows_script network).*2 = Some <$> settings) /\
  (joins_v4 (unix_setting reuseport) os (joinMulticastGroupV4_unix os group iface) group iface /\
   joins_v4 windows_setting os (joinMulticastGroupV4_windows os group iface) group iface) /\
  (joins_v6 (unix_setting reuseport) os (joinMulticastGroupV6_unix os group index) group index /\
   joins_v6 windows_setting os (joinMulticastGroupV6_windows os group index) group index) /\
  (sets_outgoing (unix_setting reuseport) os (setOutgoingInterfaceV4_unix os iface) iface /\
   sets_outgoing windows_setting os (setOutgoingInterfaceV4_windows os iface) iface).
Proof.
  intros Hr settings. split; [|split; [|split; [|split]]].
  - split; [|by apply unix_script_settings]. apply run_script_applies. intros tr. apply unix_script_run.
  - split; [|apply windows_script_settings]. apply run_script_applies. intros tr. apply windows_script_run.
  - apply join_v4_platforms.
  - apply join_v6_platforms.
  - apply outgoing_platforms.
Qed.

End SockoptsProperties.

(** The constants of Linux. *)
Definition linux_consts : SyscallConsts.
Proof.
  refine (Build_SyscallConsts 1 2 15 0 32 33 34 35 41 18 19 20 _ _ _ _);
    apply (bool_decide_unpack _); vm_compute; exact I.
Defined.
