(* ===== verification/Opening.v ===== *)
(** * Opening the multicast connection (multicast.go)

    [NewMulticastConn] opens a socket per family, applies the options of the platform,
    joins the group on every interface and chooses the outgoing one.  What the platform
    files promise is the class [Platform]; Unix and Windows are its instances, and what
    a connection has been set up for is proved from the promise alone. *)

From S2P Require Export SockoptsSpec.

(** ** Platforms *)

(** The functions the build picks, what their calls of setsockopt ask for, and how the
    address is made reusable. *)
Class Platform := {
  apply_options : system -> gostring -> sock;
  join4 : system -> IP -> IP -> sock;
  join6 : system -> IP -> Z -> sock;
  set_outgoing4 : system -> IP -> sock;
  meaning : sockopt_call -> option setting;
  reuse : list setting;
  apply_options_law os network tr tr' :
    apply_options os network tr = (tr', None) ->
    exists calls, tr' = tr ++ calls /\
      meaning <$> calls = Some <$> reuse
        ++ (if bool_decide (network = go "udp4") then [HopLimit4 255; Loopback4 1]
            else if bool_decide (network = go "udp6") then [HopLimit6 255; Loopback6 1] else []);
  join4_law group ip g4 i4 :
    To4 group = Some g4 -> To4 ip = Some i4 ->
    exists c, meaning c = Some (Membership4 g4 i4) /\ forall os, join4 os group ip = call os ErrCall c;
  join6_law group index g16 :
    To16 group = Some g16 ->
    exists c, meaning c = Some (Membership6 g16 (u32 index)) /\
      forall os, join6 os group index = call os ErrCall c;
  set_outgoing4_law ip i4 :
    To4 ip = Some i4 ->
    exists c, meaning c = Some (Outgoing4 i4) /\ forall os, set_outgoing4 os ip = call os ErrCall c
}.

(** ** Joining *)

(** Each join is tried, whatever came of those before. *)
Fixpoint join_all (joins : list sock) (tr : list sockopt_call)
    : list sockopt_call * list (option sock_error) :=
  match joins with
  | [] => (tr, [])
  | j :: joins =>
      let '(tr, r) := j tr in
      let '(tr, rs) := join_all joins tr in (tr, r :: rs)
  end.

(** [raw] is the error of [SyscallConn]; [ifaces] are the active interfaces. *)
Definition joinGroups (join : IP -> sock) (raw : option gostring) (ifaces : list Interface) : sock :=
  match raw with
  | Some e => fails (ErrCall e)
  | None => λ tr, let '(tr, rs) := join_all (join <$> join_addresses ifaces) tr in (tr, join_result rs)
  end.

Definition joinGroupsV6 (join : Z -> sock) (raw : option gostring) (ifaces : list Interface) : sock :=
  match raw with
  | Some e => fails (ErrCall e)
  | None => λ tr, let '(tr, rs) := join_all (join ∘ if_Index <$> ifaces) tr in (tr, join_result rs)
  end.

(** ** NewMulticastConn *)

Inductive conn_error :=
  | ErrListenV4 (e : sock_error)
  | ErrJoinV4 (e : sock_error).

(** What the operating system says to the calls on one socket: the answers to
    [setsockopt], and the errors of [RawConn.Control] while listening, of binding, and
    of the two uses of [SyscallConn]. *)
Record answers := mkAnswers {
  an_options : system;
  an_control : option gostring;
  an_bind : option gostring;
  an_join : option gostring;
  an_outgoing : option gostring
}.

Section Opening.
  Context `{UnicodeTables, Platform}.
  Variable ifaces : option (list Interface).
  Variable interfaces : list gostring.

Definition open_v4 (a : answers) : list sockopt_call * option conn_error :=
  match listenMulticast (apply_options (an_options a) (go "udp4")) (an_control a) (an_bind a) [] with
  | (tr, Some e) => (tr, Some (ErrListenV4 e))
  | (tr, None) =>
      match joinGroups (join4 (an_options a) IPv4MulticastAddr) (an_join a)
              (activeMulticastInterfacesFor ifaces interfaces) tr with
      | (tr, Some e) => (tr, Some (ErrJoinV4 e))
      | (tr, None) =>
          ((ignoring (setOutgoingInterface (set_outgoing4 (an_options a)) (an_outgoing a) ifaces
                        interfaces) tr).1, None)
      end
  end.

(** The calls, and whether the socket is kept. *)
Definition open_v6 (a : answers) : list sockopt_call * bool :=
  match listenMulticast (apply_options (an_options a) (go "udp6")) (an_control a) (an_bind a) [] with
  | (tr, Some _) => (tr, false)
  | (tr, None) =>
      match joinGroupsV6 (join6 (an_options a) IPv6MulticastAddr) (an_join a)
              (activeMulticastInterfacesFor ifaces interfaces) tr with
      | (tr, Some _) => (tr, false)
      | (tr, None) => (tr, true)
      end
  end.

(** The calls on each socket, and the connection: a failure of the IPv6 socket only
    leaves it out. *)
Definition NewMulticastConn (enableIPv6 : bool) (a4 a6 : answers)
    : list sockopt_call * list sockopt_call * (conn_error + MulticastConn) :=
  match open_v4 a4 with
  | (tr4, Some e) => (tr4, [], inl e)
  | (tr4, None) =>
      let '(tr6, v6) := if enableIPv6 then open_v6 a6 else ([], false) in
      (tr4, tr6, inr (mkConn v6 false 0 []))
  end.

End Opening.

(** ** The platforms *)

Section Unix.
  Context `{SyscallConsts}.
  Variable reuseport : Z.
  Hypothesis Hreuse : reuseport <> SO_REUSEADDR.

Lemma unix_options_law os network tr tr' :
  applyMulticastOptions_unix os reuseport network tr = (tr', None) ->
  exists calls, tr' = tr ++ calls /\
    unix_setting reuseport <$> calls = Some <$> [ReuseAddress; ReusePort]
      ++ (if bool_decide (network = go "udp4") then [HopLimit4 255; Loopback4 1]
          else if bool_decide (network = go "udp6") then [HopLimit6 255; Loopback6 1] else []).
Proof.
  rewrite unix_script_run. intros Hr.
  destruct (run_script_cases os (unix_script reuseport network) tr) as [[E _]|(k & n & c & msg & _ & E & _)];
    rewrite E in Hr; [|done]. injection Hr as <-. eexists. split; [done|].
  destruct consts_distinct as (D1 & D2 & D3 & _ & _ & D4 & D5). unfold unix_script.
  repeat case_bool_decide; cbn; consts; done.
Qed.

(** Linux and macOS. *)
Definition unix_platform : Platform.
Proof.
  refine (Build_Platform (λ os, applyMulticastOptions_unix os reuseport) joinMulticastGroupV4_unix
    joinMulticastGroupV6_unix setOutgoingInterfaceV4_unix (unix_setting reuseport)
    [ReuseAddress; ReusePort] unix_options_law _ _ _).
  - intros group ip g4 i4 Eg Ei. eexists. split; [|intros os; unfold joinMulticastGroupV4_unix; by rewrite Eg, Ei].
    cbn. consts. done.
  - intros group index g16 Eg. eexists. split; [|intros os; unfold joinMulticastGroupV6_unix; by rewrite Eg].
    cbn. consts. done.
  - intros ip i4 Ei. eexists. split; [|intros os; unfold setOutgoingInterfaceV4_unix; by rewrite Ei].
    destruct consts_distinct as (_ & _ & _ & _ & Hif & _). cbn. consts. done.
Defined.
End Unix.

Section Windows.
  Context `{SyscallConsts}.

Lemma then_call_inv os wrap c m tr tr' :
  (call os wrap c ;! m)%sock tr = (tr', None) -> m (tr ++ [c]) = (tr', None).
Proof. unfold then_, call. by destruct (os _). Qed.

Lemma call_inv os wrap c tr tr' : call os wrap c tr = (tr', None) -> tr' = tr ++ [c].
Proof. unfold call. destruct (os _); by intros [= <-]. Qed.

Lemma windows_options_law os network tr tr' :
  applyMulticastOptions_windows os network tr = (tr', None) ->
  exists calls, tr' = tr ++ calls /\
    windows_setting <$> calls = Some <$> [ReuseAddress]
      ++ (if bool_decide (network = go "udp4") then [HopLimit4 255; Loopback4 1]
          else if bool_decide (network = go "udp6") then [HopLimit6 255; Loopback6 1] else []).
Proof.
  destruct consts_distinct as (D1 & D2 & D3 & _). unfold applyMulticastOptions_windows.
  intros Hr%then_call_inv.
  repeat case_bool_decide;
    try (apply then_call_inv, call_inv in Hr as ->; rewrite <- !app_assoc; eexists; split; [done|];
         cbn; consts; done).
  injection Hr as <-. eexists. split; [done|]. cbn. consts. done.
Qed.

Definition windows_platform : Platform.
Proof.
  refine (Build_Platform applyMulticastOptions_windows joinMulticastGroupV4_windows
    joinMulticastGroupV6_windows setOutgoingInterfaceV4_windows windows_setting
    [ReuseAddress] windows_options_law _ _ _).
  - intros group ip g4 i4 Eg Ei.
    eexists. split; [|intros os; unfold joinMulticastGroupV4_windows; by rewrite Eg, Ei].
    cbn. consts. done.
  - intros group index g16 Eg.
    eexists. split; [|intros os; unfold joinMulticastGroupV6_windows; by rewrite Eg].
    cbn. consts. done.
  - intros ip i4 Ei. eexists. split; [|intros os; unfold setOutgoingInterfaceV4_windows; by rewrite Ei].
    apply To4_length in Ei. cbn. consts. by rewrite Ei.
Defined.
End Windows.

(** ** The calls of a connection *)

(** The addresses that are used are IPv4 addresses of four bytes. *)
Definition is_v4 (ip : IP) : Prop := To4 ip = Some ip.

Lemma To4_v4 ip ip4 : To4 ip = Some ip4 -> is_v4 ip4.
Proof. intros E. by eapply To4_4, To4_length. Qed.

Lemma first_ipv4_v4 addrs ip : first_ipv4 addrs = Some ip -> is_v4 ip.
Proof.
  induction addrs as [|[n|i|] addrs IH]; cbn [first_ipv4]; [done| |done..].
  destruct (To4 (net_IP n)) as [ip4|] eqn:E; [|done].
  case_match; [intros [= <-]; by eapply To4_v4|done].
Qed.

Lemma firstIPv4_v4 iface ip : firstIPv4 iface = Some ip -> is_v4 ip.
Proof. unfold firstIPv4. destruct (if_Addrs iface); [|done]. apply first_ipv4_v4. Qed.

Lemma omap_v4 (f : Interface -> option IP) l ip :
  (forall iface, f iface = Some ip -> is_v4 ip) -> head (omap f l) = Some ip -> is_v4 ip.
Proof.
  intros Hf E. apply head_Some in E as [l' E].
  assert (Hin : ip ∈ omap f l) by (rewrite E; by left).
  apply list_elem_of_omap in Hin as (iface & _ & Hi). by apply (Hf iface).
Qed.

Lemma join_addresses_v4 ifaces : Forall is_v4 (join_addresses ifaces).
Proof.
  apply Forall_forall. unfold join_addresses.
  intros ip (l & Hl & (iface & -> & _)%list_elem_of_fmap)%list_elem_of_join.
  apply list_elem_of_omap in Hl as ([n|i|] & _ & E); [by eapply To4_v4|done..].
Qed.

Section Client.
  Context `{UnicodeTables}.

Lemma best_ipv4_v4 ifaces : forall best score ip,
  (forall ip, best = Some ip -> is_v4 ip) -> best_ipv4 ifaces best score = Some ip -> is_v4 ip.
Proof.
  induction ifaces as [|iface ifaces IH]; intros best score ip Hb; cbn [best_ipv4]; [by apply Hb|].
  destruct (firstIPv4 iface) as [ip4|] eqn:E; [|by apply IH].
  repeat case_match; try (by apply IH). apply IH. intros i [= <-]. by eapply firstIPv4_v4.
Qed.

Lemma outgoing_address_v4 ifaces interfaces ip :
  outgoing_address ifaces interfaces = Some ip -> is_v4 ip.
Proof.
  unfold outgoing_address. destruct (if bool_decide _ then _ else _) as [i|] eqn:E1.
  { intros [= <-]. case_bool_decide; [done|]. eapply omap_v4; [|exact E1]. intros iface. apply firstIPv4_v4. }
  destruct (defaultRouteIPv4 ifaces) as [i|] eqn:E2.
  { intros [= <-]. eapply best_ipv4_v4; [|exact E2]. done. }
  apply omap_v4. intros iface. destruct (firstIPv4 iface) as [i|] eqn:E; [|done].
  cbn. repeat case_match; try done; intros [= <-]; by eapply firstIPv4_v4.
Qed.
End Client.

(** *** What each socket was asked for *)

Section Calls.
  Context `{UnicodeTables, P : Platform}.

Definition group4 : list byte := [Byte.xe0; Byte.x00; Byte.x00; Byte.xfb].

(** A list of calls that are all tried. *)
Lemma join_all_calls os cs : forall tr,
  exists rs, join_all (call os ErrCall <$> cs) tr = (tr ++ cs, rs) /\ length rs = length cs /\
    forall k, rs !! k = Some None -> os (tr ++ take (S k) cs) = None.
Proof.
  induction cs as [|c cs IH]; intros tr; cbn [fmap list_fmap join_all].
  - exists []. rewrite app_nil_r. split_and!; [done|done|]. intros k. by rewrite lookup_nil.
  - unfold call at 1. destruct (IH (tr ++ [c])) as (rs & -> & Hl & Hk).
    exists ((ErrCall <$> os (tr ++ [c])) :: rs). rewrite <- app_assoc. split_and!; [done|cbn; lia|].
    intros [|k]; cbn.
    + intros [= E]. by destruct (os _).
    + intros E%Hk. by rewrite <- app_assoc in E.
Qed.

Lemma joins_calls {A} (l : list A) (f : system -> A -> sock) (s : A -> setting) :
  Forall (λ x, exists c, meaning c = Some (s x) /\ forall os, f os x = call os ErrCall c) l ->
  exists cs, meaning <$> cs = Some <$> (s <$> l) /\ forall os, f os <$> l = call os ErrCall <$> cs.
Proof.
  induction 1 as [|x l (c & Hm & Hf) _ (cs & Hms & Hfs)]; [by exists []|].
  exists (c :: cs). split; [cbn; congruence|]. intros os. cbn. by rewrite Hf, Hfs.
Qed.

(** A join that is not refused on all the interfaces it is tried on. *)
Lemma join_all_accepted os cs tr tr' rs :
  join_all (call os ErrCall <$> cs) tr = (tr', rs) -> join_result rs = None ->
  tr' = tr ++ cs /\ (cs <> [] -> exists k, k < length cs /\ os (tr ++ take (S k) cs) = None).
Proof.
  destruct (join_all_calls os cs tr) as (rs' & -> & Hl & Hk). intros [= <- <-] Hr. split; [done|].
  intros Hne. assert (Hno : ~ is_Some (join_result rs')) by (rewrite Hr; by intros []).
  rewrite join_result_spec in Hno. destruct (decide (Forall is_Some rs')) as [|Hnot].
  { destruct Hno. split; [|done]. intros ->. by destruct cs. }
  apply not_Forall_Exists, Exists_exists in Hnot as (r & (k & Hin)%list_elem_of_lookup & Hr'); [|apply _].
  destruct r as [|]; [destruct Hr'; by eexists|]. exists k. split; [|by apply Hk].
  apply lookup_lt_Some in Hin. lia.
Qed.

Lemma listen_calls os network control bind tr :
  listenMulticast (apply_options os network) control bind [] = (tr, None) ->
  meaning <$> tr = Some <$> reuse
    ++ (if bool_decide (network = go "udp4") then [HopLimit4 255; Loopback4 1]
        else if bool_decide (network = go "udp6") then [HopLimit6 255; Loopback6 1] else []).
Proof.
  unfold listenMulticast. destruct control; [done|].
  destruct (apply_options os network []) as [tr' [e|]] eqn:E; [done|]. intros [= <- _].
  by apply apply_options_law in E as (calls & -> & Hm).
Qed.

Section Sockets.
  Variable ifaces : option (list Interface).
  Variable interfaces : list gostring.

Definition active : list Interface := activeMulticastInterfacesFor ifaces interfaces.

(** The IPv4 socket: the options, a membership for each address, the outgoing interface. *)
Definition v4_settings (a : answers) : list setting :=
  reuse ++ [HopLimit4 255; Loopback4 1] ++ (Membership4 group4 <$> join_addresses active)
  ++ match an_outgoing a with
     | None => Outgoing4 <$> option_list (outgoing_address ifaces interfaces)
     | Some _ => []
     end.

Definition v6_settings : list setting :=
  reuse ++ [HopLimit6 255; Loopback6 1]
  ++ ((λ iface, Membership6 IPv6MulticastAddr (u32 (if_Index iface))) <$> active).

Lemma joinGroups_calls os raw tr tr' :
  joinGroups (join4 os IPv4MulticastAddr) raw active tr = (tr', None) ->
  exists cs, tr' = tr ++ cs /\ meaning <$> cs = Some <$> (Membership4 group4 <$> join_addresses active) /\
    (join_addresses active <> [] -> exists k, k < length cs /\ os (tr ++ take (S k) cs) = None).
Proof.
  unfold joinGroups. destruct raw as [|]; [done|].
  destruct (joins_calls (join_addresses active) (λ os, join4 os IPv4MulticastAddr) (Membership4 group4))
    as (cs & Hm & Hf).
  { eapply Forall_impl; [apply join_addresses_v4|]. intros ip Hip. cbn. by apply join4_law. }
  rewrite (Hf os). destruct (join_all _ tr) as [tr1 rs] eqn:E. intros [= <- Hr].
  apply join_all_accepted in E as [-> Hk]; [|done]. exists cs. split_and!; [done|done|].
  intros Hne. apply Hk. intros ->. apply Hne. by destruct (join_addresses active).
Qed.

Lemma joinGroupsV6_calls os raw tr tr' :
  joinGroupsV6 (join6 os IPv6MulticastAddr) raw active tr = (tr', None) ->
  exists cs, tr' = tr ++ cs /\
    meaning <$> cs = Some <$> ((λ iface, Membership6 IPv6MulticastAddr (u32 (if_Index iface))) <$> active).
Proof.
  unfold joinGroupsV6. destruct raw as [|]; [done|].
  destruct (joins_calls active (λ os iface, join6 os IPv6MulticastAddr (if_Index iface))
    (λ iface, Membership6 IPv6MulticastAddr (u32 (if_Index iface)))) as (cs & Hm & Hf).
  { apply Forall_forall. intros iface _. by apply join6_law. }
  replace (join6 os IPv6MulticastAddr ∘ if_Index <$> active) with (call os ErrCall <$> cs) by (by rewrite <- Hf).
  destruct (join_all _ tr) as [tr1 rs] eqn:E. intros [= <- Hr].
  apply join_all_accepted in E as [-> _]; [|done]. by exists cs.
Qed.

Lemma outgoing_calls os raw tr :
  exists cs, (ignoring (setOutgoingInterface (set_outgoing4 os) raw ifaces interfaces) tr).1 = tr ++ cs /\
    meaning <$> cs = Some <$> match raw with
                              | None => Outgoing4 <$> option_list (outgoing_address ifaces interfaces)
                              | Some _ => []
                              end.
Proof.
  unfold ignoring, setOutgoingInterface. destruct raw as [|]; cbn [fst].
  { exists []. by rewrite app_nil_r. }
  destruct (outgoing_address ifaces interfaces) as [ip|] eqn:E; cbn [option_list].
  - apply outgoing_address_v4 in E. destruct (set_outgoing4_law ip ip E) as (c & Hm & Hf).
    exists [c]. rewrite Hf. split; [done|]. cbn. by rewrite Hm.
  - exists []. by rewrite app_nil_r.
Qed.

Lemma open_v4_calls a tr :
  open_v4 ifaces interfaces a = (tr, None) ->
  meaning <$> tr = Some <$> v4_settings a /\
  (join_addresses active <> [] ->
   exists k ip, tr !! k ≫= meaning = Some (Membership4 group4 ip) /\ an_options a (take (S k) tr) = None).
Proof.
  unfold open_v4. fold active. destruct (listenMulticast _ _ _ []) as [tr1 [|]] eqn:El; [done|].
  apply listen_calls in El. destruct (joinGroups _ _ _ _) as [tr2 [|]] eqn:Ej; [done|].
  apply joinGroups_calls in Ej as (cs & -> & Hcs & Hk).
  destruct (outgoing_calls (an_options a) (an_outgoing a) (tr1 ++ cs)) as (co & Eo & Hco).
  rewrite Eo. intros [= <-]. split.
  - unfold v4_settings. rewrite !fmap_app, El, Hcs, Hco, !fmap_app, <- !app_assoc. done.
  - intros (k & Hlt & Hok)%Hk. apply lookup_lt_is_Some in Hlt as [c Hc].
    exists (length tr1 + k).
    assert (Hm : exists ip, meaning c = Some (Membership4 group4 ip)).
    { apply (f_equal (.!! k)) in Hcs. rewrite !list_lookup_fmap, Hc in Hcs. cbn in Hcs.
      destruct (join_addresses active !! k) as [ip|]; [|done]. exists ip. by injection Hcs. }
    destruct Hm as [ip Hm]. exists ip. split.
    + rewrite <- app_assoc, lookup_app_r by lia. replace (length tr1 + k - length tr1) with k by lia.
      rewrite lookup_app_l by (by eapply lookup_lt_Some). by rewrite Hc.
    + rewrite <- app_assoc, take_app_ge by lia. replace (S (length tr1 + k) - length tr1) with (S k) by lia.
      rewrite take_app_le; [done|]. apply lookup_lt_Some in Hc. lia.
Qed.

Lemma open_v6_calls a tr :
  open_v6 ifaces interfaces a = (tr, true) -> meaning <$> tr = Some <$> v6_settings.
Proof.
  unfold open_v6. fold active. destruct (listenMulticast _ _ _ []) as [tr1 [|]] eqn:El; [done|].
  apply listen_calls in El. destruct (joinGroupsV6 _ _ _ _) as [tr2 [|]] eqn:Ej; [done|].
  apply joinGroupsV6_calls in Ej as (cs & -> & Hcs). intros [= <-].
  unfold v6_settings. rewrite !fmap_app, El, Hcs, !fmap_app, <- !app_assoc. done.
Qed.

End Sockets.
End Calls.

(** ** Properties *)

Section OpeningProperties.
  Context `{UnicodeTables, Platform}.

(** C37: A connection is set up completely.  On any platform that keeps its promise,
    when [NewMulticastConn] returns a connection, the calls on its IPv4 socket ask, in
    this order, for a reusable address, hop limit 255 and loopback, membership of the
    group on every IPv4 address of every active interface, and the outgoing interface;
    a membership was granted, unless there was no address to ask for; and an IPv6
    socket is kept only if it was wanted and all was asked for it, on every active
    interface. *)
Theorem connection_opened ifaces interfaces enableIPv6 a4 a6 tr4 tr6 mc :
  NewMulticastConn ifaces interfaces enableIPv6 a4 a6 = (tr4, tr6, inr mc) ->
  meaning <$> tr4 = Some <$> v4_settings ifaces interfaces a4 /\
  (join_addresses (active ifaces interfaces) <> [] ->
   exists k ip, tr4 !! k ≫= meaning = Some (Membership4 group4 ip) /\
     an_options a4 (take (S k) tr4) = None) /\
  (if mc_v6 mc then enableIPv6 = true /\ meaning <$> tr6 = Some <$> v6_settings ifaces interfaces
   else enableIPv6 = false \/ (open_v6 ifaces interfaces a6).2 = false).
Proof.
  unfold NewMulticastConn. destruct (open_v4 _ _ a4) as [tr [e|]] eqn:E4; [done|].
  apply open_v4_calls in E4 as [Hs Hj].
  destruct enableIPv6; [destruct (open_v6 _ _ a6) as [tr' [|]] eqn:E6|]; intros [= <- <- <-];
    (split; [exact Hs|]; split; [exact Hj|]); cbn [mc_v6].
  - split; [done|]. by eapply open_v6_calls.
  - by right.
  - by left.
Qed.

End OpeningProperties.
