(* ===== verification/Browser.v ===== *)
(** * Browsing for services (browser.go)

    A [Browser] keeps the instances it has discovered, keyed by the lower-case
    instance name, and the event queues of its listeners, bounded channels that
    drop events when full.  It reads the server's cache; a clock is given for
    each lookup.  Slicing can panic in [extractInstanceName], so the handlers
    return a [result]. *)

From S2P Require Export Config.

Record ServiceInstanceInfo := mkInfo {
  i_Name : gostring;
  i_Type : gostring;
  i_Domain : gostring;
  i_Host : gostring;
  i_Port : Z;
  i_IPs : list IP;
  i_Text : list gostring;
  i_Priority : Z;
  i_Weight : Z
}.

#[export] Instance ServiceInstanceInfo_eq_dec : EqDecision ServiceInstanceInfo.
Proof. solve_decision. Defined.

(** [fmt.Sprint] of a slice of strings separates them by spaces, in brackets. *)
Definition Info_String (s : ServiceInstanceInfo) : gostring :=
  i_Name s ++ go " [" ++ i_Type s ++ go "] host=" ++ i_Host s ++ go " port=" ++ Itoa (i_Port s)
  ++ go " ips=[[" ++ Join (IP_String <$> i_IPs s) (go " ") ++ go "]]".

Inductive ServiceEvent :=
  | EventAdd (info : ServiceInstanceInfo)
  | EventRemove (info : ServiceInstanceInfo).

(** The capacity of a listener's channel. *)
Definition event_capacity : nat := 64.

Record Browser := mkBrowser {
  b_serviceType : gostring;
  b_domain : gostring;
  b_instances : gmap gostring ServiceInstanceInfo;
  b_listeners : list (list ServiceEvent);
  b_running : bool;
  b_cancelled : bool          (* [b.cancel] is closed *)
}.

Definition set_instances (m : gmap gostring ServiceInstanceInfo) (b : Browser) : Browser :=
  mkBrowser (b_serviceType b) (b_domain b) m (b_listeners b) (b_running b) (b_cancelled b).
Definition set_listeners (ls : list (list ServiceEvent)) (b : Browser) : Browser :=
  mkBrowser (b_serviceType b) (b_domain b) (b_instances b) ls (b_running b) (b_cancelled b).

(** [select { case ch <- ev: default: }] *)
Definition offer (ev : ServiceEvent) (queue : list ServiceEvent) : list ServiceEvent :=
  if length queue <? event_capacity then queue ++ [ev] else queue.

Definition notify (ev : ServiceEvent) (b : Browser) : Browser :=
  set_listeners (map (offer ev) (b_listeners b)) b.

(** A caller receives from the [i]-th listener's channel. *)
Definition take_event (i : nat) (b : Browser) : Browser :=
  set_listeners (alter tail i (b_listeners b)) b.

Definition normalizeServiceTypeDomain (serviceType domain : gostring) : gostring :=
  let t := TrimSuffix serviceType [dot] in
  let d := TrimSuffix domain [dot] in
  let t := if negb (HasSuffix t d) then t ++ [dot] ++ d else t in
  t ++ [dot].

(** [Browse]: the new browser; the server files it under [lowerName serviceType]. *)
Definition newBrowser (cfg : Config) (serviceType : gostring) : Browser :=
  mkBrowser (normalizeServiceTypeDomain serviceType (cfg_Domain cfg)) (cfg_Domain cfg) ∅ [] false
    false.

(** [Start]: adds a listener; the second component tells whether the browsing loop
    is started. *)
Definition Browser_Start (b : Browser) : Browser * bool :=
  (mkBrowser (b_serviceType b) (b_domain b) (b_instances b) (b_listeners b ++ [[]]) true
     (b_cancelled b),
   negb (b_running b)).

(** [Stop], but for the deletion from the server's map: [close(b.cancel)] panics
    when the browser has been stopped before. *)
Definition Browser_Stop (b : Browser) : result Browser :=
  if negb (b_running b) then Ok b
  else if b_cancelled b then Err Panic
  else Ok (mkBrowser (b_serviceType b) (b_domain b) (b_instances b) [] false true).

(** ** Query scheduling *)

Definition maxInterval : Z := (3600 * Second)%Z.

Definition next_interval (interval : Z) : Z :=
  let interval := (interval * 2)%Z in
  if (maxInterval <? interval)%Z then maxInterval else interval.

(** The wait before the n-th periodic query. *)
Definition query_interval (n : nat) : Z := Nat.iter n next_interval Second.

(** [nano] is [time.Now().UnixNano()]; the remainder has the sign of the dividend. *)
Definition randIntNRange (nano n : Z) : Z := if (n <=? 0)%Z then 0%Z else Z.rem nano n.

(** The wait before the first query. *)
Definition initialDelay (nano : Z) : Z := ((20 + randIntNRange nano 100) * Millisecond)%Z.

(** ** Instances *)

Section Instances.
  Context `{UnicodeTables}.

Definition extractInstanceName (instanceName serviceType : gostring) : result gostring :=
  let ln := TrimSuffix instanceName [dot] in
  let st := TrimSuffix serviceType [dot] in
  match LastIndex (lowerName ln) (lowerName st) with
  | Some idx => if 0 <? idx then slice ln 0 (idx - 1) else Ok ln
  | None => Ok ln
  end.

(** [copyServiceInstanceInfo] is the identity on values. *)
Definition copyServiceInstanceInfo (info : ServiceInstanceInfo) : ServiceInstanceInfo := info.

(** [now i] is the clock of the i-th lookup. *)
Definition resolveInstance (now : nat -> Z) (c : Cache) (b : Browser) (instanceName : gostring)
    : result (option ServiceInstanceInfo) :=
  match Lookup (now 0) (rrKey instanceName TypeSRV) c with
  | [] => Ok None
  | srv :: _ =>
      name ← extractInstanceName instanceName (b_serviceType b);
      let text := match Lookup (now 1) (rrKey instanceName TypeTXT) c with
                  | txt :: _ => rr_Text txt
                  | [] => []
                  end in
      let ips := (rr_IP <$> Lookup (now 2) (rrKey (rr_Target srv) TypeA) c)
                 ++ (rr_IP <$> Lookup (now 3) (rrKey (rr_Target srv) TypeAAAA) c) in
      Ok (Some (mkInfo name (b_serviceType b) (b_domain b) (rr_Target srv) (rr_Port srv) ips text
                  (rr_Priority srv) (rr_Weight srv)))
  end.

Definition handlePTR (now : nat -> Z) (c : Cache) (rr : ResourceRecord) (b : Browser)
    : result Browser :=
  let instanceName := normalizeName (rr_Target rr) in
  if bool_decide (is_Some (b_instances b !! lowerName instanceName)) then Ok b else
  resolved ← resolveInstance now c b instanceName;
  info ← match resolved with
         | Some info => Ok info
         | None =>
             name ← extractInstanceName instanceName (b_serviceType b);
             Ok (mkInfo name (b_serviceType b) (b_domain b) [] 0 [] [] 0 0)
         end;
  Ok (notify (EventAdd (copyServiceInstanceInfo info))
        (set_instances (<[lowerName instanceName := info]> (b_instances b)) b)).

(** The first loop of [updateInstancesFromRecord], for one instance: its new
    value and whether it was updated. *)
Definition update_from_record (rr : ResourceRecord) (b : Browser) (info : ServiceInstanceInfo)
    : ServiceInstanceInfo * bool :=
  let instanceName := i_Name info ++ [dot] ++ b_serviceType b in
  let same_name := bool_decide (lowerName (rr_Name rr) = lowerName instanceName) in
  if (rr_Type rr =? TypeSRV)%Z then
    if same_name then
      (mkInfo (i_Name info) (i_Type info) (i_Domain info) (rr_Target rr) (rr_Port rr) (i_IPs info)
         (i_Text info) (rr_Priority rr) (rr_Weight rr), true)
    else (info, false)
  else if (rr_Type rr =? TypeTXT)%Z then
    if same_name then
      (mkInfo (i_Name info) (i_Type info) (i_Domain info) (i_Host info) (i_Port info) (i_IPs info)
         (rr_Text rr) (i_Priority info) (i_Weight info), true)
    else (info, false)
  else if (rr_Type rr =? TypeA)%Z || (rr_Type rr =? TypeAAAA)%Z then
    if negb (bool_decide (i_Host info = []))
       && bool_decide (lowerName (rr_Name rr) = lowerName (normalizeName (i_Host info)))
       && negb (existsb (λ ip, IP_Equal ip (rr_IP rr)) (i_IPs info))
    then (mkInfo (i_Name info) (i_Type info) (i_Domain info) (i_Host info) (i_Port info)
            (i_IPs info ++ [rr_IP rr]) (i_Text info) (i_Priority info) (i_Weight info), true)
    else (info, false)
  else (info, false).

(** The second loop, for one instance: the fields found in the cache. *)
Definition merge_resolved (info full : ServiceInstanceInfo) : ServiceInstanceInfo :=
  let host := negb (bool_decide (i_Host full = [])) in
  mkInfo (i_Name info) (i_Type info) (i_Domain info)
    (if host then i_Host full else i_Host info) (if host then i_Port full else i_Port info)
    (if bool_decide (i_IPs full = []) then i_IPs info else i_IPs full)
    (if bool_decide (i_Text full = []) then i_Text info else i_Text full)
    (if host then i_Priority full else i_Priority info)
    (if host then i_Weight full else i_Weight info).

(** A loop over a map that rewrites each entry and may fail; each entry is
    rewritten on its own, so the order of the visit is immaterial unless it
    fails. *)
Fixpoint refill (now : gostring -> nat -> Z) (c : Cache) (b : Browser)
    (entries : list (gostring * ServiceInstanceInfo)) (m : gmap gostring ServiceInstanceInfo)
    : result (gmap gostring ServiceInstanceInfo) :=
  match entries with
  | [] => Ok m
  | (key, info) :: entries =>
      full ← resolveInstance (now key) c b (i_Name info ++ [dot] ++ b_serviceType b);
      refill now c b entries
        (match full with Some full => <[key := merge_resolved info full]> m | None => m end)
  end.

Definition updateInstancesFromRecord `{MapOrder} (now : gostring -> nat -> Z) (c : Cache)
    (rr : ResourceRecord) (b : Browser) : result Browser :=
  let instances := fst ∘ update_from_record rr b <$> b_instances b in
  let updated := existsb (λ e : gostring * ServiceInstanceInfo, (update_from_record rr b e.2).2)
                   (map_to_list (b_instances b)) in
  if updated then
    instances ← refill now c b (visit 0 (map_to_list instances)) instances;
    Ok (set_instances instances b)
  else Ok (set_instances instances b).

Definition onRecordAdd `{MapOrder} (now : gostring -> nat -> Z) (c : Cache) (rr : ResourceRecord)
    (b : Browser) : result Browser :=
  if (rr_Type rr =? TypePTR)%Z && bool_decide (lowerName (rr_Name rr) = lowerName (b_serviceType b))
  then handlePTR (now []) c rr b
  else if (rr_Type rr =? TypeSRV)%Z || (rr_Type rr =? TypeTXT)%Z || (rr_Type rr =? TypeA)%Z
          || (rr_Type rr =? TypeAAAA)%Z
  then updateInstancesFromRecord now c rr b
  else Ok b.

Definition onRecordRemove (rr : ResourceRecord) (b : Browser) : Browser :=
  if negb (rr_Type rr =? TypePTR)%Z then b
  else if negb (bool_decide (lowerName (rr_Name rr) = lowerName (b_serviceType b))) then b
  else
    let key := lowerName (normalizeName (rr_Target rr)) in
    match b_instances b !! key with
    | None => b
    | Some info => notify (EventRemove info) (set_instances (delete key (b_instances b)) b)
    end.

Definition Instances `{MapOrder} (b : Browser) : list ServiceInstanceInfo :=
  visit 0 (map_to_list (b_instances b)).*2.

(** ** Queries *)

(** A query with known answers. *)
Definition query_message (flags : Z) (questions : list Question) (known : list ResourceRecord)
    : Message :=
  mkMessage (mkHeader 0 flags (Z.of_nat (length questions)) (u16 (Z.of_nat (length known))) 0 0)
    questions known [] [].

Definition browse_question (b : Browser) : Question := mkQuestion (b_serviceType b) TypePTR ClassIN.

Definition known_answer (b : Browser) (info : ServiceInstanceInfo) : ResourceRecord :=
  set_Target (i_Name info ++ [dot] ++ b_serviceType b)
    (newRR (b_serviceType b) TypePTR ClassIN otherTTL false).

(** The loop that looks for the number of answers that fit: the longest prefix
    all of whose prefixes fit. *)
Fixpoint max_fit (q : Question) (known : list ResourceRecord) (i n : nat) : nat :=
  match n with
  | 0 => i - 1
  | S n => if is_ok (Pack (query_message flagTruncation [q] (take i known)))
           then max_fit q known (S i) n else i - 1
  end.

Definition maxPerPacket : nat := 20.

(** The continuation packets; each takes at least one answer. *)
Fixpoint continuation (fuel : nat) (remaining : list ResourceRecord) : list Message :=
  match fuel with
  | 0 => []
  | S fuel =>
      if decide (remaining = []) then [] else
      let isLast := length remaining <=? maxPerPacket in
      query_message (if isLast then 0 else flagTruncation)%Z [] (take maxPerPacket remaining)
      :: continuation fuel (drop maxPerPacket remaining)
  end.

(** The messages of [sendQueryMultipacket], in order; those that cannot be packed
    are not sent. *)
Definition multipacket_messages (q : Question) (known : list ResourceRecord) : list Message :=
  let maxFit := max_fit q known 1 (length known) in
  query_message flagTruncation [q] (take maxFit known)
  :: continuation (length known) (drop maxFit known).

Definition packets (ms : list Message) : list (list byte) :=
  omap (λ m, match Pack m with Ok data => Some data | Err _ => None end) ms.

(** [sendQuery]: the datagrams it sends. *)
Definition sendQuery `{MapOrder} (b : Browser) : list (list byte) :=
  let q := browse_question b in
  let known := known_answer b <$> visit 0 (map_to_list (b_instances b)).*2 in
  match Pack (query_message 0 [q] known) with
  | Ok data => [data]
  | Err _ => packets (multipacket_messages q known)
  end.

(** [refreshExpiringRecords]: the instances to refresh and the datagrams it sends;
    the clocks of an instance's two cache reads are [now], [now2] and [now3]. *)
Definition needs_refresh (now now2 now3 : Z) (c : Cache) (fullName : gostring) : bool :=
  let key := rrKey fullName TypeSRV in
  let remaining := RecordRemainingTTL now now2 key c in
  let original := RecordOriginalTTL now3 key c in
  (0 <? original)%Z && (0 <? remaining)%Z && (remaining <=? original / 5)%Z.

Definition refreshExpiringRecords `{MapOrder} (now : gostring -> Z * Z * Z) (c : Cache)
    (b : Browser) : list (list byte) :=
  let names := (λ info, i_Name info ++ [dot] ++ b_serviceType b)
                 <$> visit 0 (map_to_list (b_instances b)).*2 in
  let toRefresh := filter (λ name,
    let '(n1, n2, n3) := now name in needs_refresh n1 n2 n3 c name = true) names in
  packets ((λ name, query_message 0 [mkQuestion name TypeSRV ClassIN] []) <$> toRefresh).

End Instances.
