(* ===== verification/Resolve.v ===== *)
(** * Resolving a host name (mdns.go)

    [ResolveHost] looks in the cache, asks the network once, and polls the cache
    until it holds an address or the caller's context ends.  Each look reads the
    cache twice, for A and for AAAA records, and other goroutines may change it in
    between: a look is the two readings of clock and cache. *)

From S2P Require Export PackErrors ServiceSpec Browser.

Record look := Look { lk_clock4 : Z; lk_cache4 : Cache; lk_clock6 : Z; lk_cache6 : Cache }.

(** What [select] wakes up for: a tick, and the look it takes, or the context. *)
Inductive wake :=
  | Ticked (l : look)
  | CtxDone.

Section Resolve.
  Context `{UnicodeTables}.

(** The addresses of one look, IPv4 first. *)
Definition addresses (hostName : gostring) (l : look) : list IP :=
  (rr_IP <$> Lookup (lk_clock4 l) (rrKey hostName TypeA) (lk_cache4 l)) ++
  (rr_IP <$> Lookup (lk_clock6 l) (rrKey hostName TypeAAAA) (lk_cache6 l)).

(** The one-shot query, with the QU bit. *)
Definition resolve_query (hostName : gostring) : Message :=
  mkMessage (mkHeader 0 0 2 0 0 0)
    [mkQuestion hostName TypeA (Z.lor ClassIN cacheFlushBit);
     mkQuestion hostName TypeAAAA (Z.lor ClassIN cacheFlushBit)] [] [] [].

(** The loop, with its variable [ips]; [None]: still waiting when the sequence of
    wake-ups ends. *)
Fixpoint poll (hostName : gostring) (ips : list IP) (ws : list wake) : option (result (list IP)) :=
  match ws with
  | [] => None
  | CtxDone :: _ =>
      Some (if bool_decide (ips <> []) then Ok (sortIPsIPv4First ips) else Err ErrContext)
  | Ticked l :: ws =>
      let ips := ips ++ addresses hostName l in
      if bool_decide (ips <> []) then Some (Ok (sortIPsIPv4First ips)) else poll hostName ips ws
  end.

(** [sent] tells whether [WriteMulticast] succeeds.  The first component lists the
    queries sent. *)
Definition ResolveHost (host : gostring) (first : look) (sent : bool) (ws : list wake)
    : list (list byte) * option (result (list IP)) :=
  let hostName := normalizeName host in
  let ips := addresses hostName first in
  if bool_decide (ips <> []) then ([], Some (Ok (sortIPsIPv4First ips))) else
  match Pack (resolve_query hostName) with
  | Err e => ([], Some (Err e))
  | Ok data => if sent then ([data], poll hostName ips ws) else ([], Some (Err ErrSend))
  end.

(** ** Properties *)

Definition ctx_done (w : wake) : bool := match w with CtxDone => true | _ => false end.

(** Whether a look finds nothing. *)
Definition in_vain (hostName : gostring) (w : wake) : Prop :=
  match w with Ticked l => addresses hostName l = [] | CtxDone => False end.

Lemma poll_spec hostName ws :
  (poll hostName [] ws = None /\ Forall (in_vain hostName) ws) \/
  (exists pre rest, ws = pre ++ CtxDone :: rest /\ Forall (in_vain hostName) pre /\
     poll hostName [] ws = Some (Err ErrContext)) \/
  (exists pre l rest, ws = pre ++ Ticked l :: rest /\ Forall (in_vain hostName) pre /\
     addresses hostName l <> [] /\
     poll hostName [] ws = Some (Ok (sortIPsIPv4First (addresses hostName l)))).
Proof.
  induction ws as [|[l|] ws IH]; [by left| |]; cbn [poll].
  - cbn [app]. case_bool_decide as Hne.
    + right; right. by exists [], l, ws.
    + rewrite Hne.
      destruct IH as [[-> Hv]|[(pre & rest & -> & Hv & ->)|(pre & l' & rest & -> & Hv & Hl & ->)]].
      * left. split; [done|]. by constructor.
      * right; left. exists (Ticked l :: pre), rest. split_and!; [done|by constructor|done].
      * right; right. exists (Ticked l :: pre), l', rest. split_and!; [done|by constructor|done|done].
  - right; left. rewrite bool_decide_false by (by intros []). by exists [], ws.
Qed.

(** The context's error, exactly when the context ends before a look finds anything. *)
Lemma poll_context hostName pre rest :
  Forall (in_vain hostName) pre -> poll hostName [] (pre ++ CtxDone :: rest) = Some (Err ErrContext).
Proof.
  induction 1 as [|[l|] pre Hl Hpre IH]; [done| |done]. cbn [app poll in_vain] in *. by rewrite Hl.
Qed.

(** [Pack] never returns the context's error. *)
Lemma Pack_not_context m : Pack m <> Err ErrContext.
Proof.
  intros E. pose proof (Pack_outcome m) as Hp. rewrite E in Hp.
  destruct Hp as [(n & l & _ & _ & _ & Hn)|[(rr & _ & [(_ & _ & Hn)|[(_ & _ & Hn)|(_ & s & _ & _ & Hn)]])|(n & Hn & _)]];
    discriminate Hn.
Qed.

Lemma sortIPs_perm ips : sortIPsIPv4First ips ≡ₚ ips.
Proof. unfold sortIPsIPv4First. by rewrite !sort_ips_perm, filter_v4_v6. Qed.

Lemma sortIPs_nil ips : sortIPsIPv4First ips = [] -> ips = [].
Proof. intros E. apply Permutation_nil_r. by rewrite <- (sortIPs_perm ips), E. Qed.

(** IPv4 before IPv6, each family in the order of its text form. *)
Definition ipv4_first (found ips : list IP) : Prop :=
  ips ≡ₚ found /\ exists v4 v6, ips = v4 ++ v6 /\
    Forall (λ ip, is_ipv4 ip = true) v4 /\ Forall (λ ip, is_ipv4 ip = false) v6 /\
    StronglySorted text_le v4 /\ StronglySorted text_le v6.


End Resolve.
