(* ===== verification/Server.v ===== *)
(** * The server (server.go, service.go)

    The state of a [Server] and its handlers, each one a function from the state
    and a clock to the new state and what the handler emits.  The critical
    sections the source protects by [s.mu] are the atomic steps.  Pointers to
    registered services, to the callers' [ServiceInstance]s and to browsers are keys
    of heaps, so that a probing goroutine and the [services] map share the service
    they point to, and a browser outlives its entry in the map.  A goroutine that is started is an output. *)

From S2P Require Export PackErrors Responder Browser.

(** A clock reading is identified by a path of numbers within a handler. *)
Abbreviation Clock := (list nat -> Z).

Inductive output :=
  | Multicast (data : list byte)
  | Unicast (data : list byte) (to : UDPAddr)
  | Respond (lo hi : Z) (answers additionals : list ResourceRecord) (to : option UDPAddr)
      (* go sendResponseWithAdditional, after a delay between lo and hi *)
  | Probe (p : nat).                                          (* go probeService *)

Record Server := mkServer {
  s_config : Config;
  s_cache : Cache;
  s_instances : gmap nat ServiceInstance;
  s_heap : gmap nat registeredService;
  s_services : gmap gostring nat;
  s_bheap : gmap nat Browser;
  s_browsers : gmap gostring nat;
  s_hostIPs : list IP;
  s_hostRecords : list ResourceRecord;
  s_hostProbed : bool;
  s_rateTracker : gmap gostring Z;
  s_localSubnets : list IPNet;
  s_passiveSeen : gmap gostring Z;
  s_passiveLast : gmap gostring Z
}.

Definition with_cache (c : Cache) (s : Server) : Server :=
  mkServer (s_config s) c (s_instances s) (s_heap s) (s_services s) (s_bheap s) (s_browsers s) (s_hostIPs s)
    (s_hostRecords s) (s_hostProbed s) (s_rateTracker s) (s_localSubnets s) (s_passiveSeen s)
    (s_passiveLast s).
Definition with_instances (i : gmap nat ServiceInstance) (s : Server) : Server :=
  mkServer (s_config s) (s_cache s) i (s_heap s) (s_services s) (s_bheap s) (s_browsers s) (s_hostIPs s)
    (s_hostRecords s) (s_hostProbed s) (s_rateTracker s) (s_localSubnets s) (s_passiveSeen s)
    (s_passiveLast s).
Definition with_heap (h : gmap nat registeredService) (s : Server) : Server :=
  mkServer (s_config s) (s_cache s) (s_instances s) h (s_services s) (s_bheap s) (s_browsers s) (s_hostIPs s)
    (s_hostRecords s) (s_hostProbed s) (s_rateTracker s) (s_localSubnets s) (s_passiveSeen s)
    (s_passiveLast s).
Definition with_services (m : gmap gostring nat) (s : Server) : Server :=
  mkServer (s_config s) (s_cache s) (s_instances s) (s_heap s) m (s_bheap s) (s_browsers s) (s_hostIPs s)
    (s_hostRecords s) (s_hostProbed s) (s_rateTracker s) (s_localSubnets s) (s_passiveSeen s)
    (s_passiveLast s).
Definition with_bheap (h : gmap nat Browser) (s : Server) : Server :=
  mkServer (s_config s) (s_cache s) (s_instances s) (s_heap s) (s_services s) h (s_browsers s)
    (s_hostIPs s) (s_hostRecords s) (s_hostProbed s) (s_rateTracker s) (s_localSubnets s)
    (s_passiveSeen s) (s_passiveLast s).
Definition with_browsers (m : gmap gostring nat) (s : Server) : Server :=
  mkServer (s_config s) (s_cache s) (s_instances s) (s_heap s) (s_services s) (s_bheap s) m
    (s_hostIPs s) (s_hostRecords s) (s_hostProbed s) (s_rateTracker s) (s_localSubnets s)
    (s_passiveSeen s) (s_passiveLast s).
Definition with_hostProbed (b : bool) (s : Server) : Server :=
  mkServer (s_config s) (s_cache s) (s_instances s) (s_heap s) (s_services s) (s_bheap s) (s_browsers s)
    (s_hostIPs s) (s_hostRecords s) b (s_rateTracker s) (s_localSubnets s) (s_passiveSeen s)
    (s_passiveLast s).
Definition with_rate (t : gmap gostring Z) (s : Server) : Server :=
  mkServer (s_config s) (s_cache s) (s_instances s) (s_heap s) (s_services s) (s_bheap s) (s_browsers s)
    (s_hostIPs s) (s_hostRecords s) (s_hostProbed s) t (s_localSubnets s) (s_passiveSeen s)
    (s_passiveLast s).
Definition with_passive (seen last : gmap gostring Z) (s : Server) : Server :=
  mkServer (s_config s) (s_cache s) (s_instances s) (s_heap s) (s_services s) (s_bheap s) (s_browsers s)
    (s_hostIPs s) (s_hostRecords s) (s_hostProbed s) (s_rateTracker s) (s_localSubnets s) seen last.

(** [NewServer], followed by what [Start] reads from the system: the addresses and
    subnets of the interfaces. *)
Definition NewServer (os_hostname : gostring) (c : Config) (hostIPs : list IP)
    (subnets : list IPNet) : Server :=
  let config := NewServer_config os_hostname c in
  mkServer config NewCache ∅ ∅ ∅ ∅ ∅ hostIPs (registerHostRecords config hostIPs) false ∅ subnets ∅ ∅.

(** The registered services, with the instances they point to. *)
Definition deref (s : Server) (p : nat) : option service :=
  rs ← s_heap s !! p;
  inst ← s_instances s !! rs_instance rs;
  Some (inst, rs).

Definition services_of (s : Server) : list service :=
  omap (deref s) (map_to_list (s_services s)).*2.

Section Handlers.
  Context `{UnicodeTables, MapOrder}.

(** ** Sending *)

(** [sendResponseWithAdditional], when it runs. *)
Definition sendResponseWithAdditional (clk : Clock) (answers additionals : list ResourceRecord)
    (to : option UDPAddr) (s : Server) : Server * list output :=
  let '(tracker, msg) := prepare_response (λ i, clk [0; i]) (λ i, clk [1; i]) answers additionals
                           (match to with None => true | Some _ => false end) (s_rateTracker s) in
  let s := with_rate tracker s in
  match msg with
  | None => (s, [])
  | Some m =>
      match Pack m with
      | Err _ => (s, [])
      | Ok data => (s, [match to with None => Multicast data | Some a => Unicast data a end])
      end
  end.

Definition sendResponseMulticast (clk : Clock) (records : list ResourceRecord) (s : Server)
    : Server * list output := sendResponseWithAdditional clk records [] None s.

Definition sendResponseUnicast (records : list ResourceRecord) (to : UDPAddr) : list output :=
  match Pack (response 0 records []) with Ok data => [Unicast data to] | Err _ => [] end.

Definition sendGoodbye (records : list ResourceRecord) : list output :=
  match Pack (goodbye records) with Ok data => [Multicast data] | Err _ => [] end.

(** ** Conflicts *)

(** The loop of [handleProbe] over the records of a service: whether one equals
    the probe record, and the last one that conflicts with it. *)
Fixpoint probe_conflict (ns : ResourceRecord) (records : list ResourceRecord)
    (conflicting : option ResourceRecord) : bool * option ResourceRecord :=
  match records with
  | [] => (false, conflicting)
  | ours :: records =>
      if negb (rr_CacheFlush ours) then probe_conflict ns records conflicting
      else if negb (bool_decide (lowerName (rr_Name ours) = lowerName (rr_Name ns)))
      then probe_conflict ns records conflicting
      else if negb (rr_Type ours =? rr_Type ns)%Z then probe_conflict ns records conflicting
      else if recordsEqual ours ns then (true, conflicting)
      else probe_conflict ns records (Some ours)
  end.

(** [close(ch)] *)
Definition close_probeCh (rs : registeredService) : result registeredService :=
  if rs_probeClosed rs then Err Panic
  else Ok (mkRS (rs_instance rs) (rs_records rs) (rs_state rs) true).

(** [handleProbe] for one service. *)
Definition probe_service (ns : ResourceRecord) (rs : registeredService)
    : result (registeredService * list output) :=
  if negb (bool_decide (rs_state rs = stateAnnounced))
     && negb (bool_decide (rs_state rs = stateProbing)) then Ok (rs, [])
  else match probe_conflict ns (rs_records rs) None with
  | (true, _) | (false, None) => Ok (rs, [])
  | (false, Some conflicting) =>
      if decide (rs_state rs = stateAnnounced) then Ok (rs, [Respond 0 0 [conflicting] [] None])
      else if probeLoses conflicting ns then
        rs' ← close_probeCh (set_state stateConflictLost rs);
        Ok (rs', [])
      else Ok (rs, [])
  end.

Fixpoint probe_services (ns : ResourceRecord) (ps : list nat) (h : gmap nat registeredService)
    : result (gmap nat registeredService * list output) :=
  match ps with
  | [] => Ok (h, [])
  | p :: ps =>
      match h !! p with
      | None => probe_services ns ps h
      | Some rs =>
          '(rs', out) ← probe_service ns rs;
          '(h', outs) ← probe_services ns ps (<[p := rs']> h);
          Ok (h', out ++ outs)
      end
  end.

Definition handleProbe (n : nat) (ns : ResourceRecord) (s : Server)
    : result (Server * list output) :=
  '(h, outs) ← probe_services ns (visit n (map_to_list (s_services s)).*2) (s_heap s);
  Ok (with_heap h s, outs).

Fixpoint handleProbes (n : nat) (nss : list ResourceRecord) (s : Server)
    : result (Server * list output) :=
  match nss with
  | [] => Ok (s, [])
  | ns :: nss =>
      '(s, out) ← handleProbe n ns s;
      '(s, outs) ← handleProbes (S n) nss s;
      Ok (s, out ++ outs)
  end.

(** [detectConflictLocked] only logs: the records of ours it reports. *)
Definition detectConflictLocked (services : list service) (rr : ResourceRecord)
    : list ResourceRecord :=
  mjoin ((λ svc : service,
    if negb (announced svc) then [] else
    let unique := filter (λ ours, rr_CacheFlush ours = true) (rs_records svc.2) in
    if existsb (λ ours, recordsEqual ours rr) unique then []
    else filter (λ ours, recordsConflict ours rr = true) unique) <$> services).

(** ** Queries *)

Definition trackPassiveQuery (now : Z) (name : gostring) (s : Server) : Server :=
  with_passive (<[name := (default 0 (s_passiveSeen s !! name) + 1)%Z]> (s_passiveSeen s))
    (<[name := now]> (s_passiveLast s)) s.

Fixpoint trackPassiveQueries (clk : nat -> Z) (i : nat) (qs : list Question) (s : Server) : Server :=
  match qs with
  | [] => s
  | q :: qs => trackPassiveQueries clk (S i) qs (trackPassiveQuery (clk i) (q_Name q) s)
  end.

Definition server_knowledge (s : Server) : knowledge :=
  mkKnowledge (s_config s) (s_hostIPs s) (s_hostProbed s) (services_of s) (s_cache s).

(** The passive observation of a query, unless it is one of our own. *)
Definition track_query (clk : Clock) (msg : Message) (from : UDPAddr) (s : Server) : Server :=
  let ownQuery := existsb (λ hostIP, IP_Equal hostIP (addr_IP from)) (s_hostIPs s) in
  if ownQuery then s else trackPassiveQueries (λ i, clk [0; i]) 0 (m_Questions msg) s.

(** The part of [handleQuery] under the read lock: the response that is started. *)
Definition answer_query (clk : Clock) (msg : Message) (from : UDPAddr) (s : Server) : list output :=
  let r := answer_questions (server_knowledge s) (λ i, clk [1; i]) (m_Answers msg) 0 empty_reply
             (m_Questions msg) in
  if bool_decide (r_answers r = []) && bool_decide (r_additionals r = []) then []
  else if unicast_requested (m_Questions msg) then
    [Respond 0 0 (r_answers r) (r_additionals r) (Some from)]
  else if r_unique r then
    [Respond (10 * Millisecond) (10 * Millisecond) (r_answers r) (r_additionals r) None]
  else [Respond (20 * Millisecond) (119 * Millisecond) (r_answers r) (r_additionals r) None].

(** The authorities are numbered on from [first_probe_visit], so that each of their
    visits to the map of services has an order of its own. *)
Definition first_probe_visit (msg : Message) : nat := 4 * length (m_Questions msg).

Definition handleQuery (clk : Clock) (msg : Message) (from : UDPAddr) (s : Server)
    : result (Server * list output) :=
  '(s, defend) ← handleProbes (first_probe_visit msg) (m_Authorities msg) s;
  let s := track_query clk msg from s in
  Ok (s, defend ++ answer_query clk msg from s).

Definition handleLegacyQuery (msg : Message) (from : UDPAddr) (s : Server) : list output :=
  let records := legacy_records (λ i, visit i (services_of s)) (m_Questions msg) in
  if bool_decide (records = []) then [] else
  match Pack (response (m_ID msg) records []) with
  | Ok data => [Unicast data from]
  | Err _ => []
  end.

(** ** Responses *)

(** The first pass of [handleResponse]. *)
Fixpoint cache_records (clk : nat -> Z) (i : nat) (rrs : list ResourceRecord) (s : Server) : Server :=
  match rrs with
  | [] => s
  | rr :: rrs =>
      let s := if (rr_TTL rr =? 0)%Z
               then with_cache (Remove (rrKey (rr_Name rr) (rr_Type rr)) (s_cache s)) s
               else with_passive (delete (rr_Name rr) (s_passiveSeen s))
                      (delete (rr_Name rr) (s_passiveLast s))
                      (with_cache (Upsert (clk i) rr (s_cache s)).1 s) in
      cache_records clk (S i) rrs s
  end.

(** [notifyAddition]: the browsers in the order of the visit. *)
Fixpoint notify_browsers (clk : Clock) (rr : ResourceRecord) (c : Cache) (j : nat)
    (ps : list nat) (h : gmap nat Browser) : result (gmap nat Browser) :=
  match ps with
  | [] => Ok h
  | p :: ps =>
      match h !! p with
      | None => notify_browsers clk rr c (S j) ps h
      | Some b =>
          b' ← onRecordAdd (λ k i, clk (j :: i :: (Z.to_nat ∘ b2z <$> k))) c rr b;
          notify_browsers clk rr c (S j) ps (<[p := b']> h)
      end
  end.

Definition notifyAddition (clk : Clock) (n : nat) (rr : ResourceRecord) (s : Server)
    : result Server :=
  h ← notify_browsers clk rr (s_cache s) 0 (visit n (map_to_list (s_browsers s))).*2 (s_bheap s);
  Ok (with_bheap h s).

(** The browsers are notified one by one, in any order. *)
Definition notifyRemoval (n : nat) (rr : ResourceRecord) (s : Server) : Server :=
  with_bheap (foldl (λ h p, alter (onRecordRemove rr) p h) (s_bheap s)
    (visit n (map_to_list (s_browsers s))).*2) s.

(** The second pass. *)
Fixpoint notify_records (clk : Clock) (i : nat) (rrs : list ResourceRecord) (s : Server)
    : result Server :=
  match rrs with
  | [] => Ok s
  | rr :: rrs =>
      s ← (if (rr_TTL rr =? 0)%Z then Ok (notifyRemoval i rr s)
           else notifyAddition (λ path, clk (i :: path)) i rr s);
      notify_records clk (S i) rrs s
  end.

Definition handleResponse (clk : Clock) (msg : Message) (s : Server) : result Server :=
  let allRecords := m_Answers msg ++ m_Additionals msg in
  let s := cache_records (λ i, clk [0; i]) 0 allRecords s in
  notify_records (λ path, clk (1 :: path)) 0 allRecords s.

(** ** Packets *)

Definition handlePacket (clk : Clock) (data : list byte) (from : UDPAddr) (s : Server)
    : result (Server * list output) :=
  if length data <? 12 then Ok (s, []) else
  match UnpackMessage data with
  | Err _ => Ok (s, [])
  | Ok msg =>
      if negb (m_ID msg =? 0)%Z then
        if IsQuery msg && negb (addr_Port from =? cfg_Port (s_config s))%Z
        then Ok (s, handleLegacyQuery msg from s) else Ok (s, [])
      else if negb (IsValidmDNS msg) then Ok (s, [])
      else if negb (isLocalSubnet (s_localSubnets s) (addr_IP from)) then Ok (s, [])
      else if IsQuery msg then handleQuery clk msg from s
      else s ← handleResponse clk msg s; Ok (s, [])
  end.

(** ** Housekeeping *)

(** One entry of [passiveLast] in [handlePassiveObservation]; [LookupName] reads
    the clock again, at [now2 name]. *)
Definition passive_entry (now : Z) (now2 : gostring -> Z) (s : Server) (e : gostring * Z) : Server :=
  let '(name, lastSeen) := e in
  let queryCount := default 0%Z (s_passiveSeen s !! name) in
  let s := if (3 <=? queryCount)%Z && (now - lastSeen <? 30 * Second)%Z
           then with_cache (cap_ttls (now2 name) (lowerName name) (s_cache s)) s else s in
  if (60 * Second <? now - lastSeen)%Z
  then with_passive (delete name (s_passiveSeen s)) (delete name (s_passiveLast s)) s else s.

Definition handlePassiveObservation (now : Z) (now2 : gostring -> Z) (s : Server) : Server :=
  foldl (passive_entry now now2) s (visit 0 (map_to_list (s_passiveLast s))).

Definition handleCacheMaintenance (clk : nat -> gostring -> Z * Z * Z) (s : Server)
    : list output :=
  mjoin ((λ p : nat, match s_bheap s !! p with
                     | Some b => Multicast <$> refreshExpiringRecords (clk p) (s_cache s) b
                     | None => []
                     end)
    <$> (visit 1 (map_to_list (s_browsers s))).*2).

(** A tick of [cacheLoop]. *)
Definition cacheTick (clk : Clock) (clkb : nat -> gostring -> Z * Z * Z) (s : Server)
    : Server * list output :=
  let s := with_cache (Expire (clk [0]) (s_cache s)).1 s in
  let s := handlePassiveObservation (clk [1]) (λ name, clk (3 :: (Z.to_nat ∘ b2z <$> name))) s in
  let out := handleCacheMaintenance clkb s in
  (with_rate (cleanupRateTracker (clk [2]) (s_rateTracker s)) s, out).

(** The end of [probeHostRecords], once its probes have been sent: the host
    records are cached and announced. *)
Definition hostRecordsProbed (clk : Clock) (s : Server) : Server * list output :=
  let c := foldl (λ c e, (Upsert (clk [0; e.1]) e.2 c).1) (s_cache s)
             (imap pair (s_hostRecords s)) in
  let s := with_hostProbed true (with_cache c s) in
  sendResponseMulticast (λ path, clk (1 :: path)) (s_hostRecords s) s.

(** [Close]: the goodbyes of the announced services. *)
Definition Close_goodbyes (s : Server) : list output :=
  mjoin ((λ svc : service, if announced svc then sendGoodbye (rs_records svc.2) else [])
    <$> visit 0 (services_of s)).

(** ** Browsers *)

(** [Browse]: the new browser gets a fresh address and takes over the entry of its
    service type. *)
Definition Browse (serviceType : gostring) (s : Server) : Server * nat :=
  let b := newBrowser (s_config s) serviceType in
  let p := fresh (dom (s_bheap s)) in
  (with_browsers (<[lowerName (b_serviceType b) := p]> (s_browsers s))
     (with_bheap (<[p := b]> (s_bheap s)) s), p).

(** [b.Start()] *)
Definition StartBrowser (p : nat) (s : Server) : Server :=
  with_bheap (alter (fst ∘ Browser_Start) p (s_bheap s)) s.

(** [b.Stop()]: the entry of the service type is deleted, whichever browser it
    holds; a browser that does not run is left alone. *)
Definition StopBrowser (p : nat) (s : Server) : result Server :=
  match s_bheap s !! p with
  | None => Ok s
  | Some b =>
      b' ← Browser_Stop b;
      let s := with_bheap (<[p := b']> (s_bheap s)) s in
      Ok (if b_running b
          then with_browsers (delete (lowerName (b_serviceType b)) (s_browsers s)) s else s)
  end.

(** [<-events] *)
Definition ReceiveEvent (p i : nat) (s : Server) : Server :=
  with_bheap (alter (take_event i) p (s_bheap s)) s.

(** A query of [browseLoop], which ends once [cancel] is closed. *)
Definition QueryBrowser (p : nat) (s : Server) : list output :=
  match s_bheap s !! p with
  | Some b => if b_running b && negb (b_cancelled b) then Multicast <$> sendQuery b else []
  | None => []
  end.

(** The accessors of the advertised name and addresses. *)
Definition HostName (s : Server) : gostring := cfg_HostName (s_config s).
Definition HostIPs (s : Server) : list IP := s_hostIPs s.

Definition Services (s : Server) : list ServiceInstance := (visit 0 (services_of s)).*1.

(** ** Registration *)

Definition service_key (svc : ServiceInstance) : gostring :=
  lowerName (normalizeName (InstanceName svc)).

(** The defaults [RegisterService] writes into the caller's [ServiceInstance]. *)
Definition with_defaults (s : Server) (svc : ServiceInstance) : ServiceInstance :=
  mkService (si_Type svc) (si_Name svc)
    (if bool_decide (si_Domain svc = []) then cfg_Domain (s_config s) else si_Domain svc)
    (if bool_decide (si_Host svc = []) then cfg_HostName (s_config s) else si_Host svc)
    (si_Port svc) (if bool_decide (si_IPs svc = []) then s_hostIPs s else si_IPs svc)
    (si_Text svc) (si_Priority svc) (si_Weight svc) (si_TTL svc).

(** [ip] points to the caller's [ServiceInstance]; the new [registeredService] gets
    a fresh address. *)
Definition RegisterService (ip : nat) (s : Server) : Server * result (list output) :=
  match s_instances s !! ip with
  | None => (s, Err Panic)
  | Some svc =>
      if bool_decide (si_Name svc = []) || bool_decide (si_Type svc = [])
      then (s, Err ErrServiceNameType) else
      let svc := with_defaults s svc in
      let s := with_instances (<[ip := svc]> (s_instances s)) s in
      match s_services s !! service_key svc with
      | Some _ => (s, Err (ErrServiceRegistered (InstanceName svc)))
      | None =>
          let p := fresh (dom (s_heap s)) in
          let rs := mkRS ip (generateServiceRecords svc) stateIdle false in
          (with_services (<[service_key svc := p]> (s_services s))
             (with_heap (<[p := rs]> (s_heap s)) s), Ok [Probe p])
      end
  end.

Definition UnregisterService (ip : nat) (s : Server) : Server * result (list output) :=
  match s_instances s !! ip with
  | None => (s, Err Panic)
  | Some svc =>
      match s_services s !! service_key svc with
      | None => (s, Err (ErrServiceNotRegistered (InstanceName svc)))
      | Some p =>
          (with_services (delete (service_key svc) (s_services s)) s,
           Ok (match s_heap s !! p with
               | Some rs => if decide (rs_state rs = stateAnnounced)
                            then sendGoodbye (rs_records rs) else []
               | None => []
               end))
      end
  end.

(** [String] *)
Definition Server_String (s : Server) : gostring :=
  go "mdns.Server{port=" ++ Itoa (cfg_Port (s_config s)) ++ go ", hostname="
  ++ cfg_HostName (s_config s) ++ go ", services=" ++ Itoa (Z.of_nat (size (s_services s)))
  ++ go ", browsers=" ++ Itoa (Z.of_nat (size (s_browsers s))) ++ go "}".

(** The configuration of the server [LookupHost] and [LookupService] start. *)
Definition lookup_config (port : Z) : Config :=
  let port := if (port =? 0)%Z then DefaultPort else port in
  mkConfig port (cfg_Domain DefaultConfig) (cfg_EnableIPv6 DefaultConfig)
    (cfg_HostName DefaultConfig) (cfg_Interfaces DefaultConfig).

(** ** The critical sections of probeService *)

Definition start_probing (p : nat) (s : Server) : Server :=
  with_heap (alter (set_state stateProbing) p (s_heap s)) s.

(** [rs.state = stateAnnounced; close(rs.probeCh)] *)
Definition finish_probing (p : nat) (s : Server) : result Server :=
  match s_heap s !! p with
  | None => Err Panic
  | Some rs =>
      rs' ← close_probeCh (set_state stateAnnounced rs);
      Ok (with_heap (<[p := rs']> (s_heap s)) s)
  end.

Definition handleConflictRename (p : nat) (s : Server) : Server * list output :=
  match deref s p with
  | None => (s, [])
  | Some (svc, rs) =>
      let oldName := si_Name svc in
      let svc' := set_Name (incrementNameSuffix oldName) svc in
      let rs' := mkRS (rs_instance rs) (generateServiceRecords svc') stateIdle false in
      let oldKey := lowerName (oldName ++ [dot] ++ ServiceType svc') in
      let newKey := service_key svc' in
      (with_services (<[newKey := p]> (delete oldKey (s_services s)))
         (with_heap (<[p := rs']> (s_heap s))
           (with_instances (<[rs_instance rs := svc']> (s_instances s)) s)), [Probe p])
  end.

End Handlers.
