(* ===== verification/Probing.v ===== *)
(** * The goroutines of the server as a step relation (service.go, server.go)

    A [world] is a server, its connection, the goroutines that run, how far [Close] has
    come, and what has been sent.  The goroutines are the receive loop,
    [probeHostRecords] and one [probeService] per service that is probed; each has a
    program counter, and each step is one of its critical sections or sends.  Steps of goroutines, deferred
    responses, ticks of [cacheLoop], queries of browsers and calls of the API
    interleave freely.  What a step sends goes through [WriteMulticast] or [WriteTo] of
    the connection (multicast.go), which [Close] closes.  A goroutine may stop where it waits for the server to close or
    where its send can fail.  A panic ends the program ([Crashed]).

    The receive loop takes one packet at a time.  [handleQuery] gives up the lock
    between two authority records and before it looks at the questions, which are steps
    of their own; every other packet is handled in one step, as [handleResponse] holds
    the lock throughout. *)

From S2P Require Export Server ServiceSpec Multicast.

(** ** Goroutines *)

(** Where a [probeService(rs)] goroutine stands; [sent] counts its probes. *)
Inductive pc :=
  | PStart                                   (* before [rs.state = stateProbing] *)
  | PDelay                                   (* in the initial delay *)
  | PProbe (msg : Message) (sent : nat)      (* about to pack and send a probe *)
  | PWait (msg : Message) (sent : nat)       (* between probes, or after the last *)
  | PDecide (seen : serviceState)            (* has read [rs.state], before acting on it *)
  | PAnnounce (again : bool).                (* about to announce; [again]: the second time *)

(** Where the [probeHostRecords] goroutine stands. *)
Inductive host_pc :=
  | HDelay                                   (* in the initial delay *)
  | HProbe (msg : Message) (sent : nat)      (* about to pack and send a probe *)
  | HWait (msg : Message) (sent : nat)       (* between probes, or after the last *)
  | HDone.                                   (* has returned *)

(** Where the receive loop stands: it waits for a packet, or it handles a query. *)
Inductive recv_pc :=
  | RIdle
  | RProbes (msg : Message) (from : UDPAddr) (n : nat) (nss : list ResourceRecord)
                                             (* the authorities left, the next one the n-th visit *)
  | RAnswer (msg : Message) (from : UDPAddr). (* before the read lock *)

(** How far [Close] has come: not called, goodbyes sent, sockets closed. *)
Inductive close_pc := COpen | CGoodbyes | CClosed.

#[export] Instance close_pc_eq_dec : EqDecision close_pc.
Proof. solve_decision. Defined.

Record world := World {
  w_server : Server;
  w_conn : MulticastConn;                    (* [s.conn] *)
  w_host : host_pc;
  w_recv : recv_pc;
  w_threads : gmap nat (nat * pc);           (* goroutine -> service pointer, program counter *)
  w_close : close_pc;
  w_sent : list (nat * output)               (* what goroutines and handlers emitted *)
}.

(** Handlers run under the identity 0, [probeHostRecords] under the identity 1. *)
Definition main_thread : nat := 0.
Definition host_thread : nat := 1.

(** ** Sending *)

(** What package net documents: a write to a closed socket fails.  Any other failure of
    a send of a goroutine is a step [Stop] or [HostStop]. *)
Definition socket_error (k : socket) (mc : MulticastConn) : option gostring :=
  if mc_closed mc then Some (go "use of closed network connection") else None.

(** [s.conn.WriteMulticast(data)]: the connection after it, and the error. *)
Definition write_multicast (mc : MulticastConn) : MulticastConn * option gostring :=
  let '(mc', _, _, err) := WriteMulticast (socket_error V4 mc) (socket_error V6 mc) mc in (mc', err).

(** [s.conn.WriteTo(data, to)]: the error. *)
Definition write_to (to : UDPAddr) (mc : MulticastConn) : option gostring :=
  socket_error (WriteTo to mc) mc.

(** Writes an output of a handler; the second component tells whether it got out.  A
    deferred response and a new goroutine write nothing yet. *)
Definition write (o : output) (mc : MulticastConn) : MulticastConn * bool :=
  match o with
  | Multicast _ => let '(mc', err) := write_multicast mc in (mc', bool_decide (err = None))
  | Unicast _ to => (mc, bool_decide (write_to to mc = None))
  | Respond _ _ _ _ _ | Probe _ => (mc, true)
  end.

(** The outputs of a step, in order, and those that got out. *)
Fixpoint write_all (outs : list output) (mc : MulticastConn) : MulticastConn * list output :=
  match outs with
  | [] => (mc, [])
  | o :: outs =>
      let '(mc, out) := write o mc in
      let '(mc, gone) := write_all outs mc in
      (mc, if out then o :: gone else gone)
  end.

Definition emit (t : nat) (outs : list output) (w : world) : world :=
  let '(mc, gone) := write_all outs (w_conn w) in
  World (w_server w) mc (w_host w) (w_recv w) (w_threads w) (w_close w) (w_sent w ++ (pair t <$> gone)).

(** [s.conn.WriteMulticast(data)] of a goroutine, which returns on an error. *)
Definition multicast_fails (w : world) : bool := bool_decide ((write_multicast (w_conn w)).2 <> None).

Definition set_server (s : Server) (w : world) : world :=
  World s (w_conn w) (w_host w) (w_recv w) (w_threads w) (w_close w) (w_sent w).

Definition set_host (c : host_pc) (w : world) : world :=
  World (w_server w) (w_conn w) c (w_recv w) (w_threads w) (w_close w) (w_sent w).

Definition set_recv (c : recv_pc) (w : world) : world :=
  World (w_server w) (w_conn w) (w_host w) c (w_threads w) (w_close w) (w_sent w).

Definition set_close (c : close_pc) (w : world) : world :=
  World (w_server w) (w_conn w) (w_host w) (w_recv w) (w_threads w) c (w_sent w).

(** [s.conn.Close()] *)
Definition close_conn (w : world) : world :=
  World (w_server w) (Conn_Close (w_conn w)).1 (w_host w) (w_recv w) (w_threads w) CClosed (w_sent w).

Definition set_pc (t : nat) (p : nat) (c : pc) (w : world) : world :=
  World (w_server w) (w_conn w) (w_host w) (w_recv w) (<[t := (p, c)]> (w_threads w)) (w_close w) (w_sent w).

Definition kill (t : nat) (w : world) : world :=
  World (w_server w) (w_conn w) (w_host w) (w_recv w) (delete t (w_threads w)) (w_close w) (w_sent w).

(** [go s.probeService(rs)] *)
Definition spawn (p : nat) (w : world) : world :=
  set_pc (fresh ({[main_thread; host_thread]} ∪ dom (w_threads w))) p PStart w.

Definition spawns (outs : list output) (w : world) : world :=
  foldl (λ w o, match o with Probe p => spawn p w | _ => w end) w outs.

(** A response that was started and is now sent. *)
Definition responds (answers additionals : list ResourceRecord) (to : option UDPAddr)
    (o : nat * output) : bool :=
  match o.2 with
  | Respond _ _ a x t =>
      bool_decide (a = answers) && bool_decide (x = additionals) && bool_decide (t = to)
  | _ => false
  end.

(** The next step of goroutine [t], which is at [c] for the service [p].  A wait
    may also end because the server is closed ([stop]). *)
Section Threads.
  Context `{UnicodeTables}.

Definition records_at (p : nat) (s : Server) : list ResourceRecord :=
  match s_heap s !! p with Some rs => rs_records rs | None => [] end.

Definition state_at (p : nat) (s : Server) : serviceState :=
  match s_heap s !! p with Some rs => rs_state rs | None => stateIdle end.

(** [announceService]: the first announcement, or the second, a second later. *)
Definition announceService (clk : Clock) (t p : nat) (again : bool) (w : world) : world :=
  let '(s', outs) := sendResponseMulticast clk (records_at p (w_server w)) (w_server w) in
  let w := emit t outs (set_server s' w) in
  if again then kill t w else set_pc t p (PAnnounce true) w.

(** [None] is a panic. *)
Definition thread_step (clk : Clock) (t p : nat) (c : pc) (w : world) : option world :=
  let s := w_server w in
  match c with
  | PStart => Some (set_pc t p PDelay (set_server (start_probing p s) w))
  | PDelay => Some (set_pc t p (PProbe (buildProbeMessage (records_at p s)) 0) w)
  | PProbe msg sent =>
      match Pack msg with
      | Err _ => Some (kill t w)
      | Ok data =>
          let w' := emit t [Multicast data] w in
          Some (if multicast_fails w then kill t w' else set_pc t p (PWait msg (S sent)) w')
      end
  | PWait msg sent =>
      if (Z.of_nat sent <? DefaultProbeCount)%Z then Some (set_pc t p (PProbe msg sent) w)
      else Some (set_pc t p (PDecide (state_at p s)) w)
  | PDecide seen =>
      if decide (seen = stateConflictLost) then
        let '(s', outs) := handleConflictRename p s in
        Some (spawns outs (kill t (set_server s' w)))
      else match finish_probing p s with
           | Ok s' => Some (set_pc t p (PAnnounce false) (set_server s' w))
           | Err _ => None
           end
  | PAnnounce again => Some (announceService clk t p again w)
  end.

(** The program counters at which a goroutine may return: it waits for
    [s.ctx.Done()], or its [WriteMulticast] may fail. *)
Definition interruptible (c : pc) : bool :=
  match c with
  | PDelay | PAnnounce true => true
  | PProbe _ _ | PWait _ _ => true
  | _ => false
  end.

(** The next step of [probeHostRecords]. *)
Definition host_step (clk : Clock) (w : world) : option world :=
  let s := w_server w in
  match w_host w with
  | HDelay => Some (set_host (HProbe (buildProbeMessage (s_hostRecords s)) 0) w)
  | HProbe msg sent =>
      Some (match Pack msg with
            | Err _ => set_host HDone w
            | Ok data =>
                let w' := emit host_thread [Multicast data] w in
                if multicast_fails w then set_host HDone w' else set_host (HWait msg (S sent)) w'
            end)
  | HWait msg sent =>
      if (Z.of_nat sent <? DefaultProbeCount)%Z then Some (set_host (HProbe msg sent) w)
      else let '(s', outs) := hostRecordsProbed clk s in
           Some (set_host HDone (emit host_thread outs (set_server s' w)))
  | HDone => None
  end.

(** ** The receive loop *)

(** The query that [handlePacket] hands to [handleQuery], if it does. *)
Definition accepted_query (data : list byte) (from : UDPAddr) (s : Server) : option Message :=
  if length data <? 12 then None else
  match UnpackMessage data with
  | Err _ => None
  | Ok msg =>
      if (m_ID msg =? 0)%Z && IsValidmDNS msg && isLocalSubnet (s_localSubnets s) (addr_IP from)
         && IsQuery msg
      then Some msg else None
  end.

(** A packet is taken off the channel: a query is handled step by step. *)
Definition recv_packet `{MapOrder} (clk : Clock) (data : list byte) (from : UDPAddr) (s : Server)
    : result (recv_pc * Server * list output) :=
  match accepted_query data from s with
  | Some msg => Ok (RProbes msg from (first_probe_visit msg) (m_Authorities msg), s, [])
  | None => '(s, outs) ← handlePacket clk data from s; Ok (RIdle, s, outs)
  end.

(** The next step of [handleQuery]. *)
Definition recv_step `{MapOrder} (clk : Clock) (c : recv_pc) (s : Server)
    : result (recv_pc * Server * list output) :=
  match c with
  | RIdle => Ok (RIdle, s, [])
  | RProbes msg from n (ns :: nss) =>
      '(s, outs) ← handleProbe n ns s; Ok (RProbes msg from (S n) nss, s, outs)
  | RProbes msg from n [] => Ok (RAnswer msg from, track_query clk msg from s, [])
  | RAnswer msg from => Ok (RIdle, s, answer_query clk msg from s)
  end.

(** ** The step relation *)

Inductive event :=
  | Thread (t : nat) (clk : Clock)
  | Stop (t : nat)
  | Host (clk : Clock)
  | HostStop
  | Packet (clk : Clock) (data : list byte) (from : UDPAddr)
  | Recv (clk : Clock)
  | Register (ip : nat)
  | Unregister (ip : nat)
  | Deferred (clk : Clock) (answers additionals : list ResourceRecord) (to : option UDPAddr)
  | Tick (clk : Clock) (clkb : nat -> gostring -> Z * Z * Z)
  | NewBrowser (serviceType : gostring)
  | BrowserStart (p : nat)
  | BrowserStop (p : nat)
  | BrowserQuery (p : nat)
  | Receive (p i : nat)
  | Close
  | CloseSockets.

Inductive outcome := Running (w : world) | Crashed.

Definition idle (w : world) : bool := match w_recv w with RIdle => true | _ => false end.

(** What a step of the receive loop leaves. *)
Definition received (r : result (recv_pc * Server * list output)) (w : world) : outcome :=
  match r with
  | Ok (c, s, outs) => Running (emit main_thread outs (set_recv c (set_server s w)))
  | Err _ => Crashed
  end.

(** [None]: the event cannot happen. *)
Definition world_step `{MapOrder} (e : event) (w : world) : option outcome :=
  match e with
  | Thread t clk =>
      '(p, c) ← w_threads w !! t;
      Some (match thread_step clk t p c w with Some w' => Running w' | None => Crashed end)
  | Stop t =>
      '(p, c) ← w_threads w !! t;
      if interruptible c then Some (Running (kill t w)) else None
  | Host clk => Running <$> host_step clk w
  | HostStop => Some (Running (set_host HDone w))
  | Packet clk data from =>
      if idle w then Some (received (recv_packet clk data from (w_server w)) w) else None
  | Recv clk => if idle w then None else Some (received (recv_step clk (w_recv w) (w_server w)) w)
  | Register ip =>
      if bool_decide (is_Some (s_instances (w_server w) !! ip)) then
        let '(s', r) := RegisterService ip (w_server w) in
        Some (Running (match r with
                       | Ok outs => spawns outs (set_server s' w)
                       | Err _ => set_server s' w
                       end))
      else None
  | Unregister ip =>
      if bool_decide (is_Some (s_instances (w_server w) !! ip)) then
        let '(s', r) := UnregisterService ip (w_server w) in
        Some (Running (match r with
                       | Ok outs => emit main_thread outs (set_server s' w)
                       | Err _ => set_server s' w
                       end))
      else None
  | Deferred clk answers additionals to =>
      if existsb (responds answers additionals to) (w_sent w)
      then let '(s', outs) := sendResponseWithAdditional clk answers additionals to (w_server w) in
           Some (Running (emit main_thread outs (set_server s' w)))
      else None
  | Tick clk clkb =>
      let '(s', outs) := cacheTick clk clkb (w_server w) in
      Some (Running (emit main_thread outs (set_server s' w)))
  | NewBrowser serviceType => Some (Running (set_server (Browse serviceType (w_server w)).1 w))
  | BrowserStart p => Some (Running (set_server (StartBrowser p (w_server w)) w))
  | BrowserStop p =>
      Some (match StopBrowser p (w_server w) with
            | Ok s' => Running (set_server s' w)
            | Err _ => Crashed
            end)
  | BrowserQuery p => Some (Running (emit main_thread (QueryBrowser p (w_server w)) w))
  | Receive p i => Some (Running (set_server (ReceiveEvent p i (w_server w)) w))
  | Close =>
      if decide (w_close w = COpen)
      then Some (Running (set_close CGoodbyes (emit main_thread (Close_goodbyes (w_server w)) w)))
      else None
  | CloseSockets =>
      if decide (w_close w = CGoodbyes) then Some (Running (close_conn w)) else None
  end.

(** Every order of every map may be met at every step. *)
Definition steps_to (w w' : world) : Prop :=
  exists (o : MapOrder) e, @world_step o e w = Some (Running w').

(** A world to start from, as [Start] leaves it: no services and browsers yet, the
    callers' instances at hand, and the host records, if any, about to be probed. *)
Definition initial (w : world) : Prop :=
  s_heap (w_server w) = ∅ /\ s_services (w_server w) = ∅ /\ s_bheap (w_server w) = ∅ /\
  s_browsers (w_server w) = ∅ /\ s_hostProbed (w_server w) = false /\
  w_host w = (if bool_decide (s_hostRecords (w_server w) = []) then HDone else HDelay) /\
  w_threads w = ∅ /\ w_sent w = [] /\ w_recv w = RIdle /\ w_close w = COpen /\
  mc_closed (w_conn w) = false.

Definition reachable (w : world) : Prop := exists w0, initial w0 /\ rtc steps_to w0 w.

End Threads.
