(* ===== verification/ProbingSpec.v ===== *)
(** * The probing protocol is safe

    An invariant of every reachable world, by induction on the steps: each
    service is probed by at most one goroutine, its state agrees with the
    goroutine's program counter and with its channel, and it is announced only
    after three probes with its records have been multicast. *)

From S2P Require Export Probing.

#[export] Instance output_eq_dec : EqDecision output.
Proof. solve_decision. Defined.

Section ProbingSpec.
  Context `{UnicodeTables}.

(** ** Probes sent *)

Definition times_sent (t : nat) (data : list byte) (sent : list (nat * output)) : nat :=
  length (filter (λ o, o = (t, Multicast data)) sent).

(** Goroutine [t] has multicast the probe of [records] [n] times. *)
Definition probed (sent : list (nat * output)) (t : nat) (records : list ResourceRecord) (n : nat)
    : Prop :=
  n = 0 \/ exists data, Pack (buildProbeMessage records) = Ok data /\ n <= times_sent t data sent.

Lemma probed_mono sent more t records n :
  probed sent t records n -> probed (sent ++ more) t records n.
Proof.
  intros [->|(data & Hp & Hn)]; [by left|]. right. exists data. split; [done|].
  unfold times_sent in *. rewrite filter_app, length_app. lia.
Qed.

Lemma probed_send sent t records n data :
  Pack (buildProbeMessage records) = Ok data -> probed sent t records n ->
  probed (sent ++ [(t, Multicast data)]) t records (S n).
Proof.
  intros Hp Hn. right. exists data. split; [done|]. unfold times_sent.
  rewrite filter_app, length_app, filter_cons. rewrite decide_True by done. simpl.
  destruct Hn as [->|(data' & Hp' & Hn)]; [lia|].
  rewrite Hp in Hp'. injection Hp' as <-. unfold times_sent in Hn. lia.
Qed.

Lemma probed_le sent t records n m : m <= n -> probed sent t records n -> probed sent t records m.
Proof.
  intros Hle [->|(data & Hp & Hn)]; [left; lia|]. right. exists data. split; [done|lia].
Qed.

(** ** The invariant *)

(** The states a service can be in while its goroutine probes. *)
Definition losing (rs : registeredService) : Prop :=
  rs_state rs = stateProbing \/ rs_state rs = stateConflictLost.

Definition pc_inv (sent : list (nat * output)) (t : nat) (rs : registeredService) (c : pc) : Prop :=
  match c with
  | PStart => rs_state rs = stateIdle
  | PDelay => losing rs
  | PProbe msg n | PWait msg n =>
      losing rs /\ msg = buildProbeMessage (rs_records rs) /\ probed sent t (rs_records rs) n
  | PDecide seen =>
      losing rs /\ (seen = stateProbing \/ seen = rs_state rs) /\ losing (set_state seen rs) /\
      probed sent t (rs_records rs) 3
  | PAnnounce _ => rs_state rs = stateAnnounced
  end.

(** The channel is closed exactly when probing is over, and an announced service
    has been probed. *)
Definition rs_inv (sent : list (nat * output)) (rs : registeredService) : Prop :=
  (rs_probeClosed rs = true <-> rs_state rs = stateAnnounced \/ rs_state rs = stateConflictLost) /\
  (rs_state rs = stateAnnounced -> exists t, probed sent t (rs_records rs) 3).

Record world_inv (w : world) : Prop := {
  inv_heap : map_Forall (λ _ rs, rs_inv (w_sent w) rs /\
               is_Some (s_instances (w_server w) !! rs_instance rs)) (s_heap (w_server w));
  inv_threads : map_Forall (λ t e, exists rs, s_heap (w_server w) !! e.1 = Some rs /\
                  pc_inv (w_sent w) t rs e.2) (w_threads w);
  inv_unique : forall t t' p c c', w_threads w !! t = Some (p, c) ->
                 w_threads w !! t' = Some (p, c') -> t = t';
  inv_services : map_Forall (λ _ p, is_Some (s_heap (w_server w) !! p)) (s_services (w_server w));
  inv_main : w_threads w !! main_thread = None
}.

Lemma pc_inv_mono sent more t rs c : pc_inv sent t rs c -> pc_inv (sent ++ more) t rs c.
Proof.
  destruct c; cbn; [done|done|..|done]; intros; destruct_and?; split_and?; eauto using probed_mono.
Qed.

Lemma rs_inv_mono sent more rs : rs_inv sent rs -> rs_inv (sent ++ more) rs.
Proof.
  intros [Hc Ha]. split; [done|]. intros [t Ht]%Ha. exists t. by apply probed_mono.
Qed.

(** A write does not close the connection, and gets out while it is open. *)
Lemma write_keeps o mc : mc_closed (write o mc).1 = mc_closed mc.
Proof.
  destruct o; [|done..]. unfold write, write_multicast, WriteMulticast, WriteMulticastV4, socket_error.
  destruct (mc_closed mc) eqn:E; [|by cbn]. by destruct (isRouteError _).
Qed.

Lemma write_open o mc : mc_closed mc = false -> (write o mc).2 = true.
Proof.
  intros Ho. destruct o; [|by cbn; unfold write_to, socket_error; rewrite Ho|done..].
  unfold write, write_multicast, WriteMulticast, WriteMulticastV4, socket_error. by rewrite Ho.
Qed.

Lemma write_all_keeps outs mc : mc_closed (write_all outs mc).1 = mc_closed mc.
Proof.
  revert mc. induction outs as [|o outs IH]; intros mc; [done|]. cbn [write_all].
  pose proof (write_keeps o mc) as Ho. destruct (write o mc) as [mc' out]. cbn in Ho.
  specialize (IH mc'). destruct (write_all outs mc') as [mc'' gone]. cbn in *. congruence.
Qed.

Lemma write_all_open outs mc : mc_closed mc = false -> (write_all outs mc).2 = outs.
Proof.
  revert mc. induction outs as [|o outs IH]; intros mc Hc; [done|]. cbn [write_all].
  pose proof (write_keeps o mc) as Hk. pose proof (write_open o mc Hc) as Ho.
  destruct (write o mc) as [mc' out]. cbn in Hk, Ho. subst out.
  specialize (IH mc' ltac:(congruence)). destruct (write_all outs mc'). cbn in *. by rewrite IH.
Qed.

Lemma emit_eq t outs w :
  emit t outs w = World (w_server w) (write_all outs (w_conn w)).1 (w_host w) (w_recv w) (w_threads w)
    (w_close w) (w_sent w ++ (pair t <$> (write_all outs (w_conn w)).2)).
Proof. unfold emit. by destruct (write_all outs (w_conn w)). Qed.

Lemma emit_server t outs w : w_server (emit t outs w) = w_server w.
Proof. by rewrite emit_eq. Qed.

Lemma emit_threads t outs w : w_threads (emit t outs w) = w_threads w.
Proof. by rewrite emit_eq. Qed.

Lemma emit_closed t outs w : mc_closed (w_conn (emit t outs w)) = mc_closed (w_conn w).
Proof. rewrite emit_eq. apply write_all_keeps. Qed.

Lemma emit_nil t w : emit t [] w = w.
Proof. destruct w. unfold emit. cbn. by rewrite app_nil_r. Qed.

Lemma emit_inv t outs w : world_inv w -> world_inv (emit t outs w).
Proof.
  rewrite emit_eq. intros [Hh Ht Hu Hs Hm]. split; cbn; try done.
  - intros p rs Hp. destruct (Hh p rs Hp) as [Hi Hx]. split; [by apply rs_inv_mono|done].
  - intros t' e He. destruct (Ht t' e He) as (rs & Hp & Hi). exists rs.
    split; [done|]. by apply pc_inv_mono.
Qed.

(** The connection is still open: everything is sent. *)
Lemma emit_open t outs w :
  mc_closed (w_conn w) = false -> w_sent (emit t outs w) = w_sent w ++ (pair t <$> outs).
Proof. intros Hc. rewrite emit_eq. cbn. by rewrite write_all_open. Qed.

(** A goroutine's send succeeds exactly while the connection is open. *)
Lemma multicast_fails_closed w : multicast_fails w = mc_closed (w_conn w).
Proof.
  unfold multicast_fails, write_multicast, WriteMulticast, WriteMulticastV4, socket_error.
  destruct (mc_closed (w_conn w)) eqn:E; [by destruct (isRouteError _)|done].
Qed.

Lemma close_conn_inv w : world_inv w -> world_inv (close_conn w).
Proof. by intros []. Qed.

Lemma set_recv_inv c w : world_inv w -> world_inv (set_recv c w).
Proof. by intros []. Qed.

Lemma set_close_inv c w : world_inv w -> world_inv (set_close c w).
Proof. by intros []. Qed.

Lemma kill_inv t w : world_inv w -> world_inv (kill t w).
Proof.
  intros [Hh Ht Hu Hs Hm]. split; cbn; try done.
  - intros t' e [_ He]%lookup_delete_Some. by apply Ht.
  - intros t1 t2 p c c' [_ H1]%lookup_delete_Some [_ H2]%lookup_delete_Some. by eapply Hu.
  - rewrite lookup_delete_None. by right.
Qed.

(** A goroutine moves on, its service staying as it is. *)
Lemma set_pc_inv t p c c' w rs :
  world_inv w -> w_threads w !! t = Some (p, c) -> s_heap (w_server w) !! p = Some rs ->
  pc_inv (w_sent w) t rs c' -> world_inv (set_pc t p c' w).
Proof.
  intros [Hh Ht Hu Hs Hm] Hthr Hp Hi. split; cbn; try done.
  - intros t' e [[<- <-]|[_ He]]%lookup_insert_Some; [by exists rs | by apply Ht].
  - intros t1 t2 p' c1 c2 [[<- E1]|[_ H1]]%lookup_insert_Some [[<- E2]|[_ H2]]%lookup_insert_Some.
    + done.
    + injection E1 as <- <-. by eapply Hu.
    + injection E2 as <- <-. by eapply Hu.
    + by eapply Hu.
  - rewrite lookup_insert_None. split; [done|]. intros ->. by rewrite Hthr in Hm.
Qed.

(** ** What handlers do to services *)

(** A handler only ever turns a probing service into one that lost. *)
Definition rs_evolves (rs rs' : registeredService) : Prop :=
  rs' = rs \/
  (rs_state rs = stateProbing /\ rs' = mkRS (rs_instance rs) (rs_records rs) stateConflictLost true).

Definition heap_evolves (h h' : gmap nat registeredService) : Prop :=
  forall p, option_Forall2 rs_evolves (h !! p) (h' !! p).

#[export] Instance heap_evolves_refl : Reflexive heap_evolves.
Proof. intros h p. destruct (h !! p); constructor. by left. Qed.

#[export] Instance heap_evolves_trans : Transitive heap_evolves.
Proof.
  intros h1 h2 h3 H12 H23 p. specialize (H12 p). specialize (H23 p).
  destruct H12 as [rs1 rs2 H12|]; inversion H23 as [? rs3 H23'|]; subst; constructor.
  destruct H12 as [->|[Hs ->]]; [done|]. destruct H23' as [->|[Hs' _]]; [by right|]. done.
Qed.

(** The host records and whether they have been probed stay as they are. *)
Definition keeps_host (s s' : Server) : Prop :=
  s_hostRecords s' = s_hostRecords s /\ s_hostProbed s' = s_hostProbed s.

(** What a handler leaves alone. *)
Definition evolves (s s' : Server) : Prop :=
  s_services s' = s_services s /\ s_instances s' = s_instances s /\
  heap_evolves (s_heap s) (s_heap s') /\ keeps_host s s'.

#[export] Instance evolves_refl : Reflexive evolves.
Proof. by intros s. Qed.

#[export] Instance evolves_trans : Transitive evolves.
Proof.
  intros s1 s2 s3 (E1 & F1 & G1 & H1 & I1) (E2 & F2 & G2 & H2 & I2).
  split_and!; [congruence | congruence | by etrans | split; congruence].
Qed.

#[export] Instance keeps_host_refl : Reflexive keeps_host.
Proof. by intros s. Qed.

#[export] Instance keeps_host_trans : Transitive keeps_host.
Proof. intros s1 s2 s3 [H1 I1] [H2 I2]. split; congruence. Qed.

Lemma losing_evolves rs rs' : rs_evolves rs rs' -> losing rs -> losing rs'.
Proof. intros [->|[_ ->]]; [done|]. by right. Qed.

Lemma pc_inv_evolves sent t rs rs' c : rs_evolves rs rs' -> pc_inv sent t rs c -> pc_inv sent t rs' c.
Proof.
  intros [->|[Hs ->]]; [done|]. assert (Hl : losing (mkRS (rs_instance rs) (rs_records rs)
    stateConflictLost true)) by (by right).
  destruct c; cbn; try congruence; try done; intros; destruct_and?; split_and?; try done.
Qed.

Lemma rs_inv_evolves sent rs rs' : rs_evolves rs rs' -> rs_inv sent rs -> rs_inv sent rs'.
Proof.
  intros [->|[Hs ->]]; [done|]. intros _. split; cbn; [|done]. split; [by right|done].
Qed.

Lemma evolves_inv w s' : evolves (w_server w) s' -> world_inv w -> world_inv (set_server s' w).
Proof.
  intros (Es & Ei & Eh & _) [Hh Ht Hu Hs Hm]. split; cbn; try done.
  - intros p rs' Hp. specialize (Eh p). rewrite Hp in Eh.
    inversion Eh as [rs ? Hev Ep|]; subst. symmetry in Ep. destruct (Hh p rs Ep) as [Hi Hx].
    split; [by eapply rs_inv_evolves|]. rewrite Ei. by destruct Hev as [->|[_ ->]].
  - intros t e He. destruct (Ht t e He) as (rs & Hp & Hi). specialize (Eh (e.1)).
    rewrite Hp in Eh. inversion Eh as [? rs' Hev|]; subst. exists rs'. split; [done|].
    by eapply pc_inv_evolves.
  - rewrite Es. intros k p Hk. destruct (Hs k p Hk) as [rs Hp]. specialize (Eh p).
    rewrite Hp in Eh. inversion Eh; subst. eauto.
Qed.

(** ** Handlers *)

(** While a service is probing its channel is open. *)
Definition probing_open (h : gmap nat registeredService) : Prop :=
  map_Forall (λ _ rs, rs_state rs = stateProbing -> rs_probeClosed rs = false) h.

Lemma world_probing_open w : world_inv w -> probing_open (s_heap (w_server w)).
Proof.
  intros [Hh _ _ _ _] p rs Hp Hs. destruct (Hh p rs Hp) as [[[Hc _] _] _].
  destruct (rs_probeClosed rs); [|done]. destruct (Hc eq_refl); congruence.
Qed.

Lemma probe_service_ok ns rs :
  (rs_state rs = stateProbing -> rs_probeClosed rs = false) ->
  exists rs' outs, probe_service ns rs = Ok (rs', outs) /\ rs_evolves rs rs'.
Proof.
  intros Hopen. unfold probe_service. destruct (_ && _) eqn:E.
  { exists rs, []. split; [done|by left]. }
  destruct (probe_conflict _ _ _) as [[] [c|]]; try (exists rs, []; split; [done|by left]).
  destruct (decide _) as [|Hna]; [eexists rs, _; split; [done|by left]|].
  destruct (probeLoses c ns); [|exists rs, []; split; [done|by left]].
  assert (Hs : rs_state rs = stateProbing).
  { apply andb_false_iff in E as [E|E]; apply negb_false_iff, bool_decide_eq_true in E; done. }
  unfold close_probeCh. cbn [set_state rs_probeClosed]. rewrite (Hopen Hs). cbn.
  eexists _, []. split; [reflexivity|]. right. done.
Qed.

Lemma heap_evolves_insert h p rs rs' :
  h !! p = Some rs -> rs_evolves rs rs' -> heap_evolves h (<[p := rs']> h).
Proof.
  intros Hp Hev q. destruct (decide (q = p)) as [->|Hne].
  - rewrite Hp, lookup_insert_eq. by constructor.
  - rewrite lookup_insert_ne by done. destruct (h !! q); constructor. by left.
Qed.

Lemma heap_evolves_open h h' : heap_evolves h h' -> probing_open h -> probing_open h'.
Proof.
  intros Hev Ho p rs' Hp Hs. specialize (Hev p). rewrite Hp in Hev.
  inversion Hev as [rs ? He Ep|]; subst. symmetry in Ep.
  destruct He as [->|[_ ->]]; [by eapply Ho | done].
Qed.

Lemma probe_services_ok ns ps : forall h,
  probing_open h -> exists h' outs, probe_services ns ps h = Ok (h', outs) /\ heap_evolves h h'.
Proof.
  induction ps as [|p ps IH]; intros h Ho; cbn [probe_services]; [by exists h, []|].
  destruct (h !! p) as [rs|] eqn:Hp; [|by apply IH].
  destruct (probe_service_ok ns rs (Ho p rs Hp)) as (rs' & out & -> & Hev). cbn [mbind result_bind].
  pose proof (heap_evolves_insert h p rs rs' Hp Hev) as Hev'.
  destruct (IH (<[p := rs']> h)) as (h' & outs & -> & Hev''); [by eapply heap_evolves_open|].
  cbn [mbind result_bind]. eexists _, _. split; [done|]. by etrans.
Qed.

Lemma evolves_heap h s : heap_evolves (s_heap s) h -> evolves s (with_heap h s).
Proof. by intros Hh. Qed.

Section WithOrder.
  Context `{MapOrder}.

Lemma handleProbe_ok n ns s :
  probing_open (s_heap s) ->
  exists s' outs, handleProbe n ns s = Ok (s', outs) /\ evolves s s'.
Proof.
  intros Ho. unfold handleProbe.
  destruct (probe_services_ok ns (visit n (map_to_list (s_services s)).*2) (s_heap s) Ho)
    as (h' & outs & -> & Hev). cbn [mbind result_bind]. eexists _, _. split; [done|].
  by apply evolves_heap.
Qed.

Lemma handleProbes_ok nss : forall n s,
  probing_open (s_heap s) ->
  exists s' outs, handleProbes n nss s = Ok (s', outs) /\ evolves s s'.
Proof.
  induction nss as [|ns nss IH]; intros n s Ho; cbn [handleProbes]; [by exists s, []|].
  destruct (handleProbe_ok n ns s Ho) as (s1 & out & -> & Hev1). cbn [mbind result_bind].
  destruct (IH (S n) s1) as (s2 & outs & -> & Hev2).
  { destruct Hev1 as (_ & _ & Hh & _). by eapply heap_evolves_open. }
  cbn [mbind result_bind]. eexists _, _. split; [done|]. by etrans.
Qed.

Lemma trackPassiveQueries_evolves clk i qs s : evolves s (trackPassiveQueries clk i qs s).
Proof.
  revert i s. induction qs as [|q qs IH]; intros i s; cbn [trackPassiveQueries]; [done|].
  by etrans; [|apply IH].
Qed.

Lemma cache_records_evolves clk i rrs s : evolves s (cache_records clk i rrs s).
Proof.
  revert i s. induction rrs as [|rr rrs IH]; intros i s; cbn [cache_records]; [done|].
  etrans; [|apply IH]. by case_if.
Qed.

Lemma notify_records_evolves clk i rrs s s' :
  notify_records clk i rrs s = Ok s' -> evolves s s'.
Proof.
  revert i s. induction rrs as [|rr rrs IH]; intros i s Hr; cbn [notify_records] in Hr.
  { by injection Hr as ->. }
  apply result_bind_Ok in Hr as (s1 & H1 & Hr%IH). etrans; [|exact Hr].
  case_if_in H1; [by injection H1 as <-|]. unfold notifyAddition in H1.
  by apply result_bind_Ok in H1 as (m & _ & [= <-]).
Qed.

Lemma track_query_evolves clk msg from s : evolves s (track_query clk msg from s).
Proof. unfold track_query. cbv zeta. case_if; [done|]. apply trackPassiveQueries_evolves. Qed.

Lemma handleQuery_ok clk msg from s :
  probing_open (s_heap s) ->
  exists s' outs, handleQuery clk msg from s = Ok (s', outs) /\ evolves s s'.
Proof.
  intros Ho. unfold handleQuery.
  destruct (handleProbes_ok (m_Authorities msg) (first_probe_visit msg) s Ho)
    as (s1 & out & -> & Hev). cbn [mbind result_bind]. eexists _, _. split; [reflexivity|].
  etrans; [exact Hev|]. apply track_query_evolves.
Qed.

Lemma handlePacket_evolves clk data from s s' outs :
  probing_open (s_heap s) -> handlePacket clk data from s = Ok (s', outs) -> evolves s s'.
Proof.
  intros Ho Hp. unfold handlePacket in Hp. case_if_in Hp; [by injection Hp as <- <-|].
  destruct (UnpackMessage data) as [msg|]; [|by injection Hp as <- <-].
  case_if_in Hp; [case_if_in Hp; by injection Hp as <- <-|].
  case_if_in Hp; [by injection Hp as <- <-|]. case_if_in Hp; [by injection Hp as <- <-|].
  case_if_in Hp.
  - destruct (handleQuery_ok clk msg from s Ho) as (s1 & o & E & Hev).
    rewrite E in Hp. by injection Hp as <- <-.
  - apply result_bind_Ok in Hp as (s1 & Hr & [= <- <-]). unfold handleResponse in Hr.
    apply notify_records_evolves in Hr. etrans; [|exact Hr]. apply cache_records_evolves.
Qed.

Lemma recv_packet_evolves clk data from s c s' outs :
  probing_open (s_heap s) -> recv_packet clk data from s = Ok (c, s', outs) -> evolves s s'.
Proof.
  intros Ho Hp. unfold recv_packet in Hp. destruct (accepted_query data from s); [by injection Hp as _ <- _|].
  apply result_bind_Ok in Hp as ([s1 o] & Hp & [= _ <- _]). by eapply handlePacket_evolves.
Qed.

Lemma recv_step_evolves clk c s c' s' outs :
  probing_open (s_heap s) -> recv_step clk c s = Ok (c', s', outs) -> evolves s s'.
Proof.
  intros Ho Hr. destruct c as [|msg from n [|ns nss]|msg from]; cbn [recv_step] in Hr.
  - by injection Hr as _ <- _.
  - injection Hr as _ <- _. apply track_query_evolves.
  - destruct (handleProbe_ok n ns s Ho) as (s1 & o & E & Hev). rewrite E in Hr.
    by injection Hr as _ <- _.
  - by injection Hr as _ <- _.
Qed.

End WithOrder.

(** ** New goroutines *)

(** A service of which no goroutine runs is (re)started. *)
Lemma spawn_inv w s' p rs :
  world_inv w -> (forall t c, w_threads w !! t <> Some (p, c)) ->
  s_heap s' = <[p := rs]> (s_heap (w_server w)) ->
  rs_state rs = stateIdle -> rs_probeClosed rs = false ->
  (forall ip, is_Some (s_instances (w_server w) !! ip) -> is_Some (s_instances s' !! ip)) ->
  is_Some (s_instances s' !! rs_instance rs) ->
  map_Forall (λ _ q, is_Some (s_heap s' !! q)) (s_services s') ->
  world_inv (spawn p (set_server s' w)).
Proof.
  intros [Hh Ht Hu Hs Hm] Hno Hheap Hidle Hopen Hins Hin Hsv.
  unfold spawn. cbn [set_server w_threads]. set (t := fresh _).
  assert (Hfresh : t ∉ ({[main_thread; host_thread]} ∪ dom (w_threads w) : gset nat)) by apply is_fresh.
  rewrite !not_elem_of_union, !not_elem_of_singleton, not_elem_of_dom in Hfresh.
  destruct Hfresh as [[Hmain _] Hnew]. split; cbn.
  - rewrite Hheap. intros q rs' [[<- <-]|[_ Hq]]%lookup_insert_Some.
    + split; [|done]. split; [|congruence]. rewrite Hidle, Hopen. split; [done|by intros []].
    + destruct (Hh q rs' Hq) as [Hi Hx]. split; [done|by apply Hins].
  - intros t' e [[<- <-]|[_ He]]%lookup_insert_Some; cbn.
    + exists rs. rewrite Hheap, lookup_insert_eq. done.
    + destruct (Ht t' e He) as (rs' & Hp' & Hi). exists rs'. split; [|done].
      rewrite Hheap, lookup_insert_ne; [done|]. intros E. destruct e as [p' c].
      cbn in E. subst p'. by apply (Hno t' c).
  - intros t1 t2 p' c1 c2 [[<- E1]|[_ H1]]%lookup_insert_Some [[<- E2]|[_ H2]]%lookup_insert_Some.
    + done.
    + injection E1 as <- <-. by apply Hno in H2.
    + injection E2 as <- <-. by apply Hno in H1.
    + by eapply Hu.
  - done.
  - by rewrite lookup_insert_ne.
Qed.

Lemma with_instances_inv w ip svc :
  world_inv w -> world_inv (set_server (with_instances (<[ip := svc]> (s_instances (w_server w)))
    (w_server w)) w).
Proof.
  intros [Hh Ht Hu Hs Hm]. split; cbn; try done.
  intros p rs Hp. destruct (Hh p rs Hp) as [Hi Hx]. split; [done|].
  destruct (decide (ip = rs_instance rs)) as [->|]; [by rewrite lookup_insert_eq|].
  by rewrite lookup_insert_ne.
Qed.

Lemma insert_instances_mono (m : gmap nat ServiceInstance) ip svc :
  forall i, is_Some (m !! i) -> is_Some (<[ip := svc]> m !! i).
Proof.
  intros i Hi. destruct (decide (ip = i)) as [->|]; [by rewrite lookup_insert_eq|].
  by rewrite lookup_insert_ne.
Qed.

Lemma register_inv ip w s' r :
  world_inv w -> RegisterService ip (w_server w) = (s', r) ->
  world_inv (match r with Ok outs => spawns outs (set_server s' w) | Err _ => set_server s' w end).
Proof.
  intros Hinv Hr. pose proof Hinv as [Hh Ht Hu Hs Hm]. unfold RegisterService in Hr.
  destruct (s_instances (w_server w) !! ip) as [svc|] eqn:Hi; [|by injection Hr as <- <-; destruct w].
  case_if_in Hr; [by injection Hr as <- <-; destruct w|].
  set (svc' := with_defaults _ _) in *. cbn zeta in Hr.
  cbn [with_instances s_services s_heap s_instances] in Hr.
  destruct (s_services (w_server w) !! service_key svc') as [q|] eqn:Hk;
    injection Hr as <- <-; [by apply with_instances_inv|].
  set (p := fresh _). assert (Hp : s_heap (w_server w) !! p = None).
  { apply not_elem_of_dom. apply is_fresh. }
  cbn [spawns foldl]. eapply spawn_inv; try done.
  - intros t c Hc. destruct (Ht t (p, c) Hc) as (rs & Hrs & _). cbn in Hrs. congruence.
  - cbn. apply insert_instances_mono.
  - cbn. by rewrite lookup_insert_eq.
  - cbn. intros k q [[_ <-]|[_ Hq]]%lookup_insert_Some; [by rewrite lookup_insert_eq|].
    destruct (Hs k q Hq) as [rs Hrs]. rewrite lookup_insert_ne by congruence. eauto.
Qed.

Lemma unregister_inv ip w s' r :
  world_inv w -> UnregisterService ip (w_server w) = (s', r) ->
  world_inv (match r with Ok outs => emit main_thread outs (set_server s' w)
             | Err _ => set_server s' w end).
Proof.
  intros Hinv Hr. unfold UnregisterService in Hr.
  destruct (s_instances (w_server w) !! ip) as [svc|] eqn:Hi; [|by injection Hr as <- <-; destruct w].
  destruct (s_services (w_server w) !! service_key svc) as [p|] eqn:Hk;
    injection Hr as <- <-; [|by destruct w].
  apply emit_inv. destruct Hinv as [Hh Ht Hu Hs Hm]. split; cbn; try done.
  intros k q [_ Hq]%lookup_delete_Some. by eapply Hs.
Qed.

Lemma rename_inv t p seen w s' outs :
  world_inv w -> w_threads w !! t = Some (p, PDecide seen) ->
  handleConflictRename p (w_server w) = (s', outs) ->
  world_inv (spawns outs (kill t (set_server s' w))).
Proof.
  intros Hinv Hthr Hr. pose proof Hinv as [Hh Ht Hu Hs Hm].
  destruct (Ht t (p, PDecide seen) Hthr) as (rs & Hp & _). cbn in Hp.
  destruct (Hh p rs Hp) as [_ [svc Hsvc]]. unfold handleConflictRename, deref in Hr.
  rewrite Hp in Hr. cbn [mbind option_bind] in Hr. rewrite Hsvc in Hr.
  cbn [mbind option_bind] in Hr. injection Hr as <- <-. cbn [spawns foldl].
  change (kill t (set_server ?s w)) with (set_server s (kill t w)).
  eapply spawn_inv; [by apply kill_inv| |reflexivity|done|done| | |].
  - cbn. intros t' c [Hne H']%lookup_delete_Some. by apply Hne, (Hu t t' p (PDecide seen) c).
  - cbn. apply insert_instances_mono.
  - cbn. by rewrite lookup_insert_eq.
  - cbn. assert (Hin : forall q, is_Some (s_heap (w_server w) !! q) ->
      forall x, is_Some (<[p := x]> (s_heap (w_server w)) !! q)).
    { intros q Hq x. destruct (decide (p = q)) as [->|]; [by rewrite lookup_insert_eq|].
      by rewrite lookup_insert_ne. }
    intros k q [[_ <-]|[_ Hq]]%lookup_insert_Some; [by rewrite lookup_insert_eq|].
    apply lookup_delete_Some in Hq as [_ Hq]. apply Hin. by eapply Hs.
Qed.

(** ** Steps *)

Lemma start_probing_inv w t p :
  world_inv w -> w_threads w !! t = Some (p, PStart) ->
  world_inv (set_pc t p PDelay (set_server (start_probing p (w_server w)) w)).
Proof.
  intros Hinv Hthr. pose proof Hinv as [Hh Ht Hu Hs Hm].
  destruct (Ht t _ Hthr) as (rs & Hp & Hidle). cbn in Hp, Hidle.
  destruct (Hh p rs Hp) as [[[Hcl _] _] Hx]. 
  assert (Hopen : rs_probeClosed rs = false).
  { destruct (rs_probeClosed rs); [|done]. rewrite Hidle in Hcl. destruct (Hcl eq_refl); done. }
  split; cbn; try done.
  - intros q rs'. rewrite lookup_alter_Some. intros [(<- & rs0 & E & ->)|[_ Hq]]; [|by apply Hh in Hq].
    rewrite Hp in E. injection E as <-. split; [|done]. split; cbn; [|done]. rewrite Hopen.
    split; [done|by intros []].
  - intros t' e [[<- <-]|[Hne He]]%lookup_insert_Some; cbn.
    + exists (set_state stateProbing rs). rewrite lookup_alter_eq, Hp. split; [done|by left].
    + destruct (Ht t' e He) as (rs' & Hp' & Hi). exists rs'. split; [|done].
      rewrite lookup_alter_ne; [done|]. intros E. destruct e as [p' c]. cbn in E. subst p'.
      by apply Hne, (Hu t t' p PStart c).
  - intros t1 t2 p' c1 c2 [[<- E1]|[_ H1]]%lookup_insert_Some [[<- E2]|[_ H2]]%lookup_insert_Some.
    + done.
    + injection E1 as <- <-. by eapply Hu.
    + injection E2 as <- <-. by eapply Hu.
    + by eapply Hu.
  - intros k q Hq. rewrite lookup_alter_is_Some. by eapply Hs.
  - rewrite lookup_insert_None. split; [done|]. intros ->. by rewrite Hthr in Hm.
Qed.

Lemma finish_probing_inv w t p seen s' :
  world_inv w -> w_threads w !! t = Some (p, PDecide seen) ->
  finish_probing p (w_server w) = Ok s' ->
  world_inv (set_pc t p (PAnnounce false) (set_server s' w)).
Proof.
  intros Hinv Hthr Hf. pose proof Hinv as [Hh Ht Hu Hs Hm].
  destruct (Ht t _ Hthr) as (rs & Hp & Hl & _ & _ & Hpr). cbn in Hp.
  destruct (Hh p rs Hp) as [Hi Hx]. unfold finish_probing in Hf. rewrite Hp in Hf.
  unfold close_probeCh in Hf. cbn [set_state rs_probeClosed] in Hf.
  destruct (rs_probeClosed rs); [done|]. injection Hf as <-. split; cbn; try done.
  - intros q rs' [[<- <-]|[_ Hq]]%lookup_insert_Some; [|by apply Hh in Hq].
    split; [|done]. split; cbn; [split; [by left|done]|]. intros _. by exists t.
  - intros t' e [[<- <-]|[Hne He]]%lookup_insert_Some; cbn.
    + eexists. by rewrite lookup_insert_eq.
    + destruct (Ht t' e He) as (rs' & Hp' & Hi'). exists rs'. split; [|done].
      rewrite lookup_insert_ne; [done|]. intros E. destruct e as [p' c]. cbn in E. subst p'.
      by apply Hne, (Hu t t' p (PDecide seen) c).
  - intros t1 t2 p' c1 c2 [[<- E1]|[_ H1]]%lookup_insert_Some [[<- E2]|[_ H2]]%lookup_insert_Some.
    + done.
    + injection E1 as <- <-. by eapply Hu.
    + injection E2 as <- <-. by eapply Hu.
    + by eapply Hu.
  - intros k q Hq. apply Hs in Hq as [rs' Hq]. destruct (decide (p = q)) as [->|].
    + by rewrite lookup_insert_eq.
    + rewrite lookup_insert_ne by done. eauto.
  - rewrite lookup_insert_None. split; [done|]. intros ->. by rewrite Hthr in Hm.
Qed.

Lemma sendResponse_evolves clk answers additionals to s s' outs :
  sendResponseWithAdditional clk answers additionals to s = (s', outs) -> evolves s s'.
Proof.
  unfold sendResponseWithAdditional. destruct (prepare_response _ _ _ _ _ _) as [t [m|]].
  - destruct (Pack m); by intros [= <- _].
  - by intros [= <- _].
Qed.

Lemma cacheTick_evolves `{MapOrder} clk clkb s s' outs :
  cacheTick clk clkb s = (s', outs) -> evolves s s'.
Proof.
  unfold cacheTick. intros [= <- _]. etrans; [|reflexivity].
  unfold handlePassiveObservation. apply (foldl_inv (evolves s)); [done|].
  intros [name last] s1 _ Hs1. etrans; [exact Hs1|]. unfold passive_entry. by repeat case_if.
Qed.

Lemma records_at_Some w p rs :
  s_heap (w_server w) !! p = Some rs -> records_at p (w_server w) = rs_records rs.
Proof. unfold records_at. by intros ->. Qed.

Lemma state_at_Some w p rs :
  s_heap (w_server w) !! p = Some rs -> state_at p (w_server w) = rs_state rs.
Proof. unfold state_at. by intros ->. Qed.

Lemma thread_step_inv clk t p c w w' :
  world_inv w -> w_threads w !! t = Some (p, c) -> thread_step clk t p c w = Some w' ->
  world_inv w'.
Proof.
  intros Hinv Hthr Hstep. destruct (inv_threads _ Hinv t _ Hthr) as (rs & Hp & Hi). cbn in Hp, Hi.
  destruct c as [| |msg n|msg n|seen|again]; cbn [thread_step] in Hstep.
  - injection Hstep as <-. by apply start_probing_inv.
  - injection Hstep as <-. rewrite (records_at_Some _ _ _ Hp).
    eapply set_pc_inv; [done..|]. split_and!; [done|done|by left].
  - destruct Hi as (Hl & -> & Hpr). destruct (Pack _) as [data|] eqn:Epack;
      injection Hstep as <-; [|by apply kill_inv]. rewrite multicast_fails_closed.
    destruct (mc_closed _) eqn:Ho; [by apply kill_inv, emit_inv|].
    eapply set_pc_inv; [by apply emit_inv|by rewrite emit_threads|by rewrite emit_server|].
    split_and!; [done|done|]. rewrite emit_open by done. by apply probed_send.
  - destruct Hi as (Hl & -> & Hpr). case_if_in Hstep; injection Hstep as <-.
    + eapply set_pc_inv; [done..|]. by split_and!.
    + rewrite (state_at_Some _ _ _ Hp). eapply set_pc_inv; [done..|].
      split_and!; [done|by right|by destruct rs|]. bool_arith. unfold DefaultProbeCount in *.
      eapply probed_le; [|done]. lia.
  - destruct (decide (seen = stateConflictLost)).
    + destruct (handleConflictRename p (w_server w)) as [s' outs] eqn:Er. injection Hstep as <-.
      by eapply rename_inv.
    + destruct (finish_probing p (w_server w)) as [s'|] eqn:Ef; [|done]. injection Hstep as <-.
      by eapply finish_probing_inv.
  - unfold announceService in Hstep.
    destruct (sendResponseMulticast _ _ _) as [s' outs] eqn:Es. injection Hstep as <-.
    apply sendResponse_evolves in Es. pose proof (evolves_inv w s' Es Hinv) as Hinv'.
    apply (emit_inv t outs) in Hinv'. destruct again; [by apply kill_inv|].
    assert (Hthr' : w_threads (emit t outs (set_server s' w)) !! t = Some (p, PAnnounce false))
      by (by rewrite emit_threads).
    destruct (inv_threads _ Hinv' t _ Hthr') as (rs' & Hp' & Hi'). by eapply set_pc_inv.
Qed.

Lemma StopBrowser_evolves p s s' : StopBrowser p s = Ok s' -> evolves s s'.
Proof.
  unfold StopBrowser. destruct (s_bheap s !! p) as [b|]; [|by intros [= <-]].
  intros Hs. apply result_bind_Ok in Hs as (b' & _ & [= <-]). by destruct (b_running b).
Qed.

Lemma set_host_inv c w : world_inv w -> world_inv (set_host c w).
Proof. by intros []. Qed.

(** What matters to services: [probeHostRecords] never touches them. *)
Lemma services_kept_inv s' w :
  s_services s' = s_services (w_server w) -> s_instances s' = s_instances (w_server w) ->
  s_heap s' = s_heap (w_server w) -> world_inv w -> world_inv (set_server s' w).
Proof. intros Es Ei Eh []. split; cbn; rewrite ?Es, ?Ei, ?Eh; done. Qed.

Lemma host_step_inv clk w w' : world_inv w -> host_step clk w = Some w' -> world_inv w'.
Proof.
  intros Hinv Hstep. unfold host_step in Hstep. destruct (w_host w) as [|msg n|msg n|]; [..|done].
  - injection Hstep as <-. by apply set_host_inv.
  - injection Hstep as <-. destruct (Pack msg); [|by apply set_host_inv].
    case_if; by apply set_host_inv, emit_inv.
  - case_if_in Hstep; [injection Hstep as <-; by apply set_host_inv|].
    destruct (hostRecordsProbed clk (w_server w)) as [s' outs] eqn:E. injection Hstep as <-.
    apply set_host_inv, emit_inv. unfold hostRecordsProbed in E. cbv zeta in E.
    set (s1 := with_hostProbed true _) in E. apply sendResponse_evolves in E.
    apply (evolves_inv (set_server s1 w)); [done|]. by apply services_kept_inv.
Qed.

(** A step of the receive loop that leaves the services as a handler does. *)
Lemma received_inv r w w' :
  (forall c s' outs, r = Ok (c, s', outs) -> evolves (w_server w) s') ->
  world_inv w -> received r w = Running w' -> world_inv w'.
Proof.
  intros Hev Hinv Hr. unfold received in Hr. destruct r as [[[c s'] outs]|]; [|done].
  injection Hr as <-. apply emit_inv, set_recv_inv, evolves_inv; [|done]. by eapply Hev.
Qed.

Lemma world_step_inv `{MapOrder} e w w' :
  world_inv w -> world_step e w = Some (Running w') -> world_inv w'.
Proof.
  intros Hinv Hstep. destruct e; cbn [world_step] in Hstep.
  - apply bind_Some in Hstep as ([p c] & Hthr & Hstep).
    destruct (thread_step clk t p c w) eqn:E; [|done]. injection Hstep as <-.
    by eapply thread_step_inv.
  - apply bind_Some in Hstep as ([p c] & Hthr & Hstep). case_if_in Hstep; [|done].
    injection Hstep as <-. by apply kill_inv.
  - destruct (host_step clk w) as [w1|] eqn:E; [|done]. injection Hstep as <-.
    by eapply host_step_inv.
  - injection Hstep as <-. by apply set_host_inv.
  - case_if_in Hstep; [|done]. injection Hstep as Hstep. eapply received_inv, Hstep; [|done].
    intros c s' outs. by apply recv_packet_evolves, world_probing_open.
  - case_if_in Hstep; [done|]. injection Hstep as Hstep. eapply received_inv, Hstep; [|done].
    intros c s' outs. by apply recv_step_evolves, world_probing_open.
  - case_if_in Hstep; [|done]. destruct (RegisterService ip (w_server w)) as [s' r] eqn:E.
    injection Hstep as <-. by eapply register_inv.
  - case_if_in Hstep; [|done]. destruct (UnregisterService ip (w_server w)) as [s' r] eqn:E.
    injection Hstep as <-. by eapply unregister_inv.
  - case_if_in Hstep; [|done]. destruct (sendResponseWithAdditional _ _ _ _ _) as [s' outs] eqn:E.
    injection Hstep as <-. apply emit_inv, evolves_inv; [|done]. by eapply sendResponse_evolves.
  - destruct (cacheTick clk clkb (w_server w)) as [s' outs] eqn:E. injection Hstep as <-.
    apply emit_inv, evolves_inv; [|done]. by eapply cacheTick_evolves.
  - injection Hstep as <-. by apply evolves_inv.
  - injection Hstep as <-. by apply evolves_inv.
  - destruct (StopBrowser p (w_server w)) as [s'|] eqn:E; [|done]. injection Hstep as <-.
    apply evolves_inv; [|done]. by eapply StopBrowser_evolves.
  - injection Hstep as <-. by apply emit_inv.
  - injection Hstep as <-. by apply evolves_inv.
  - destruct (decide _); [|done]. injection Hstep as <-. by apply set_close_inv, emit_inv.
  - destruct (decide _); [|done]. injection Hstep as <-. by apply close_conn_inv.
Qed.

Lemma initial_inv w : initial w -> world_inv w.
Proof.
  intros (Hh & Hs & _ & _ & _ & _ & Ht & _). split; rewrite ?Hh, ?Hs, ?Ht; try apply map_Forall_empty; done.
Qed.

Lemma reachable_inv w : reachable w -> world_inv w.
Proof.
  intros (w0 & H0%initial_inv & Hsteps). induction Hsteps as [|w1 w2 w3 (o & e & Hstep) _ IH]; [done|].
  apply IH. by eapply world_step_inv.
Qed.

End ProbingSpec.

(** ** Properties *)

Section ProbingProperties.
  Context `{UnicodeTables}.

(** [n] steps of one goroutine. *)
Fixpoint thread_run (clk : Clock) (t n : nat) (w : world) : option world :=
  match n with
  | 0 => Some w
  | S n =>
      '(p, c) ← w_threads w !! t;
      w' ← thread_step clk t p c w;
      thread_run clk t n w'
  end.

Lemma thread_run_step clk t n w p c w' :
  w_threads w !! t = Some (p, c) -> thread_step clk t p c w = Some w' ->
  thread_run clk t (S n) w = thread_run clk t n w'.
Proof. intros Ht Hs. cbn [thread_run]. rewrite Ht. cbn [mbind option_bind]. by rewrite Hs. Qed.

(** One probe: the send and the wait after it. *)
Lemma probe_round clk t p msg n k w data :
  Pack msg = Ok data -> S k < 3 -> w_threads w !! t = Some (p, PProbe msg k) ->
  mc_closed (w_conn w) = false ->
  exists w', thread_run clk t (S (S n)) w = thread_run clk t n w' /\
    w_server w' = w_server w /\ mc_closed (w_conn w') = false /\
    w_threads w' !! t = Some (p, PProbe msg (S k)) /\
    w_sent w' = w_sent w ++ [(t, Multicast data)].
Proof.
  intros Hpack Hk Ht Hc. eexists. split.
  - erewrite thread_run_step;
      [|exact Ht|cbn [thread_step]; rewrite Hpack, multicast_fails_closed, Hc; reflexivity].
    erewrite thread_run_step; [reflexivity|cbn; apply lookup_insert_eq|].
    cbn [thread_step]. destruct (Z.ltb_spec (Z.of_nat (S k)) DefaultProbeCount); [reflexivity|].
    unfold DefaultProbeCount in *. lia.
  - cbn [set_pc w_server w_conn w_threads w_sent]. rewrite emit_server, emit_closed.
    split_and!; [done | done | apply lookup_insert_eq | by apply emit_open].
Qed.

(** C28: A service that meets no rival is announced: left to itself on an open
    connection, a goroutine whose service's probe can be packed (no label over 63 bytes,
    no TXT string over 255, at most 9000 bytes: see [Pack_errors]) multicasts that probe
    three times and then marks the service announced, in nine steps. *)
Theorem probing_completes w clk t p rs data :
  reachable w -> w_threads w !! t = Some (p, PStart) ->
  s_heap (w_server w) !! p = Some rs -> Pack (buildProbeMessage (rs_records rs)) = Ok data ->
  mc_closed (w_conn w) = false ->
  exists w', thread_run clk t 9 w = Some w' /\
    w_threads w' !! t = Some (p, PAnnounce false) /\
    state_at p (w_server w') = stateAnnounced /\
    w_sent w' = w_sent w ++ replicate 3 (t, Multicast data).
Proof.
  intros Hw%reachable_inv Ht Hp Hpack Hc.
  pose proof (inv_heap _ Hw p rs Hp) as [[Hclosed _] _].
  destruct (inv_threads _ Hw t _ Ht) as (rs' & Hp' & Hidle). cbn in Hp', Hidle.
  rewrite Hp in Hp'. injection Hp' as <-.
  assert (Hopen : rs_probeClosed rs = false).
  { destruct (rs_probeClosed rs); [|done]. rewrite Hidle in Hclosed.
    by destruct (proj1 Hclosed eq_refl). }
  rewrite (thread_run_step _ _ _ _ _ _ _ Ht eq_refl).
  erewrite thread_run_step; [|apply lookup_insert_eq|reflexivity].
  set (s1 := start_probing p (w_server w)).
  assert (Hs1 : s_heap s1 !! p = Some (set_state stateProbing rs)) by (cbn; by rewrite lookup_alter_eq, Hp).
  unfold records_at at 1. cbn [set_pc set_server w_server]. rewrite Hs1.
  cbn [set_state rs_records]. set (msg := buildProbeMessage (rs_records rs)) in *.
  set (w2 := set_pc t p (PProbe msg 0) _).
  destruct (probe_round clk t p msg 5 0 w2 data Hpack ltac:(lia) (lookup_insert_eq _ _ _) Hc)
    as (w3 & -> & Es3 & Ec3 & Et3 & Eo3).
  destruct (probe_round clk t p msg 3 1 w3 data Hpack ltac:(lia) Et3 Ec3)
    as (w4 & -> & Es4 & Ec4 & Et4 & Eo4).
  erewrite thread_run_step;
    [|exact Et4|cbn [thread_step]; rewrite Hpack, multicast_fails_closed, Ec4; reflexivity].
  erewrite thread_run_step; [|apply lookup_insert_eq|reflexivity].
  cbn [set_pc w_server]. rewrite emit_server, Es4, Es3. change (w_server w2) with s1.
  assert (Hst : state_at p s1 = stateProbing) by (unfold state_at; by rewrite Hs1).
  rewrite Hst. erewrite thread_run_step; [|apply lookup_insert_eq|].
  2: { cbn [thread_step]. rewrite decide_False by done. cbn [set_pc w_server].
       rewrite emit_server, Es4, Es3. change (w_server w2) with s1. unfold finish_probing. rewrite Hs1.
       unfold close_probeCh. cbn [set_state rs_probeClosed]. rewrite Hopen. reflexivity. }
  cbn [thread_run]. eexists. split; [reflexivity|]. cbn. split_and!.
  - apply lookup_insert_eq.
  - unfold state_at. cbn. by rewrite lookup_insert_eq.
  - change (w_sent (emit t [Multicast data] w4) = w_sent w ++ replicate 3 (t, Multicast data)).
    rewrite emit_open, Eo4, Eo3 by done. cbn. by rewrite <- !app_assoc.
Qed.

(** C3: No service is announced unprobed.  In every reachable world, however
    goroutines, packets and calls interleaved, a service that is announced has had
    its probe, with the records it has now, multicast at least three times by one
    goroutine. *)
Theorem announced_after_three_probes w p rs :
  reachable w -> s_heap (w_server w) !! p = Some rs -> rs_state rs = stateAnnounced ->
  exists t data, Pack (buildProbeMessage (rs_records rs)) = Ok data /\
    3 <= times_sent t data (w_sent w).
Proof.
  intros Hw%reachable_inv Hp Hs. destruct (inv_heap _ Hw p rs Hp) as [[_ Ha] _].
  destruct (Ha Hs) as (t & [?|(data & Hpack & Hn)]); [done|]. by exists t, data.
Qed.

(** C15: In every reachable world a service is probed by at most one goroutine, the
    goroutine's service and every registered service exist, and the probe channel
    of a service is closed exactly when it is announced or has lost a tie-break. *)
Theorem probing_well_formed w :
  reachable w ->
  (forall t t' p c c', w_threads w !! t = Some (p, c) -> w_threads w !! t' = Some (p, c') -> t = t') /\
  (forall t p c, w_threads w !! t = Some (p, c) -> is_Some (deref (w_server w) p)) /\
  (forall key p, s_services (w_server w) !! key = Some p -> is_Some (deref (w_server w) p)) /\
  (forall p rs, s_heap (w_server w) !! p = Some rs ->
     rs_probeClosed rs = true <-> rs_state rs = stateAnnounced \/ rs_state rs = stateConflictLost).
Proof.
  intros Hw%reachable_inv.
  assert (Hderef : forall p rs, s_heap (w_server w) !! p = Some rs -> is_Some (deref (w_server w) p)).
  { intros p rs Hp. destruct (inv_heap _ Hw p rs Hp) as [_ [svc Hsvc]]. unfold deref.
    rewrite Hp. cbn [mbind option_bind]. rewrite Hsvc. by eexists. }
  split_and!.
  - exact (inv_unique _ Hw).
  - intros t p c Ht. destruct (inv_threads _ Hw t _ Ht) as (rs & Hp & _). by eapply Hderef.
  - intros key p Hk. destruct (inv_services _ Hw key p Hk) as [rs Hp]. by eapply Hderef.
  - intros p rs Hp. by destruct (inv_heap _ Hw p rs Hp) as [[Hc _] _].
Qed.

(** C16: The only panic of the probing protocol is the race of its last step.  A
    probe from the network never makes the handler panic, and a goroutine panics
    exactly when it has read that its service is still probing and the service has
    lost a tie-break since. *)
Theorem probing_panics_only_in_race w :
  reachable w ->
  (forall (o : MapOrder) n ns, exists s' outs, handleProbe n ns (w_server w) = Ok (s', outs)) /\
  (forall t clk p c, w_threads w !! t = Some (p, c) ->
     thread_step clk t p c w = None <->
     c = PDecide stateProbing /\ state_at p (w_server w) = stateConflictLost).
Proof.
  intros Hw%reachable_inv. split.
  - intros o n ns. destruct (handleProbe_ok n ns (w_server w)) as (s' & outs & E & _); [|by eauto].
    by apply world_probing_open.
  - intros t clk p c Ht. destruct (inv_threads _ Hw t _ Ht) as (rs & Hp & Hi). cbn in Hp, Hi.
    destruct (inv_heap _ Hw p rs Hp) as [[Hc _] _]. rewrite (state_at_Some _ _ _ Hp).
    destruct c as [| |msg n|msg n|seen|again]; cbn [thread_step]; try (split; [done|by intros []]).
    + destruct (Pack msg); [destruct (multicast_fails w)|]; (split; [done|by intros []]).
    + case_if; (split; [done|by intros []]).
    + destruct Hi as (Hl & Hseen & Hls & _). destruct (decide (seen = stateConflictLost)) as [->|Hne].
      { destruct (handleConflictRename p (w_server w)). split; [done|by intros []]. }
      unfold finish_probing. rewrite Hp. unfold close_probeCh. cbn [set_state rs_probeClosed].
      destruct Hls as [Hls|Hls]; cbn in Hls; [|done]. subst seen.
      destruct (rs_probeClosed rs) eqn:Ec; cbn [mbind result_bind].
      * split; [|done]. intros _. split; [done|].
        destruct (proj1 Hc eq_refl) as [Hs|Hs]; [|done]. destruct Hl; congruence.
      * split; [done|]. intros [_ Hs]. discriminate (proj2 Hc (or_intror Hs)).
Qed.

End ProbingProperties.
