(* ===== verification/HostSpec.v ===== *)
(** * The host records are probed before they are served

    [probeHostRecords] runs once; until it has multicast three probes of the host
    records the server does not answer from its cache ([s_hostProbed] is false).
    Nothing else writes the host records or that flag. *)

From S2P Require Export ProbingSpec.

Section HostSpec.
  Context `{UnicodeTables}.

(** ** What the other goroutines and the handlers leave alone *)

Definition host_kept (w w' : world) : Prop :=
  keeps_host (w_server w) (w_server w') /\ w_host w' = w_host w /\
  exists more, w_sent w' = w_sent w ++ more.

#[local] Instance host_kept_refl : Reflexive host_kept.
Proof. intros w. split_and!; [done|done|]. exists []. by rewrite app_nil_r. Qed.

#[local] Instance host_kept_trans : Transitive host_kept.
Proof.
  intros w1 w2 w3 (K1 & H1 & m1 & E1) (K2 & H2 & m2 & E2). split_and!; [by etrans|congruence|].
  exists (m1 ++ m2). by rewrite E2, E1, app_assoc.
Qed.

Lemma set_server_kept s w : keeps_host (w_server w) s -> host_kept w (set_server s w).
Proof. intros Hk. split_and!; [done|done|]. exists []. by rewrite app_nil_r. Qed.

Lemma emit_kept t outs w : host_kept w (emit t outs w).
Proof. rewrite emit_eq. split_and!; [done|done|by eexists]. Qed.

Lemma set_pc_kept t p c w : host_kept w (set_pc t p c w).
Proof. split_and!; [done|done|]. exists []. by rewrite app_nil_r. Qed.

Lemma kill_kept t w : host_kept w (kill t w).
Proof. split_and!; [done|done|]. exists []. by rewrite app_nil_r. Qed.

Lemma spawns_kept outs w : host_kept w (spawns outs w).
Proof.
  revert w. induction outs as [|o outs IH]; intros w; [done|]. cbn [spawns foldl].
  etrans; [|apply IH]. by destruct o; try apply set_pc_kept.
Qed.

Lemma evolves_kept w s : evolves (w_server w) s -> host_kept w (set_server s w).
Proof. intros (_ & _ & _ & Hk). by apply set_server_kept. Qed.

Lemma RegisterService_keeps ip s s' r : RegisterService ip s = (s', r) -> keeps_host s s'.
Proof.
  unfold RegisterService. destruct (s_instances s !! ip); [|by intros [= <- _]].
  case_if; [by intros [= <- _]|]. by destruct (_ !! service_key _); intros [= <- _].
Qed.

Lemma UnregisterService_keeps ip s s' r : UnregisterService ip s = (s', r) -> keeps_host s s'.
Proof.
  unfold UnregisterService. destruct (s_instances s !! ip); [|by intros [= <- _]].
  by destruct (_ !! service_key _); intros [= <- _].
Qed.

Lemma handleConflictRename_keeps p s s' outs :
  handleConflictRename p s = (s', outs) -> keeps_host s s'.
Proof. unfold handleConflictRename. by destruct (deref s p) as [[]|]; intros [= <- _]. Qed.

Lemma finish_probing_keeps p s s' : finish_probing p s = Ok s' -> keeps_host s s'.
Proof.
  unfold finish_probing. destruct (s_heap s !! p); [|done]. intros Hf.
  by apply result_bind_Ok in Hf as (rs' & _ & [= <-]).
Qed.

Lemma thread_step_kept clk t p c w w' : thread_step clk t p c w = Some w' -> host_kept w w'.
Proof.
  destruct c as [| |msg n|msg n|seen|again]; cbn [thread_step].
  - intros [= <-]. etrans; [|apply set_pc_kept]. by apply set_server_kept.
  - intros [= <-]. apply set_pc_kept.
  - destruct (Pack msg); [|intros [= <-]; apply kill_kept].
    case_if; intros [= <-]; (etrans; [apply emit_kept|]); [apply kill_kept | apply set_pc_kept].
  - case_if; intros [= <-]; apply set_pc_kept.
  - destruct (decide _).
    + destruct (handleConflictRename p (w_server w)) as [s' outs] eqn:E. intros [= <-].
      etrans; [|apply spawns_kept]. etrans; [|apply kill_kept].
      by eapply set_server_kept, handleConflictRename_keeps.
    + destruct (finish_probing p (w_server w)) as [s'|] eqn:E; [|done]. intros [= <-].
      etrans; [|apply set_pc_kept]. by eapply set_server_kept, finish_probing_keeps.
  - unfold announceService. destruct (sendResponseMulticast _ _ _) as [s' outs] eqn:E. intros [= <-].
    assert (Hk : host_kept w (emit t outs (set_server s' w))).
    { etrans; [|apply emit_kept]. by eapply evolves_kept, sendResponse_evolves. }
    destruct again; (etrans; [exact Hk|]); [apply kill_kept | apply set_pc_kept].
Qed.

Definition host_event (e : event) : bool :=
  match e with Host _ | HostStop => true | _ => false end.

Lemma set_recv_kept c w : host_kept w (set_recv c w).
Proof. split_and!; [done|done|]. exists []. by rewrite app_nil_r. Qed.

Lemma set_close_kept c w : host_kept w (set_close c w).
Proof. split_and!; [done|done|]. exists []. by rewrite app_nil_r. Qed.

Lemma close_conn_kept w : host_kept w (close_conn w).
Proof. split_and!; [done|done|]. exists []. by rewrite app_nil_r. Qed.

Lemma received_kept r w w' :
  (forall c s' outs, r = Ok (c, s', outs) -> evolves (w_server w) s') ->
  received r w = Running w' -> host_kept w w'.
Proof.
  intros Hev Hr. unfold received in Hr. destruct r as [[[c s'] outs]|]; [|done].
  injection Hr as <-. etrans; [|apply emit_kept]. etrans; [|apply set_recv_kept].
  by eapply evolves_kept, Hev.
Qed.

Lemma world_step_kept `{MapOrder} e w w' :
  world_inv w -> host_event e = false -> world_step e w = Some (Running w') -> host_kept w w'.
Proof.
  intros Hinv Hne Hstep. destruct e; cbn [world_step] in Hstep; try discriminate Hne.
  - apply bind_Some in Hstep as ([p c] & Hthr & Hstep).
    destruct (thread_step clk t p c w) eqn:E; [|done]. injection Hstep as <-.
    by eapply thread_step_kept.
  - apply bind_Some in Hstep as ([p c] & Hthr & Hstep). case_if_in Hstep; [|done].
    injection Hstep as <-. apply kill_kept.
  - case_if_in Hstep; [|done]. injection Hstep as Hstep. eapply received_kept, Hstep.
    intros c s' outs. by apply recv_packet_evolves, world_probing_open.
  - case_if_in Hstep; [done|]. injection Hstep as Hstep. eapply received_kept, Hstep.
    intros c s' outs. by apply recv_step_evolves, world_probing_open.
  - case_if_in Hstep; [|done]. destruct (RegisterService ip (w_server w)) as [s' r] eqn:E.
    injection Hstep as <-. apply RegisterService_keeps, set_server_kept in E.
    destruct r; [|done]. etrans; [exact E | apply spawns_kept].
  - case_if_in Hstep; [|done]. destruct (UnregisterService ip (w_server w)) as [s' r] eqn:E.
    injection Hstep as <-. apply UnregisterService_keeps, set_server_kept in E.
    destruct r; [|done]. etrans; [exact E | apply emit_kept].
  - case_if_in Hstep; [|done]. destruct (sendResponseWithAdditional _ _ _ _ _) as [s' outs] eqn:E.
    injection Hstep as <-. etrans; [|apply emit_kept]. by eapply evolves_kept, sendResponse_evolves.
  - destruct (cacheTick clk clkb (w_server w)) as [s' outs] eqn:E. injection Hstep as <-.
    etrans; [|apply emit_kept]. by eapply evolves_kept, cacheTick_evolves.
  - injection Hstep as <-. by apply set_server_kept.
  - injection Hstep as <-. by apply set_server_kept.
  - destruct (StopBrowser p (w_server w)) as [s'|] eqn:E; [|done]. injection Hstep as <-.
    by eapply evolves_kept, StopBrowser_evolves.
  - injection Hstep as <-. apply emit_kept.
  - injection Hstep as <-. by apply set_server_kept.
  - destruct (decide _); [|done]. injection Hstep as <-. etrans; [apply emit_kept | apply set_close_kept].
  - destruct (decide _); [|done]. injection Hstep as <-. apply close_conn_kept.
Qed.

(** ** The invariant *)

Definition host_pc_inv (sent : list (nat * output)) (records : list ResourceRecord)
    (served : bool) (c : host_pc) : Prop :=
  match c with
  | HDelay => served = false
  | HProbe msg n | HWait msg n =>
      served = false /\ msg = buildProbeMessage records /\ probed sent host_thread records n
  | HDone => served = true -> probed sent host_thread records 3
  end.

Definition host_inv (w : world) : Prop :=
  host_pc_inv (w_sent w) (s_hostRecords (w_server w)) (s_hostProbed (w_server w)) (w_host w).

Lemma host_kept_inv w w' : host_kept w w' -> host_inv w -> host_inv w'.
Proof.
  unfold host_inv. intros ([-> ->] & -> & more & ->).
  destruct (w_host w); cbn; intros; destruct_and?; split_and?; eauto using probed_mono.
Qed.

Lemma host_step_host_inv clk w w' : host_inv w -> host_step clk w = Some w' -> host_inv w'.
Proof.
  unfold host_inv, host_step. destruct (w_host w) as [|msg n|msg n|]; cbn; [..|done].
  - intros Hs [= <-]. cbn. split_and!; [done|done|by left].
  - intros (Hs & -> & Hpr) [= <-]. destruct (Pack _) as [data|] eqn:E; cbn; [|by rewrite Hs].
    rewrite multicast_fails_closed.
    destruct (mc_closed _) eqn:Ho; cbn [set_host w_sent w_server w_host host_pc_inv];
      rewrite emit_server; [by rewrite Hs|].
    split_and!; [done|done|]. rewrite emit_open by done. by apply probed_send.
  - intros (Hs & -> & Hpr). case_if; [intros [= <-]; cbn; by split_and!|].
    destruct (hostRecordsProbed clk (w_server w)) as [s' outs] eqn:E. intros [= <-].
    cbn [set_host w_sent w_server w_host host_pc_inv]. rewrite emit_eq. cbn.
    apply sendResponse_evolves in E as (_ & _ & _ & [Hr _]). cbn in Hr. rewrite Hr.
    intros _. apply probed_mono. eapply probed_le; [|exact Hpr].
    bool_arith. unfold DefaultProbeCount in *. lia.
Qed.

Lemma reachable_host_inv w : reachable w -> host_inv w.
Proof.
  intros (w0 & H0 & Hsteps).
  assert (Hw0 : world_inv w0 /\ host_inv w0).
  { split; [by apply initial_inv|]. destruct H0 as (_ & _ & _ & _ & Hp & Hh & _).
    unfold host_inv. rewrite Hp, Hh. by case_bool_decide. }
  clear H0. induction Hsteps as [|w1 w2 w3 (o & e & Hstep) _ IH]; [by destruct Hw0|].
  apply IH. destruct Hw0 as [Hw Hi]. split; [by eapply world_step_inv|].
  destruct (host_event e) eqn:He; [|by eapply host_kept_inv, Hi; eapply world_step_kept].
  destruct e; try discriminate He; cbn [world_step] in Hstep.
  - destruct (host_step clk w1) eqn:E; [|done]. injection Hstep as <-. by eapply host_step_host_inv.
  - injection Hstep as <-. unfold host_inv in *. cbn. destruct (w_host w1); cbn in *; try done;
      destruct_and?; congruence.
Qed.

(** ** Properties *)

(** C18: The host records are not served unprobed.  In every reachable world, if the
    server answers from its cache, then its probe for the host records has been
    multicast at least three times, whatever else happened in between. *)
Theorem host_served_after_three_probes w :
  reachable w -> s_hostProbed (w_server w) = true ->
  exists data, Pack (buildProbeMessage (s_hostRecords (w_server w))) = Ok data /\
    3 <= times_sent host_thread data (w_sent w).
Proof.
  intros Hw%reachable_host_inv Hs. unfold host_inv in Hw. rewrite Hs in Hw.
  assert (Hp : probed (w_sent w) host_thread (s_hostRecords (w_server w)) 3).
  { destruct (w_host w); cbn in Hw; [done|by destruct Hw..|by apply Hw]. }
  by destruct Hp as [?|(data & Hpack & Hn)]; [|exists data].
Qed.

End HostSpec.
