(* ===== verification/BrowserSpec.v ===== *)
(** * Browsing: schedule, known answers and events

    The query schedule, what receivers learn of the known answers from the datagrams of a
    query, the instance names, and the events listeners are offered. *)

From S2P Require Export Browser PackErrors.

(** ** The schedule *)

Lemma query_interval_min n : query_interval n = Z.min (2 ^ Z.of_nat n * Second) maxInterval.
Proof.
  induction n as [|n IH]; [done|]. unfold query_interval in *.
  change (Nat.iter (S n) next_interval Second) with (next_interval (Nat.iter n next_interval Second)).
  rewrite IH. unfold next_interval. rewrite Nat2Z.inj_succ, Z.pow_succ_r by lia.
  assert (0 < 2 ^ Z.of_nat n)%Z by (apply Z.pow_pos_nonneg; lia).
  unfold maxInterval, Second.
  destruct (Z.ltb_spec (3600 * 1000000000)
    (Z.min (2 ^ Z.of_nat n * 1000000000) (3600 * 1000000000) * 2)); lia.
Qed.

(** ** Multi-packet queries *)

Section Multipacket.
  Context `{UnicodeTables}.

Lemma max_fit_le q known n : forall i, max_fit q known i n <= i - 1 + n.
Proof.
  induction n as [|n IH]; intros i; cbn [max_fit]; [lia|]. case_if; [|lia].
  specialize (IH (S i)). lia.
Qed.

Lemma max_fit_ge q known n : forall i, i - 1 <= max_fit q known i n.
Proof.
  induction n as [|n IH]; intros i; cbn [max_fit]; [lia|]. case_if; [|lia].
  specialize (IH (S i)). lia.
Qed.

(** The prefix it finds fits, and the next longer one does not. *)
Lemma max_fit_fits q known n : forall i,
  let k := max_fit q known (S i) n in
  (i < k -> is_ok (Pack (query_message flagTruncation [q] (take k known))) = true) /\
  (k < i + n -> is_ok (Pack (query_message flagTruncation [q] (take (S k) known))) = false).
Proof.
  induction n as [|n IH]; intros i; cbn [max_fit].
  { split; lia. }
  destruct (is_ok _) eqn:E.
  - destruct (IH (S i)) as [IH1 IH2]. pose proof (max_fit_ge q known n (S (S i))) as Hge.
    destruct (decide (S i < max_fit q known (S (S i)) n)) as [Hle|Hgt].
    + split; [auto|]. intros Hlt. apply IH2. lia.
    + assert (Ek : max_fit q known (S (S i)) n = S i) by lia. rewrite Ek in *.
      split; [done|]. intros Hlt. apply IH2. lia.
  - rewrite Nat.sub_succ, Nat.sub_0_r. split; [lia|done].
Qed.

(** Every message has the TC bit, but for the last. *)
Definition tc_but_last (ms : list Message) : Prop :=
  exists init last, ms = init ++ [last] /\ Forall (λ m, IsTruncated m = true) init /\
    IsTruncated last = false.

Lemma continuation_spec fuel : forall remaining,
  length remaining <= fuel ->
  mjoin (m_Answers <$> continuation fuel remaining) = remaining /\
  Forall (λ m, m_Questions m = [] /\ 1 <= length (m_Answers m) <= maxPerPacket)
    (continuation fuel remaining) /\
  (remaining <> [] -> tc_but_last (continuation fuel remaining)).
Proof.
  induction fuel as [|fuel IH]; intros remaining Hf.
  { destruct remaining; [|simpl in Hf; lia]. split_and!; [done|constructor|done]. }
  cbn [continuation]. destruct (decide (remaining = [])) as [->|Hne].
  { split_and!; [done|constructor|done]. }
  assert (Hpos : 1 <= length remaining) by (destruct remaining; [done|simpl; lia]).
  unfold maxPerPacket in *.
  destruct (IH (drop 20 remaining)) as (Hj & Hall & Htc); [rewrite length_drop; lia|].
  split_and!.
  - rewrite fmap_cons. change (mjoin (?a :: ?b)) with (a ++ mjoin b). rewrite Hj. apply take_drop.
  - constructor; [|done]. split; [done|]. cbn. rewrite length_take. lia.
  - intros _. destruct (Nat.leb_spec (length remaining) 20) as [Hle|Hgt].
    + rewrite drop_ge by done. exists [], (query_message 0 [] (take 20 remaining)).
      split_and!; [by destruct fuel|done|done].
    + destruct Htc as (init & last & -> & Hi & Hl).
      { intros E. apply (f_equal length) in E. rewrite length_drop in E. simpl in E. lia. }
      exists (query_message flagTruncation [] (take 20 remaining) :: init), last.
      split_and!; [done|by constructor|done].
Qed.

(** The messages of a query in several packets carry every known answer once. *)
Lemma multipacket_spec q known :
  let ms := multipacket_messages q known in
  mjoin (m_Answers <$> ms) = known /\
  exists first rest, ms = first :: rest /\ m_Questions first = [q] /\
    (m_Answers first = [] \/ is_ok (Pack first) = true) /\
    (rest <> [] -> tc_but_last ms /\
       is_ok (Pack (query_message flagTruncation [q] (take (S (length (m_Answers first))) known)))
         = false) /\
    Forall (λ m, m_Questions m = [] /\ 1 <= length (m_Answers m) <= maxPerPacket) rest.
Proof.
  unfold multipacket_messages. set (k := max_fit q known 1 (length known)).
  pose proof (max_fit_le q known (length known) 1) as Hk. fold k in Hk.
  destruct (max_fit_fits q known (length known) 0) as [Hfit Hmax]. fold k in Hfit, Hmax.
  destruct (continuation_spec (length known) (drop k known)) as (Hj & Hall & Htc);
    [rewrite length_drop; lia|].
  split.
  - rewrite fmap_cons. change (mjoin (?a :: ?b)) with (a ++ mjoin b). rewrite Hj. apply take_drop.
  - eexists _, _. split; [reflexivity|]. split; [done|]. split; [|split; [|done]].
    + cbn [query_message m_Answers]. destruct (decide (0 < k)); [right; auto|].
      left. by replace k with 0 by lia.
    + intros Hrest. assert (Hne : drop k known <> []).
      { intros E. rewrite E in Hrest. by destruct (length known). }
      assert (Hlt : k < length known).
      { destruct (decide (k < length known)); [done|]. by rewrite drop_ge in Hne by lia. }
      split.
      * destruct (Htc Hne) as (init & last & -> & Hi & Hl).
        eexists (_ :: init), last. split_and!; [reflexivity|by constructor|done].
      * cbn [query_message m_Answers]. rewrite length_take_le by lia. apply Hmax. lia.
Qed.

(** A message as [sendQuery] makes it. *)
Definition is_query_message (m : Message) : Prop :=
  exists flags, (flags = 0%Z \/ flags = flagTruncation) /\
    m = query_message flags (m_Questions m) (m_Answers m).

Lemma query_message_is flags qs known :
  flags = 0%Z \/ flags = flagTruncation -> is_query_message (query_message flags qs known).
Proof. intros Hf. by exists flags. Qed.

Lemma continuation_messages fuel : forall remaining,
  Forall is_query_message (continuation fuel remaining).
Proof.
  induction fuel as [|fuel IH]; intros remaining; cbn [continuation]; [constructor|].
  case_decide; [constructor|]. constructor; [|done]. apply query_message_is.
  destruct (_ <=? _); auto.
Qed.

Lemma multipacket_are_queries q known : Forall is_query_message (multipacket_messages q known).
Proof. constructor; [apply query_message_is; auto | apply continuation_messages]. Qed.

Lemma query_is_query m : is_query_message m -> IsQuery m = true.
Proof. by intros (flags & [->| ->] & ->). Qed.

Lemma query_packable m :
  is_query_message m -> Forall question_packable (m_Questions m) -> Forall rr_packable (m_Answers m) ->
  msg_packable m.
Proof.
  intros (flags & Hf & ->) Hq Ha. unfold msg_packable. cbn in *.
  split_and!; try done. destruct Hf as [->| ->]; by unfold is_u16, flagTruncation.
Qed.

(** What is sent is what can be packed, and is received as such. *)
Lemma packets_received ms :
  Forall msg_packable ms ->
  Forall2 (λ data m, UnpackMessage data = Ok (canon_msg m)) (packets ms)
    (filter (λ m, is_ok (Pack m) = true) ms).
Proof.
  induction 1 as [|m ms Hm _ IH]; [constructor|]. rewrite filter_cons. cbn [packets omap list_omap].
  destruct (Pack m) as [data|e] eqn:E; cbn [is_ok]; [|by rewrite decide_False].
  rewrite decide_True by done. constructor; [by apply UnpackMessage_Pack|done].
Qed.

Lemma filter_answers (ms : list Message) :
  mjoin (m_Answers <$> filter (λ m, is_ok (Pack m) = true) ms) `sublist_of` mjoin (m_Answers <$> ms).
Proof.
  induction ms as [|m ms IH]; [done|]. rewrite filter_cons, fmap_cons.
  change (mjoin (?a :: ?b)) with (a ++ mjoin b). case_decide.
  - rewrite fmap_cons. change (mjoin (?a :: ?b)) with (a ++ mjoin b). by apply sublist_app.
  - by apply sublist_inserts_l.
Qed.

Lemma filter_all (ms : list Message) :
  Forall (λ m, is_ok (Pack m) = true) ms -> filter (λ m, is_ok (Pack m) = true) ms = ms.
Proof. induction 1; [done|]. rewrite filter_cons_True by done. by f_equal. Qed.

End Multipacket.

(** ** Known answers *)

Section KnownAnswers.
  Context `{UnicodeTables, MapOrder}.

Definition known_infos (b : Browser) : list ServiceInstanceInfo :=
  visit 0 (map_to_list (b_instances b)).*2.

Definition known_answers (b : Browser) : list ResourceRecord := known_answer b <$> known_infos b.

(** The full names have no empty label and at most 128 labels. *)
Definition names_ok (b : Browser) : Prop :=
  name_ok (b_serviceType b) = true /\
  map_Forall (λ _ info, name_ok (i_Name info ++ [dot] ++ b_serviceType b) = true) (b_instances b).

(** A record that takes at most 449 bytes: twenty of them fit a packet. *)
Definition record_fits (rr : ResourceRecord) : Prop := rr_sound rr /\ rr_size rr <= 449.

Definition known_answers_fit (b : Browser) : Prop :=
  short_labels (b_serviceType b) /\ name_size (b_serviceType b) <= 449 /\
  Forall record_fits (known_answers b).

Lemma known_answers_packable b :
  names_ok b -> question_packable (browse_question b) /\ Forall rr_packable (known_answers b).
Proof.
  intros [Hst Hi]. split; [by split_and!|]. apply Forall_fmap, Forall_forall. intros info Hinfo.
  unfold known_infos in Hinfo. rewrite visit_perm in Hinfo.
  apply list_elem_of_fmap in Hinfo as ([key i] & -> & Hk%elem_of_map_to_list).
  specialize (Hi key i Hk). unfold rr_packable, RR_ints_ok. cbn in *. split_and!; try done.
  all: by unfold is_u16, is_u32, TypePTR, ClassIN, otherTTL.
Qed.

Lemma sum_bounded {A} (f : A -> nat) k (xs : list A) :
  Forall (λ x, f x <= k) xs -> sum_list_with f xs <= k * length xs.
Proof. induction 1; cbn; lia. Qed.

(** A query with at most twenty such answers and at most one question fits. *)
Lemma small_query_fits m :
  is_query_message m -> length (m_Answers m) <= maxPerPacket -> Forall record_fits (m_Answers m) ->
  m_Questions m = [] -> is_ok (Pack m) = true.
Proof.
  intros (flags & _ & Em) Hlen Hfit Hq. rewrite Forall_forall in Hfit.
  assert (Hrecs : message_records m = m_Answers m).
  { rewrite Em at 1. unfold message_records. cbn. by rewrite !app_nil_r. }
  assert (Hnames : message_names m = m_Answers m ≫= rr_names).
  { unfold message_names. by rewrite Hrecs, Hq. }
  apply Pack_fits; unfold message_sound, message_size; rewrite ?Hnames, ?Hrecs, ?Hq.
  - split; apply Forall_forall.
    + intros n (rr & Hn & Hrr)%list_elem_of_bind. destruct (Hfit rr Hrr) as [[Hs _] _].
      rewrite Forall_forall in Hs. by apply Hs.
    + intros rr Hrr. by destruct (Hfit rr Hrr) as [[_ Hs] _].
  - pose proof (sum_bounded rr_size 449 (m_Answers m)) as Hs. unfold maxPerPacket in Hlen.
    assert (sum_list_with rr_size (m_Answers m) <= 449 * 20); [|cbn [sum_list_with]; lia].
    etrans; [apply Hs|lia]. apply Forall_forall. intros rr Hrr. by destruct (Hfit rr Hrr) as [_ Hl].
Qed.

(** The question alone fits. *)
Lemma bare_query_fits b m :
  is_query_message m -> m_Questions m = [browse_question b] -> m_Answers m = [] ->
  known_answers_fit b -> is_ok (Pack m) = true.
Proof.
  intros (flags & _ & Em) Hq Ha (Hs & Hl & _). rewrite Hq, Ha in Em. subst m. apply Pack_fits.
  - split; [|constructor]. unfold message_names, message_records. cbn. by repeat constructor.
  - unfold message_size, message_records. cbn [query_message m_Questions m_Answers m_Authorities m_Additionals
      app sum_list_with browse_question q_Name]. lia.
Qed.

(** The packets of a multi-packet query: each can be received, and all are sent if the
    answers are small. *)
Lemma multipacket_packable b :
  names_ok b -> Forall msg_packable (multipacket_messages (browse_question b) (known_answers b)).
Proof.
  intros Hok. destruct (known_answers_packable b Hok) as [Hq Hk].
  destruct (multipacket_spec (browse_question b) (known_answers b))
    as (Hj & first & rest & Ems & Hqf & _ & _ & Hrest).
  pose proof (multipacket_are_queries (browse_question b) (known_answers b)) as Hms.
  rewrite Forall_forall in Hms. rewrite Forall_forall in Hk. rewrite Forall_forall in Hrest.
  apply Forall_forall. intros m Hm. apply query_packable; [by apply Hms| |].
  - rewrite Ems in Hm. apply elem_of_cons in Hm as [->|Hm]; [rewrite Hqf; by constructor|].
    destruct (Hrest m Hm) as [-> _]. constructor.
  - apply Forall_forall. intros rr Hrr. apply Hk. rewrite <- Hj. apply list_elem_of_join.
    exists (m_Answers m). split; [done|by apply list_elem_of_fmap_2].
Qed.

Lemma multipacket_all_sent b :
  known_answers_fit b ->
  Forall (λ m, is_ok (Pack m) = true) (multipacket_messages (browse_question b) (known_answers b)).
Proof.
  intros Hfit. destruct (multipacket_spec (browse_question b) (known_answers b))
    as (Hj & first & rest & Ems & Hqf & Hfirst & _ & Hrest).
  pose proof (multipacket_are_queries (browse_question b) (known_answers b)) as Hms.
  rewrite Ems in Hms, Hj |- *. apply Forall_cons in Hms as [Hf Hms]. constructor.
  { destruct Hfirst as [Ha|]; [by eapply bare_query_fits|done]. }
  rewrite Forall_forall in Hms. rewrite Forall_forall in Hrest.
  apply Forall_forall. intros m Hm. destruct (Hrest m Hm) as [Hq [_ Hlen]].
  apply small_query_fits; [by apply Hms|done| |done].
  destruct Hfit as (_ & _ & Hfit). rewrite Forall_forall in Hfit.
  apply Forall_forall. intros rr Hrr. apply Hfit.
  rewrite <- Hj. apply list_elem_of_join. exists (m_Answers m). split; [done|].
  apply list_elem_of_fmap_2. by right.
Qed.

End KnownAnswers.

(** ** Instance names *)

Section InstanceNames.
  Context `{UnicodeTables}.

Lemma lowerName_ascii_length s : forallb is_ascii s = true -> lowerName s = byte_lower <$> s.
Proof. intros Hs. unfold lowerName, ToLower. by rewrite Hs. Qed.

Lemma HasPrefix_length s sub : HasPrefix s sub = true -> length sub <= length s.
Proof.
  unfold HasPrefix. intros E%bool_decide_eq_true. apply (f_equal length) in E.
  rewrite length_take in E. lia.
Qed.

Lemma LastIndex_short s sub : length s < length sub -> LastIndex s sub = None.
Proof.
  assert (Hp : forall s', length s' < length sub -> HasPrefix s' sub = false).
  { intros s' Hl. apply not_true_iff_false. intros E%HasPrefix_length. lia. }
  induction s as [|b s IH]; intros Hl; cbn [LastIndex].
  - by rewrite Hp.
  - rewrite IH by (simpl in Hl; lia). by rewrite Hp.
Qed.

(** A suffix occurs last at the end. *)
Lemma LastIndex_suffix s sub : sub <> [] -> LastIndex (s ++ sub) sub = Some (length s).
Proof.
  intros Hne. induction s as [|b s IH].
  - destruct sub as [|c sub]; [done|]. cbn [app LastIndex length].
    rewrite LastIndex_short by (simpl; lia). unfold HasPrefix. rewrite firstn_all.
    by rewrite bool_decide_true.
  - cbn [app LastIndex length]. by rewrite IH.
Qed.

Lemma extractInstanceName_ascii name st :
  name <> [] -> st <> [] -> forallb is_ascii (name ++ [dot] ++ st) = true ->
  extractInstanceName (name ++ [dot] ++ st ++ [dot]) (st ++ [dot]) = Ok name.
Proof.
  intros Hn Hs Ha. unfold extractInstanceName.
  rewrite TrimSuffix_app. rewrite !app_assoc, TrimSuffix_app, <- app_assoc.
  assert (Hst : forallb is_ascii st = true) by (rewrite !forallb_app in Ha; by bool_arith).
  rewrite !lowerName_ascii_length by done. rewrite app_assoc, fmap_app.
  rewrite LastIndex_suffix by (by destruct st).
  rewrite length_fmap, length_app. simpl length.
  destruct (Nat.ltb_spec 0 (length name + 1)); [|lia].
  rewrite slice_in_range by (rewrite ?length_app; simpl; lia).
  f_equal. rewrite drop_0, Nat.sub_0_r, Nat.add_sub, <- app_assoc. apply take_app_length.
Qed.

End InstanceNames.

(** ** Properties *)

Section BrowserProperties.
  Context `{UnicodeTables}.

(** C40: The first query is sent after 20 to 120 ms, whatever reading of the clock, which is not
    negative, the delay is drawn from; and the waits between the others double from one
    second up to one hour: the n-th is min(2^n s, 1 h), and never shorter than a second
    nor longer than an hour. *)
Theorem query_backoff nano n :
  ((0 <= nano)%Z -> (20 * Millisecond <= initialDelay nano < 120 * Millisecond)%Z) /\
  query_interval n = Z.min (2 ^ Z.of_nat n * Second) maxInterval /\
  (Second <= query_interval n <= maxInterval)%Z.
Proof.
  split.
  { intros Hn. unfold initialDelay, randIntNRange. cbn [Z.leb Z.compare].
    pose proof (Z.rem_bound_pos nano 100 Hn ltac:(lia)). unfold Millisecond. lia. }
  rewrite query_interval_min. split; [done|].
  assert (0 < 2 ^ Z.of_nat n)%Z by (apply Z.pow_pos_nonneg; lia).
  unfold maxInterval, Second. lia.
Qed.

(** C34: A query tells what the browser knows.  If the service type and the full names of
    the instances a browser knows have no empty label and at most 128 labels, every
    datagram of a query, which goes out in several packets if it does not fit one, is
    parsed by its receiver as a query, and the known answers received are a subsequence of
    what the browser knows, in its order.  If in addition every label has at most 63 bytes
    and neither the service type nor any known answer takes more than 449 bytes without
    compression, they are all the known answers, each exactly once: the first packet asks
    the question, with the longest prefix of the answers that fits if it does not hold
    them all; the others carry at most twenty answers each; and when
    there are others, every packet but the last has the TC bit.  (A packet that cannot be
    packed is left out, see [continuation_lost].) *)
Theorem multipacket_complete `{MapOrder} b :
  names_ok b ->
  exists ms, Forall2 (λ data m, UnpackMessage data = Ok (canon_msg m)) (sendQuery b) ms /\
    Forall (λ m, IsQuery m = true) ms /\
    mjoin (m_Answers <$> ms) `sublist_of` known_answers b /\
    (known_answers_fit b ->
     mjoin (m_Answers <$> ms) = known_answers b /\
     exists first rest, ms = first :: rest /\ m_Questions first = [browse_question b] /\
       Forall (λ m, m_Questions m = [] /\ 1 <= length (m_Answers m) <= maxPerPacket) rest /\
       (rest <> [] -> tc_but_last ms /\
          is_ok (Pack (query_message flagTruncation [browse_question b]
            (take (S (length (m_Answers first))) (known_answers b)))) = false)).
Proof.
  intros Hok. destruct (known_answers_packable b Hok) as [Hq Hk].
  unfold sendQuery. fold (known_infos b). fold (known_answers b).
  destruct (Pack (query_message 0 [browse_question b] (known_answers b))) as [data|e] eqn:E.
  - exists [query_message 0 [browse_question b] (known_answers b)]. cbn [fmap list_fmap mjoin list_join].
    rewrite app_nil_r. split_and!; [|by constructor|done|intros _; split; [done|by eexists _, []]].
    constructor; [|done]. apply UnpackMessage_Pack; [|done].
    apply query_packable; [by apply query_message_is; left|by constructor|done].
  - destruct (multipacket_spec (browse_question b) (known_answers b))
      as (Hj & first & rest & Ems & Hqf & _ & Htc & Hrest).
    pose proof (multipacket_are_queries (browse_question b) (known_answers b)) as Hms.
    eexists. split; [by apply packets_received, multipacket_packable|]. split_and!.
    + apply Forall_forall. intros m [_ Hm]%list_elem_of_filter. rewrite Forall_forall in Hms.
      by apply query_is_query, Hms.
    + rewrite <- Hj at 2. apply filter_answers.
    + intros Hfit. rewrite filter_all by by apply multipacket_all_sent. split; [done|].
      by exists first, rest.
Qed.

(** The instance name of a PTR target is what stands before the service type,
    for names in ASCII. *)
Theorem extractInstanceName_inverts name st :
  name <> [] -> st <> [] -> forallb is_ascii (name ++ [dot] ++ st) = true ->
  extractInstanceName (name ++ [dot] ++ st ++ [dot]) (st ++ [dot]) = Ok name.
Proof. apply extractInstanceName_ascii. Qed.

(** C23: Discovery and loss of an instance.  A PTR record of the browser's service type whose
    handling does not panic adds the instance it names if it is not known yet, changes
    nothing else it knows, and offers every listener one add event; the same record again
    then changes nothing; and its goodbye takes the instance out again and offers every
    listener one remove event for the same instance.  If the instance is known already,
    the record changes nothing. *)
Theorem discovery_and_loss now c rr b b' :
  rr_Type rr = TypePTR -> lowerName (rr_Name rr) = lowerName (b_serviceType b) ->
  handlePTR now c rr b = Ok b' ->
  let key := lowerName (normalizeName (rr_Target rr)) in
  (is_Some (b_instances b !! key) /\ b' = b) \/
  (b_instances b !! key = None /\ exists info,
     b_instances b' = <[key := info]> (b_instances b) /\
     b_listeners b' = map (offer (EventAdd info)) (b_listeners b) /\
     b_instances (onRecordRemove rr b') = b_instances b /\
     b_listeners (onRecordRemove rr b') = map (offer (EventRemove info)) (b_listeners b') /\
     handlePTR now c rr b' = Ok b').
Proof.
  intros Ht Hn Hp key. unfold handlePTR in Hp. fold key in Hp. case_bool_decide as Hk.
  { injection Hp as <-. by left. }
  right. apply eq_None_not_Some in Hk. split; [done|].
  apply result_bind_Ok in Hp as (resolved & _ & Hp).
  apply result_bind_Ok in Hp as (info & _ & [= <-]). exists info.
  unfold onRecordRemove, handlePTR, notify, set_listeners, set_instances, copyServiceInstanceInfo.
  cbn [b_serviceType b_instances b_listeners b_domain b_running].
  rewrite Ht, Hn. fold key. cbn [negb Z.eqb TypePTR Pos.eqb]. rewrite lookup_insert_eq.
  rewrite !bool_decide_true by (done || by eexists). cbn [negb b_instances b_listeners].
  split_and!; try done. by rewrite delete_insert_id.
Qed.

End BrowserProperties.
