(* ===== verification/BrowserSafety.v ===== *)
(** * Browsing with ASCII names does not panic

    The one panic of packet handling is in [extractInstanceName], which slices a
    name at an index found in its lower-case form.  For ASCII names the two have
    the same length.  Here: that names stay ASCII, and that no handler of a browser
    panics then. *)

From S2P Require Export BrowserSpec Server.

Definition ascii (s : gostring) : Prop := forallb is_ascii s = true.

#[export] Instance ascii_dec s : Decision (ascii s).
Proof. unfold ascii. apply _. Defined.

(** The parts of an ASCII string. *)
Lemma ascii_app s t : ascii (s ++ t) <-> ascii s /\ ascii t.
Proof. unfold ascii. rewrite forallb_app. by rewrite andb_true_iff. Qed.

Lemma ascii_take n s : ascii s -> ascii (take n s).
Proof. intros Hs. rewrite <- (take_drop n s) in Hs. by apply ascii_app in Hs as []. Qed.

Lemma ascii_TrimSuffix s suf : ascii s -> ascii (TrimSuffix s suf).
Proof. unfold TrimSuffix. case_if; [apply ascii_take | done]. Qed.

Lemma ascii_normalizeName s : ascii s -> ascii (normalizeName s).
Proof. unfold normalizeName. intros Hs. repeat case_if; [done | by apply ascii_app | done]. Qed.

#[export] Hint Resolve ascii_take ascii_TrimSuffix ascii_normalizeName : mdns.

Lemma LastIndex_bound s sub i : LastIndex s sub = Some i -> i <= length s.
Proof.
  revert i. induction s as [|b s IH]; intros i; cbn [LastIndex length].
  - case_if; [by intros [= <-] | done].
  - destruct (LastIndex s sub) as [j|]; [intros [= <-]; specialize (IH j eq_refl); lia|].
    case_if; [intros [= <-]; lia | done].
Qed.

Section Safety.
  Context `{UnicodeTables, MapOrder}.

(** ** One browser *)

Definition browser_ascii (b : Browser) : Prop :=
  ascii (b_serviceType b) /\ map_Forall (λ _ info, ascii (i_Name info)) (b_instances b).

(** The records whose names a browser slices. *)
Definition ptr_ascii (rr : ResourceRecord) : Prop := rr_Type rr = TypePTR -> ascii (rr_Target rr).

#[export] Instance ptr_ascii_dec rr : Decision (ptr_ascii rr).
Proof. unfold ptr_ascii. apply _. Defined.

Lemma extractInstanceName_safe name st :
  ascii name -> exists n, extractInstanceName name st = Ok n /\ ascii n.
Proof.
  intros Hn. unfold extractInstanceName. set (ln := TrimSuffix name [dot]).
  assert (Hln : ascii ln) by (unfold ln; auto with mdns).
  rewrite (lowerName_ascii_length ln Hln).
  destruct (LastIndex _ _) as [idx|] eqn:E; [|by eexists].
  apply LastIndex_bound in E. rewrite length_fmap in E. case_if; [|by eexists].
  rewrite slice_in_range by lia. eexists. split; [done|]. rewrite drop_0. auto with mdns.
Qed.

Lemma resolveInstance_safe now c b name :
  ascii name -> exists r, resolveInstance now c b name = Ok r /\
    from_option (λ info : ServiceInstanceInfo, ascii (i_Name info)) True r.
Proof.
  intros Hn. unfold resolveInstance. destruct (Lookup _ _ _) as [|srv rest]; [by exists (@None ServiceInstanceInfo)|].
  destruct (extractInstanceName_safe name (b_serviceType b) Hn) as (n & -> & Ha).
  by eexists.
Qed.

Lemma handlePTR_safe now c rr b :
  browser_ascii b -> ascii (rr_Target rr) -> exists b', handlePTR now c rr b = Ok b' /\ browser_ascii b'.
Proof.
  intros [Hst Hi] Ht. unfold handlePTR. cbv zeta. set (name := normalizeName (rr_Target rr)).
  assert (Hname : ascii name) by (unfold name; auto with mdns). case_if; [by exists b|].
  destruct (resolveInstance_safe now c b name Hname) as ([info|] & -> & Ha);
    cbn [mbind result_bind] in *; [|
    destruct (extractInstanceName_safe name (b_serviceType b) Hname) as (n & -> & Hn);
    cbn [mbind result_bind]];
    (eexists; split; [reflexivity|]; split; [done|]; by apply map_Forall_insert_2).
Qed.

Lemma update_from_record_name rr b info : i_Name (update_from_record rr b info).1 = i_Name info.
Proof. unfold update_from_record. by repeat case_if. Qed.

Lemma refill_safe now c b entries : forall m,
  ascii (b_serviceType b) -> Forall (λ e : gostring * ServiceInstanceInfo, ascii (i_Name e.2)) entries ->
  map_Forall (λ _ info, ascii (i_Name info)) m ->
  exists m', refill now c b entries m = Ok m' /\ map_Forall (λ _ info, ascii (i_Name info)) m'.
Proof.
  induction entries as [|[key info] entries IH]; intros m Hst Hes Hm; cbn [refill]; [by exists m|].
  apply Forall_cons in Hes as [He Hes]. cbn in He.
  destruct (resolveInstance_safe (now key) c b (i_Name info ++ [dot] ++ b_serviceType b))
    as (r & -> & _); [by rewrite !ascii_app|]. cbn [mbind result_bind].
  apply IH; [done|done|]. destruct r; [|done]. by apply map_Forall_insert_2.
Qed.

Lemma updateInstancesFromRecord_safe now c rr b :
  browser_ascii b -> exists b', updateInstancesFromRecord now c rr b = Ok b' /\ browser_ascii b'.
Proof.
  intros [Hst Hi]. unfold updateInstancesFromRecord. cbv zeta.
  set (m := fst ∘ update_from_record rr b <$> b_instances b).
  assert (Hm : map_Forall (λ _ info, ascii (i_Name info)) m).
  { intros key info. unfold m. rewrite lookup_fmap. intros (i0 & Hi0 & ->)%fmap_Some. cbn.
    rewrite update_from_record_name. by apply (Hi key). }
  case_if; [|by eexists].
  destruct (refill_safe now c b (visit 0 (map_to_list m)) m Hst) as (m' & -> & Hm'); [|done|by eexists].
  rewrite visit_perm. apply Forall_forall. intros [key info] He%elem_of_map_to_list. by apply (Hm key).
Qed.

Lemma onRecordAdd_safe now c rr b :
  browser_ascii b -> ptr_ascii rr -> exists b', onRecordAdd now c rr b = Ok b' /\ browser_ascii b'.
Proof.
  intros Hb Hrr. unfold onRecordAdd. case_if; bool_arith; [by apply handlePTR_safe; auto|].
  case_if; [by apply updateInstancesFromRecord_safe | by eexists].
Qed.

Lemma onRecordRemove_ascii rr b : browser_ascii b -> browser_ascii (onRecordRemove rr b).
Proof.
  intros [Hst Hi]. unfold onRecordRemove. repeat case_if; try done.
  destruct (_ !! _); [|done]. split; [done|]. by apply map_Forall_delete.
Qed.

(** ** The browsers of a server *)

Definition browsers_ascii (s : Server) : Prop := map_Forall (λ _ b, browser_ascii b) (s_bheap s).

Lemma notify_browsers_safe clk rr c ps : forall j h,
  ptr_ascii rr -> map_Forall (λ _ b, browser_ascii b) h ->
  exists h', notify_browsers clk rr c j ps h = Ok h' /\ map_Forall (λ _ b, browser_ascii b) h'.
Proof.
  induction ps as [|p ps IH]; intros j h Hrr Hh; cbn [notify_browsers]; [by exists h|].
  destruct (h !! p) as [b|] eqn:Hp; [|by apply IH].
  destruct (onRecordAdd_safe (λ k i, clk (j :: i :: (Z.to_nat ∘ b2z <$> k))) c rr b (Hh p b Hp) Hrr)
    as (b' & -> & Hb').
  cbn [mbind result_bind]. apply IH; [done|]. by apply map_Forall_insert_2.
Qed.

Lemma notifyRemoval_ascii n rr s : browsers_ascii s -> browsers_ascii (notifyRemoval n rr s).
Proof.
  unfold browsers_ascii, notifyRemoval. cbn. intros Hs.
  apply (foldl_inv (map_Forall (λ _ b, browser_ascii b))); [done|].
  intros p h _ Hh q b. rewrite lookup_alter_Some.
  intros [(_ & b0 & Hb0 & ->)|[_ Hq]]; [apply onRecordRemove_ascii, (Hh q b0 Hb0) | by apply (Hh q)].
Qed.

Lemma notify_records_safe clk rrs : forall i s,
  Forall ptr_ascii rrs -> browsers_ascii s ->
  exists s', notify_records clk i rrs s = Ok s' /\ browsers_ascii s'.
Proof.
  induction rrs as [|rr rrs IH]; intros i s Hrrs Hs; cbn [notify_records]; [by exists s|].
  apply Forall_cons in Hrrs as [Hrr Hrrs]. case_if.
  - cbn [mbind result_bind]. apply IH; [done|]. by apply notifyRemoval_ascii.
  - unfold notifyAddition.
    destruct (notify_browsers_safe (λ path, clk (i :: path)) rr (s_cache s)
      (visit i (map_to_list (s_browsers s))).*2 0 (s_bheap s) Hrr Hs) as (h & -> & Hh).
    cbn [mbind result_bind]. by apply IH.
Qed.

(** A browser of an ASCII service type in an ASCII domain starts out so. *)
Lemma Browse_ascii st s :
  ascii st -> ascii (cfg_Domain (s_config s)) -> browsers_ascii s -> browsers_ascii (Browse st s).1.
Proof.
  intros Hst Hd Hs. unfold browsers_ascii, Browse. cbn. apply map_Forall_insert_2; [|done].
  split; [|apply map_Forall_empty]. cbn. unfold normalizeServiceTypeDomain.
  rewrite ascii_app. split; [|done]. case_if; rewrite ?ascii_app; split_and?; auto with mdns; done.
Qed.

End Safety.
