(* ===== verification/ServerSpec.v ===== *)
(** * What packets and calls do to the server

    Which packets are ignored, that handling a packet terminates normally, what a
    response leaves in the cache, what registration does on every branch, and that
    unregistration is its inverse. *)

From S2P Require Export ProbingSpec BrowserSafety.

Section ServerSpec.
  Context `{UnicodeTables, MapOrder}.

(** ** The cache after a response *)

Lemma cache_records_other clk i rrs s key :
  (forall r, r ∈ rrs -> rrKey (rr_Name r) (rr_Type r) <> key) ->
  s_cache (cache_records clk i rrs s) !! key = s_cache s !! key.
Proof.
  revert i s. induction rrs as [|rr rrs IH]; intros i s Hne; cbn [cache_records]; [done|].
  rewrite IH by (intros r Hr; apply Hne; by right).
  assert (Hk : rrKey (rr_Name rr) (rr_Type rr) <> key) by (apply Hne; by left).
  case_if; cbn [with_cache with_passive s_cache].
  - unfold Remove. by rewrite lookup_delete_ne.
  - by rewrite Upsert_other by done.
Qed.

Lemma cache_records_app clk i pre rrs s :
  cache_records clk i (pre ++ rrs) s
  = cache_records clk (i + length pre) rrs (cache_records clk i pre s).
Proof.
  revert i s. induction pre as [|rr pre IH]; intros i s; cbn [app cache_records length].
  { by rewrite Nat.add_0_r. }
  rewrite IH. by replace (S i + length pre) with (i + S (length pre)) by lia.
Qed.

Lemma notify_records_cache clk i rrs s s' :
  notify_records clk i rrs s = Ok s' -> s_cache s' = s_cache s.
Proof.
  revert i s. induction rrs as [|rr rrs IH]; intros i s Hr; cbn [notify_records] in Hr.
  { by injection Hr as ->. }
  apply result_bind_Ok in Hr as (s1 & H1 & Hr%IH). rewrite Hr.
  case_if_in H1; [by injection H1 as <-|]. unfold notifyAddition in H1.
  by apply result_bind_Ok in H1 as (m & _ & [= <-]).
Qed.

(** ** Totality *)

Lemma cache_records_bheap clk i rrs s : s_bheap (cache_records clk i rrs s) = s_bheap s.
Proof.
  revert i s. induction rrs as [|rr rrs IH]; intros i s; cbn [cache_records]; [done|].
  rewrite IH. by case_if.
Qed.

Lemma cache_records_browsers clk i rrs s : s_browsers (cache_records clk i rrs s) = s_browsers s.
Proof.
  revert i s. induction rrs as [|rr rrs IH]; intros i s; cbn [cache_records]; [done|].
  rewrite IH. by case_if.
Qed.

(** Without browsers there is nobody to notify. *)
Lemma notify_records_no_browsers clk rrs : forall i s,
  s_browsers s = ∅ -> exists s', notify_records clk i rrs s = Ok s' /\ s_bheap s' = s_bheap s.
Proof.
  induction rrs as [|rr rrs IH]; intros i s Hb; cbn [notify_records]; [by eexists|].
  assert (Hv : (visit i (map_to_list (s_browsers s))).*2 = []).
  { rewrite Hb, map_to_list_empty. apply fmap_nil_inv with (f := id). rewrite list_fmap_id.
    apply Permutation_nil_r. by rewrite visit_perm. }
  unfold notifyRemoval, notifyAddition. rewrite Hv. case_if; cbn [mbind result_bind notify_browsers foldl];
    destruct (IH (S i) (with_bheap (s_bheap s) s) Hb) as (s' & -> & E); by exists s'.
Qed.

Lemma handleProbes_bheap nss : forall n s s' outs,
  handleProbes n nss s = Ok (s', outs) -> s_bheap s' = s_bheap s.
Proof.
  induction nss as [|ns nss IH]; intros n s s' outs; cbn [handleProbes]; [by intros [= <- _]|].
  intros Hr. apply result_bind_Ok in Hr as ([s1 out] & H1 & Hr).
  apply result_bind_Ok in Hr as ([s2 outs2] & H2 & [= <- _]). rewrite (IH _ _ _ _ H2).
  unfold handleProbe in H1. by apply result_bind_Ok in H1 as ([h o] & _ & [= <- _]).
Qed.

Lemma trackPassiveQueries_bheap clk i qs s : s_bheap (trackPassiveQueries clk i qs s) = s_bheap s.
Proof.
  revert i s. induction qs as [|q qs IH]; intros i s; cbn [trackPassiveQueries]; [done|]. by rewrite IH.
Qed.

Lemma handleQuery_bheap clk msg from s s' outs :
  handleQuery clk msg from s = Ok (s', outs) -> s_bheap s' = s_bheap s.
Proof.
  unfold handleQuery. intros Hr. apply result_bind_Ok in Hr as ([s1 out] & H1%handleProbes_bheap & [= <- _]).
  rewrite <- H1. unfold track_query. cbv zeta. case_if; [done|]. apply trackPassiveQueries_bheap.
Qed.

(** Filling in a default twice changes nothing. *)
Lemma fill_idem {A} `{EqDecision A} (x d : list A) :
  (if bool_decide ((if bool_decide (x = []) then d else x) = []) then d
   else if bool_decide (x = []) then d else x) = (if bool_decide (x = []) then d else x).
Proof.
  destruct (bool_decide_reflect (x = [])) as [->|Hx]; [by destruct (bool_decide (d = []))|].
  by rewrite bool_decide_false.
Qed.

(** ** Properties *)

Lemma invalid_mDNS m :
  Opcode m <> 0%Z \/ (IsResponse m = true /\ RCode m <> 0%Z) -> IsValidmDNS m = false.
Proof.
  unfold IsValidmDNS. destruct (Z.eqb_spec (Opcode m) 0); [|done].
  intros [|[-> Hr]]; [done|]. by rewrite (proj2 (Z.eqb_neq _ _) Hr).
Qed.


(** C20: Packet handling never panics as long as names are in ASCII: in every
    reachable world whose browsers look for ASCII service types and know ASCII
    instance names, any bytes from anywhere are handled, provided that, if they are
    a message, the targets of its PTR records are in ASCII; and the browsers stay
    so.  A server without browsers handles every packet. *)
Theorem packet_handling_total w clk data from :
  reachable w -> browsers_ascii (w_server w) ->
  (forall m, UnpackMessage data = Ok m ->
     s_browsers (w_server w) = ∅ \/ Forall ptr_ascii (m_Answers m ++ m_Additionals m)) ->
  exists s' outs, handlePacket clk data from (w_server w) = Ok (s', outs) /\ browsers_ascii s'.
Proof.
  intros Hw%reachable_inv%world_probing_open Hb Hptr. unfold handlePacket.
  case_if; [by eexists _, _|]. destruct (UnpackMessage data) as [m|]; [|by eexists _, _].
  case_if; [case_if; by eexists _, _|]. case_if; [by eexists _, _|]. case_if; [by eexists _, _|].
  case_if.
  - destruct (handleQuery_ok clk m from (w_server w) Hw) as (s' & outs & E & _).
    rewrite E. eexists _, _. split; [done|]. unfold browsers_ascii.
    by rewrite (handleQuery_bheap _ _ _ _ _ _ E).
  - unfold handleResponse. set (rrs := m_Answers m ++ m_Additionals m) in *.
    set (s1 := cache_records _ 0 rrs (w_server w)).
    assert (Hs1 : browsers_ascii s1) by (unfold browsers_ascii, s1; by rewrite cache_records_bheap).
    destruct (Hptr m eq_refl) as [Hnone|Hall].
    + destruct (notify_records_no_browsers (λ path, clk (1 :: path)) rrs 0 s1) as (s' & E & Hs').
      { unfold s1. by rewrite cache_records_browsers. }
      cbn zeta. rewrite E. cbn [mbind result_bind]. eexists _, _. split; [done|].
      unfold browsers_ascii. by rewrite Hs'.
    + destruct (notify_records_safe (λ path, clk (1 :: path)) rrs 0 s1 Hall Hs1) as (s' & E & Hs').
      cbn zeta. rewrite E. cbn [mbind result_bind]. by eexists _, _.
Qed.

(** C32: The last word on a name and type counts.  After a response is handled, a
    record that is the last of its name and type in it is found in the cache until
    its TTL has run out, or, if it is a goodbye, nothing is found there. *)
Theorem response_last_word clk msg s s' pre rr post :
  handleResponse clk msg s = Ok s' ->
  m_Answers msg ++ m_Additionals msg = pre ++ rr :: post ->
  (forall r, r ∈ post -> rrKey (rr_Name r) (rr_Type r) <> rrKey (rr_Name rr) (rr_Type rr)) ->
  let key := rrKey (rr_Name rr) (rr_Type rr) in
  (rr_TTL rr = 0%Z -> forall now, Lookup now key (s_cache s') = []) /\
  (rr_TTL rr <> 0%Z -> forall now, (now < clk [0%nat; length pre] + ttl_duration rr)%Z ->
     exists r, r ∈ Lookup now key (s_cache s') /\ rr_id r = rr_id rr /\ rr_TTL r = rr_TTL rr).
Proof.
  intros Hr Eall Hpost key. unfold handleResponse in Hr. rewrite Eall in Hr.
  apply notify_records_cache in Hr. rewrite cache_records_app in Hr.
  cbn [cache_records Nat.add] in Hr. set (s1 := cache_records _ 0 pre s) in Hr.
  set (s2 := if (rr_TTL rr =? 0)%Z then _ else _) in Hr.
  assert (Ekey : s_cache s' !! key = s_cache s2 !! key) by (rewrite Hr; by apply cache_records_other).
  assert (Erec : records_of (s_cache s') key = records_of (s_cache s2) key)
    by (unfold records_of; by rewrite Ekey).
  split.
  - intros Httl now. unfold Lookup. rewrite Erec. unfold s2. rewrite Httl. cbn. unfold records_of, Remove.
    by rewrite lookup_delete_eq.
  - intros Httl now Hnow. unfold s2 in Erec. rewrite (proj2 (Z.eqb_neq _ _) Httl) in Erec.
    cbn [with_cache with_passive s_cache] in Erec.
    destruct (Upsert_records (clk [0; length pre]) rr (s_cache s1))
      as (l1 & cr & l2 & E & Hid & Ht & Hexp & _). fold key in E.
    exists (cr_rr cr). split; [|done]. apply elem_of_Lookup. exists cr. rewrite Erec, E.
    split_and!; [set_solver|done|lia].
Qed.

(** The instance a caller gave, with what it left out filled in: the domain and the host
    name of the server's configuration, the addresses of the host. *)
Definition completed (s : Server) (given svc : ServiceInstance) : Prop :=
  si_Type svc = si_Type given /\ si_Name svc = si_Name given /\ si_Port svc = si_Port given /\
  si_Text svc = si_Text given /\ si_Priority svc = si_Priority given /\
  si_Weight svc = si_Weight given /\ si_TTL svc = si_TTL given /\
  (si_Domain given <> [] -> si_Domain svc = si_Domain given) /\
  (si_Domain given = [] -> si_Domain svc = cfg_Domain (s_config s)) /\
  (si_Host given <> [] -> si_Host svc = si_Host given) /\
  (si_Host given = [] -> si_Host svc = cfg_HostName (s_config s)) /\
  (si_IPs given <> [] -> si_IPs svc = si_IPs given) /\
  (si_IPs given = [] -> si_IPs svc = s_hostIPs s).

Lemma fill_cases {A} `{EqDecision A} (x d : list A) :
  (x <> [] -> (if bool_decide (x = []) then d else x) = x) /\
  (x = [] -> (if bool_decide (x = []) then d else x) = d).
Proof. by case_bool_decide. Qed.

Lemma with_defaults_completed s given : completed s given (with_defaults s given).
Proof. unfold completed. cbn. split_and!; try done; by apply fill_cases. Qed.

(** Registering again, and unregistering, what was just registered. *)
Lemma registered_again ip s s1 outs :
  RegisterService ip s = (s1, Ok outs) -> forall given, s_instances s !! ip = Some given ->
  (RegisterService ip s1).2 = Err (ErrServiceRegistered (InstanceName (with_defaults s given))) /\
  exists s2, UnregisterService ip s1 = (s2, Ok []) /\ s_services s2 = s_services s.
Proof.
  unfold RegisterService at 1. intros Hr given Hi. rewrite Hi in Hr.
  destruct (bool_decide _ || _) eqn:Ebad; [done|]. revert Hr.
  set (c := with_defaults s given). cbn zeta. cbn [with_instances s_services s_heap s_instances].
  destruct (s_services s !! service_key c) eqn:Hk; [done|]. intros [= <- <-].
  assert (Hidem : forall s', s_config s' = s_config s -> s_hostIPs s' = s_hostIPs s ->
    with_defaults s' c = c).
  { intros s' Ec Ei. unfold c, with_defaults. rewrite Ec, Ei. cbn. by rewrite !fill_idem. }
  split.
  - unfold RegisterService.
    cbn [with_services with_heap with_instances s_instances s_services s_heap s_config s_hostIPs].
    rewrite lookup_insert_eq. change (si_Name c) with (si_Name given).
    change (si_Type c) with (si_Type given). rewrite Ebad, Hidem by done. cbn zeta.
    cbn [with_services with_heap with_instances s_instances s_services s_heap s_config s_hostIPs].
    by rewrite lookup_insert_eq.
  - unfold UnregisterService. cbn. rewrite !lookup_insert_eq. eexists.
    split; [reflexivity|]. cbn. by rewrite delete_insert_id.
Qed.

(** C33: Registration and unregistration.  The instance a caller registers is completed
    and nothing it gave is changed: an empty domain, host or address list is filled in
    from the server, every other field stays.  Registration fails, and leaves the
    registered services as they are, exactly when the name or the type is empty or the
    completed instance's name is taken.  Otherwise it files a fresh idle service with
    the records generated from the completed instance under that name, changes no other
    entry, and starts its probing; then the same instance cannot be registered again,
    and unregistering it restores the registered services and sends nothing, as it was
    not announced. *)
Theorem register_unregister ip s given :
  s_instances s !! ip = Some given ->
  exists svc, completed s given svc /\
    match RegisterService ip s with
    | (s1, Ok outs) =>
        si_Name given <> [] /\ si_Type given <> [] /\ s_services s !! service_key svc = None /\
        s_instances s1 = <[ip := svc]> (s_instances s) /\
        exists p rs,
          s_services s1 = <[service_key svc := p]> (s_services s) /\
          s_heap s !! p = None /\ s_heap s1 = <[p := rs]> (s_heap s) /\ outs = [Probe p] /\
          rs_state rs = stateIdle /\ rs_records rs = generateServiceRecords svc /\
          (RegisterService ip s1).2 = Err (ErrServiceRegistered (InstanceName svc)) /\
          exists s2, UnregisterService ip s1 = (s2, Ok []) /\ s_services s2 = s_services s
    | (s1, Err e) =>
        s_services s1 = s_services s /\ s_heap s1 = s_heap s /\
        ((e = ErrServiceNameType /\ (si_Name given = [] \/ si_Type given = [])) \/
         (e = ErrServiceRegistered (InstanceName svc) /\ is_Some (s_services s !! service_key svc)))
    end.
Proof.
  intros Hi. exists (with_defaults s given). split; [apply with_defaults_completed|].
  destruct (RegisterService ip s) as [s1 r] eqn:Hr. pose proof (registered_again ip s s1) as Hagain.
  rewrite Hr in Hagain. revert Hr Hagain. unfold RegisterService at 1. rewrite Hi.
  destruct (bool_decide _ || _) eqn:Ebad.
  { intros [= <- <-] _. split_and!; [done|done|]. left. split; [done|].
    apply orb_true_iff in Ebad as [?%bool_decide_eq_true|?%bool_decide_eq_true]; auto. }
  apply orb_false_iff in Ebad as [Hn%bool_decide_eq_false Ht%bool_decide_eq_false].
  cbn zeta. cbn [with_instances s_services s_heap s_instances].
  destruct (s_services s !! service_key _) eqn:Hk; intros [= <- <-] Hagain.
  { split_and!; [done|done|]. right. by split; [|eexists]. }
  destruct (Hagain _ eq_refl given eq_refl) as [Herr Hun]. split_and!; [done|done|done|done|].
  eexists _, _. split_and!; [reflexivity | | reflexivity | reflexivity | done | done | exact Herr | exact Hun].
  apply not_elem_of_dom, is_fresh.
Qed.

End ServerSpec.
