(* ===== verification/Interleaving.v ===== *)
(** * Executions, uninterrupted packets, and closing

    Executions as lists of events.  Handling a query step by step, if nothing comes in
    between, is handling it at once ([handlePacket]).  The connection is open until
    [Close] closes it, so that the goodbyes [Close] says get out. *)

From S2P Require Export HostSpec ServerSpec.

(** ** Executions *)

Section Executions.
  Context `{UnicodeTables, MapOrder}.

(** A crash ends an execution. *)
Fixpoint run (es : list event) (w : world) : option outcome :=
  match es with
  | [] => Some (Running w)
  | e :: es =>
      match world_step e w with
      | Some (Running w') => run es w'
      | o => match es with [] => o | _ => None end
      end
  end.

Lemma run_steps es w w' : run es w = Some (Running w') -> rtc steps_to w w'.
Proof.
  revert w. induction es as [|e es IH]; intros w Hr; cbn [run] in Hr; [by injection Hr as ->|].
  destruct (world_step e w) as [[w1|]|] eqn:E; [|by destruct es..].
  eapply rtc_l; [|by apply IH]. by exists _, e.
Qed.

Lemma run_reachable es w w' : initial w -> run es w = Some (Running w') -> reachable w'.
Proof. intros Hi Hr%run_steps. by exists w. Qed.

(** ** Queries, step by step *)

Lemma write_all_app o1 o2 mc :
  write_all (o1 ++ o2) mc =
    ((write_all o2 (write_all o1 mc).1).1, (write_all o1 mc).2 ++ (write_all o2 (write_all o1 mc).1).2).
Proof.
  revert mc. induction o1 as [|o o1 IH]; intros mc; cbn [write_all app].
  { cbn. by destruct (write_all o2 mc). }
  destruct (write o mc) as [mc1 out]. rewrite IH. destruct (write_all o1 mc1) as [mc2 gone]. cbn.
  by destruct out.
Qed.

Lemma emit_emit t o1 o2 w : emit t o2 (emit t o1 w) = emit t (o1 ++ o2) w.
Proof. rewrite !emit_eq, write_all_app. cbn. by rewrite fmap_app, app_assoc. Qed.

(** The world after a query has been handled at once. *)
Definition handled_at_once (r : result (Server * list output)) (w : world) : outcome :=
  match r with
  | Ok (s', outs) => Running (emit main_thread outs (set_server s' w))
  | Err _ => Crashed
  end.

Lemma run_recv_step clk es w :
  idle w = false ->
  run (Recv clk :: es) w =
    match received (recv_step clk (w_recv w) (w_server w)) w with
    | Running w' => run es w'
    | Crashed => match es with [] => Some Crashed | _ => None end
    end.
Proof. intros Hi. cbn [run world_step]. rewrite Hi. by destruct (received _ _). Qed.

Lemma answer_steps clk msg from n w :
  w_recv w = RProbes msg from n [] ->
  run [Recv clk; Recv clk] w
  = Some (Running (emit main_thread (answer_query clk msg from (track_query clk msg from (w_server w)))
      (set_recv RIdle (set_server (track_query clk msg from (w_server w)) w)))).
Proof.
  intros Hw. rewrite run_recv_step by (unfold idle; by rewrite Hw). rewrite Hw.
  cbn [recv_step received]. rewrite emit_nil. by rewrite run_recv_step by done.
Qed.

Lemma query_steps clk msg from nss : forall n w,
  w_recv w = RProbes msg from n nss ->
  exists k, run (replicate k (Recv clk)) w = Some (handled_at_once
    ('(s, defend) ← handleProbes n nss (w_server w);
     let s := track_query clk msg from s in
     Ok (s, defend ++ answer_query clk msg from s)) (set_recv RIdle w)).
Proof.
  induction nss as [|ns nss IH]; intros n w Hw; cbn [handleProbes].
  { exists 2. cbn [replicate]. by rewrite (answer_steps clk msg from n w Hw). }
  assert (Hi : idle w = false) by (unfold idle; by rewrite Hw).
  destruct (handleProbe n ns (w_server w)) as [[s1 out]|e] eqn:E; cbn [mbind result_bind].
  - destruct (IH (S n) (emit main_thread out (set_recv (RProbes msg from (S n) nss) (set_server s1 w))))
      as (k & Hk); [by rewrite emit_eq|]. exists (S k). cbn [replicate].
    rewrite run_recv_step, Hw by done. cbn [recv_step]. rewrite E. cbn [mbind result_bind received].
    rewrite Hk, emit_server. cbn [set_recv set_server w_server].
    destruct (handleProbes (S n) nss s1) as [[s2 outs]|]; [|done]. cbn [mbind result_bind handled_at_once].
    rewrite <- app_assoc, <- (emit_emit _ out). by rewrite !emit_eq.
  - exists 1. cbn [replicate]. rewrite run_recv_step, Hw by done. cbn [recv_step]. rewrite E. done.
Qed.

Lemma accepted_query_handled clk data from s msg :
  accepted_query data from s = Some msg -> handlePacket clk data from s = handleQuery clk msg from s.
Proof.
  unfold accepted_query, handlePacket. case_if; [done|]. destruct (UnpackMessage data) as [m|]; [|done].
  destruct (m_ID m =? 0)%Z; [|done]. destruct (IsValidmDNS m); [|done].
  destruct (isLocalSubnet _ _); [|done]. destruct (IsQuery m); [|done]. by intros [= ->].
Qed.

Lemma set_recv_idle w : w_recv w = RIdle -> set_recv RIdle w = w.
Proof. destruct w. cbn. by intros ->. Qed.

End Executions.

(** ** Closing *)

Section Closing.
  Context `{UnicodeTables}.

Lemma spawns_server outs : forall w, w_server (spawns outs w) = w_server w.
Proof.
  induction outs as [|o outs IH]; intros w; [done|].
  change (w_server (spawns outs (match o with Probe p => spawn p w | _ => w end)) = w_server w).
  rewrite IH. by destruct o.
Qed.

(** The step is none of [Close], and leaves the connection as open as it was. *)
Definition keeps_conn (w w' : world) : Prop :=
  w_close w' = w_close w /\ mc_closed (w_conn w') = mc_closed (w_conn w).

#[local] Instance keeps_conn_refl : Reflexive keeps_conn.
Proof. by intros w. Qed.

#[local] Instance keeps_conn_trans : Transitive keeps_conn.
Proof. intros w1 w2 w3 [C1 M1] [C2 M2]. split; congruence. Qed.

Lemma emit_keeps t outs w : keeps_conn w (emit t outs w).
Proof. split; [by rewrite emit_eq|apply emit_closed]. Qed.

Lemma spawns_keeps outs w : keeps_conn w (spawns outs w).
Proof.
  revert w. induction outs as [|o outs IH]; intros w; [done|]. cbn [spawns foldl].
  etrans; [|apply IH]. by destruct o.
Qed.

(** A change of the rest of the world, then what it sends. *)
Lemma emit_keeps' t outs w w1 : keeps_conn w w1 -> keeps_conn w (emit t outs w1).
Proof. intros Hk. etrans; [exact Hk|apply emit_keeps]. Qed.

Lemma thread_step_keeps clk t p c w w' : thread_step clk t p c w = Some w' -> keeps_conn w w'.
Proof.
  destruct c as [| |msg n|msg n|seen|again]; cbn [thread_step].
  - by intros [= <-].
  - by intros [= <-].
  - destruct (Pack msg) as [data|e]; [|by intros [= <-]].
    case_if; intros [= <-]; apply (emit_keeps t [Multicast data]).
  - by case_if; intros [= <-].
  - destruct (decide _).
    + destruct (handleConflictRename p (w_server w)) as [s' outs]. intros [= <-].
      by etrans; [|apply spawns_keeps].
    + destruct (finish_probing p (w_server w)); [|done]. by intros [= <-].
  - unfold announceService. destruct (sendResponseMulticast _ _ _) as [s' outs]. intros [= <-].
    destruct again; apply (emit_keeps t outs (set_server s' w)).
Qed.

Lemma host_step_keeps clk w w' : host_step clk w = Some w' -> keeps_conn w w'.
Proof.
  unfold host_step. destruct (w_host w) as [|msg n|msg n|]; [by intros [= <-]| | |done].
  - destruct (Pack msg) as [data|e]; [|by intros [= <-]].
    case_if; intros [= <-]; apply (emit_keeps host_thread [Multicast data]).
  - case_if; [by intros [= <-]|]. destruct (hostRecordsProbed clk (w_server w)) as [s' outs].
    intros [= <-]. apply (emit_keeps host_thread outs (set_server s' w)).
Qed.

Definition closing_event (e : event) : bool :=
  match e with Close | CloseSockets => true | _ => false end.

Lemma received_keeps r w w' : received r w = Running w' -> keeps_conn w w'.
Proof. unfold received. destruct r as [[[c s'] outs]|]; [|done]. intros [= <-]. by apply emit_keeps'. Qed.

Lemma world_step_keeps `{MapOrder} e w w' :
  closing_event e = false -> world_step e w = Some (Running w') -> keeps_conn w w'.
Proof.
  intros He Hstep. destruct e; try discriminate He; cbn [world_step] in Hstep.
  1,2: apply bind_Some in Hstep as ([p c] & Hthr & Hstep).
  - destruct (thread_step clk t p c w) eqn:E; [|done]. injection Hstep as <-.
    by eapply thread_step_keeps.
  - case_if_in Hstep; [|done]. by injection Hstep as <-.
  - destruct (host_step clk w) as [w1|] eqn:E; [|done]. injection Hstep as <-. by eapply host_step_keeps.
  - by injection Hstep as <-.
  - case_if_in Hstep; [|done]. injection Hstep as Hstep. by eapply received_keeps.
  - case_if_in Hstep; [done|]. injection Hstep as Hstep. by eapply received_keeps.
  - case_if_in Hstep; [|done]. destruct (RegisterService ip (w_server w)) as [s' r].
    injection Hstep as <-. destruct r; [|done]. by etrans; [|apply spawns_keeps].
  - case_if_in Hstep; [|done]. destruct (UnregisterService ip (w_server w)) as [s' r].
    injection Hstep as <-. destruct r; [|done]. by apply emit_keeps'.
  - case_if_in Hstep; [|done]. destruct (sendResponseWithAdditional _ _ _ _ _) as [s' outs].
    injection Hstep as <-. by apply emit_keeps'.
  - destruct (cacheTick clk clkb (w_server w)) as [s' outs]. injection Hstep as <-. by apply emit_keeps'.
  - by injection Hstep as <-.
  - by injection Hstep as <-.
  - destruct (StopBrowser p (w_server w)); [|done]. by injection Hstep as <-.
  - injection Hstep as <-. by apply emit_keeps'.
  - by injection Hstep as <-.
Qed.

(** The connection is open until [Close] closes it. *)
Lemma reachable_open w : reachable w -> w_close w <> CClosed -> mc_closed (w_conn w) = false.
Proof.
  intros (w0 & (_ & _ & _ & _ & _ & _ & _ & _ & _ & _ & H0) & Hsteps).
  assert (Hw : w_close w0 <> CClosed -> mc_closed (w_conn w0) = false) by done. clear H0.
  induction Hsteps as [|w1 w2 w3 (o & e & Hstep) _ IH]; [exact Hw|]. apply IH.
  destruct (closing_event e) eqn:He.
  - destruct e; try discriminate He; cbn [world_step] in Hstep;
      (destruct (decide _) as [Hc|]; [|done]); injection Hstep as <-; [|by intros []].
    intros _. cbn [set_close w_conn]. rewrite emit_closed. apply Hw. by rewrite Hc.
  - apply (@world_step_keeps o) in Hstep as [-> ->]; done.
Qed.

(** [Close] says the goodbye of every announced service. *)
Lemma Close_says_goodbyes `{MapOrder} w w' svc data :
  reachable w -> world_step Close w = Some (Running w') ->
  svc ∈ services_of (w_server w) -> announced svc = true ->
  sendGoodbye (rs_records svc.2) = [Multicast data] -> 
  exists sent, w_sent w' = w_sent w ++ sent /\ (main_thread, Multicast data) ∈ sent.
Proof.
  intros Hw Hstep Hsvc Ha Hsend. cbn [world_step] in Hstep. destruct (decide _) as [Ho|]; [|done].
  injection Hstep as <-. cbn [set_close w_sent].
  rewrite emit_open by (apply reachable_open; [done|congruence]). eexists. split; [done|].
  apply list_elem_of_fmap. eexists. split; [done|].
  unfold Close_goodbyes. apply list_elem_of_join. exists [Multicast data]. split; [by left|].
  apply list_elem_of_fmap. exists svc. split; [by rewrite Ha, Hsend|by rewrite visit_perm].
Qed.

End Closing.

(** ** Properties *)

Section InterleavingProperties.
  Context `{UnicodeTables, MapOrder}.

(** Handling a packet step by step, without interruption, is handling it at once.
    Whatever the bytes, the receive loop, left alone after it has taken the packet,
    reaches in finitely many steps the very state, with the very outputs, that
    [handlePacket] computes, or crashes exactly when [handlePacket] panics. *)
Lemma uninterrupted_packet clk data from w :
  w_recv w = RIdle ->
  exists k, run (Packet clk data from :: replicate k (Recv clk)) w
    = Some (match handlePacket clk data from (w_server w) with
            | Ok (s', outs) => Running (emit main_thread outs (set_server s' w))
            | Err _ => Crashed
            end).
Proof.
  intros Hw. assert (Hi : idle w = true) by (unfold idle; by rewrite Hw).
  destruct (accepted_query data from (w_server w)) as [msg|] eqn:Ea.
  - set (n := first_probe_visit msg).
    destruct (query_steps clk msg from (m_Authorities msg) n (set_recv (RProbes msg from n (m_Authorities msg)) w))
      as (k & Hk); [done|].
    exists k. cbn [run world_step]. rewrite Hi. unfold recv_packet. rewrite Ea. cbn [received]. fold n.
    rewrite (accepted_query_handled clk _ _ _ msg Ea). unfold handleQuery. fold n.
    replace (emit main_thread [] _) with (set_recv (RProbes msg from n (m_Authorities msg)) w).
    2: { unfold emit, set_recv, set_server. destruct w. cbn. by rewrite app_nil_r. }
    rewrite Hk. cbn [set_recv w_server]. destruct (handleProbes _ _ _) as [[s1 d]|]; [|done].
    cbn. unfold emit, set_server, set_recv. cbn. by rewrite Hw.
  - exists 0. cbn [run world_step replicate]. rewrite Hi. unfold recv_packet. rewrite Ea.
    destruct (handlePacket _ _ _ _) as [[s' outs]|]; [|done]. cbn.
    do 3 f_equal. unfold set_recv, set_server. by rewrite Hw.
Qed.

End InterleavingProperties.
