(* ===== verification/ServerInvariant.v ===== *)
(** * The state of a server in every execution

    The cache of a reachable server is well formed: every entry holds live copies of
    distinct records under their own key.  The queues of the listeners stay within the
    capacity of their channels, and the server's browsers exist. *)

From S2P Require Export Interleaving.

Section Browsers.
  Context `{UnicodeTables}.

(** No channel holds more events than it was made for. *)
Definition queues_bounded (b : Browser) : Prop :=
  Forall (λ queue, length queue <= event_capacity) (b_listeners b).

Lemma offer_bounded ev queue : length queue <= event_capacity -> length (offer ev queue) <= event_capacity.
Proof.
  intros Hq. unfold offer. destruct (Nat.ltb_spec (length queue) event_capacity); [|done].
  rewrite length_app. cbn. lia.
Qed.

Lemma notify_bounded ev b : queues_bounded b -> queues_bounded (notify ev b).
Proof. intros Hb. apply Forall_fmap. eapply Forall_impl; [exact Hb|]. apply offer_bounded. Qed.

Lemma take_event_bounded i b : queues_bounded b -> queues_bounded (take_event i b).
Proof.
  unfold queues_bounded. cbn. generalize (b_listeners b). intros ls. revert i.
  induction ls as [|l ls IH]; intros [|i] Hb; try done; apply Forall_cons in Hb as [Hl Hb];
    cbn; apply Forall_cons; (split; [|by auto]); [|done]. destruct l; cbn in *; lia.
Qed.

Lemma handlePTR_bounded now c rr b b' :
  handlePTR now c rr b = Ok b' -> queues_bounded b -> queues_bounded b'.
Proof.
  unfold handlePTR. cbv zeta. case_bool_decide; [by intros [= <-]|].
  intros Hr Hb. inv_bind. by apply notify_bounded.
Qed.

Lemma updateInstances_bounded `{MapOrder} now c rr b b' :
  updateInstancesFromRecord now c rr b = Ok b' -> queues_bounded b -> queues_bounded b'.
Proof. unfold updateInstancesFromRecord. cbv zeta. case_if; intros Hr Hb; by inv_bind. Qed.

Lemma onRecordAdd_bounded `{MapOrder} now c rr b b' :
  onRecordAdd now c rr b = Ok b' -> queues_bounded b -> queues_bounded b'.
Proof.
  unfold onRecordAdd. case_if; [apply handlePTR_bounded|]. case_if; [apply updateInstances_bounded|].
  by intros [= <-].
Qed.

Lemma onRecordRemove_bounded rr b : queues_bounded b -> queues_bounded (onRecordRemove rr b).
Proof.
  intros Hb. unfold onRecordRemove. repeat case_if; try done.
  destruct (_ !! _); [|done]. by apply notify_bounded.
Qed.

Lemma Browser_Start_bounded b : queues_bounded b -> queues_bounded (Browser_Start b).1.
Proof.
  intros Hb. unfold Browser_Start. repeat case_match; cbn; try done;
    apply Forall_app; (split; [exact Hb|]); constructor; cbn; [lia|done].
Qed.

Lemma Browser_Stop_bounded b b' : Browser_Stop b = Ok b' -> queues_bounded b -> queues_bounded b'.
Proof.
  unfold Browser_Stop. repeat case_match; intros [= <-] Hb; try done. unfold queues_bounded. cbn.
  by try apply Forall_nil.
Qed.

End Browsers.

(** ** The invariant *)

Record server_inv `{UnicodeTables} (s : Server) : Prop := {
  inv_cache : cache_wf (s_cache s);
  inv_queues : map_Forall (λ _ b, queues_bounded b) (s_bheap s);
  inv_browsers : map_Forall (λ _ p, is_Some (s_bheap s !! p)) (s_browsers s)
}.

Section Handlers.
  Context `{UnicodeTables}.

(** What most handlers leave alone. *)
Definition same_store (s s' : Server) : Prop :=
  s_cache s' = s_cache s /\ s_bheap s' = s_bheap s /\ s_browsers s' = s_browsers s.

#[local] Instance same_store_refl : Reflexive same_store.
Proof. by intros s. Qed.

#[local] Instance same_store_trans : Transitive same_store.
Proof. intros s1 s2 s3 (? & ? & ?) (? & ? & ?). split_and!; congruence. Qed.

Lemma same_store_inv s s' : same_store s s' -> server_inv s -> server_inv s'.
Proof. intros (Ec & Eh & Eb) [Hc Hq Hb]. split; by rewrite ?Ec, ?Eh, ?Eb. Qed.

Lemma sendResponse_store clk answers additionals to s s' outs :
  sendResponseWithAdditional clk answers additionals to s = (s', outs) -> same_store s s'.
Proof.
  unfold sendResponseWithAdditional. destruct (prepare_response _ _ _ _ _ _) as [t m].
  repeat case_match; by intros [= <- _].
Qed.

Lemma handleProbes_store `{MapOrder} nss : forall n s s' outs,
  handleProbes n nss s = Ok (s', outs) -> same_store s s'.
Proof.
  induction nss as [|ns nss IH]; intros n s s' outs Hr; cbn [handleProbes] in Hr; [by inv_bind|].
  apply result_bind_Ok in Hr as ([s1 o1] & H1 & Hr).
  apply result_bind_Ok in Hr as ([s2 o2] & H2%IH & [= <- _]).
  etrans; [|exact H2]. unfold handleProbe in H1. by apply result_bind_Ok in H1 as ([h o] & _ & [= <- _]).
Qed.

Lemma trackPassiveQueries_store clk qs : forall i s, same_store s (trackPassiveQueries clk i qs s).
Proof.
  induction qs as [|q qs IH]; intros i s; cbn [trackPassiveQueries]; [done|]. by etrans; [|apply IH].
Qed.

Lemma track_query_store clk msg from s : same_store s (track_query clk msg from s).
Proof.
  unfold track_query. cbv zeta. case_if; [done|]. apply trackPassiveQueries_store.
Qed.

Lemma handleQuery_store `{MapOrder} clk msg from s s' outs :
  handleQuery clk msg from s = Ok (s', outs) -> same_store s s'.
Proof.
  unfold handleQuery. intros Hr. apply result_bind_Ok in Hr as ([s1 o1] & H1%handleProbes_store & [= <- _]).
  etrans; [exact H1|]. apply track_query_store.
Qed.

(** *** Responses *)

Lemma cache_records_wf clk i rrs s :
  cache_wf (s_cache s) -> cache_wf (s_cache (cache_records clk i rrs s)).
Proof.
  revert i s. induction rrs as [|rr rrs IH]; intros i s Hs; cbn [cache_records]; [done|].
  apply IH. case_if; cbn; [by apply Remove_wf|by apply Upsert_wf].
Qed.

(** The heap of browsers before and after they are notified. *)
Definition heap_kept (h h' : gmap nat Browser) : Prop :=
  (map_Forall (λ _ b, queues_bounded b) h -> map_Forall (λ _ b, queues_bounded b) h') /\
  dom h' = dom h.

#[local] Instance heap_kept_refl : Reflexive heap_kept.
Proof. by intros h. Qed.

#[local] Instance heap_kept_trans : Transitive heap_kept.
Proof. intros h1 h2 h3 [H1 E1] [H2 E2]. split; [auto|congruence]. Qed.

Lemma heap_kept_insert (h : gmap nat Browser) p b b' :
  h !! p = Some b -> (queues_bounded b -> queues_bounded b') -> heap_kept h (<[p := b']> h).
Proof.
  intros Hp Hb. split.
  - intros Hh. apply map_Forall_insert_2; [|done]. by apply Hb, (Hh p).
  - by apply dom_insert_lookup_L.
Qed.

Lemma heap_kept_alter f (h : gmap nat Browser) p :
  (forall b, queues_bounded b -> queues_bounded (f b)) -> heap_kept h (alter f p h).
Proof.
  intros Hf. split; [|apply dom_alter_L]. intros Hh q b. rewrite lookup_alter_Some.
  intros [(_ & b0 & Hb0 & ->)|[_ Hq]]; [by apply Hf, (Hh q)|by apply (Hh q)].
Qed.

Lemma notify_browsers_kept `{MapOrder} clk rr c ps : forall j h h',
  notify_browsers clk rr c j ps h = Ok h' -> heap_kept h h'.
Proof.
  induction ps as [|p ps IH]; intros j h h' Hr; cbn [notify_browsers] in Hr; [by injection Hr as ->|].
  destruct (h !! p) as [b|] eqn:Hp; [|by eapply IH].
  apply result_bind_Ok in Hr as (b' & Hb & Hr%IH). etrans; [|exact Hr].
  eapply heap_kept_insert; [done|]. by eapply onRecordAdd_bounded.
Qed.

Lemma notifyRemoval_kept `{MapOrder} n rr s : heap_kept (s_bheap s) (s_bheap (notifyRemoval n rr s)).
Proof.
  unfold notifyRemoval. cbn. generalize (s_bheap s).
  induction (visit n _).*2 as [|p ps IH]; intros h; cbn; [done|]. etrans; [|apply IH].
  apply heap_kept_alter, onRecordRemove_bounded.
Qed.

Lemma notify_records_kept `{MapOrder} clk rrs : forall i s s',
  notify_records clk i rrs s = Ok s' -> heap_kept (s_bheap s) (s_bheap s') /\ s_browsers s' = s_browsers s.
Proof.
  induction rrs as [|rr rrs IH]; intros i s s' Hr; cbn [notify_records] in Hr; [by injection Hr as ->|].
  apply result_bind_Ok in Hr as (s1 & H1 & Hr). apply IH in Hr as [Hk Eb].
  enough (heap_kept (s_bheap s) (s_bheap s1) /\ s_browsers s1 = s_browsers s) as [Hk1 Eb1].
  { split; [by etrans|congruence]. }
  case_if_in H1.
  - injection H1 as <-. split; [apply notifyRemoval_kept|done].
  - unfold notifyAddition in H1. apply result_bind_Ok in H1 as (h & Hh & [= <-]).
    split; [by eapply notify_browsers_kept|done].
Qed.

(** A heap that keeps its browsers keeps the invariant. *)
Lemma heap_kept_inv h s :
  heap_kept (s_bheap s) h -> server_inv s -> server_inv (with_bheap h s).
Proof.
  intros [Hk Ed] [Hc Hq Hb]. split; [exact Hc|by apply Hk|]. cbn. intros key p Hp.
  apply Hb, elem_of_dom in Hp. apply elem_of_dom. by rewrite Ed.
Qed.

Lemma handlePacket_inv `{MapOrder} clk data from s s' outs :
  handlePacket clk data from s = Ok (s', outs) -> server_inv s -> server_inv s'.
Proof.
  intros Hp Hs. unfold handlePacket in Hp.
  case_if_in Hp; [by injection Hp as <- _|].
  destruct (UnpackMessage data) as [msg|]; [|by injection Hp as <- _].
  case_if_in Hp; [case_if_in Hp; by injection Hp as <- _|].
  do 2 (case_if_in Hp; [by injection Hp as <- _|]). case_if_in Hp.
  - by eapply same_store_inv, Hs; eapply handleQuery_store.
  - apply result_bind_Ok in Hp as (s1 & Hr & [= <- _]). unfold handleResponse in Hr. cbv zeta in Hr.
    set (s0 := cache_records _ _ _ _) in Hr. destruct Hs as [Hc Hq Hb].
    pose proof (notify_records_cache _ _ _ _ _ Hr) as Ec.
    apply notify_records_kept in Hr as [[Hk Ed] Eb].
    unfold s0 in *. rewrite cache_records_bheap in Hk, Ed. rewrite cache_records_browsers in Eb. split.
    + rewrite Ec. by apply cache_records_wf.
    + by apply Hk.
    + rewrite Eb. intros key p Hp. apply Hb, elem_of_dom in Hp. apply elem_of_dom. by rewrite Ed.
Qed.

(** *** Housekeeping *)

Lemma with_cache_inv c s : (cache_wf (s_cache s) -> cache_wf c) -> server_inv s -> server_inv (with_cache c s).
Proof. intros Hf [Hc Hq Hb]. split; [by apply Hf|done..]. Qed.

Lemma passive_entry_inv now now2 s e : server_inv s -> server_inv (passive_entry now now2 s e).
Proof.
  intros Hs. destruct e as [name last]. unfold passive_entry. cbv zeta.
  assert (Hs' : forall b : bool, server_inv
    (if b then with_cache (cap_ttls (now2 name) (lowerName name) (s_cache s)) s else s)).
  { intros []; [|done]. by apply with_cache_inv; [apply cap_ttls_wf|]. }
  case_if; [|apply Hs']. eapply same_store_inv, Hs'. done.
Qed.

Lemma cacheTick_inv `{MapOrder} clk clkb s s' outs :
  cacheTick clk clkb s = (s', outs) -> server_inv s -> server_inv s'.
Proof.
  unfold cacheTick. cbv zeta. intros [= <- _] Hs. set (s1 := with_cache _ s).
  assert (Hs1 : server_inv s1) by (by apply with_cache_inv; [apply Expire_wf|]).
  set (s2 := handlePassiveObservation _ _ s1).
  enough (Hs2 : server_inv s2) by (by eapply same_store_inv, Hs2).
  apply (foldl_inv server_inv _ _ _ Hs1). intros e s3 _. apply passive_entry_inv.
Qed.

Lemma hostRecordsProbed_inv clk s s' outs :
  hostRecordsProbed clk s = (s', outs) -> server_inv s -> server_inv s'.
Proof.
  unfold hostRecordsProbed. intros Hr%sendResponse_store Hs. eapply same_store_inv; [exact Hr|].
  eapply same_store_inv; [|apply with_cache_inv, Hs]; [done|]. intros Hc.
  apply (foldl_inv cache_wf _ _ _ Hc). intros e c _. apply Upsert_wf.
Qed.

(** *** Calls *)

Lemma RegisterService_store ip s s' r : RegisterService ip s = (s', r) -> same_store s s'.
Proof. unfold RegisterService. repeat case_match; by intros [= <- _]. Qed.

Lemma UnregisterService_store ip s s' r : UnregisterService ip s = (s', r) -> same_store s s'.
Proof. unfold UnregisterService. repeat case_match; by intros [= <- _]. Qed.

Lemma handleConflictRename_store p s s' outs : handleConflictRename p s = (s', outs) -> same_store s s'.
Proof. unfold handleConflictRename. repeat case_match; by intros [= <- _]. Qed.

Lemma finish_probing_store p s s' : finish_probing p s = Ok s' -> same_store s s'.
Proof. unfold finish_probing. destruct (_ !! _); [|done]. intros Hr. by inv_bind. Qed.

Lemma Browse_inv serviceType s : server_inv s -> server_inv (Browse serviceType s).1.
Proof.
  intros [Hc Hq Hb]. unfold Browse. split; cbn; [done| |].
  - apply map_Forall_insert_2; [|done]. by apply Forall_nil.
  - apply map_Forall_insert_2; [rewrite lookup_insert_eq; by eexists|].
    eapply map_Forall_impl; [exact Hb|]. intros key p [b Hp]. rewrite lookup_insert_is_Some'. right. by eexists.
Qed.

Lemma alter_browser_inv f p s :
  (forall b, queues_bounded b -> queues_bounded (f b)) -> server_inv s ->
  server_inv (with_bheap (alter f p (s_bheap s)) s).
Proof. intros Hf. by apply heap_kept_inv, heap_kept_alter. Qed.

Lemma StopBrowser_inv p s s' : StopBrowser p s = Ok s' -> server_inv s -> server_inv s'.
Proof.
  unfold StopBrowser. destruct (s_bheap s !! p) as [b|] eqn:Hp; [|by intros [= <-]].
  intros Hr Hs. apply result_bind_Ok in Hr as (b' & Hb & [= <-]).
  assert (Hs1 : server_inv (with_bheap (<[p := b']> (s_bheap s)) s)).
  { apply heap_kept_inv; [|done]. eapply heap_kept_insert; [done|]. by apply Browser_Stop_bounded. }
  case_if; [|done]. destruct Hs1 as [Hc Hq Hbr]. split; [done|done|]. cbn. by apply map_Forall_delete.
Qed.

End Handlers.

(** ** Every execution *)

Section Worlds.
  Context `{UnicodeTables}.

Definition world_server_inv (w : world) : Prop := server_inv (w_server w).

Lemma thread_step_server_inv clk t p c w w' :
  thread_step clk t p c w = Some w' -> world_server_inv w -> world_server_inv w'.
Proof.
  unfold world_server_inv. intros Hstep. apply same_store_inv. revert Hstep.
  destruct c as [| |msg n|msg n|seen|again]; cbn [thread_step].
  - by intros [= <-].
  - by intros [= <-].
  - destruct (Pack msg); [|by intros [= <-]].
    case_if; intros [= <-]; cbn [kill set_pc w_server]; by rewrite emit_server.
  - by case_if; intros [= <-].
  - destruct (decide _).
    + destruct (handleConflictRename p (w_server w)) as [s' outs] eqn:E. intros [= <-].
      rewrite spawns_server. by eapply handleConflictRename_store.
    + destruct (finish_probing p (w_server w)) eqn:E; [|done]. intros [= <-].
      by eapply finish_probing_store.
  - unfold announceService. destruct (sendResponseMulticast _ _ _) as [s' outs] eqn:E. intros [= <-].
    apply sendResponse_store in E. destruct again; cbn [kill set_pc w_server]; by rewrite emit_server.
Qed.

Lemma host_step_server_inv clk w w' :
  host_step clk w = Some w' -> world_server_inv w -> world_server_inv w'.
Proof.
  unfold host_step, world_server_inv. destruct (w_host w) as [|msg n|msg n|]; [| | |done].
  - by intros [= <-].
  - destruct (Pack msg); [|by intros [= <-]].
    case_if; intros [= <-]; cbn [set_host w_server]; by rewrite emit_server.
  - case_if; [by intros [= <-]|]. destruct (hostRecordsProbed clk (w_server w)) as [s' outs] eqn:E.
    intros [= <-]. cbn [set_host w_server]. rewrite emit_server. by eapply hostRecordsProbed_inv.
Qed.

Lemma recv_packet_inv `{MapOrder} clk data from s c s' outs :
  recv_packet clk data from s = Ok (c, s', outs) -> server_inv s -> server_inv s'.
Proof.
  unfold recv_packet. destruct (accepted_query _ _ _); [by intros [= _ <- _]|]. intros Hr.
  apply result_bind_Ok in Hr as ([s1 o] & Hp & [= _ <- _]). by eapply handlePacket_inv.
Qed.

Lemma recv_step_store `{MapOrder} clk c s c' s' outs :
  recv_step clk c s = Ok (c', s', outs) -> same_store s s'.
Proof.
  destruct c as [|msg from n [|ns nss]|msg from]; cbn [recv_step]; try by intros [= _ <- _].
  - intros [= _ <- _]. apply track_query_store.
  - intros Hr. apply result_bind_Ok in Hr as ([s1 o] & Hp & [= _ <- _]).
    by apply result_bind_Ok in Hp as ([h o'] & _ & [= <- _]).
Qed.

Lemma world_step_server_inv `{MapOrder} e w w' :
  world_step e w = Some (Running w') -> world_server_inv w -> world_server_inv w'.
Proof.
  unfold world_server_inv. intros Hstep Hw. destruct e; cbn [world_step] in Hstep.
  1,2: apply bind_Some in Hstep as ([p c] & Hthr & Hstep).
  - destruct (thread_step clk t p c w) eqn:E; [|done]. injection Hstep as <-.
    by eapply thread_step_server_inv.
  - case_if_in Hstep; [|done]. by injection Hstep as <-.
  - destruct (host_step clk w) as [w1|] eqn:E; [|done]. injection Hstep as <-.
    by eapply host_step_server_inv.
  - by injection Hstep as <-.
  - case_if_in Hstep; [|done]. unfold received in Hstep.
    destruct (recv_packet _ _ _ _) as [[[c s'] outs]|] eqn:E; [|done]. injection Hstep as <-.
    rewrite emit_server. by eapply recv_packet_inv.
  - case_if_in Hstep; [done|]. unfold received in Hstep.
    destruct (recv_step _ _ _) as [[[c s'] outs]|] eqn:E; [|done]. injection Hstep as <-.
    rewrite emit_server. by eapply same_store_inv, Hw; eapply recv_step_store.
  - case_if_in Hstep; [|done]. destruct (RegisterService ip (w_server w)) as [s' r] eqn:E.
    injection Hstep as <-. apply RegisterService_store in E.
    destruct r; rewrite ?spawns_server; by eapply same_store_inv, Hw.
  - case_if_in Hstep; [|done]. destruct (UnregisterService ip (w_server w)) as [s' r] eqn:E.
    injection Hstep as <-. apply UnregisterService_store in E. 
    destruct r; rewrite ?emit_server; by eapply same_store_inv, Hw.
  - case_if_in Hstep; [|done]. destruct (sendResponseWithAdditional _ _ _ _ _) as [s' outs] eqn:E.
    injection Hstep as <-. rewrite ?emit_server. by eapply same_store_inv, Hw; eapply sendResponse_store.
  - destruct (cacheTick clk clkb (w_server w)) as [s' outs] eqn:E. injection Hstep as <-.
    rewrite emit_server. by eapply cacheTick_inv.
  - injection Hstep as <-. by apply Browse_inv.
  - injection Hstep as <-. apply alter_browser_inv; [apply Browser_Start_bounded|done].
  - destruct (StopBrowser p (w_server w)) eqn:E; [|done]. injection Hstep as <-. by eapply StopBrowser_inv.
  - injection Hstep as <-. by rewrite emit_server.
  - injection Hstep as <-. apply alter_browser_inv; [apply take_event_bounded|done].
  - destruct (decide _); [|done]. injection Hstep as <-. cbn [set_close w_server]. by rewrite emit_server.
  - destruct (decide _); [|done]. by injection Hstep as <-.
Qed.

End Worlds.

(** ** Properties *)

Section InvariantProperties.
  Context `{UnicodeTables}.

(** C7: The server keeps its state in order.  Whatever packets, calls, ticks and steps of
    goroutines follow each other from a server whose cache is empty: every entry of its
    cache holds records of its own key, no two of them equal; no listener's channel
    holds more than 64 events; and every browser it notifies exists. *)
Theorem server_state_ordered w0 w :
  initial w0 -> s_cache (w_server w0) = NewCache -> rtc steps_to w0 w ->
  cache_wf (s_cache (w_server w)) /\
  (forall p b, s_bheap (w_server w) !! p = Some b ->
     Forall (λ queue, length queue <= 64) (b_listeners b)) /\
  (forall key p, s_browsers (w_server w) !! key = Some p -> is_Some (s_bheap (w_server w) !! p)).
Proof.
  intros (_ & _ & Hh & Hb & _) Hc Hsteps.
  assert (H0 : world_server_inv w0).
  { unfold world_server_inv. split; rewrite ?Hc, ?Hh, ?Hb;
      [apply NewCache_wf|apply map_Forall_empty..]. }
  assert (Hw : world_server_inv w).
  { clear Hc Hh Hb. induction Hsteps as [|w1 w2 w3 (o & e & Hs) _ IH]; [done|].
    by eapply IH, world_step_server_inv. }
  by destruct Hw.
Qed.

End InvariantProperties.
