(* ===== verification/Discovery.v ===== *)
(** * From one server to another

    Two servers that meet only through the bytes of a packet.  The announcement of a
    service, as one server sends it, makes the browsers of another know the instance
    with the host, port and TXT data it was registered with and an address of each family; its goodbye
    makes them forget it.  Nothing is assumed of the bytes in between. *)

From S2P Require Export ServerSpec.

(** ** The announcement that is sent *)

Section Sending.
  Context `{UnicodeTables, MapOrder}.

(** No two records of a service are equal, or one for the rate limiter. *)
Definition distinct_records (records : list ResourceRecord) : Prop :=
  NoDup (rr_id <$> records) /\ NoDup (rateKey <$> records).

#[export] Instance distinct_records_dec records : Decision (distinct_records records).
Proof. unfold distinct_records. apply _. Defined.

Lemma dedup_distinct records : NoDup (rr_id <$> records) -> dedup [] records = records.
Proof.
  induction records as [|rr records IH] using rev_ind; intros Hnd; [done|].
  rewrite fmap_app in Hnd. apply NoDup_app in Hnd as (Hnd & Hdis & _).
  rewrite dedup_snoc, IH by done.
  replace (containsRR records rr) with false; [done|]. symmetry. apply containsRR_false.
  intros Hin. by apply (Hdis _ Hin), list_elem_of_singleton.
Qed.

(** Records that were not sent before all pass the rate limiter. *)
Lemma rate_filter_fresh now now2 records : forall i tracker,
  NoDup (rateKey <$> records) ->
  Forall (λ rr, tracker !! rateKey rr = None) records ->
  (rate_filter now now2 i tracker records).2 = records.
Proof.
  induction records as [|rr records IH]; intros i tracker Hnd Hnone; cbn [rate_filter]; [done|].
  rewrite fmap_cons in Hnd. apply NoDup_cons in Hnd as [Hni Hnd].
  apply Forall_cons in Hnone as [Hrr Hnone]. unfold canSendMulticast. rewrite Hrr. cbn zeta iota.
  specialize (IH (S i) (<[rateKey rr := now2 i]> tracker) Hnd).
  destruct (rate_filter _ _ _ _ _) as [t kept]. cbn in *. f_equal. apply IH.
  apply Forall_forall. intros r Hr. rewrite lookup_insert_ne.
  - rewrite Forall_forall in Hnone. by apply Hnone.
  - intros E. apply Hni. rewrite E. apply list_elem_of_fmap. by exists r.
Qed.

Lemma sendResponseMulticast_fresh clk records s s' data :
  records <> [] -> distinct_records records ->
  Forall (λ rr, s_rateTracker s !! rateKey rr = None) records ->
  sendResponseMulticast clk records s = (s', [Multicast data]) ->
  Pack (response 0 records []) = Ok data.
Proof.
  intros Hne [Hid Hkey] Hnone. unfold sendResponseMulticast, sendResponseWithAdditional, prepare_response.
  rewrite dedup_distinct by done.
  pose proof (rate_filter_fresh (λ i, clk [0; i]) (λ i, clk [1; i]) records 0 _ Hkey Hnone) as E.
  destruct (rate_filter _ _ _ _ _) as [t kept]. cbn in E. subst kept.
  rewrite bool_decide_false by done. cbn [andb].
  destruct (Pack _) as [d|]; [|done]. by intros [= _ <-].
Qed.

Lemma response_packable records additionals :
  Forall rr_packable records -> Forall rr_packable additionals ->
  msg_packable (response 0 records additionals).
Proof. intros Hr Ha. unfold msg_packable. cbn. split_and!; try done; unfold is_u16; lia. Qed.

(** A response on the wire is handled as a response. *)
Lemma handlePacket_response clk records data from s :
  Forall rr_packable records -> Pack (response 0 records []) = Ok data ->
  isLocalSubnet (s_localSubnets s) (addr_IP from) = true ->
  handlePacket clk data from s
  = (s' ← notify_records (λ path, clk (1 :: path)) 0 (canon_rr <$> records)
            (cache_records (λ i, clk [0; i]) 0 (canon_rr <$> records) s);
     Ok (s', [])).
Proof.
  intros Hrr Hpack Hlocal. apply UnpackMessage_Pack in Hpack; [|by apply response_packable].
  unfold handlePacket. destruct (Nat.ltb_spec (length data) 12) as [Hlen|Hlen].
  { unfold UnpackMessage in Hpack. by rewrite (proj2 (Nat.ltb_lt _ _) Hlen) in Hpack. }
  rewrite Hpack, Hlocal. cbn [negb].
  replace (m_ID (canon_msg _)) with 0%Z by done.
  replace (IsValidmDNS (canon_msg _)) with true by done.
  replace (IsQuery (canon_msg _)) with false by done. cbn [negb Z.eqb].
  unfold handleResponse. cbn [canon_msg m_Answers m_Additionals response]. by rewrite app_nil_r.
Qed.

(** It is not a query. *)
Lemma accepted_query_response records data from s :
  Forall rr_packable records -> Pack (response 0 records []) = Ok data ->
  accepted_query data from s = None.
Proof.
  intros Hrr Hpack%UnpackMessage_Pack; [|by apply response_packable].
  unfold accepted_query. case_if; [done|]. rewrite Hpack.
  replace (IsQuery (canon_msg _)) with false by done. by rewrite andb_false_r.
Qed.

End Sending.

(** ** The cache of the receiver *)

Section Receiving.
  Context `{UnicodeTables, MapOrder}.

Lemma cache_records_flush clk i pre rr post s :
  rr_CacheFlush rr = true -> rr_TTL rr <> 0%Z ->
  (forall r, r ∈ post -> rrKey (rr_Name r) (rr_Type r) <> rrKey (rr_Name rr) (rr_Type rr)) ->
  records_of (s_cache (cache_records clk i (pre ++ rr :: post) s)) (rrKey (rr_Name rr) (rr_Type rr))
  = [mkCached rr (clk (i + length pre) + ttl_duration rr) (clk (i + length pre))].
Proof.
  intros Hf Ht Hpost. rewrite cache_records_app. cbn [cache_records]. unfold records_of at 1.
  rewrite cache_records_other by done. rewrite (proj2 (Z.eqb_neq _ _) Ht).
  cbn [with_cache with_passive s_cache]. unfold Upsert. rewrite Hf. cbn.
  by rewrite lookup_insert_eq.
Qed.

(** A clock that runs for less than a second. *)
Definition within_a_second (clk : Clock) : Prop := forall p q, (clk p < clk q + Second)%Z.

Lemma Lookup_flush clk path pre rr post s now :
  within_a_second clk -> (exists p, now = clk p) ->
  rr_CacheFlush rr = true -> (0 < rr_TTL rr)%Z ->
  (forall r, r ∈ post -> rrKey (rr_Name r) (rr_Type r) <> rrKey (rr_Name rr) (rr_Type rr)) ->
  Lookup now (rrKey (rr_Name rr) (rr_Type rr))
    (s_cache (cache_records (λ i, clk (path i)) 0 (pre ++ rr :: post) s)) = [rr].
Proof.
  intros Hclk [p ->] Hf Ht Hpost. unfold Lookup. rewrite cache_records_flush by (done || lia).
  rewrite filter_cons_True; [done|]. apply Z.ltb_lt. cbn. unfold ttl_duration.
  specialize (Hclk p (path (length pre))). unfold Second in *. lia.
Qed.

Lemma Lookup_none now key c : c !! key = None -> Lookup now key c = [].
Proof. intros E. unfold Lookup, records_of. by rewrite E. Qed.

End Receiving.

(** ** The records of a service, received *)

Section Records.
  Context `{UnicodeTables, MapOrder}.
  Variable svc : ServiceInstance.
  Hypothesis Hok : service_ok svc.

Definition host_name : gostring := normalizeName (si_Host svc).
Definition v4_addresses : list IP := sort_ips (filter (λ ip, is_ipv4 ip = true) (si_IPs svc)).
Definition v6_addresses : list IP := sort_ips (filter (λ ip, is_ipv4 ip = false) (si_IPs svc)).

(** The cache holds no address of the host of a family the service does not have: the
    announcement takes the place of the others. *)
Definition no_stale_addresses (c : Cache) : Prop :=
  (v4_addresses = [] -> c !! rrKey host_name TypeA = None) /\
  (v6_addresses = [] -> c !! rrKey host_name TypeAAAA = None).

Definition host_ttl : Z := if (0 <? si_TTL svc)%Z then si_TTL svc else hostTTL.
Definition other_ttl : Z := if (0 <? si_TTL svc)%Z then si_TTL svc else otherTTL.

Definition ptr_received : ResourceRecord :=
  set_Target (InstanceName svc) (newRR (ServiceType svc) TypePTR ClassIN other_ttl false).
Definition srv_received : ResourceRecord :=
  set_Target host_name (set_SRV (si_Priority svc) (si_Weight svc) (si_Port svc)
    (newRR (InstanceName svc) TypeSRV ClassIN host_ttl true)).
Definition txt_received : ResourceRecord :=
  set_Text (canon_text (si_Text svc)) (newRR (InstanceName svc) TypeTXT ClassIN other_ttl true).
Definition a_received (ip : IP) : ResourceRecord :=
  set_IP (default [] (To4 ip)) (newRR host_name TypeA ClassIN host_ttl true).
Definition aaaa_received (ip : IP) : ResourceRecord :=
  set_IP ip (newRR host_name TypeAAAA ClassIN host_ttl true).

Definition records_received : list ResourceRecord :=
  [ptr_received] ++ [srv_received] ++ [txt_received] ++ (a_received <$> v4_addresses)
  ++ (aaaa_received <$> v6_addresses).

Lemma v4_is_ipv4 ip : ip ∈ v4_addresses -> is_Some (To4 ip).
Proof.
  unfold v4_addresses. rewrite sort_ips_perm, list_elem_of_filter. unfold is_ipv4.
  intros [E _]. by destruct (To4 ip).
Qed.

Lemma v6_is_ipv6 ip : ip ∈ v6_addresses -> To4 ip = None /\ length ip = 16.
Proof.
  unfold v6_addresses. rewrite sort_ips_perm, list_elem_of_filter. unfold is_ipv4.
  intros [E Hin]. destruct (To4 ip) eqn:E4; [done|]. split; [done|].
  destruct Hok as (_ & _ & _ & _ & Hips & _). rewrite Forall_forall in Hips.
  destruct (Hips ip Hin) as [Hl|]; [|done]. by rewrite To4_4 in E4.
Qed.

Lemma a_received_canon ip :
  ip ∈ v4_addresses -> canon_rr (address_record host_name host_ttl ip) = a_received ip.
Proof.
  intros [ip4 E]%v4_is_ipv4. unfold address_record, a_received. rewrite E.
  unfold canon_rr. cbn. rewrite To4_4 by (by eapply To4_length).
  by rewrite (normalizeName_id host_name) by apply normalizeName_wf.
Qed.

Lemma aaaa_received_canon ip :
  ip ∈ v6_addresses -> canon_rr (address_record host_name host_ttl ip) = aaaa_received ip.
Proof.
  intros [E Hl]%v6_is_ipv6. unfold address_record, aaaa_received. rewrite E.
  unfold canon_rr. cbn. rewrite To16_16 by done.
  by rewrite (normalizeName_id host_name) by apply normalizeName_wf.
Qed.

(** What the receiver makes of the announcement. *)
Lemma canon_announcement : canon_rr <$> generateServiceRecords svc = records_received.
Proof.
  pose proof (normalizeName_id _ (ServiceType_wf svc)) as Et.
  pose proof (normalizeName_id _ (InstanceName_wf svc)) as Ei.
  pose proof (normalizeName_id _ (normalizeName_wf (si_Host svc))) as Eh.
  unfold generateServiceRecords, records_received. cbv zeta. fold host_name host_ttl other_ttl.
  rewrite fmap_app. cbn [fmap list_fmap app]. repeat f_equal.
  - unfold canon_rr, ptr_received. cbn. by rewrite Et, Ei.
  - unfold canon_rr, srv_received, host_name. cbn. by rewrite Ei, Eh.
  - unfold canon_rr, txt_received. cbn. by rewrite Ei.
  - unfold sortIPsIPv4First. fold v4_addresses v6_addresses.
    rewrite !fmap_app, <- !list_fmap_compose. f_equal; apply list_fmap_ext; intros i ip Hip;
      apply list_elem_of_lookup_2 in Hip; cbn; [by apply a_received_canon | by apply aaaa_received_canon].
Qed.

Lemma ttls_positive : (0 < host_ttl)%Z /\ (0 < other_ttl)%Z.
Proof. unfold host_ttl, other_ttl. destruct (Z.ltb_spec 0 (si_TTL svc)); [done|]. by vm_compute. Qed.

(** ** The lookups of the receiver *)

(** A block of flushing records of one name and type: the last one is found. *)
Lemma Lookup_block clk path now name t pre block post s :
  within_a_second clk -> (exists p, now = clk p) ->
  Forall (λ r, rr_CacheFlush r = true /\ (0 < rr_TTL r)%Z /\ rr_Name r = name /\ rr_Type r = t) block ->
  Forall (λ r, rr_Type r <> t) (pre ++ post) ->
  (block = [] -> s_cache s !! rrKey name t = None) ->
  Lookup now (rrKey name t)
    (s_cache (cache_records (λ i, clk (path i)) 0 (pre ++ block ++ post) s)) = option_list (last block).
Proof.
  intros Hclk Hnow Hblock Hothers Hnone.
  assert (Hty : forall r, r ∈ pre ++ post -> rrKey (rr_Name r) (rr_Type r) <> rrKey name t).
  { intros r Hr E. rewrite Forall_forall in Hothers. by apply (Hothers r), (f_equal k_Type E). }
  destruct block as [|rr block _] using rev_ind.
  { apply Lookup_none. rewrite cache_records_other; [by apply Hnone|done]. }
  apply Forall_app in Hblock as [_ [(Hf & Ht & <- & <-) _]%Forall_cons].
  rewrite last_snoc, <- app_assoc, app_assoc. cbn [app].
  apply Lookup_flush; [done|done|done|done|]. intros r Hr. apply Hty, elem_of_app. by right.
Qed.

End Records.

(** ** The instance a browser finds *)

Section Found.
  Context `{UnicodeTables, MapOrder}.
  Variable svc : ServiceInstance.
  Hypothesis Hok : service_ok svc.
  Hypothesis Hname : si_Name svc <> [].
  Hypothesis Hascii : ascii (InstanceName svc).

(** Each cache-flush record takes the place of those before it: of the addresses of
    a family, the last one is left. *)
Definition announced_ips : list IP :=
  (default [] ∘ To4 <$> option_list (last (v4_addresses svc)))
  ++ option_list (last (v6_addresses svc)).

Definition found (b : Browser) : ServiceInstanceInfo :=
  mkInfo (si_Name svc) (b_serviceType b) (b_domain b) (host_name svc) (si_Port svc) announced_ips
    (canon_text (si_Text svc)) (si_Priority svc) (si_Weight svc).

(** The key of the instance in the browser. *)
Definition instance_key : gostring := lowerName (InstanceName svc).

Lemma extract_own_name : extractInstanceName (InstanceName svc) (ServiceType svc) = Ok (si_Name svc).
Proof.
  destruct (ServiceType_wf svc) as [st Est]. unfold InstanceName in *. rewrite Est in *.
  assert (Hst : st <> []).
  { intros ->. assert (El : length (ServiceType svc) = 1) by (by rewrite Est).
    destruct (ensureDomain_wf (si_Domain svc)) as [d Ed].
    unfold ServiceType in El. rewrite Ed, !length_app in El. simpl in El. lia. }
  apply extractInstanceName_ascii; [done|done|]. unfold ascii in Hascii.
  rewrite app_assoc, app_assoc in Hascii. rewrite forallb_app in Hascii.
  rewrite <- app_assoc in Hascii. by bool_arith.
Qed.

Lemma last_fmap {A B} (f : A -> B) (l : list A) : option_list (last (f <$> l)) = f <$> option_list (last l).
Proof. rewrite fmap_last. by destruct (last l). Qed.

Lemma Lookup_received clk path now s :
  within_a_second clk -> (exists p, now = clk p) ->
  no_stale_addresses svc (s_cache s) ->
  let c := s_cache (cache_records (λ i, clk (path i)) 0 (records_received svc) s) in
  Lookup now (rrKey (InstanceName svc) TypeSRV) c = [srv_received svc] /\
  Lookup now (rrKey (InstanceName svc) TypeTXT) c = [txt_received svc] /\
  Lookup now (rrKey (host_name svc) TypeA) c
    = a_received svc <$> option_list (last (v4_addresses svc)) /\
  Lookup now (rrKey (host_name svc) TypeAAAA) c
    = aaaa_received svc <$> option_list (last (v6_addresses svc)).
Proof.
  intros Hclk Hnow [HA HAAAA] c. destruct (ttls_positive svc) as [Hh Ho].
  assert (Htypes : forall t (f : IP -> ResourceRecord) l,
    (forall ip, rr_Type (f ip) <> t) -> Forall (λ r, rr_Type r <> t) (f <$> l)).
  { intros t f l Hf. apply Forall_fmap, Forall_forall. intros ip _. apply Hf. }
  unfold c, records_received. rewrite <- !last_fmap. split_and!.
  - apply (Lookup_block clk path now (InstanceName svc) TypeSRV [ptr_received svc] [srv_received svc]);
      repeat first [done | constructor | apply Forall_app_2 | by apply Htypes].
  - apply (Lookup_block clk path now (InstanceName svc) TypeTXT [ptr_received svc; srv_received svc]
      [txt_received svc]); repeat first [done | constructor | apply Forall_app_2 | by apply Htypes].
  - apply (Lookup_block clk path now (host_name svc) TypeA
      [ptr_received svc; srv_received svc; txt_received svc]); try done.
    + apply Forall_fmap, Forall_forall. intros ip _. done.
    + repeat first [done | constructor | apply Forall_app_2 | by apply Htypes].
    + by intros ?%fmap_nil_inv%HA.
  - pose proof (Lookup_block clk path now (host_name svc) TypeAAAA (ptr_received svc :: srv_received svc
      :: txt_received svc :: (a_received svc <$> v4_addresses svc))
      (aaaa_received svc <$> v6_addresses svc) [] s) as Hb.
    rewrite !app_nil_r in Hb. apply Hb; try done.
    + apply Forall_fmap, Forall_forall. intros ip _. done.
    + repeat first [done | constructor | apply Forall_app_2 | by apply Htypes].
    + by intros ?%fmap_nil_inv%HAAAA.
Qed.

(** What the browsers see in the cache while the announcement is handled. *)
Definition resolves (clk : Clock) (c : Cache) : Prop :=
  forall now b, (forall i, exists p, now i = clk p) -> b_serviceType b = ServiceType svc ->
    resolveInstance now c b (InstanceName svc) = Ok (Some (found b)).

Lemma received_resolves clk path s :
  within_a_second clk ->
  no_stale_addresses svc (s_cache s) ->
  resolves clk (s_cache (cache_records (λ i, clk (path i)) 0 (records_received svc) s)).
Proof.
  intros Hclk Hstale now b Hnow Hst. unfold resolveInstance.
  assert (Hl : forall i, _) by (intros i; exact (Lookup_received clk path (now i) s Hclk (Hnow i) Hstale)).
  cbv zeta in Hl. destruct (Hl 0) as (-> & _). destruct (Hl 1) as (_ & -> & _).
  rewrite Hst, extract_own_name. cbn [mbind result_bind rr_Target srv_received set_Target].
  destruct (Hl 2) as (_ & _ & -> & _). destruct (Hl 3) as (_ & _ & _ & ->).
  rewrite <- !list_fmap_compose. unfold found, announced_ips. rewrite Hst. do 3 f_equal.
  f_equal. by rewrite list_fmap_id.
Qed.

(** ** The browser of the receiver *)

(** The reading of [now] is one of [clk]. *)
Definition reads (clk : Clock) (now : gostring -> nat -> Z) : Prop :=
  forall key i, exists p, now key i = clk p.

Variable b0 : Browser.
Hypothesis Hst : b_serviceType b0 = ServiceType svc.

(** Before and after the instance is found. *)
Definition same_browser (b : Browser) : Prop :=
  b_serviceType b = b_serviceType b0 /\ b_domain b = b_domain b0 /\
  b_running b = b_running b0 /\ b_cancelled b = b_cancelled b0.

Definition waiting (b : Browser) : Prop :=
  same_browser b /\ b_instances b !! instance_key = None /\ b_listeners b = b_listeners b0.

Definition settled (b : Browser) : Prop :=
  same_browser b /\ b_instances b !! instance_key = Some (found b0) /\
  b_listeners b = map (offer (EventAdd (found b0))) (b_listeners b0).

Lemma found_same b : same_browser b -> found b = found b0.
Proof. intros (Et & Ed & _). unfold found. by rewrite Et, Ed. Qed.

Lemma host_name_nonempty : host_name svc <> [].
Proof. destruct (normalizeName_wf (si_Host svc)) as [s E]. unfold host_name. rewrite E. by destruct s. Qed.

Lemma handlePTR_found clk now c b b' :
  resolves clk c -> reads clk (λ _, now) -> waiting b \/ settled b ->
  handlePTR now c (ptr_received svc) b = Ok b' -> settled b'.
Proof.
  intros Hres Hnow Hb Hp. unfold handlePTR in Hp.
  assert (En : normalizeName (rr_Target (ptr_received svc)) = InstanceName svc)
    by apply normalizeName_id, InstanceName_wf.
  rewrite En in Hp. fold instance_key in Hp.
  destruct Hb as [(Hsame & Hi & Hl)|Hb]; [|pose proof Hb as (_ & Hi & _)]; rewrite Hi in Hp.
  - rewrite bool_decide_false in Hp by (by intros []).
    rewrite (Hres now b) in Hp by first [exact (Hnow []) | by rewrite (proj1 Hsame)].
    cbn [mbind result_bind] in Hp. injection Hp as <-. rewrite found_same by done.
    split; [done|]. split; [apply lookup_insert_eq|].
    unfold notify, set_listeners, set_instances. cbn. by rewrite Hl.
  - rewrite bool_decide_true in Hp by done. by injection Hp as <-.
Qed.

Lemma refill_lookup now c b entries : forall m m',
  NoDup entries.*1 -> refill now c b entries m = Ok m' ->
  (forall key, key ∉ entries.*1 -> m' !! key = m !! key) /\
  (forall key info, (key, info) ∈ entries -> exists full,
     resolveInstance (now key) c b (i_Name info ++ [dot] ++ b_serviceType b) = Ok full /\
     m' !! key = match full with Some f => Some (merge_resolved info f) | None => m !! key end).
Proof.
  induction entries as [|[key info] entries IH]; intros m m' Hnd Hr; cbn [refill] in Hr.
  { injection Hr as <-. split; [done|]. intros ? ? Hin%elem_of_nil. done. }
  rewrite fmap_cons in Hnd. apply NoDup_cons in Hnd as [Hni Hnd].
  apply result_bind_Ok in Hr as (full & Hfull & Hr).
  destruct (IH _ _ Hnd Hr) as [Hout Hin]. split.
  - intros k [Hk Hk2]%not_elem_of_cons. rewrite Hout by done. destruct full; [|done].
    by rewrite lookup_insert_ne.
  - intros k i [[= -> ->]|Hki]%elem_of_cons.
    + exists full. split; [done|]. rewrite Hout by done. destruct full; [|done]. apply lookup_insert_eq.
    + destruct (Hin k i Hki) as (f & Hf & E). exists f. split; [done|]. rewrite E. destruct f; [done|].
      destruct full; [|done]. rewrite lookup_insert_ne; [done|]. intros ->. apply Hni.
      apply list_elem_of_fmap. by exists (k, i).
Qed.

(** A record of the announcement changes no field the cache does not restore. *)
Lemma update_from_received rr b info info' flag :
  rr ∈ records_received svc -> info = found b0 ->
  update_from_record rr b info = (info', flag) ->
  i_Name info' = si_Name svc /\ merge_resolved info' info = info /\ (flag = false -> info' = info).
Proof.
  intros Hrr -> Hu.
  assert (Hips : (rr_Type rr =? TypeA)%Z || (rr_Type rr =? TypeAAAA)%Z = true -> announced_ips <> []).
  { unfold records_received in Hrr. cbn [app] in Hrr. intros Ht E. unfold announced_ips in E.
    apply app_eq_nil in E as [E4%fmap_nil_inv E6].
    destruct (last (v4_addresses svc)) eqn:E4'; [done|]. destruct (last (v6_addresses svc)) eqn:E6'; [done|].
    apply last_None in E4', E6'. rewrite E4', E6' in Hrr. cbn in Hrr.
    rewrite !elem_of_cons in Hrr. by destruct Hrr as [-> | [-> | [-> | Hrr%elem_of_nil]]]. }
  assert (Htext : canon_text (si_Text svc) <> []) by (unfold canon_text; by case_decide).
  pose proof host_name_nonempty as Hhost.
  unfold update_from_record in Hu.
  repeat case_if_in Hu; injection Hu as <- <-; unfold merge_resolved, found; cbn in *;
    rewrite !(bool_decide_false (host_name svc = [])), !(bool_decide_false (canon_text _ = [])) by done;
    cbn; (split_and!; [done| |done]);
    (destruct (bool_decide_reflect (announced_ips = [])) as [He|He]; [|done]);
    first [done | by destruct Hips].
Qed.

Lemma update_settled clk now c rr b b' :
  resolves clk c -> reads clk now -> rr ∈ records_received svc -> settled b ->
  updateInstancesFromRecord now c rr b = Ok b' -> settled b'.
Proof.
  intros Hres Hnow Hrr (Hsame & Hi & Hl) Hu. unfold updateInstancesFromRecord in Hu. cbv zeta in Hu.
  set (m := fst ∘ update_from_record rr b <$> b_instances b) in *.
  destruct (update_from_record rr b (found b0)) as [info' flag] eqn:Eu.
  destruct (update_from_received rr b _ _ _ Hrr eq_refl Eu) as (Hn & Hm & Hf).
  assert (Em : m !! instance_key = Some info').
  { unfold m. rewrite lookup_fmap, Hi. cbn. by rewrite Eu. }
  case_if_in Hu.
  - apply result_bind_Ok in Hu as (m' & Hr & [= <-]). split; [done|]. split; [|done].
    cbn [set_instances b_instances].
    apply refill_lookup in Hr as [_ Hin]; [|rewrite visit_perm; apply NoDup_fst_map_to_list].
    destruct (Hin instance_key info') as (full & Hfull & ->).
    { rewrite visit_perm. by apply elem_of_map_to_list. }
    rewrite Hn, (proj1 Hsame), Hst in Hfull.
    change (si_Name svc ++ [dot] ++ ServiceType svc) with (InstanceName svc) in Hfull.
    rewrite (Hres (now instance_key) b) in Hfull by first [apply Hnow | by rewrite (proj1 Hsame)].
    injection Hfull as <-. rewrite found_same by done. by rewrite Hm.
  - injection Hu as <-. split; [done|]. split; [|done]. cbn [set_instances b_instances]. rewrite Em.
    f_equal. apply Hf. apply not_true_iff_false. intros ->.
    rewrite <- not_true_iff_false in *. match goal with H : ~ existsb _ _ = true |- _ => apply H end.
    apply existsb_exists. exists (instance_key, found b0). split; [|cbn; by rewrite Eu].
    by apply list_elem_of_In, elem_of_map_to_list.
Qed.

Lemma received_ptr rr : rr ∈ records_received svc -> rr_Type rr = TypePTR -> rr = ptr_received svc.
Proof.
  unfold records_received. cbn [app]. rewrite !elem_of_cons, elem_of_app, !list_elem_of_fmap.
  by intros [-> | [-> | [-> | [(? & -> & _)|(? & -> & _)]]]].
Qed.

Lemma onRecordAdd_settled clk now c rr b b' :
  resolves clk c -> reads clk now -> rr ∈ records_received svc ->
  settled b \/ (waiting b /\ rr = ptr_received svc) ->
  onRecordAdd now c rr b = Ok b' -> settled b'.
Proof.
  intros Hres Hnow Hrr Hb Ho. unfold onRecordAdd in Ho.
  assert (Hptr : forall b', handlePTR (now []) c (ptr_received svc) b = Ok b' -> settled b').
  { intros b1. apply (handlePTR_found clk); [done | by intros ? i; apply Hnow | tauto]. }
  case_if_in Ho.
  - bool_arith. rewrite (received_ptr rr) in Ho by done. by apply Hptr.
  - destruct Hb as [Hb|[[Hsame _] ->]].
    + case_if_in Ho; [|by injection Ho as <-]. by eapply update_settled.
    + exfalso. rewrite (proj1 Hsame), Hst in *. cbn in *.
      by rewrite bool_decide_true in *.
Qed.

(** A browser in the list of the visit takes the step at least once, another one
    keeps its state. *)
Lemma notify_browsers_at clk rr c p (P Q : Browser -> Prop) ps : forall j h h',
  (forall now b b', reads clk now -> P b \/ Q b -> onRecordAdd now c rr b = Ok b' -> Q b') ->
  notify_browsers clk rr c j ps h = Ok h' ->
  (forall b, h !! p = Some b -> Q b -> exists b', h' !! p = Some b' /\ Q b') /\
  (forall b, h !! p = Some b -> P b -> p ∈ ps -> exists b', h' !! p = Some b' /\ Q b').
Proof.
  induction ps as [|q ps IH]; intros j h h' Hstep Hn; cbn [notify_browsers] in Hn.
  { injection Hn as <-. split; [eauto|]. intros ? _ _ Hp%elem_of_nil. done. }
  destruct (h !! q) as [bq|] eqn:Hq.
  - apply result_bind_Ok in Hn as (b1 & H1 & Hn). apply IH in Hn as [IHq IHp]; [|done].
    assert (Hstep' : P bq \/ Q bq -> Q b1).
    { intros Hb. eapply Hstep; [|exact Hb|exact H1]. intros k i. by eexists. }
    destruct (decide (p = q)) as [<-|Hne].
    + rewrite lookup_insert_eq in IHq. split; intros b; rewrite Hq; intros [= ->]; eauto.
    + rewrite lookup_insert_ne in IHq, IHp by done. split; [done|].
      intros b Hb HP [?|Hp]%elem_of_cons; [done|]. by apply (IHp b).
  - destruct (IH _ _ _ Hstep Hn) as [IHq IHp]. split; [done|].
    intros b Hb HP [->|Hp]%elem_of_cons; [congruence|]. by apply (IHp b).
Qed.

Lemma notify_settled clk rrs p : forall i s s' b,
  (forall path, resolves (λ q, clk (path ++ q)) (s_cache s)) ->
  (forall rr, rr ∈ rrs -> rr ∈ records_received svc /\ (0 < rr_TTL rr)%Z) ->
  notify_records clk i rrs s = Ok s' ->
  s_bheap s !! p = Some b -> settled b ->
  exists b', s_bheap s' !! p = Some b' /\ settled b'.
Proof.
  induction rrs as [|rr rrs IH]; intros i s s' b Hres Hrrs Hn Hb Hsettled; cbn [notify_records] in Hn.
  { injection Hn as <-. by exists b. }
  destruct (Hrrs rr) as [Hrr Ht]; [by left|].
  apply result_bind_Ok in Hn as (s1 & H1 & Hn).
  rewrite (proj2 (Z.eqb_neq _ _)) in H1 by lia. unfold notifyAddition in H1.
  apply result_bind_Ok in H1 as (h & Hh & [= <-]).
  apply (notify_browsers_at _ _ _ p (λ _, False) settled) in Hh as [Hk _].
  - destruct (Hk b Hb Hsettled) as (b1 & Hb1 & Hs1).
    eapply IH; [|intros r Hr; apply Hrrs; by right | exact Hn | exact Hb1 | exact Hs1]. exact Hres.
  - intros now b1 b2 Hnow [[]|Hs1]. eapply onRecordAdd_settled; [exact (Hres [i]) | | done | by left].
    exact Hnow.
Qed.

End Found.

(** ** The goodbye *)

Section Goodbye.
  Context `{UnicodeTables, MapOrder}.

Lemma canon_rr_Type rr : rr_Type (canon_rr rr) = rr_Type rr.
Proof. unfold canon_rr, canon_rdata. by repeat case_if. Qed.

Lemma canon_rr_Name rr : rr_Name (canon_rr rr) = normalizeName (rr_Name rr).
Proof. unfold canon_rr, canon_rdata. by repeat case_if. Qed.

Lemma canon_rr_TTL ttl rr : canon_rr (set_TTL ttl rr) = set_TTL ttl (canon_rr rr).
Proof. unfold canon_rr, canon_rdata. cbn [set_TTL rr_Type]. by repeat case_if. Qed.

Lemma set_TTL_packable ttl rr : is_u32 ttl -> rr_packable rr -> rr_packable (set_TTL ttl rr).
Proof. unfold rr_packable, RR_ints_ok. cbn. naive_solver. Qed.

Lemma goodbye_canon (records : list ResourceRecord) :
  canon_rr <$> (set_TTL 0 <$> records) = set_TTL 0 <$> (canon_rr <$> records).
Proof.
  rewrite <- !list_fmap_compose. apply list_fmap_ext. intros i rr _. apply canon_rr_TTL.
Qed.

(** Every key a goodbye names is left empty. *)
Lemma cache_records_goodbye clk rrs key : forall i s,
  Forall (λ rr, rr_TTL rr = 0%Z) rrs ->
  (s_cache s !! key = None \/ exists rr, rr ∈ rrs /\ rrKey (rr_Name rr) (rr_Type rr) = key) ->
  s_cache (cache_records clk i rrs s) !! key = None.
Proof.
  induction rrs as [|rr rrs IH]; intros i s Hz Hkey; cbn [cache_records].
  { destruct Hkey as [|(? & Hin%elem_of_nil & _)]; done. }
  apply Forall_cons in Hz as [Ht Hz]. rewrite Ht. cbn [Z.eqb]. apply IH; [done|].
  cbn [with_cache s_cache]. unfold Remove.
  destruct (decide (rrKey (rr_Name rr) (rr_Type rr) = key)) as [<-|Hne].
  { left. apply lookup_delete_eq. }
  rewrite lookup_delete_ne by done.
  destruct Hkey as [|(r & [->|Hr]%elem_of_cons & Hk)]; [by left|done|right; eauto].
Qed.

Lemma onRecordRemove_idem rr b : onRecordRemove rr (onRecordRemove rr b) = onRecordRemove rr b.
Proof.
  unfold onRecordRemove at 2 3. case_if; [unfold onRecordRemove; by case_if|]. case_if.
  { unfold onRecordRemove. by repeat case_if. }
  destruct (b_instances b !! _) eqn:E.
  - unfold onRecordRemove. cbn [notify set_listeners set_instances b_serviceType b_instances].
    repeat case_if; try done. by rewrite lookup_delete_eq.
  - unfold onRecordRemove. repeat case_if; try done. by rewrite E.
Qed.

(** Altering with an idempotent function, as often as the address is listed. *)
Lemma foldl_alter {A} (f : A -> A) (ps : list nat) p : forall h : gmap nat A,
  (forall x, f (f x) = f x) -> p ∈ ps ->
  foldl (λ h q, alter f q h) h ps !! p = f <$> h !! p.
Proof.
  induction ps as [|q ps IH]; intros h Hf Hp; [by apply elem_of_nil in Hp|]. cbn.
  destruct (decide (p ∈ ps)) as [Hin|Hni].
  - rewrite IH by done. destruct (decide (p = q)) as [<-|Hne].
    + rewrite lookup_alter_eq. destruct (h !! p); cbn; [by rewrite Hf|done].
    + by rewrite lookup_alter_ne.
  - apply elem_of_cons in Hp as [->|]; [|done].
    rewrite (foldl_inv (λ h', h' !! q = f <$> h !! q)); [done | by rewrite lookup_alter_eq |].
    intros r h' Hr Hh. rewrite lookup_alter_ne; [done|]. by intros ->.
Qed.

Lemma notify_goodbyes clk rrs p : forall i s b,
  Forall (λ rr, rr_TTL rr = 0%Z) rrs ->
  (exists key, s_browsers s !! key = Some p) -> s_bheap s !! p = Some b ->
  exists s', notify_records clk i rrs s = Ok s' /\
    s_bheap s' !! p = Some (foldl (λ b rr, onRecordRemove rr b) b rrs).
Proof.
  induction rrs as [|rr rrs IH]; intros i s b Hz [key Hkey] Hb; cbn [notify_records foldl].
  { by exists s. }
  apply Forall_cons in Hz as [Ht Hz]. rewrite Ht. cbn [Z.eqb mbind result_bind].
  apply IH; [done | by exists key |]. unfold notifyRemoval. cbn [with_bheap s_bheap].
  rewrite foldl_alter; [by rewrite Hb | apply onRecordRemove_idem |].
  apply list_elem_of_fmap. exists (key, p). split; [done|].
  rewrite visit_perm. by apply elem_of_map_to_list.
Qed.

Lemma onRecordRemove_other rr b : rr_Type rr <> TypePTR -> onRecordRemove rr b = b.
Proof. intros Ht. unfold onRecordRemove. by rewrite (proj2 (Z.eqb_neq _ _) Ht). Qed.

Lemma goodbye_browser svc b :
  foldl (λ b rr, onRecordRemove rr b) b (set_TTL 0 <$> records_received svc)
  = onRecordRemove (set_TTL 0 (ptr_received svc)) b.
Proof.
  assert (Erest : exists rest, records_received svc = ptr_received svc :: rest /\
    Forall (λ rr, rr_Type rr <> TypePTR) rest).
  { eexists. split; [reflexivity|]. cbn [app]. repeat constructor; try done.
    apply Forall_app_2; apply Forall_fmap, Forall_forall; by intros ip _. }
  destruct Erest as (rest & -> & Hrest). rewrite fmap_cons. cbn [foldl].
  set (b1 := onRecordRemove _ b). induction Hrest as [|rr rest Hrr _ IH]; [done|].
  rewrite fmap_cons. cbn [foldl]. by rewrite onRecordRemove_other.
Qed.

Lemma goodbye_ptr svc b info :
  b_serviceType b = ServiceType svc -> b_instances b !! instance_key svc = Some info ->
  onRecordRemove (set_TTL 0 (ptr_received svc)) b
  = notify (EventRemove info) (set_instances (delete (instance_key svc) (b_instances b)) b).
Proof.
  intros Hst Hi. unfold onRecordRemove. cbn [set_TTL ptr_received set_Target newRR rr_Type rr_Name rr_Target].
  rewrite Hst, bool_decide_true by done. cbn [negb Z.eqb TypePTR Pos.eqb].
  rewrite (normalizeName_id (InstanceName svc)) by apply InstanceName_wf.
  unfold instance_key in Hi. by rewrite Hi.
Qed.

(** A browser that knew the instance, after the goodbye. *)
Definition forgets (svc : ServiceInstance) (info : ServiceInstanceInfo) (b b' : Browser) : Prop :=
  b_instances b' = delete (instance_key svc) (b_instances b) /\
  b_listeners b' = map (offer (EventRemove info)) (b_listeners b).

(** The cache has nothing under the names and types of the records. *)
Definition nothing_cached (records : list ResourceRecord) (c : Cache) : Prop :=
  Forall (λ rr, c !! rrKey (rr_Name rr) (rr_Type rr) = None) records.

Lemma service_record_names svc :
  Forall (λ rr, normalizeName (rr_Name rr) = rr_Name rr) (generateServiceRecords svc).
Proof.
  pose proof (normalizeName_id _ (ServiceType_wf svc)) as Et.
  pose proof (normalizeName_id _ (InstanceName_wf svc)) as Ei.
  pose proof (normalizeName_id _ (normalizeName_wf (si_Host svc))) as Eh.
  unfold generateServiceRecords. cbv zeta. cbn [app]. repeat (apply Forall_cons; split); [done..|].
  apply Forall_fmap, Forall_forall. intros ip _. cbn. unfold address_record. by destruct (To4 ip).
Qed.

Lemma goodbye_handled svc data clk from s p b info :
  service_ok svc ->
  sendGoodbye (generateServiceRecords svc) = [Multicast data] ->
  isLocalSubnet (s_localSubnets s) (addr_IP from) = true ->
  (exists key, s_browsers s !! key = Some p) -> s_bheap s !! p = Some b ->
  b_serviceType b = ServiceType svc -> b_instances b !! instance_key svc = Some info ->
  exists s' b', handlePacket clk data from s = Ok (s', []) /\ s_bheap s' !! p = Some b' /\
    forgets svc info b b' /\ nothing_cached (generateServiceRecords svc) (s_cache s').
Proof.
  intros Hok Hsend Hlocal Hkey Hb Hst Hi.
  assert (Hpack : Pack (response 0 (set_TTL 0 <$> generateServiceRecords svc) []) = Ok data).
  { unfold sendGoodbye, goodbye in Hsend. destruct (Pack _); [by injection Hsend as ->|done]. }
  rewrite (handlePacket_response clk (set_TTL 0 <$> generateServiceRecords svc)); [|..|done|done].
  2: { apply Forall_fmap. eapply Forall_impl; [by apply generateServiceRecords_packable|].
       intros rr Hrr. apply set_TTL_packable; [unfold is_u32; lia|done]. }
  rewrite goodbye_canon. set (rrs := set_TTL 0 <$> (canon_rr <$> generateServiceRecords svc)).
  assert (Hz : Forall (λ rr, rr_TTL rr = 0%Z) rrs) by (apply Forall_fmap, Forall_forall; by intros rr _).
  set (s1 := cache_records _ 0 rrs s).
  destruct (notify_goodbyes (λ path, clk (1 :: path)) rrs p 0 s1 b Hz) as (s' & Hn & Hb').
  { unfold s1. by rewrite cache_records_browsers. }
  { unfold s1. by rewrite cache_records_bheap. }
  rewrite Hn. cbn [mbind result_bind]. unfold rrs in Hb'. rewrite canon_announcement, goodbye_browser in Hb' by done.
  rewrite (goodbye_ptr svc b info) in Hb' by done. eexists s', _.
  split_and!; [done | exact Hb' | done |]. unfold nothing_cached. rewrite Forall_forall. intros rr Hrr.
  rewrite (notify_records_cache _ _ _ _ _ Hn). apply cache_records_goodbye; [done|]. right.
  exists (set_TTL 0 (canon_rr rr)). split.
  - unfold rrs. rewrite <- list_fmap_compose. by apply (list_elem_of_fmap_2 (set_TTL 0 ∘ canon_rr)).
  - pose proof (service_record_names svc) as Hnames. rewrite Forall_forall in Hnames.
    cbn [set_TTL rr_Name rr_Type]. rewrite canon_rr_Type, canon_rr_Name. by rewrite Hnames.
Qed.

End Goodbye.

(** ** Properties *)

Section DiscoveryProperties.
  Context `{UnicodeTables, MapOrder}.

Lemma received_facts svc rr :
  ascii (InstanceName svc) -> rr ∈ records_received svc -> ptr_ascii rr /\ (0 < rr_TTL rr)%Z.
Proof.
  intros Ha. destruct (ttls_positive svc) as [Hh Ho]. unfold records_received. cbn [app].
  rewrite !elem_of_cons, elem_of_app, !list_elem_of_fmap.
  by intros [-> | [-> | [-> | [(? & -> & _)|(? & -> & _)]]]]; (split; [by intros ?|]).
Qed.

Lemma announcement_received svc clk p b s :
  service_ok svc -> si_Name svc <> [] -> ascii (InstanceName svc) ->
  browsers_ascii s -> (exists key, s_browsers s !! key = Some p) -> s_bheap s !! p = Some b ->
  b_serviceType b = ServiceType svc -> b_instances b !! instance_key svc = None ->
  no_stale_addresses svc (s_cache s) ->
  within_a_second clk ->
  exists s' b', notify_records (λ path, clk (1 :: path)) 0 (records_received svc)
      (cache_records (λ i, clk [0; i]) 0 (records_received svc) s) = Ok s' /\
    s_bheap s' !! p = Some b' /\ settled svc b b'.
Proof.
  intros Hok Hname Hascii Hsafe [key Hkey] Hb Hst Hnone Hstale Hclk.
  pose proof (received_resolves svc Hname Hascii clk (λ i, [0; i]) s Hclk Hstale) as Hres.
  set (s1 := cache_records _ 0 (records_received svc) s) in *.
  destruct (notify_records_safe (λ path, clk (1 :: path)) (records_received svc) 0 s1) as (s' & Hn & _).
  { apply Forall_forall. intros rr Hrr. by apply (received_facts svc). }
  { unfold browsers_ascii, s1. by rewrite cache_records_bheap. }
  rewrite Hn. exists s'.
  assert (Erest : exists rest, records_received svc = ptr_received svc :: rest) by (by eexists).
  destruct Erest as [rest Erest]. rewrite Erest in Hn. cbn [notify_records] in Hn.
  apply result_bind_Ok in Hn as (s2 & H1 & Hn).
  rewrite (proj2 (Z.eqb_neq _ _)) in H1 by (pose proof (ttls_positive svc); cbn; lia).
  unfold notifyAddition in H1. apply result_bind_Ok in H1 as (h & Hh & [= <-]).
  apply (notify_browsers_at _ _ _ p (waiting svc b) (settled svc b)) in Hh as [_ Hk].
  - destruct (Hk b) as (b1 & Hb1 & Hs1).
    + unfold s1. by rewrite cache_records_bheap.
    + by split_and!.
    + apply list_elem_of_fmap. exists (key, p). split; [done|]. rewrite visit_perm.
      apply elem_of_map_to_list. unfold s1. by rewrite cache_records_browsers.
    + eapply (notify_settled svc b Hst) in Hn as (b' & Hb' & Hs'); [|..|exact Hb1|exact Hs1].
      * by exists b'.
      * intros path now b2 Hnow. apply Hres. intros i. destruct (Hnow i) as [q ->]. by eexists.
      * intros rr Hrr. assert (Hin : rr ∈ records_received svc) by (rewrite Erest; by right).
        split; [done|]. by apply (received_facts svc).
  - intros now b1 b2 Hnow Hor Hadd.
    eapply (onRecordAdd_settled svc b Hst clk);
      [exact Hres| | |destruct Hor; [by right|by left]|exact Hadd].
    + intros k i. destruct (Hnow k i) as [q ->]. by eexists.
    + rewrite Erest. by left.
Qed.

(** The announcement on the way from one server to the other. *)
Lemma announcement_handled svc clkA sA sA' data clkB from sB p b :
  service_ok svc -> si_Name svc <> [] -> ascii (InstanceName svc) ->
  distinct_records (generateServiceRecords svc) ->
  Forall (λ rr, s_rateTracker sA !! rateKey rr = None) (generateServiceRecords svc) ->
  sendResponseMulticast clkA (generateServiceRecords svc) sA = (sA', [Multicast data]) ->
  isLocalSubnet (s_localSubnets sB) (addr_IP from) = true ->
  browsers_ascii sB -> (exists key, s_browsers sB !! key = Some p) ->
  s_bheap sB !! p = Some b -> b_serviceType b = ServiceType svc ->
  b_instances b !! instance_key svc = None ->
  no_stale_addresses svc (s_cache sB) ->
  within_a_second clkB ->
  exists sB' b', handlePacket clkB data from sB = Ok (sB', []) /\ s_bheap sB' !! p = Some b' /\
    settled svc b b'.
Proof.
  intros Hok Hname Hascii Hdist Hnone Hsend Hlocal Hsafe Hkey Hb Hst Hi Hstale Hclk.
  apply sendResponseMulticast_fresh in Hsend; [|done..].
  rewrite (handlePacket_response clkB (generateServiceRecords svc)) by
    (done || by apply generateServiceRecords_packable).
  rewrite canon_announcement by done.
  destruct (announcement_received svc clkB p b sB) as (s' & b' & -> & Hb' & Hs'); try done.
  by exists s', b'.
Qed.



End DiscoveryProperties.
