(* ===== verification/Contention.v ===== *)
(** * Two hosts that probe for the same name

    Two servers probe for one instance name at the same time, and each hears the
    other's probe (RFC 6762, section 8.2).  The server compares record with record,
    where the RFC compares the sorted sets of records: each data record of the service,
    SRV and TXT, decides on its own whether the service gives way.  The theorem says who
    does, from the bytes of the two probes. *)

From S2P Require Export Interleaving Discovery.

(** ** One service against one record *)

Section Tiebreak.
  Context `{UnicodeTables}.

(** The service gives way to the record [ns] of a probe. *)
Definition gives_way (records : list ResourceRecord) (ns : ResourceRecord) : bool :=
  match probe_conflict ns records None with
  | (false, Some ours) => probeLoses ours ns
  | _ => false
  end.

(** The service of [rs] once it has given way, or has not. *)
Definition verdict (rs : registeredService) (lost : bool) : registeredService :=
  if lost then mkRS (rs_instance rs) (rs_records rs) stateConflictLost true else rs.

Lemma probe_service_verdict ns rs lost :
  rs_state rs = stateProbing -> rs_probeClosed rs = false ->
  probe_service ns (verdict rs lost) = Ok (verdict rs (lost || gives_way (rs_records rs) ns), []).
Proof.
  intros Hs Hc. destruct lost; [done|]. cbn [verdict orb]. unfold probe_service, gives_way.
  rewrite Hs, (bool_decide_true (stateProbing = stateProbing)) by done.
  rewrite andb_false_r. destruct (probe_conflict _ _ _) as [[] [c|]]; try done.
  rewrite decide_False by done. destruct (probeLoses c ns); [|done].
  unfold close_probeCh. cbn [set_state rs_probeClosed]. by rewrite Hc.
Qed.

(** ** All of a probe against all of a server *)

Section Probe.
  Context `{MapOrder}.
  Variables (p : nat) (rs : registeredService).
  Hypothesis Hs : rs_state rs = stateProbing.
  Hypothesis Hc : rs_probeClosed rs = false.

Lemma probe_services_verdict ns ps : forall lost h h' outs,
  h !! p = Some (verdict rs lost) -> probe_services ns ps h = Ok (h', outs) ->
  h' !! p = Some (verdict rs (lost || (bool_decide (p ∈ ps) && gives_way (rs_records rs) ns))).
Proof.
  induction ps as [|q ps IH]; intros lost h h' outs Hp Hr; cbn [probe_services] in Hr.
  { injection Hr as -> _. by rewrite bool_decide_false, orb_false_r by apply not_elem_of_nil. }
  destruct (decide (q = p)) as [->|Hne].
  - rewrite Hp, probe_service_verdict in Hr by done. cbn [mbind result_bind] in Hr.
    apply result_bind_Ok in Hr as ([h1 o1] & Hr & [= <- _]).
    apply (IH (lost || gives_way (rs_records rs) ns)) in Hr; [|apply lookup_insert_eq].
    rewrite Hr, (bool_decide_true (p ∈ p :: ps)) by by left.
    by destruct lost, (bool_decide _), (gives_way _ _).
  - replace (bool_decide (p ∈ q :: ps)) with (bool_decide (p ∈ ps)).
    2: { apply bool_decide_ext. rewrite elem_of_cons. naive_solver. }
    destruct (h !! q) as [rq|]; [|by eapply IH].
    apply result_bind_Ok in Hr as ([rq' o] & _ & Hr).
    apply result_bind_Ok in Hr as ([h1 o1] & Hr & [= <- _]).
    eapply IH; [|exact Hr]. by rewrite lookup_insert_ne.
Qed.

Lemma handleProbes_verdict nss : forall n lost s s' outs,
  (exists key, s_services s !! key = Some p) ->
  s_heap s !! p = Some (verdict rs lost) -> handleProbes n nss s = Ok (s', outs) ->
  s_heap s' !! p = Some (verdict rs (lost || existsb (gives_way (rs_records rs)) nss)).
Proof.
  induction nss as [|ns nss IH]; intros n lost s s' outs Hkey Hp Hr; cbn [handleProbes] in Hr.
  { injection Hr as <- _. by rewrite orb_false_r. }
  apply result_bind_Ok in Hr as ([s1 o1] & Hr1 & Hr).
  apply result_bind_Ok in Hr as ([s2 o2] & Hr & [= <- _]).
  apply result_bind_Ok in Hr1 as ([h o] & Hh & [= <- _]).
  eapply probe_services_verdict in Hh; [|exact Hp].
  rewrite bool_decide_true in Hh.
  - eapply IH in Hr; [|done|exact Hh]. rewrite Hr. cbn [existsb andb]. by rewrite orb_assoc.
  - destruct Hkey as [key Hkey]. rewrite visit_perm. apply list_elem_of_fmap.
    exists (key, p). split; [done|]. by apply elem_of_map_to_list.
Qed.

End Probe.
End Tiebreak.

(** ** The records of two services *)

Section Services.
  Context `{UnicodeTables, MapOrder}.

(** The records of ours that [handleProbe] passes over. *)
Definition passed_over (ns r : ResourceRecord) : Prop :=
  rr_CacheFlush r = false \/ lowerName (rr_Name r) <> lowerName (rr_Name ns) \/ rr_Type r <> rr_Type ns.

Lemma probe_conflict_skip ns rrs rest c :
  Forall (passed_over ns) rrs -> probe_conflict ns (rrs ++ rest) c = probe_conflict ns rest c.
Proof.
  induction 1 as [|r rrs Hr _ IH]; [done|]. cbn [app probe_conflict]. rewrite IH.
  destruct (rr_CacheFlush r) eqn:Hf; cbn [negb]; [|done].
  destruct Hr as [Hr|[Hn|Ht]]; [congruence| |].
  - by rewrite bool_decide_false.
  - rewrite (proj2 (Z.eqb_neq _ _) Ht). cbn [negb]. by case_match.
Qed.

Lemma gives_way_none ns rrs : Forall (passed_over ns) rrs -> gives_way rrs ns = false.
Proof.
  intros Hp. unfold gives_way. rewrite <- (app_nil_r rrs). by rewrite probe_conflict_skip.
Qed.

Lemma gives_way_at ns pre ours post :
  Forall (passed_over ns) pre -> Forall (passed_over ns) post ->
  rr_CacheFlush ours = true -> lowerName (rr_Name ours) = lowerName (rr_Name ns) ->
  rr_Type ours = rr_Type ns ->
  gives_way (pre ++ ours :: post) ns = negb (recordsEqual ours ns) && probeLoses ours ns.
Proof.
  intros Hpre Hpost Hf Hn Ht. unfold gives_way. rewrite probe_conflict_skip by done.
  cbn [probe_conflict]. rewrite Hf, bool_decide_true, Ht, Z.eqb_refl by done. cbn [negb].
  destruct (recordsEqual ours ns); [done|]. rewrite <- (app_nil_r post).
  by rewrite probe_conflict_skip.
Qed.

Variables a b : ServiceInstance.
Hypothesis Hname : lowerName (InstanceName a) = lowerName (InstanceName b).
Hypothesis Hhost : lowerName (host_name a) <> lowerName (host_name b).
Hypothesis Htext : si_Text a <> [].

Definition addresses_of (svc : ServiceInstance) : list ResourceRecord :=
  address_record (host_name svc) (host_ttl svc) <$> sortIPsIPv4First (si_IPs svc).

Lemma own_records :
  generateServiceRecords a = [ptr_received a; srv_received a; txt_received a] ++ addresses_of a.
Proof.
  unfold generateServiceRecords, txt_received, canon_text. by rewrite decide_False by done.
Qed.

Lemma addresses_passed ns :
  rr_Type ns <> TypeA /\ rr_Type ns <> TypeAAAA \/ lowerName (rr_Name ns) = lowerName (host_name b) ->
  Forall (passed_over ns) (addresses_of a).
Proof.
  intros Hns. apply Forall_fmap, Forall_forall. intros ip _.
  destruct (address_record_fields (host_name a) (host_ttl a) ip) as (Hn & _ & _ & _ & _ & _ & _ & _ & Ht).
  unfold passed_over. cbn. rewrite Hn. destruct Hns as [[HA HAAAA]|Hns].
  - right; right. destruct Ht as [[-> _]|[-> _]]; congruence.
  - right; left. congruence.
Qed.

(** Which of the records of a probe of [b] a service [a] gives way to. *)
Lemma gives_way_srv :
  gives_way (generateServiceRecords a) (srv_received b)
  = negb (recordsEqual (srv_received a) (srv_received b)) && probeLoses (srv_received a) (srv_received b).
Proof.
  rewrite own_records. apply (gives_way_at _ [ptr_received a] _ (txt_received a :: addresses_of a)); try done.
  - constructor; [by left|done].
  - constructor; [by right; right|]. by apply addresses_passed; left.
Qed.

Lemma gives_way_txt :
  gives_way (generateServiceRecords a) (txt_received b)
  = negb (recordsEqual (txt_received a) (txt_received b)) && probeLoses (txt_received a) (txt_received b).
Proof.
  rewrite own_records. apply (gives_way_at _ [ptr_received a; srv_received a] _ (addresses_of a)); try done.
  - constructor; [by left|]. constructor; [by right; right|done].
  - by apply addresses_passed; left.
Qed.

Lemma gives_way_other ns :
  rr_Type ns <> TypeSRV -> rr_Type ns <> TypeTXT ->
  rr_Type ns <> TypeA /\ rr_Type ns <> TypeAAAA \/ lowerName (rr_Name ns) = lowerName (host_name b) ->
  gives_way (generateServiceRecords a) ns = false.
Proof.
  intros Hsrv Htxt Hns. apply gives_way_none. rewrite own_records.
  repeat (constructor; [first [by left | by right; right; cbn; congruence]|]).
  by apply addresses_passed.
Qed.

End Services.

(** ** Who gives way *)

Section Verdicts.
  Context `{UnicodeTables, MapOrder}.

Definition srv_rdata (svc : ServiceInstance) : list byte := canonicalRDATA (srv_received svc).
Definition txt_rdata (svc : ServiceInstance) : list byte := canonicalRDATA (txt_received svc).

(** The first service gives way to the second. *)
Definition yields (a b : ServiceInstance) : bool :=
  str_ltb (srv_rdata a) (srv_rdata b) || str_ltb (txt_rdata a) (txt_rdata b).

(** Equal records have equal RDATA. *)
Lemma equal_srv_rdata a b :
  recordsEqual (srv_received a) (srv_received b) = true -> srv_rdata a = srv_rdata b.
Proof.
  intros He%recordsEqual_iff. unfold rr_id in He. cbn in He.
  injection He as _ Hprio Hweight Hport Htarget. unfold srv_rdata, canonicalRDATA. cbn.
  by rewrite !(normalizeName_id (host_name _)), Htarget, Hprio, Hweight, Hport by apply normalizeName_wf.
Qed.

Lemma equal_txt_rdata a b :
  recordsEqual (txt_received a) (txt_received b) = true -> txt_rdata a = txt_rdata b.
Proof.
  intros He%recordsEqual_iff. unfold rr_id in He. cbn in He. injection He as _ Htext.
  unfold txt_rdata, canonicalRDATA. cbn. by rewrite Htext.
Qed.

Lemma tie_or (same : bool) x y :
  (same = true -> x = y) -> negb same && str_ltb x y = str_ltb x y.
Proof. destruct same; [|done]. intros ->; [|done]. by rewrite str_ltb_irrefl. Qed.

Lemma existsb_fmap_false {A B} (f : B -> bool) (g : A -> B) (l : list A) :
  (forall x, f (g x) = false) -> existsb f (g <$> l) = false.
Proof. intros Hf. induction l as [|x l IH]; [done|]. cbn. by rewrite Hf. Qed.

Lemma yields_probe a b :
  lowerName (InstanceName a) = lowerName (InstanceName b) ->
  lowerName (host_name a) <> lowerName (host_name b) -> si_Text a <> [] ->
  existsb (gives_way (generateServiceRecords a)) (records_received b) = yields a b.
Proof.
  intros Hn Hh Ht. unfold records_received. rewrite !existsb_app.
  rewrite (existsb_fmap_false _ (a_received b)), (existsb_fmap_false _ (aaaa_received b)).
  2,3: intros ip; apply (gives_way_other a b Hh Ht); try done; by right.
  cbn [existsb]. rewrite gives_way_srv, gives_way_txt, (gives_way_other a b Hh Ht) by (done || by left).
  unfold probeLoses. fold (srv_rdata a) (srv_rdata b) (txt_rdata a) (txt_rdata b).
  rewrite (tie_or _ (srv_rdata a)), (tie_or _ (txt_rdata a)) by auto using equal_srv_rdata, equal_txt_rdata.
  by rewrite !orb_false_r.
Qed.

(** ** A probe that is heard *)

Lemma handlePacket_probe clk records data from s :
  Forall rr_packable records -> Pack (buildProbeMessage records) = Ok data ->
  isLocalSubnet (s_localSubnets s) (addr_IP from) = true ->
  handlePacket clk data from s = handleQuery clk (canon_msg (buildProbeMessage records)) from s.
Proof.
  intros Hrr Hpack%UnpackMessage_Pack Hlocal; [|by apply buildProbeMessage_packable].
  apply accepted_query_handled. unfold accepted_query.
  destruct (Nat.ltb_spec (length data) 12) as [Hlen|_].
  { unfold UnpackMessage in Hpack. by rewrite (proj2 (Nat.ltb_lt _ _) Hlen) in Hpack. }
  by rewrite Hpack, Hlocal.
Qed.

Lemma trackPassiveQueries_heap clk i qs s : s_heap (trackPassiveQueries clk i qs s) = s_heap s.
Proof.
  revert i s. induction qs as [|q qs IH]; intros i s; cbn [trackPassiveQueries]; [done|]. by rewrite IH.
Qed.

Lemma track_query_heap clk msg from s : s_heap (track_query clk msg from s) = s_heap s.
Proof. unfold track_query. cbv zeta. case_if; [done|]. apply trackPassiveQueries_heap. Qed.

(** The service at [p] is being probed for. *)
Definition contends (svc : ServiceInstance) (s : Server) (p : nat) (rs : registeredService) : Prop :=
  probing_open (s_heap s) /\ (exists key, s_services s !! key = Some p) /\ s_heap s !! p = Some rs /\
  rs_state rs = stateProbing /\ rs_records rs = generateServiceRecords svc.

Lemma probe_heard a b s p rs data clk from :
  contends a s p rs -> si_Text a <> [] -> service_ok b ->
  lowerName (InstanceName a) = lowerName (InstanceName b) ->
  lowerName (host_name a) <> lowerName (host_name b) ->
  Pack (buildProbeMessage (generateServiceRecords b)) = Ok data ->
  isLocalSubnet (s_localSubnets s) (addr_IP from) = true ->
  exists s' outs, handlePacket clk data from s = Ok (s', outs) /\
    s_heap s' !! p = Some (verdict rs (yields a b)).
Proof.
  intros (Hopen & Hkey & Hp & Hs & Hrs) Ht Hb Hn Hh Hpack Hlocal.
  rewrite (handlePacket_probe clk (generateServiceRecords b)) by
    (done || by apply generateServiceRecords_packable).
  unfold handleQuery. set (n := first_probe_visit _).
  replace (m_Authorities _) with (records_received b) by (symmetry; by apply canon_announcement).
  destruct (handleProbes_ok (records_received b) n s Hopen) as (s' & o & Hr & _). rewrite Hr.
  cbn [mbind result_bind]. eexists _, _. split; [done|]. rewrite track_query_heap.
  apply (handleProbes_verdict p rs Hs (Hopen p rs Hp Hs) (records_received b) n false) in Hr; [|done|done].
  by rewrite Hr, Hrs, (yields_probe a b).
Qed.

(** A later name changes nothing: the RDATA stays. *)
Lemma yields_renamed n m a b : yields (set_Name n a) (set_Name m b) = yields a b.
Proof. done. Qed.

End Verdicts.

(** ** Properties *)

Section ContentionProperties.
  Context `{UnicodeTables, MapOrder}.

(** C5: Simultaneous probes are decided.  Two servers each probe for a service that the
    wire format can carry, with one instance name up to case, on hosts with different
    names, both with TXT data (without it, see [empty_text_loses_to_itself]), and each
    receives, from its local network, the probe the other sent: neither panics, and each
    service has given way, closing its channel, or is as it was, according to the RDATA
    of the two SRV and the two TXT records alone.  Both stay exactly if these are the
    same, and both give way only if both records differ. *)
Theorem simultaneous_probes a b sA p rsA dataA fromA clkA sB q rsB dataB fromB clkB :
  service_ok a -> service_ok b -> si_Text a <> [] -> si_Text b <> [] ->
  lowerName (InstanceName a) = lowerName (InstanceName b) ->
  lowerName (host_name a) <> lowerName (host_name b) ->
  contends a sA p rsA -> contends b sB q rsB ->
  Pack (buildProbeMessage (generateServiceRecords a)) = Ok dataA ->
  Pack (buildProbeMessage (generateServiceRecords b)) = Ok dataB ->
  isLocalSubnet (s_localSubnets sA) (addr_IP fromB) = true ->
  isLocalSubnet (s_localSubnets sB) (addr_IP fromA) = true ->
  exists sA' outsA sB' outsB,
    handlePacket clkA dataB fromB sA = Ok (sA', outsA) /\
    handlePacket clkB dataA fromA sB = Ok (sB', outsB) /\
    s_heap sA' !! p = Some (verdict rsA (yields a b)) /\
    s_heap sB' !! q = Some (verdict rsB (yields b a)) /\
    (yields a b = false /\ yields b a = false <-> srv_rdata a = srv_rdata b /\ txt_rdata a = txt_rdata b) /\
    (yields a b = true /\ yields b a = true -> srv_rdata a <> srv_rdata b /\ txt_rdata a <> txt_rdata b).
Proof.
  intros Ha Hb Hta Htb Hn Hh HcA HcB HpA HpB HlA HlB.
  destruct (probe_heard a b sA p rsA dataB clkA fromB) as (sA' & oA & EA & HA); try done.
  destruct (probe_heard b a sB q rsB dataA clkB fromA) as (sB' & oB & EB & HB); try done.
  exists sA', oA, sB', oB. split_and!; try done; unfold yields.
  - rewrite !orb_false_iff. split.
    + intros [[E1 E2] [E3 E4]]. split; by apply str_ltb_total.
    + intros [-> ->]. by rewrite !str_ltb_irrefl.
  - rewrite !orb_true_iff. intros [H1 H2].
    split; intros E; rewrite E, !str_ltb_irrefl in *;
      destruct H1 as [|H1], H2 as [|H2]; try done; apply str_ltb_asym in H1; congruence.
Qed.

End ContentionProperties.
