(* ===== verification/Lifecycle.v ===== *)
(** * Starting a server, and the lookups that run one (server.go, mdns.go)

    [Start] turns a configuration and what the operating system reports into a world
    whose goroutines are about to run.  [LookupHost] and [LookupService] start a
    server of their own, wait for an answer, and close it.  A server that closes is
    forgotten by those who hear its goodbyes. *)

From S2P Require Export Opening Resolve Interleaving Discovery.

Section Lifecycle.
  Context `{UnicodeTables, MapOrder}.

(** ** Start *)

(** The world [Start] leaves: [mc] is the connection, [ifaces] is what the operating
    system reports. *)
Definition started (mc : MulticastConn) (os_hostname : gostring) (c : Config) (ifaces : option (list Interface)) : world :=
  let s := NewServer os_hostname c (localIPs ifaces (cfg_Interfaces c)) (localSubnets ifaces) in
  World s mc (if bool_decide (s_hostRecords s = []) then HDone else HDelay) RIdle ∅ COpen [].

(** [conn] is the connection or the error of [NewMulticastConn]. *)
Definition Start (conn : conn_error + MulticastConn) (os_hostname : gostring) (c : Config)
    (ifaces : option (list Interface)) : conn_error + world :=
  match conn with
  | inl e => inl e
  | inr mc => inr (started mc os_hostname c ifaces)
  end.

Lemma started_initial mc os_hostname c ifaces :
  mc_closed mc = false -> initial (started mc os_hostname c ifaces).
Proof. intros Hc. by split_and!. Qed.

(** ** LookupHost *)

(** [None]: still waiting when the wake-ups end. *)
Definition LookupHost (conn : conn_error + MulticastConn) (os_hostname : gostring) (port : Z)
    (ifaces : option (list Interface)) (host : gostring) (first : look) (sent : bool) (ws : list wake)
    : conn_error + option (result (list IP)) :=
  match Start conn os_hostname (lookup_config port) ifaces with
  | inl e => inl e
  | inr _ => inr (ResolveHost host first sent ws).2
  end.

Lemma defaultHostName_nonempty h : defaultHostName h <> [].
Proof. unfold defaultHostName. cbv zeta. by repeat case_bool_decide. Qed.

(** The temporary server announces the name and the addresses of this host, whatever
    the comment on the empty host name says. *)
Lemma lookup_server_advertises mc os_hostname port ifaces :
  localIPs ifaces [] <> [] ->
  let w := started mc os_hostname (lookup_config port) ifaces in
  s_hostRecords (w_server w) <> [] /\ w_host w = HDelay /\ HostName (w_server w) <> [].
Proof.
  intros Hips w. assert (Hr : s_hostRecords (w_server w) <> []).
  { cbn. intros E%fmap_nil_inv%sortIPs_nil. done. }
  split; [done|]. split.
  - unfold w, started in *. cbn [w_server w_host] in *. by rewrite bool_decide_false.
  - unfold HostName. cbn. pose proof (defaultHostName_nonempty os_hostname).
    case_if; [|done]. by destruct (defaultHostName os_hostname).
Qed.

(** The byte that the health check of a starting server sends to the group is no message:
    whoever receives it drops it. *)
Lemma health_packet_dropped clk from s : handlePacket clk health_packet from s = Ok (s, []).
Proof. done. Qed.

(** ** LookupService *)

Definition browse_started (serviceType : gostring) (w : world) : world * nat :=
  let '(s, p) := Browse serviceType (w_server w) in (set_server (StartBrowser p s) w, p).

(** Up to the wait for events. *)
Definition LookupService_start (conn : conn_error + MulticastConn) (os_hostname : gostring) (port : Z)
    (ifaces : option (list Interface)) (serviceType : gostring) : conn_error + (world * nat) :=
  match Start conn os_hostname (lookup_config port) ifaces with
  | inl e => inl e
  | inr w => inr (browse_started serviceType w)
  end.

(** What it returns when the context ends in the world [w]. *)
Definition LookupService_result (p : nat) (w : world) : list ServiceInstanceInfo :=
  match s_bheap (w_server w) !! p with Some b => Instances b | None => [] end.

(** The deferred calls, last first. *)
Definition LookupService_end (p : nat) : list event := [BrowserStop p; Close; CloseSockets].

(** The browser that waits. *)
Definition waiting_browser (serviceType : gostring) : Browser :=
  (Browser_Start (newBrowser (NewServer_config [] (lookup_config 0)) serviceType)).1.

Lemma browse_started_browser mc os_hostname port ifaces serviceType :
  let '(w, p) := browse_started serviceType (started mc os_hostname (lookup_config port) ifaces) in
  s_bheap (w_server w) = {[p := waiting_browser serviceType]} /\
  (exists key, s_browsers (w_server w) !! key = Some p) /\
  s_cache (w_server w) = NewCache /\ s_heap (w_server w) = ∅ /\ s_services (w_server w) = ∅ /\
  s_localSubnets (w_server w) = localSubnets ifaces /\
  w_recv w = RIdle /\ w_close w = COpen /\ w_sent w = [].
Proof.
  unfold browse_started, Browse. cbn zeta iota. split_and!; try done.
  cbn. eexists. apply lookup_insert_eq.
Qed.

(** A stopped browser and a closed server leave nothing behind: no service was
    registered, so no goodbye is sent. *)
Lemma LookupService_ends p b w :
  s_bheap (w_server w) !! p = Some b -> b_cancelled b = false ->
  s_services (w_server w) = ∅ -> w_close w = COpen ->
  exists w', run (LookupService_end p) w = Some (Running w') /\ w_close w' = CClosed /\
    w_sent w' = w_sent w.
Proof.
  intros Hb Hc Hs Ho.
  assert (Hstop : exists s', StopBrowser p (w_server w) = Ok s' /\ s_services s' = ∅).
  { unfold StopBrowser. rewrite Hb. unfold Browser_Stop. rewrite Hc.
    destruct (b_running b); cbn; eexists; (split; [reflexivity|done]). }
  destruct Hstop as (s' & Hstop & Hs'). eexists. unfold LookupService_end.
  cbn [run world_step]. rewrite Hstop. cbn [run world_step set_server w_close w_server].
  rewrite decide_True by done. cbn [run world_step set_close w_close].
  rewrite decide_True by done. split; [reflexivity|]. split; [done|].
  cbn [close_conn set_close w_sent set_server w_server].
  unfold Close_goodbyes. replace (visit 0 (services_of s')) with (@nil service); [by rewrite emit_nil|].
  symmetry. apply Permutation_nil_r. rewrite visit_perm. unfold services_of.
  by rewrite Hs', map_to_list_empty.
Qed.

(** A response is handled in one step. *)
Lemma response_step clk records data from w s' :
  Forall rr_packable records -> Pack (response 0 records []) = Ok data -> w_recv w = RIdle ->
  handlePacket clk data from (w_server w) = Ok (s', []) ->
  world_step (Packet clk data from) w = Some (Running (set_server s' w)).
Proof.
  intros Hrr Hpack Hrecv Hp. cbn [world_step]. unfold idle. rewrite Hrecv. unfold recv_packet.
  rewrite (accepted_query_response _ _ _ _ Hrr Hpack), Hp. cbn [mbind result_bind received].
  do 2 f_equal. rewrite emit_nil. unfold set_recv, set_server. cbn. by rewrite Hrecv.
Qed.

Lemma result_found p w b key info :
  s_bheap (w_server w) !! p = Some b -> b_instances b !! key = Some info ->
  info ∈ LookupService_result p w.
Proof.
  intros Hb Hi. unfold LookupService_result. rewrite Hb. unfold Instances. rewrite visit_perm.
  apply list_elem_of_fmap. exists (key, info). split; [done|]. by apply elem_of_map_to_list.
Qed.

End Lifecycle.

(** ** Properties *)

Section LifecycleProperties.
  Context `{UnicodeTables, MapOrder}.



End LifecycleProperties.
