(* ===== verification/Commands.v ===== *)
(** * The commands (cmd/mdns-demo/main.go, cmd/mdns-example/main.go)

    What the two programs print, and how they drive the package: each runs a server
    of its own, a world of [Probing], on which its calls and the receptions of its
    event loop are steps.  Flags, the process identifier, the host name of the system
    and the readings of the clock (as the text of a time of day, or the nanoseconds of
    an uptime) are arguments. *)

From Stdlib Require Import Floats.SpecFloat.
From S2P Require Export Lifecycle.

(** ** Printing *)

Definition nl : gostring := [Byte.x0a].
Definition space : byte := Byte.x20.

(** [%-*s]: the width counts runes. *)
Definition pad_right (width : nat) (s : gostring) : gostring :=
  s ++ replicate (width - length (decode_runes s)) space.

Definition countIPVersions (ips : list IP) : nat * nat :=
  (length (filter (λ ip, is_Some (To4 ip)) ips), length (filter (λ ip, ¬ is_Some (To4 ip)) ips)).

Definition formatIP (ip : IP) : gostring :=
  match To4 ip with Some _ => go "v4:" | None => go "v6:" end ++ IP_String ip.

Definition formatIPs (ips : list IP) : list gostring := formatIP <$> ips.

Definition firstOr (ss : list gostring) (def : gostring) : gostring :=
  match ss with s :: _ => s | [] => def end.

(** Lengths are those of the bytes. *)
Definition truncate (s : gostring) (n : nat) : gostring :=
  if length s <=? n then s else take (n - 1) s ++ go "~".

Definition plural (n : nat) : gostring := if n =? 1 then [] else go "s".

(** *** Durations *)

(** [float64] is IEEE binary64; an [int] conversion drops the fraction. *)
Definition float64 (z : Z) : spec_float := binary_normalize 53 1024 z 0 false.

Definition float_int (f : spec_float) : Z :=
  match f with
  | S754_finite s m e => (let v := Z.shiftl (Zpos m) e in if s then - v else v)%Z
  | _ => 0%Z
  end.

(** [d.Seconds()], [d.Minutes()] and [d.Hours()]: the whole units and the fraction. *)
Definition in_units (unit d : Z) : spec_float :=
  SFadd 53 1024 (float64 (Z.quot d unit)) (SFdiv 53 1024 (float64 (Z.rem d unit)) (float64 unit)).

Definition Minute : Z := (60 * Second)%Z.
Definition Hour : Z := (60 * Minute)%Z.

Definition formatDuration (d : Z) : gostring :=
  let seconds := float_int (in_units Second d) in
  let minutes := float_int (in_units Minute d) in
  let hours := float_int (in_units Hour d) in
  if (d <? Minute)%Z then Itoa seconds ++ go "s"
  else if (d <? Hour)%Z then Itoa minutes ++ go "m" ++ Itoa (Z.rem seconds 60) ++ go "s"
  else Itoa hours ++ go "h" ++ Itoa (Z.rem minutes 60) ++ go "m".

(** *** Peers *)

Definition printPeerFound (ts : gostring) (s : ServiceInstanceInfo) : gostring :=
  go "  [" ++ ts ++ go "]  + " ++ pad_right 30 (i_Name s) ++ go "  ONLINE" ++ nl
  ++ go "           type     = " ++ i_Type s ++ nl
  ++ go "           host     = " ++ i_Host s ++ nl
  ++ go "           port     = " ++ Itoa (i_Port s) ++ nl
  ++ go "           addrs    = " ++ Join (formatIPs (i_IPs s)) (go ", ") ++ nl
  ++ (if bool_decide (i_Text s = []) then []
      else go "           txt      = " ++ Join (i_Text s) (go ", ") ++ nl)
  ++ go "           srv prio = " ++ Itoa (i_Priority s) ++ go "  weight = " ++ Itoa (i_Weight s) ++ nl
  ++ nl.

Definition printPeerLost (ts : gostring) (s : ServiceInstanceInfo) : gostring :=
  go "  [" ++ ts ++ go "]  - " ++ pad_right 30 (i_Name s) ++ go "  OFFLINE" ++ nl
  ++ go "           host     = " ++ i_Host s ++ nl
  ++ nl.

Definition summary_line (s : ServiceInstanceInfo) : gostring :=
  go "  " ++ pad_right 30 (truncate (i_Name s) 30) ++ go "  " ++ firstOr (formatIPs (i_IPs s)) (go "?")
  ++ go ":" ++ Itoa (i_Port s) ++ go "  [" ++ i_Host s ++ go "]" ++ nl.

(** [all] is what [browser.Instances()] returns, [uptime] the time since the start. *)
Definition printSummaryFiltered (all : list ServiceInstanceInfo) (ts : gostring) (uptime : Z)
    (skip : ServiceInstanceInfo -> bool) : gostring :=
  let instances := filter (λ s, skip s = false) all in
  go "  [" ++ ts ++ go "]  ┄┄┄ SUMMARY (" ++ formatDuration uptime ++ go ", "
  ++ Itoa (Z.of_nat (length instances)) ++ go " peer" ++ plural (length instances) ++ go ") ┄┄┄┄" ++ nl
  ++ (if bool_decide (instances = []) then go "           (no peers yet)" ++ nl
      else mjoin (summary_line <$> instances))
  ++ nl.

(** ** Starting the demo *)

Record demo_flags := mkFlags {
  f_name : gostring;
  f_service : gostring;
  f_port : Z;
  f_mdnsPort : Z;
  f_host : gostring;
  f_ipv6 : bool;
  f_summary : Z
}.

Definition default_flags : demo_flags :=
  mkFlags [] (go "_mdns-demo._tcp") 9999 DefaultPort [] false 15.

(** [strings.NewReplacer] replaces each dot and each space. *)
Definition sanitize (s : gostring) : gostring :=
  (λ b, if bool_decide (b = dot) || bool_decide (b = space) then Byte.x2d else b) <$> s.

(** [sysHost] is what [os.Hostname] returns, empty on an error. *)
Definition demo_hostName (sysHost : gostring) (pid : Z) (f : demo_flags) : gostring :=
  if bool_decide (f_host f = []) then
    sanitize (if bool_decide (sysHost = []) then go "mdns-node" else sysHost) ++ go "-" ++ Itoa pid
  else f_host f.

Definition demo_instanceName (sysHost : gostring) (pid : Z) (f : demo_flags) : gostring :=
  if bool_decide (f_name f = []) then
    (if bool_decide (sysHost = []) then go "Node" else sysHost) ++ go "-" ++ Itoa pid
  else f_name f.

Definition demo_config (hostName : gostring) (f : demo_flags) : Config :=
  mkConfig (f_mdnsPort f) (cfg_Domain DefaultConfig) (f_ipv6 f) hostName (cfg_Interfaces DefaultConfig).

(** The text [This node]. *)
Definition node_block (s : Server) (instanceName : gostring) (pid : Z) (f : demo_flags) : gostring :=
  let '(v4Count, v6Count) := countIPVersions (HostIPs s) in
  let v4s := filter (λ ip, is_Some (To4 ip)) (HostIPs s) in
  go "  ┌─ This node ──────────────────────────────────────────────────" ++ nl
  ++ go "  │  Hostname:   " ++ HostName s ++ nl
  ++ go "  │  Instance:   " ++ instanceName ++ nl
  ++ go "  │  Addresses:  " ++ Itoa (Z.of_nat v4Count) ++ go " IPv4, " ++ Itoa (Z.of_nat v6Count)
  ++ go " IPv6"
  ++ (if 0 <? v4Count then go "  [" ++ Join (IP_String <$> v4s) (go ", ") ++ go "]" else [])
  ++ nl
  ++ go "  │  mDNS port:  " ++ Itoa (f_mdnsPort f) ++ nl
  ++ go "  │  PID:        " ++ Itoa pid ++ nl
  ++ go "  └──────────────────────────────────────────────────────────────" ++ nl
  ++ nl.

(** [uint16(port)] wraps around; [now] is in seconds. *)
Definition demo_service (instanceName : gostring) (now pid : Z) (f : demo_flags) : ServiceInstance :=
  mkService (f_service f) instanceName [] [] (u16 (f_port f)) []
    [go "started=" ++ Itoa now; go "pid=" ++ Itoa pid; go "platform=mdns-demo"] 0 0 0.

(** The text [Advertising service]. *)
Definition service_block (instanceName : gostring) (f : demo_flags) : gostring :=
  go "  ┌─ Advertising service ────────────────────────────────────────" ++ nl
  ++ go "  │  Instance:   " ++ instanceName ++ nl
  ++ go "  │  Type:       " ++ f_service f ++ nl
  ++ go "  │  Port:       " ++ Itoa (f_port f) ++ nl
  ++ go "  │  Probing:    3 probes x 250ms (RFC 6762 §8.1)" ++ nl
  ++ go "  │  Announcing: double-announce (RFC 6762 §8.3)" ++ nl
  ++ go "  │  Goodbye:    will send on exit (RFC 6762 §10.1)" ++ nl
  ++ go "  └──────────────────────────────────────────────────────────────" ++ nl
  ++ nl.

(** The text [Discovery]. *)
Definition discovery_block (f : demo_flags) : gostring :=
  go "  ┌─ Discovery ──────────────────────────────────────────────────" ++ nl
  ++ go "  │  Browsing:   " ++ f_service f ++ nl
  ++ go "  │  Backoff:    1s then 2s, 4s, ... 1h max (RFC 6762 §5.2)" ++ nl
  ++ go "  │  Features:  Known-Answer Suppression, Cache Maintenance," ++ nl
  ++ go "  │             Passive Observation, IPv4-priority" ++ nl
  ++ go "  └──────────────────────────────────────────────────────────────" ++ nl
  ++ nl
  ++ go "  Waiting for peers...  (Ctrl-C to stop)" ++ nl
  ++ go "  ───────────────────────────────────────────────────────────────" ++ nl
  ++ nl.

Section Demo.
  Context `{UnicodeTables, MapOrder}.
  Variable f : demo_flags.

(** [NewServer] has no error.  An error of [Start], and of the calls below, ends the
    program with status 1 ([mustNoErr]). *)
Definition demo_start (conn : conn_error + MulticastConn) (sysHost : gostring) (pid : Z)
    (ifaces : option (list Interface)) : conn_error + world :=
  Start conn sysHost (demo_config (demo_hostName sysHost pid f) f) ifaces.

(** [srv.RegisterService(svc)], with the pointer of the new [svc]. *)
Definition register_new (svc : ServiceInstance) (w : world) : result (world * nat) :=
  let s := w_server w in
  let ip := fresh (dom (s_instances s)) in
  let '(s', r) := RegisterService ip (with_instances (<[ip := svc]> (s_instances s)) s) in
  outs ← r;
  Ok (spawns outs (set_server s' w), ip).

Definition demo_register (sysHost : gostring) (now pid : Z) (w : world) : result (world * nat) :=
  register_new (demo_service (demo_instanceName sysHost pid f) now pid f) w.

(** ** The event loop *)

(** The variables of the loop, and what has been printed. *)
Record demo := mkDemo {
  d_world : world;
  d_browser : nat;
  d_myHost : gostring;
  d_discoveryCount : Z;
  d_out : gostring
}.

Definition isSelf (d : demo) (info : ServiceInstanceInfo) : bool :=
  bool_decide (i_Host info = d_myHost d).

(** The browser is created and started; [Start] has no error. *)
Definition demo_browse (w : world) : demo :=
  let '(w, p) := browse_started (f_service f) w in
  mkDemo w p (HostName (w_server w)) 0 (discovery_block f).

(** What happens next: a step of the package, or a case of the [select]. *)
Inductive demo_event :=
  | Library (e : event)
  | Discovered (ts : gostring)
  | SummaryDue (ts : gostring) (uptime : Z)
  | Interrupted (ts : gostring) (uptime1 uptime2 : Z).

Inductive demo_outcome :=
  | Loops (d : demo)
  | Exits (w : world) (out : gostring)
  | Panics.

(** The body of [case ev := <-events]. *)
Definition demo_discovered (ts : gostring) (ev : ServiceEvent) (d : demo) : demo :=
  match ev with
  | EventAdd info =>
      if isSelf d info then d
      else mkDemo (d_world d) (d_browser d) (d_myHost d) (int64 (d_discoveryCount d + 1))
             (d_out d ++ printPeerFound ts info)
  | EventRemove info =>
      if isSelf d info then d
      else mkDemo (d_world d) (d_browser d) (d_myHost d) (d_discoveryCount d)
             (d_out d ++ printPeerLost ts info)
  end.

Definition demo_in (w : world) (d : demo) : demo :=
  mkDemo w (d_browser d) (d_myHost d) (d_discoveryCount d) (d_out d).

Definition demo_print (out : gostring) (d : demo) : demo :=
  mkDemo (d_world d) (d_browser d) (d_myHost d) (d_discoveryCount d) (d_out d ++ out).

(** The head of the channel [events], the browser's only listener; the channel is closed
    only by the deferred [Stop], after the loop. *)
Definition next_event (d : demo) : option ServiceEvent :=
  b ← s_bheap (w_server (d_world d)) !! d_browser d;
  b_listeners b !! 0 ≫= head.

Definition demo_summary (ts : gostring) (uptime : Z) (d : demo) : gostring :=
  printSummaryFiltered (LookupService_result (d_browser d) (d_world d)) ts uptime (isSelf d).

(** The texts of [case <-sig]. *)
Definition farewell (ts : gostring) (uptime1 uptime2 : Z) (d : demo) : gostring :=
  nl
  ++ go "  ───────────────────────────────────────────────────────────────" ++ nl
  ++ nl
  ++ demo_summary ts uptime1 d
  ++ nl
  ++ go "  Total peers discovered: " ++ Itoa (d_discoveryCount d) ++ nl
  ++ go "  Uptime:                 " ++ formatDuration uptime2 ++ nl
  ++ nl
  ++ go "  Sending goodbye packets (TTL=0)...  RFC 6762 §10.1" ++ nl
  ++ go "  Done." ++ nl.

(** [None]: it cannot happen, as the case is not ready.  The deferred calls run when
    the loop is left. *)
Definition demo_step (e : demo_event) (d : demo) : option demo_outcome :=
  match e with
  | Library (Receive _ _) => None
  | Library e =>
      (λ o, match o with Running w => Loops (demo_in w d) | Crashed => Panics end)
        <$> world_step e (d_world d)
  | Discovered ts =>
      ev ← next_event d;
      let s := ReceiveEvent (d_browser d) 0 (w_server (d_world d)) in
      Some (Loops (demo_discovered ts ev (demo_in (set_server s (d_world d)) d)))
  | SummaryDue ts uptime =>
      if (0 <? f_summary f)%Z then Some (Loops (demo_print (demo_summary ts uptime d) d)) else None
  | Interrupted ts uptime1 uptime2 =>
      o ← run (LookupService_end (d_browser d)) (d_world d);
      Some (match o with
            | Running w => Exits w (d_out d ++ farewell ts uptime1 uptime2 d)
            | Crashed => Panics
            end)
  end.

Fixpoint demo_run (es : list demo_event) (d : demo) : option demo_outcome :=
  match es with
  | [] => Some (Loops d)
  | e :: es =>
      o ← demo_step e d;
      match o with Loops d' => demo_run es d' | _ => Some o end
  end.

End Demo.

(** ** The example *)

(** A line on the standard output, or a message with an error on the other. *)
Inductive printed :=
  | Printed (line : gostring)
  | Failed (what : gostring) (e : goerror).

Record example_flags := mkExample {
  e_mode : gostring;
  e_type : gostring;
  e_name : gostring;
  e_port : Z;
  e_svcPort : Z;
  e_resolve : gostring
}.

Definition example_defaults : example_flags :=
  mkExample (go "both") (go "_test._tcp") (go "TestService") 0 8080 [].

Definition example_config (e : example_flags) : Config :=
  mkConfig (if (e_port e =? 0)%Z then DefaultPort else e_port e) (cfg_Domain DefaultConfig)
    (cfg_EnableIPv6 DefaultConfig) (go "mdns-test") (cfg_Interfaces DefaultConfig).

Definition example_service (name svcType : gostring) (svcPort : Z) : ServiceInstance :=
  mkService svcType name [] [] (u16 svcPort) [] [go "path=/"; go "version=1.0"] 0 0 0.

Section Example.
  Context `{UnicodeTables, MapOrder}.

(** A world is left as it was when the registration fails, but for the caller's
    [ServiceInstance], which nobody sees any more. *)
Definition runRegister (name svcType : gostring) (svcPort : Z) (w : world) : world * list printed :=
  match register_new (example_service name svcType svcPort) w with
  | Err e => (w, [Failed (go "Failed to register service") e])
  | Ok (w, _) =>
      (w, [Printed (go "Registered service: " ++ name ++ go " type=" ++ svcType ++ go " port="
                    ++ Itoa svcPort ++ nl)])
  end.

(** [Browse] and [Start] have no errors; the second component is the browser whose
    events a goroutine prints from now on. *)
Definition runBrowse (svcType : gostring) (w : world) : world * nat := browse_started svcType w.

(** What that goroutine prints for an event. *)
Definition example_event (ev : ServiceEvent) : gostring :=
  match ev with
  | EventAdd info => go "[+] Service found: " ++ Info_String info ++ nl
  | EventRemove info => go "[-] Service lost: " ++ Info_String info ++ nl
  end.

(** [None]: still waiting when the wake-ups end. *)
Definition runResolve (host : gostring) (first : look) (sent : bool) (ws : list wake)
    : option (list printed) :=
  match (ResolveHost host first sent ws).2 with
  | None => None
  | Some (Err e) => Some [Failed (go "Failed to resolve " ++ host) e]
  | Some (Ok ips) =>
      Some (Printed (go "Resolved " ++ host ++ go ":" ++ nl)
            :: ((λ ip, Printed (go "  " ++ IP_String ip ++ nl)) <$> ips))
  end.

(** The body of [main] between the start of the server and the wait for a signal: the
    world it leaves, the browser whose events are printed, and what it prints. *)
Definition example_main (e : example_flags) (first : look) (sent : bool) (ws : list wake) (w : world)
    : option (world * option nat * list printed) :=
  let started := Printed (go "mDNS server started on port " ++ Itoa (cfg_Port (example_config e))
                          ++ go " (hostname: " ++ HostName (w_server w) ++ go ")" ++ nl) in
  let waiting := Printed (nl ++ go "Press Ctrl-C to stop..." ++ nl) in
  '(w, p, out) ←
    (if bool_decide (e_mode e = go "resolve") then
       out ← runResolve (e_resolve e) first sent ws; Some (w, None, out)
     else if bool_decide (e_mode e = go "register") then
       let '(w, out) := runRegister (e_name e) (e_type e) (e_svcPort e) w in Some (w, None, out)
     else if bool_decide (e_mode e = go "browse") then
       let '(w, p) := runBrowse (e_type e) w in Some (w, Some p, [])
     else if bool_decide (e_mode e = go "both") then
       let '(w, out) := runRegister (e_name e) (e_type e) (e_svcPort e) w in
       let '(w, p) := runBrowse (e_type e) w in Some (w, Some p, out)
     else Some (w, None, []));
  Some (w, p, started :: out ++ [waiting]).

End Example.

(** ** What the demo makes of the services it hears of *)

Section DemoServices.
  Context `{UnicodeTables, MapOrder}.

(** The advertised host name ends in a dot. *)
Lemma config_host_wf os_hostname c :
  name_wf (cfg_Domain (NewServer_config os_hostname c)) ->
  name_wf (cfg_HostName (NewServer_config os_hostname c)).
Proof.
  intros Hd. unfold NewServer_config in *. cbn in *.
  set (h := if bool_decide (cfg_HostName c = []) then _ else _).
  destruct (HasSuffix h [dot]) eqn:E; cbn [negb].
  - apply HasSuffix_spec in E as [k ->]. by exists k.
  - apply (name_wf_app h), (name_wf_app [dot]), Hd.
Qed.

(** A new service without a host of its own gets the host of the server. *)
Lemma register_new_host svc w w' ip :
  register_new svc w = Ok (w', ip) -> si_Host svc = [] -> name_wf (HostName (w_server w)) ->
  exists svc', s_instances (w_server w') !! ip = Some svc' /\ host_name svc' = HostName (w_server w).
Proof.
  unfold register_new. intros Hr Hhost Hwf. set (ip0 := fresh _) in Hr.
  set (s := with_instances _ _) in Hr. destruct (RegisterService ip0 s) as [s' r] eqn:E.
  apply result_bind_Ok in Hr as (outs & -> & [= <- <-]).
  unfold RegisterService in E. cbn [s with_instances s_instances] in E. rewrite lookup_insert_eq in E.
  case_match; [done|]. destruct (s_services _ !! _); [done|].
  injection E as <- <-. exists (with_defaults s svc). split.
  - cbn. apply lookup_insert_eq.
  - unfold host_name, with_defaults. cbn. rewrite Hhost. cbn. by apply normalizeName_id.
Qed.

(** The demo's own service has the host name it compares with. *)
Lemma demo_own_host f conn sysHost pid now ifaces w0 w w' ip :
  demo_start f conn sysHost pid ifaces = inr w0 -> s_config (w_server w) = s_config (w_server w0) ->
  demo_register f sysHost now pid w = Ok (w', ip) ->
  exists svc, s_instances (w_server w') !! ip = Some svc /\
    host_name svc = d_myHost (demo_browse f w').
Proof.
  unfold demo_start, Start. destruct conn; [done|]. intros [= <-] Hcfg Hreg.
  assert (Hs : HostName (w_server w') = HostName (w_server w)).
  { unfold demo_register, register_new in Hreg. destruct (RegisterService _ _) as [s' r] eqn:E.
    apply result_bind_Ok in Hreg as (outs & -> & [= <- _]).
    assert (Ec : s_config s' = s_config (w_server w)).
    { unfold RegisterService in E. repeat case_match; by injection E as <-. }
    unfold HostName. by rewrite spawns_server, <- Ec. }
  apply register_new_host in Hreg as (svc & Hi & Hh); [|done|].
  - exists svc. split; [done|]. rewrite Hh, <- Hs. done.
  - unfold HostName. rewrite Hcfg. apply config_host_wf. by exists (go "local").
Qed.

(** A packet that is handled in one step, then the event it offered. *)
Lemma demo_hears f e ts d s' b ev :
  (forall p i, e <> Receive p i) ->
  world_step e (d_world d) = Some (Running (set_server s' (d_world d))) ->
  s_bheap s' !! d_browser d = Some b -> b_listeners b = [[ev]] ->
  exists w', demo_run f [Library e; Discovered ts] d = Some (Loops (demo_discovered ts ev (demo_in w' d))) /\
    s_bheap (w_server w') !! d_browser d = Some (set_listeners [[]] b).
Proof.
  intros He Hstep Hb Hl. set (w1 := set_server s' (d_world d)) in *.
  exists (set_server (ReceiveEvent (d_browser d) 0 s') w1). split.
  - cbn [demo_run]. replace (demo_step f (Library e) d) with (Some (Loops (demo_in w1 d))).
    2: { unfold demo_step. destruct e; try (by rewrite Hstep). by destruct (He p i). }
    cbn [mbind option_bind demo_step]. unfold next_event, demo_in at 1 2. cbn. rewrite Hb. cbn.
    rewrite Hl. cbn. done.
  - cbn. rewrite lookup_alter_eq, Hb. cbn. unfold take_event. by rewrite Hl.
Qed.

End DemoServices.

(** ** Properties *)

Section CommandProperties.
  Context `{UnicodeTables, MapOrder}.


End CommandProperties.
