(* ===== verification/Scenarios.v ===== *)
(** * Executions of the model

    Concrete configurations, messages and executions: the witnesses of the
    properties that have hypotheses, and the executions behind the findings.
    Everything here is evaluated by the kernel. *)

From S2P Require Export MulticastSpec Resolve CacheRefine Commands Contention ServerInvariant.

#[local] Existing Instance ascii_tables.
#[local] Existing Instance listed_order.

(** ** A printer on the local network *)

Definition printer : ServiceInstance :=
  mkService (go "_ipp._tcp") (go "Printer") (go "local.") (go "host.local.") 631
    [[Byte.xc0; Byte.xa8; Byte.x01; Byte.x0a]] [go "rp=ipp"] 0 0 0.

Definition home_config : Config := mkConfig 5353 [] false (go "host.local.") [].

Definition home_ip : IP := [Byte.xc0; Byte.xa8; Byte.x01; Byte.x0a].
Definition home_net : IPNet := mkIPNet [Byte.xc0; Byte.xa8; Byte.x01; Byte.x00]
                                 [Byte.xff; Byte.xff; Byte.xff; Byte.x00].
Definition rival_addr : UDPAddr := mkUDPAddr [Byte.xc0; Byte.xa8; Byte.x01; Byte.x14] 5353.

(** A started server, and the instances its callers hold. *)
Definition home (instances : list ServiceInstance) : world :=
  World (with_instances (list_to_map (imap pair instances))
           (NewServer (go "host") home_config [home_ip] [home_net])) (mkConn true false 0 []) HDelay RIdle ∅ COpen [].

Lemma home_initial instances : initial (home instances).
Proof. done. Qed.

Definition clk0 : Clock := λ _, 0%Z.

(** [n] steps of goroutine [t]; the ninth acts on the state read by the eighth. *)
Definition steps (t n : nat) : list event := replicate n (Thread t clk0).

(** A query with four authorities, handled to the end. *)
Definition probed_by (data : list byte) (from : UDPAddr) : list event :=
  Packet clk0 data from :: replicate 6 (Recv clk0).

(** A rival's probe for the same name, with an SRV record that wins. *)
Definition rival : ServiceInstance :=
  mkService (go "_ipp._tcp") (go "Printer") (go "local.") (go "rival.local.") 9999
    [[Byte.xc0; Byte.xa8; Byte.x01; Byte.x14]] [go "rp=zzz"] 9 9 0.

Definition rival_probe : list byte :=
  match Pack (buildProbeMessage (generateServiceRecords rival)) with
  | Ok data => data
  | Err _ => []
  end.

(** The world an execution of [home] ends in. *)
Definition after (es : list event) (instances : list ServiceInstance) : world :=
  match run es (home instances) with Some (Running w) => w | _ => home instances end.

Definition is_running (o : option outcome) : bool :=
  match o with Some (Running _) => true | _ => false end.

Lemma after_reachable es instances :
  is_running (run es (home instances)) = true -> reachable (after es instances).
Proof.
  unfold after. destruct run as [[w|]|] eqn:E; try done. intros _.
  apply (run_reachable es (home instances)); [apply home_initial | done].
Qed.

Definition registered : world := after [Register 0] [printer].
Definition announced_world : world := after (Register 0 :: steps 2 9) [printer].

Lemma registered_reachable : reachable registered.
Proof. apply after_reachable. vm_compute. reflexivity. Qed.

Lemma announced_reachable : reachable announced_world.
Proof. apply after_reachable. vm_compute. reflexivity. Qed.

(** The printer's service in a world. *)
Definition service_in (w : world) : registeredService :=
  default (mkRS 0 [] stateIdle false) (s_heap (w_server w) !! 0).

(** Decides a closed decidable goal by evaluation. *)
Ltac by_eval := apply (bool_decide_unpack _); vm_compute; exact I.

(** ** Witnesses: the wire format *)

Definition probe_msg : Message := buildProbeMessage (generateServiceRecords printer).
Definition probe_data : list byte := default [] (match Pack probe_msg with Ok d => Some d | _ => None end).

Lemma Pack_UnpackMessage_witness : UnpackMessage probe_data = Ok (canon_msg probe_msg).
Proof.
  apply Pack_UnpackMessage; [by_eval | vm_compute; reflexivity].
Defined.

Lemma UnpackMessage_Message_wf_witness : Message_wf (canon_msg probe_msg).
Proof. apply (UnpackMessage_Message_wf probe_data). vm_compute. reflexivity. Defined.

Definition host_written : wstate := (writeName (go "host.local") (WState [] ∅)).1.

Lemma host_written_ok :
  writeName (go "host.local") (WState [] ∅) = (host_written, Ok ()).
Proof.
  assert (Hr : (writeName (go "host.local") (WState [] ∅)).2 = Ok ()) by (vm_compute; reflexivity).
  unfold host_written. rewrite <- Hr. by destruct writeName.
Qed.

Lemma writeName_roundtrip_witness :
  readName (w_buf host_written ++ [Byte.x07]) 0
  = Ok (normalizeName (go "host.local"), length (w_buf host_written)) /\
  comp_ok (w_buf host_written) (w_comp host_written).
Proof.
  apply (writeName_roundtrip (go "host.local") [] ∅ host_written [Byte.x07]);
    [vm_compute; reflexivity | apply comp_ok_empty | exact host_written_ok].
Defined.

Lemma type_bitmaps_roundtrip_witness :
  exists types', decodeTypeBitMaps ([] ++ encodeTypeBitMaps [28; 1; 65281]%Z ++ []) 0
      (0 + length (encodeTypeBitMaps [28; 1; 65281]%Z)) = Ok types' /\
    StronglySorted Z.lt types' /\ forall t, t ∈ types' <-> t ∈ [28; 1; 65281]%Z /\ (t < 65280)%Z.
Proof. apply (type_bitmaps_roundtrip [28; 1; 65281]%Z [] []). by_eval. Defined.

(** ** Witnesses: the cache *)

Definition host_a (last : byte) : ResourceRecord :=
  set_IP [Byte.xc0; Byte.xa8; Byte.x01; last] (newRR (go "host.local.") TypeA ClassIN 120 false).

Definition one_record : Cache := (Upsert 0 (host_a Byte.x0a) NewCache).1.

Lemma one_record_reachable : cache_reachable one_record.
Proof. eapply rtc_l; [apply step_Upsert | apply rtc_refl]. Qed.

Lemma cache_reachable_wf_witness : cache_wf one_record.
Proof. apply cache_reachable_wf. exact one_record_reachable. Defined.

Lemma Upsert_Lookup_witness :
  exists r, r ∈ Lookup 1 (rrKey (go "host.local.") TypeA) (Upsert 0 (host_a Byte.x0b) NewCache).1 /\
    rr_id r = rr_id (host_a Byte.x0b).
Proof. apply (Upsert_Lookup 0 1 (host_a Byte.x0b) NewCache NewCache_wf). by_eval. Defined.

Lemma LookupName_spec_witness :
  host_a Byte.x0a ∈ LookupName 1 (go "HOST.local") (map_to_list one_record) <->
  exists t, host_a Byte.x0a ∈ Lookup 1 (mkKey (lowerName (normalizeName (go "HOST.local"))) t)
              one_record.
Proof. by apply (LookupName_spec 1 (go "HOST.local") one_record (map_to_list one_record)). Defined.

Lemma KnownAnswers_sound_witness :
  host_a Byte.x0a ∈ Lookup 5 (rrKey (go "HOST.local") TypeA) one_record.
Proof.
  apply (KnownAnswers_sound 5 (λ _, 6%Z) (go "HOST.local") TypeA one_record (host_a Byte.x0a)).
  - intros _. lia.
  - by_eval.
Defined.

(** ** Witnesses: matching, rate limiting, reverse names *)

Definition host_a_upper : ResourceRecord :=
  set_IP (v4InV6Prefix ++ [Byte.xc0; Byte.xa8; Byte.x01; Byte.x0a])
    (newRR (go "HOST.local.") TypeA ClassIN 120 false).

Lemma known_answer_suppression_witness :
  inKnownAnswers (host_a Byte.x0a) [set_TTL 60 host_a_upper]
  = inKnownAnswers host_a_upper [set_TTL 60 host_a_upper].
Proof. apply known_answer_suppression; vm_compute; reflexivity. Defined.

(** A call of [canSendMulticast] at the times [now] and [now2]. *)
Definition try_send (now now2 : Z) (rr : ResourceRecord) (st : rate_state) : rate_state :=
  let r := canSendMulticast now now2 rr (rs_tracker st) in
  RateState r.1 (if r.2 then rs_sent st ++ [(rateKey rr, (now, now2))] else rs_sent st) now2.

Lemma try_send_step now now2 rr st :
  (rs_clock st <= now <= now2)%Z -> rate_step st (try_send now now2 rr st).
Proof. intros Hc. eapply rate_can_send; [lia | lia | done | by destruct canSendMulticast]. Qed.

Definition first_send : rate_state := try_send 0 5 (host_a Byte.x0a) rate_init.
Definition two_sends : rate_state := try_send 2000000000 2000000007 (host_a Byte.x0a) first_send.

Lemma two_sends_reachable : rtc rate_step rate_init two_sends.
Proof.
  eapply rtc_l; [apply (try_send_step 0 5 (host_a Byte.x0a)); simpl; lia|].
  eapply rtc_l; [|apply rtc_refl].
  apply (try_send_step 2000000000 2000000007 (host_a Byte.x0a)). unfold first_send. simpl. lia.
Qed.

Lemma rate_limit_one_per_second_witness :
  spaced (sends_of (rateKey (host_a Byte.x0a)) (rs_sent two_sends)).
Proof. apply rate_limit_one_per_second. exact two_sends_reachable. Defined.

Lemma reverseNameToIP_roundtrip_witness :
  (exists ip', reverseNameToIP (reverse_name4 home_ip) = Some ip' /\ length ip' = 16 /\
     IP_Equal ip' home_ip = true) /\
  reverseNameToIP (reverse_name6 IPv6loopback) = Some IPv6loopback.
Proof.
  split; [apply (reverseNameToIP_roundtrip home_ip) | apply (reverseNameToIP_roundtrip IPv6loopback)];
    vm_compute; reflexivity.
Defined.

(** ** Witnesses: the responder *)

(** The value of a computation known to succeed. *)
Definition value {A} (d : A) (r : result A) : A := match r with Ok x => x | Err _ => d end.

Lemma value_ok {A} (d : A) r : is_ok r = true -> r = Ok (value d r).
Proof. by destruct r. Qed.

Definition printer_service : service :=
  (printer, mkRS 0 (generateServiceRecords printer) stateAnnounced true).

Definition home_knowledge : knowledge :=
  mkKnowledge (NewServer_config (go "host") home_config) [home_ip] true [printer_service] NewCache.

Definition ask_host : Question := mkQuestion (go "HOST.local.") TypeA ClassIN.

Lemma answers_complete_witness :
  address_record (go "host.local.") 120 home_ip ∈ r_answers (answer_questions home_knowledge (λ _, 0%Z) [] 0 empty_reply [ask_host]).
Proof.
  apply (answers_complete home_knowledge (λ _, 0%Z) [] [ask_host] ask_host printer_service).
  - by_eval.
  - by left.
  - vm_compute. reflexivity.
  - by_eval.
  - vm_compute. reflexivity.
  - reflexivity.
  - intros n. vm_compute. reflexivity.
Defined.

Definition deduplicated : Message :=
  response 0 [host_a Byte.x0a] [host_a Byte.x0b].

Definition deduplicated_call : gmap gostring Z * option Message :=
  prepare_response (λ _, 0%Z) (λ _, 0%Z) [host_a Byte.x0a; host_a_upper]
    [host_a Byte.x0b; host_a Byte.x0a] true ∅.

Lemma deduplicated_sent : deduplicated_call = (deduplicated_call.1, Some deduplicated).
Proof.
  assert (Hm : deduplicated_call.2 = Some deduplicated) by by_eval.
  rewrite <- Hm. by destruct deduplicated_call.
Qed.

Lemma response_deduplicated_witness :
  NoDup (rr_id <$> [host_a Byte.x0a]) /\ [host_a Byte.x0a] `sublist_of` [host_a Byte.x0a; host_a_upper] /\
  NoDup (rr_id <$> [host_a Byte.x0b]) /\
  [host_a Byte.x0b] `sublist_of` [host_a Byte.x0b; host_a Byte.x0a] /\
  (forall i, i ∈ rr_id <$> [host_a Byte.x0b] -> i ∉ rr_id <$> [host_a Byte.x0a; host_a_upper]).
Proof.
  exact (response_deduplicated (λ _, 0%Z) (λ _, 0%Z) [host_a Byte.x0a; host_a_upper]
    [host_a Byte.x0b; host_a Byte.x0a] true ∅ deduplicated_call.1 deduplicated deduplicated_sent).
Defined.

(** ** Witnesses: services *)

Lemma rename_sequence_witness :
  Nat.iter 2 incrementNameSuffix (go "Printer") = go "Printer" ++ go " (" ++ Itoa 3 ++ go ")" /\
  forall j, j < 2 ->
    Nat.iter j incrementNameSuffix (go "Printer") <> Nat.iter 2 incrementNameSuffix (go "Printer").
Proof. apply (rename_sequence (go "Printer") 1); [done | by vm_compute | by vm_compute]. Defined.

Lemma buildProbeMessage_spec_witness :
  IsQuery probe_msg = true /\ IsProbe probe_msg = true /\ IsValidmDNS probe_msg = true /\
  m_Authorities probe_msg = generateServiceRecords printer /\
  Forall (λ q, q_Type q = TypeAny /\ q_Class q = ClassIN) (m_Questions probe_msg) /\
  NoDup (lowerName ∘ q_Name <$> m_Questions probe_msg) /\
  (forall n, n ∈ lowerName ∘ q_Name <$> m_Questions probe_msg <->
     n ∈ lowerName ∘ rr_Name <$> generateServiceRecords printer).
Proof. apply (buildProbeMessage_spec (generateServiceRecords printer)). done. Defined.

Lemma own_probe_recognised_witness :
  exists m, UnpackMessage probe_data = Ok m /\
    Forall (λ ns, exists rr, rr ∈ generateServiceRecords printer /\ recordsEqual rr ns = true)
      (m_Authorities m).
Proof.
  apply (own_probe_recognised printer); [by_eval | done | vm_compute; reflexivity].
Defined.

Definition silent : ServiceInstance :=
  mkService (go "_ipp._tcp") (go "Printer") (go "local.") (go "host.local.") 631 [home_ip] [] 0 0 0.

Lemma empty_text_loses_to_itself_witness :
  exists txt, txt ∈ generateServiceRecords silent /\
    recordsEqual txt (canon_rr txt) = false /\ recordsConflict txt (canon_rr txt) = true /\
    probeLoses txt (canon_rr txt) = true.
Proof. apply empty_text_loses_to_itself. reflexivity. Defined.

(** ** Witnesses: probing *)

Lemma service_in_heap w :
  bool_decide (is_Some (s_heap (w_server w) !! 0)) = true ->
  s_heap (w_server w) !! 0 = Some (service_in w).
Proof. intros [rs Hrs]%bool_decide_eq_true. unfold service_in. by rewrite Hrs. Qed.

Lemma announced_after_three_probes_witness :
  exists t data, Pack (buildProbeMessage (rs_records (service_in announced_world))) = Ok data /\
    3 <= times_sent t data (w_sent announced_world).
Proof.
  apply (announced_after_three_probes announced_world 0).
  - exact announced_reachable.
  - apply service_in_heap. vm_compute. reflexivity.
  - vm_compute. reflexivity.
Defined.

Lemma probing_panics_only_in_race_witness :
  (forall (o : MapOrder) n ns, exists s' outs,
     handleProbe n ns (w_server registered) = Ok (s', outs)) /\
  (forall t clk p c, w_threads registered !! t = Some (p, c) ->
     thread_step clk t p c registered = None <->
     c = PDecide stateProbing /\ state_at p (w_server registered) = stateConflictLost).
Proof. apply probing_panics_only_in_race. exact registered_reachable. Defined.

Lemma probing_well_formed_witness :
  (forall t t' p c c', w_threads registered !! t = Some (p, c) ->
     w_threads registered !! t' = Some (p, c') -> t = t') /\
  (forall t p c, w_threads registered !! t = Some (p, c) ->
     is_Some (deref (w_server registered) p)) /\
  (forall key p, s_services (w_server registered) !! key = Some p ->
     is_Some (deref (w_server registered) p)) /\
  (forall p rs, s_heap (w_server registered) !! p = Some rs ->
     rs_probeClosed rs = true <-> rs_state rs = stateAnnounced \/ rs_state rs = stateConflictLost).
Proof. apply probing_well_formed. exact registered_reachable. Defined.

Lemma probing_completes_witness :
  exists w', thread_run clk0 2 9 registered = Some w' /\
    w_threads w' !! 2 = Some (0, PAnnounce false) /\
    state_at 0 (w_server w') = stateAnnounced /\
    w_sent w' = w_sent registered ++ replicate 3 (2, Multicast probe_data).
Proof.
  apply (probing_completes registered clk0 2 0 (service_in registered)).
  - exact registered_reachable.
  - vm_compute. reflexivity.
  - apply service_in_heap. vm_compute. reflexivity.
  - vm_compute. reflexivity.
  - by_eval.
Defined.

(** The host records of [home], probed: seven steps of [probeHostRecords]. *)
Definition host_world : world := after (replicate 7 (Host clk0)) [].

Lemma host_reachable : reachable host_world.
Proof. apply after_reachable. vm_compute. reflexivity. Qed.

Lemma host_served_after_three_probes_witness :
  exists data, Pack (buildProbeMessage (s_hostRecords (w_server host_world))) = Ok data /\
    3 <= times_sent host_thread data (w_sent host_world).
Proof.
  apply host_served_after_three_probes; [exact host_reachable | vm_compute; reflexivity].
Defined.

(** ** Witnesses: browsing *)

Lemma extractInstanceName_inverts_witness :
  extractInstanceName (go "Printer" ++ [dot] ++ go "_ipp._tcp.local" ++ [dot])
    (go "_ipp._tcp.local" ++ [dot]) = Ok (go "Printer").
Proof. apply extractInstanceName_inverts; [done | done | vm_compute; reflexivity]. Defined.

Definition ipp_browser : Browser :=
  newBrowser (NewServer_config (go "host") home_config) (go "_ipp._tcp").

Definition printer_ptr : ResourceRecord :=
  set_Target (go "Printer._ipp._tcp.local.") (newRR (go "_ipp._tcp.local.") TypePTR ClassIN 75 false).

Definition found_printer : Browser := value ipp_browser (handlePTR (λ _, 0%Z) ∅ printer_ptr ipp_browser).

Lemma discovery_and_loss_witness :
  let key := lowerName (normalizeName (rr_Target printer_ptr)) in
  (is_Some (b_instances ipp_browser !! key) /\ found_printer = ipp_browser) \/
  (b_instances ipp_browser !! key = None /\ exists info,
     b_instances found_printer = <[key := info]> (b_instances ipp_browser) /\
     b_listeners found_printer = map (offer (EventAdd info)) (b_listeners ipp_browser) /\
     b_instances (onRecordRemove printer_ptr found_printer) = b_instances ipp_browser /\
     b_listeners (onRecordRemove printer_ptr found_printer)
     = map (offer (EventRemove info)) (b_listeners found_printer) /\
     handlePTR (λ _, 0%Z) ∅ printer_ptr found_printer = Ok found_printer).
Proof.
  apply (discovery_and_loss (λ _, 0%Z) ∅ printer_ptr ipp_browser).
  - reflexivity.
  - vm_compute. reflexivity.
  - apply value_ok. vm_compute. reflexivity.
Defined.

(** A browser that knows the printer tells so in one packet. *)
Lemma multipacket_complete_witness :
  exists ms, Forall2 (λ data m, UnpackMessage data = Ok (canon_msg m)) (sendQuery found_printer) ms /\
    Forall (λ m, IsQuery m = true) ms /\
    mjoin (m_Answers <$> ms) `sublist_of` known_answers found_printer /\
    (known_answers_fit found_printer ->
     mjoin (m_Answers <$> ms) = known_answers found_printer /\
     exists first rest, ms = first :: rest /\ m_Questions first = [browse_question found_printer] /\
       Forall (λ m, m_Questions m = [] /\ 1 <= length (m_Answers m) <= maxPerPacket) rest /\
       (rest <> [] -> tc_but_last ms /\
          is_ok (Pack (query_message flagTruncation [browse_question found_printer]
            (take (S (length (m_Answers first))) (known_answers found_printer)))) = false)).
Proof.
  apply (multipacket_complete found_printer). split; [vm_compute; reflexivity|].
  apply (bool_decide_unpack _). vm_compute. exact I.
Defined.

(** A browser that knows the printer alone has an answer that fits. *)
Example printer_fits : known_answers_fit found_printer.
Proof. split_and!; apply (bool_decide_unpack _); vm_compute; exact I. Qed.

(** A browser that knows forty instances with names of more than 480 bytes, which share
    nothing: its first packet holds seventeen answers, the packet with the next twenty is
    too large and is left out, and the last three are sent. *)
Definition long_instance (b : byte) : ServiceInstanceInfo :=
  mkInfo (Join (replicate 8 (replicate 60 b)) [dot]) (b_serviceType ipp_browser) (go "local.")
    (go "host.local.") 631 [] [] 0 0.

Definition crowded_browser : Browser :=
  set_instances (list_to_map ((λ n, let b := z2b (Z.of_nat (65 + n)) in ([b], long_instance b)) <$> seq 0 40))
    ipp_browser.

Lemma continuation_lost :
  names_ok crowded_browser /\ length (known_answers crowded_browser) = 40 /\
  (λ data, length (m_Answers (value (query_message 0 [] []) (UnpackMessage data))))
    <$> sendQuery crowded_browser = [17; 3].
Proof.
  split; [|by_eval]. split; [vm_compute; reflexivity|]. apply (bool_decide_unpack _). vm_compute. exact I.
Qed.

(** ** Witnesses: the server *)

Definition stranger : UDPAddr := mkUDPAddr [Byte.x08; Byte.x08; Byte.x08; Byte.x08] 5353.

Definition handled (clk : Clock) (data : list byte) (from : UDPAddr) (s : Server)
    : Server * list output := value (s, []) (handlePacket clk data from s).

Definition stranger_handled : Server * list output :=
  handled clk0 rival_probe stranger (w_server announced_world).


(** A query with the response code NXDOMAIN is answered like any other. *)
Definition failed_query : Message :=
  mkMessage (mkHeader 0 3 1 0 0 0) [mkQuestion (go "_ipp._tcp.local.") TypePTR ClassIN] [] [] [].

Lemma query_rcode_ignored :
  RCode failed_query = 3%Z /\ IsValidmDNS failed_query = true /\
  length (handled clk0 (value [] (Pack failed_query)) rival_addr (w_server announced_world)).2 = 1.
Proof. split_and!; vm_compute; reflexivity. Qed.

(** The announced world with a browser for printers. *)
Definition browsing_world : world :=
  after (Register 0 :: steps 2 9 ++ [NewBrowser (go "_ipp._tcp"); BrowserStart 0]) [printer].

Lemma browsing_reachable : reachable browsing_world.
Proof. apply after_reachable. vm_compute. reflexivity. Qed.

Definition announcement : Message := response 0 (generateServiceRecords printer) [].
Definition announcement_data : list byte := value [] (Pack announcement).

Lemma announcement_ptr_ascii m :
  UnpackMessage announcement_data = Ok m -> Forall ptr_ascii (m_Answers m ++ m_Additionals m).
Proof.
  intros Hm. assert (E : m = value announcement (UnpackMessage announcement_data)) by (by rewrite Hm).
  rewrite E. by_eval.
Qed.

(** The names a server's browsers hold, listed. *)
Lemma listener_ascii (s : Server) :
  Forall (λ e : nat * Browser, forallb is_ascii (b_serviceType e.2) = true /\
    Forall (λ i : gostring * ServiceInstanceInfo, forallb is_ascii (i_Name i.2) = true)
      (map_to_list (b_instances e.2))) (map_to_list (s_bheap s)) -> browsers_ascii s.
Proof.
  intros Hall p b Hb%elem_of_map_to_list. rewrite Forall_forall in Hall. apply Hall in Hb as [Hs Hi].
  split; [done|]. intros key info Hk%elem_of_map_to_list. rewrite Forall_forall in Hi. exact (Hi _ Hk).
Qed.

Lemma browsing_ascii : browsers_ascii (w_server browsing_world).
Proof. apply listener_ascii. by_eval. Qed.

Lemma packet_handling_total_witness :
  exists s' outs, handlePacket clk0 announcement_data rival_addr (w_server browsing_world)
                  = Ok (s', outs) /\ browsers_ascii s'.
Proof.
  apply packet_handling_total; [exact browsing_reachable | exact browsing_ascii|].
  intros m Hm. right. exact (announcement_ptr_ascii m Hm).
Defined.

Lemma after_steps es instances :
  is_running (run es (home instances)) = true -> rtc steps_to (home instances) (after es instances).
Proof.
  unfold after. destruct run as [[w|]|] eqn:E; try done. intros _. by apply (run_steps es).
Qed.

Definition busy : list event :=
  [NewBrowser (go "_ipp._tcp"); BrowserStart 0; Packet clk0 announcement_data rival_addr].

Lemma server_state_ordered_witness :
  let w := after busy [] in
  cache_wf (s_cache (w_server w)) /\
  (forall p b, s_bheap (w_server w) !! p = Some b ->
     Forall (λ queue, length queue <= 64) (b_listeners b)) /\
  (forall key p, s_browsers (w_server w) !! key = Some p -> is_Some (s_bheap (w_server w) !! p)).
Proof.
  intros w. apply (server_state_ordered (home []) w).
  - apply home_initial.
  - reflexivity.
  - apply after_steps. vm_compute. reflexivity.
Defined.

Definition told : Server := value (w_server (home [])) (handleResponse clk0 announcement (w_server (home []))).

Lemma response_last_word_witness :
  let rr := set_Text [go "rp=ipp"] (newRR (go "Printer._ipp._tcp.local.") TypeTXT ClassIN 75 true) in
  let key := rrKey (rr_Name rr) (rr_Type rr) in
  (rr_TTL rr = 0%Z -> forall now, Lookup now key (s_cache told) = []) /\
  (rr_TTL rr <> 0%Z -> forall now, (now < 0 + ttl_duration rr)%Z ->
     exists r, r ∈ Lookup now key (s_cache told) /\ rr_id r = rr_id rr /\ rr_TTL r = rr_TTL rr).
Proof.
  intros rr.
  apply (response_last_word clk0 announcement (w_server (home [])) told
    (take 2 (generateServiceRecords printer)) rr (drop 3 (generateServiceRecords printer))).
  - unfold told. apply value_ok. vm_compute. reflexivity.
  - by_eval.
  - apply Forall_forall. by_eval.
Defined.

(** The printer announced by one server, and received by another that browses. *)
Definition announcer : Server := w_server registered.
Definition listener : Server :=
  w_server (after [NewBrowser (go "_ipp._tcp"); BrowserStart 0] []).
Definition listening : Browser := default ipp_browser (s_bheap listener !! 0).

Definition announcing : Server * list output :=
  sendResponseMulticast clk0 (generateServiceRecords printer) announcer.

Lemma announcing_sent : announcing = (announcing.1, [Multicast announcement_data]).
Proof.
  assert (E : announcing.2 = [Multicast announcement_data]) by (vm_compute; reflexivity).
  rewrite <- E. apply surjective_pairing.
Qed.

Lemma listening_at : s_bheap listener !! 0 = Some listening.
Proof.
  assert (Hs : bool_decide (is_Some (s_bheap listener !! 0)) = true) by (vm_compute; reflexivity).
  apply bool_decide_eq_true in Hs as [b Hb]. unfold listening. by rewrite Hb.
Qed.


(** The printer and its rival, on two hosts that probe at the same time. *)
Definition contending (svc : ServiceInstance) : world := after (Register 0 :: steps 2 3) [svc].

Definition contender (svc : ServiceInstance) : registeredService :=
  mkRS 0 (generateServiceRecords svc) stateProbing false.

Lemma contending_contends svc :
  is_running (run (Register 0 :: steps 2 3) (home [svc])) = true ->
  s_services (w_server (contending svc)) !! service_key svc = Some 0 ->
  s_heap (w_server (contending svc)) !! 0 = Some (contender svc) ->
  contends svc (w_server (contending svc)) 0 (contender svc).
Proof.
  intros Hrun Hkey Hp. split; [|by split; [eexists|]].
  apply world_probing_open, reachable_inv, after_reachable, Hrun.
Qed.

Definition probe_of (svc : ServiceInstance) : list byte :=
  value [] (Pack (buildProbeMessage (generateServiceRecords svc))).

Lemma simultaneous_probes_witness :
  let sA := w_server (contending printer) in
  let sB := w_server (contending rival) in
  exists sA' outsA sB' outsB,
    handlePacket clk0 (probe_of rival) rival_addr sA = Ok (sA', outsA) /\
    handlePacket clk0 (probe_of printer) rival_addr sB = Ok (sB', outsB) /\
    s_heap sA' !! 0 = Some (verdict (contender printer) (yields printer rival)) /\
    s_heap sB' !! 0 = Some (verdict (contender rival) (yields rival printer)) /\
    (yields printer rival = false /\ yields rival printer = false <->
     srv_rdata printer = srv_rdata rival /\ txt_rdata printer = txt_rdata rival) /\
    (yields printer rival = true /\ yields rival printer = true ->
     srv_rdata printer <> srv_rdata rival /\ txt_rdata printer <> txt_rdata rival).
Proof.
  intros sA sB.
  apply (simultaneous_probes printer rival sA 0 (contender printer) (probe_of printer) rival_addr clk0
    sB 0 (contender rival) (probe_of rival) rival_addr clk0).
  - by_eval.
  - by_eval.
  - done.
  - done.
  - vm_compute. reflexivity.
  - by_eval.
  - apply contending_contends; vm_compute; reflexivity.
  - apply contending_contends; vm_compute; reflexivity.
  - vm_compute. reflexivity.
  - vm_compute. reflexivity.
  - vm_compute. reflexivity.
  - vm_compute. reflexivity.
Defined.

(** Opening the connection on a machine with one network card, under Linux. *)
Definition home_card : Interface := mkInterface 3 (go "eth0") 17 (Some [AddrIPNet home_net]).

#[local] Existing Instance linux_consts.

Lemma linux_reuse : linuxSoReusePort <> SO_REUSEADDR.
Proof. by_eval. Qed.

#[local] Instance linux : Platform := unix_platform linuxSoReusePort linux_reuse.

Definition all_accepted : answers := mkAnswers accepting None None None None.

Definition opened : list sockopt_call * list sockopt_call * (conn_error + MulticastConn) :=
  NewMulticastConn (Some [home_card]) [] true all_accepted all_accepted.

Lemma connection_opened_witness :
  let ifaces := Some [home_card] in
  meaning <$> opened.1.1 = Some <$> v4_settings ifaces [] all_accepted /\
  (join_addresses (active ifaces []) <> [] ->
   exists k ip, opened.1.1 !! k ≫= meaning = Some (Membership4 group4 ip) /\
     accepting (take (S k) opened.1.1) = None) /\
  (true = true /\ meaning <$> opened.1.2 = Some <$> v6_settings ifaces []).
Proof.
  intros ifaces.
  apply (connection_opened ifaces [] true all_accepted all_accepted opened.1.1 opened.1.2
    (mkConn true false 0 [])).
  vm_compute. reflexivity.
Defined.

(** [LookupService] on a machine with one network card. *)
Definition lookup_conn : conn_error + MulticastConn := inr (mkConn false false 0 []).
Definition looking : world * nat :=
  browse_started (go "_ipp._tcp") (started (mkConn false false 0 []) (go "box") (lookup_config 0) (Some [home_card])).


(** The demo on a machine with one network card, told to browse for printers. *)
Definition printer_flags : demo_flags :=
  mkFlags (go "Alice") (go "_ipp._tcp") 9999 DefaultPort [] false 15.

Definition demo_machine (f : demo_flags) : world :=
  started (mkConn false false 0 []) (go "my box") (demo_config (demo_hostName (go "my box") 77 f) f) (Some [home_card]).


(** The same server once it knows the printer, and the goodbye. *)
Definition informed : Server := (handled clk0 announcement_data rival_addr listener).1.
Definition informing : Browser := default ipp_browser (s_bheap informed !! 0).
Definition known_printer : ServiceInstanceInfo :=
  default (mkInfo [] [] [] [] 0 [] [] 0 0) (b_instances informing !! instance_key printer).
Definition goodbye_data : list byte := value [] (Pack (goodbye (generateServiceRecords printer))).

Lemma informing_at : s_bheap informed !! 0 = Some informing.
Proof.
  assert (Hs : bool_decide (is_Some (s_bheap informed !! 0)) = true) by (vm_compute; reflexivity).
  apply bool_decide_eq_true in Hs as [b Hb]. unfold informing. by rewrite Hb.
Defined.

Lemma known_printer_at : b_instances informing !! instance_key printer = Some known_printer.
Proof.
  assert (Hs : bool_decide (is_Some (b_instances informing !! instance_key printer)) = true)
    by (vm_compute; reflexivity).
  apply bool_decide_eq_true in Hs as [i Hi]. unfold known_printer. by rewrite Hi.
Defined.


(** The server that announced the printer closes. *)
Definition closing_world : world :=
  set_close CGoodbyes (emit main_thread (Close_goodbyes (w_server announced_world)) announced_world).


(** The printer gives its name, type, port, text, host and address; the domain, too. *)
Lemma register_unregister_witness :
  exists svc, completed (w_server (home [printer])) printer svc /\
    match RegisterService 0 (w_server (home [printer])) with
    | (s1, Ok outs) =>
        si_Name printer <> [] /\ si_Type printer <> [] /\
        s_services (w_server (home [printer])) !! service_key svc = None /\
        s_instances s1 = <[0 := svc]> (s_instances (w_server (home [printer]))) /\
        exists p rs,
          s_services s1 = <[service_key svc := p]> (s_services (w_server (home [printer]))) /\
          s_heap (w_server (home [printer])) !! p = None /\
          s_heap s1 = <[p := rs]> (s_heap (w_server (home [printer]))) /\ outs = [Probe p] /\
          rs_state rs = stateIdle /\ rs_records rs = generateServiceRecords svc /\
          (RegisterService 0 s1).2 = Err (ErrServiceRegistered (InstanceName svc)) /\
          exists s2, UnregisterService 0 s1 = (s2, Ok []) /\
            s_services s2 = s_services (w_server (home [printer]))
    | (s1, Err e) =>
        s_services s1 = s_services (w_server (home [printer])) /\
        s_heap s1 = s_heap (w_server (home [printer])) /\
        ((e = ErrServiceNameType /\ (si_Name printer = [] \/ si_Type printer = [])) \/
         (e = ErrServiceRegistered (InstanceName svc) /\
          is_Some (s_services (w_server (home [printer])) !! service_key svc)))
    end.
Proof. apply (register_unregister 0 (w_server (home [printer])) printer). reflexivity. Defined.

(** ** Witnesses and examples: interfaces, sockets, resolving *)

(** A container bridge listed before the network card: the card is chosen. *)
Definition bridge : Interface :=
  mkInterface 2 (go "Docker0") 17 (Some [AddrIPNet (mkIPNet (IPv4 Byte.xac Byte.x11 Byte.x00 Byte.x01) [])]).
Definition card : Interface :=
  mkInterface 3 (go "Ethernet 2") 17 (Some [AddrIPAddr home_ip; AddrIPNet home_net]).

Example card_chosen :
  defaultRouteIPv4 (Some [bridge; card]) = Some (net_IP home_net) /\
  scoreInterface (if_Name card) home_ip = 16%Z /\ scoreInterface (if_Name bridge) home_ip = 0%Z.
Proof. vm_compute. done. Qed.

Definition no_route : option gostring := Some (go "sendto: no route to host").

Lemma sockopts_platforms_agree_witness :
  let os : system := λ calls, if length calls =? 3 then Some (go "refused") else None in
  (applies os (@unix_script linux_consts linuxSoReusePort (go "udp4"))
     (@applyMulticastOptions_unix linux_consts os linuxSoReusePort (go "udp4")) /\
   filter (λ s, s <> Some ReusePort)
     (@unix_setting linux_consts linuxSoReusePort
        <$> (@unix_script linux_consts linuxSoReusePort (go "udp4")).*2)
   = Some <$> option_settings (go "udp4")) /\
  (@applyMulticastOptions_unix linux_consts os linuxSoReusePort (go "udp4") []).2
  = Some (ErrOption (go "IP_MULTICAST_TTL") (go "refused")).
Proof.
  intros os. split; [|by_eval].
  by apply (@sockopts_platforms_agree linux_consts linuxSoReusePort os (go "udp4") [] [] 0).
Defined.

Lemma route_warning_third_witness :
  let sends := [no_route; None; no_route; no_route] in
  (WriteMulticastV4 no_route (send_all sends (mkConn false false 0 []))).2 = true <->
  route_failure no_route = true /\ streak sends = 2.
Proof.
  apply (route_warning_third [no_route; None; no_route; no_route]); [done | vm_compute; reflexivity].
Defined.

(** The card of [home] is found in the second look. *)
Example host_resolved :
  let found := Look 1 one_record 1 one_record in
  let empty := Look 0 NewCache 0 NewCache in
  (ResolveHost (go "HOST.local") empty true [Ticked empty; Ticked found; CtxDone]).2 = Some (Ok [home_ip])
  /\ (ResolveHost (go "HOST.local") empty true [Ticked empty; CtxDone]).2 = Some (Err ErrContext).
Proof. vm_compute. done. Qed.

(** ** Executions worth knowing *)

Definition crashes (w : world) (e : event) : Prop :=
  reachable w /\ world_step e w = Some Crashed.

Lemma after_crashes es instances e :
  is_running (run es (home instances)) = true ->
  world_step e (after es instances) = Some Crashed -> crashes (after es instances) e.
Proof. intros Hr Hc. split; [by apply after_reachable | done]. Qed.

(** A PTR record whose target grows when it is put in lower case, as an invalid
    byte becomes the three bytes of U+FFFD. *)
Definition growing_target : gostring := replicate 31 Byte.xff ++ go "._ipp._tcp.local.".

Definition growing_packet : list byte :=
  value [] (Pack (response 0
    [set_Target growing_target (newRR (go "_ipp._tcp.local.") TypePTR ClassIN 75 false)] [])).

(** Three ways to crash the program.  A goroutine reads that its service is still
    probing, a rival's winning probe arrives and closes [probeCh], and the goroutine
    closes it again; a response with a PTR record whose target grows in lower case
    reaches a server that browses; a browser is started and stopped twice. *)
Lemma crashing_executions :
  (exists w t clk, crashes w (Thread t clk)) /\
  (exists w clk data from, crashes w (Packet clk data from)) /\
  (exists w p, crashes w (BrowserStop p)).
Proof.
  split_and!.
  - exists (after (Register 0 :: steps 2 8 ++ probed_by rival_probe rival_addr) [printer]), 2, clk0.
    apply after_crashes; vm_compute; reflexivity.
  - exists (after [NewBrowser (go "_ipp._tcp"); BrowserStart 0] []), clk0, growing_packet, rival_addr.
    apply after_crashes; vm_compute; reflexivity.
  - exists (after [NewBrowser (go "_ipp._tcp"); BrowserStart 0; BrowserStop 0; BrowserStart 0] []), 0.
    apply after_crashes; vm_compute; reflexivity.
Qed.

(** Unregistering and renaming while services are probed.  A service unregistered
    while it is probed is announced all the same (three probes and an announcement
    are sent, and no service is registered); if it loses to a rival it is renamed
    and registered again; a rename takes over the key of a service registered
    under the new name, so that of two services one is left; and a service unregistered
    between its two announcements is announced once more after its goodbye. *)
Lemma registration_anomalies :
  (let w := after (Register 0 :: steps 2 3 ++ [Unregister 0] ++ steps 2 7) [printer] in
   reachable w /\ map_to_list (s_services (w_server w)) = [] /\ (w_sent w).*1 = replicate 4 2) /\
  (let w := after (Register 0 :: steps 2 3 ++ probed_by rival_probe rival_addr ++ [Unregister 0]
                   ++ steps 2 6) [printer] in
   reachable w /\ map_to_list (s_services (w_server w)) = [(go "printer (2)._ipp._tcp.local.", 0)]) /\
  (let w := after ([Register 0; Register 1] ++ steps 2 3
                   ++ probed_by rival_probe rival_addr ++ steps 2 6)
              [printer; set_Name (go "Printer (2)") printer] in
   reachable w /\ map_to_list (s_services (w_server w)) = [(go "printer (2)._ipp._tcp.local.", 0)]) /\
  (let w := after (Register 0 :: steps 2 10 ++ [Unregister 0; Thread 2 (λ _, Second)]) [printer] in
   reachable w /\ map_to_list (s_services (w_server w)) = [] /\
   drop 4 (w_sent w) = [(main_thread, Multicast goodbye_data); (2, Multicast announcement_data)]).
Proof.
  split; [|split; [|split]]; cbv zeta;
    (split; [apply after_reachable; vm_compute; reflexivity | by_eval]).
Qed.

(** Stopping a browser takes the newer browser of the same type out of the server,
    which goes on running without hearing of any record. *)
Lemma stop_unregisters_newer :
  let w := after [NewBrowser (go "_ipp._tcp"); BrowserStart 0; NewBrowser (go "_ipp._tcp");
                  BrowserStart 1; BrowserStop 0] [] in
  reachable w /\ map_to_list (s_browsers (w_server w)) = [] /\
  (b_running <$> s_bheap (w_server w) !! 1) = Some true.
Proof. split; [apply after_reachable|]; vm_compute; done. Qed.

(** [Close] does not wait for the second announcement: it may follow the goodbye, as
    long as the sockets are open. *)
Lemma announcement_follows_close :
  let w := after (Register 0 :: steps 2 10 ++ [Close; Thread 2 (λ _, Second); CloseSockets]) [printer] in
  reachable w /\ w_close w = CClosed /\
  drop 4 (w_sent w) = [(main_thread, Multicast goodbye_data); (2, Multicast announcement_data)].
Proof. cbv zeta. split; [apply after_reachable; vm_compute; reflexivity | by_eval]. Qed.

(** The demo with its default flags registers itself, probes and announces; the
    announcement comes back, its browser finds the instance, and the demo says nothing. *)
Definition demo_registered : world :=
  match demo_register default_flags (go "my box") 0 77 (demo_machine default_flags) with
  | Ok (w, _) => w
  | Err _ => demo_machine default_flags
  end.

Definition demo_after (es : list demo_event) (d : demo) : demo :=
  match demo_run default_flags es d with Some (Loops d') => d' | _ => d end.

Definition demo_announced : demo :=
  demo_after (Library <$> steps 2 10) (demo_browse default_flags demo_registered).

Definition demo_loopback : list byte :=
  match last (w_sent (d_world demo_announced)) with Some (_, Multicast data) => data | _ => [] end.

Definition demo_told : demo := demo_after [Library (Packet clk0 demo_loopback rival_addr)] demo_announced.

Lemma demo_hears_itself :
  next_event demo_announced = None /\
  (match next_event demo_told with Some (EventAdd info) => Some (i_Name info) | _ => None end)
    = Some (go "my box-77") /\
  let d := demo_after [Discovered (go "12:00:00")] demo_told in
  next_event d = None /\ d_discoveryCount d = 0%Z /\ d_out d = discovery_block default_flags.
Proof. cbv zeta. split_and!; vm_compute; reflexivity. Qed.

(** The demo prints the port it was given, and advertises another; and it cuts names in
    the middle of a character. *)
Lemma demo_port_wraps :
  let f := mkFlags [] (go "_http._tcp") 70000 DefaultPort [] false 15 in
  Contains (service_block (go "Alice") f) (go "Port:       70000") = true /\
  si_Port (demo_service (go "Alice") 0 77 f) = 4464%Z.
Proof. split; vm_compute; reflexivity. Qed.

Lemma truncate_splits_runes :
  decode_runes (truncate (mjoin (replicate 20 (go "é"))) 30) = replicate 14 233%Z ++ [RuneError; 126%Z].
Proof. vm_compute. reflexivity. Qed.

(** A probed host without services answers for the records of others it has cached. *)
Lemma foreign_records_answered :
  r_answers (answer_questions
    (mkKnowledge (NewServer_config (go "host") home_config) [home_ip] true [] one_record)
    (λ _, 1%Z) [] 0 empty_reply [ask_host]) = [host_a Byte.x0a].
Proof. by_eval. Qed.

(** A name of 300 bytes is written without an error, and an empty label ends a name
    early. *)
Definition long_name : gostring := mjoin (replicate 10 (replicate 29 Byte.x61 ++ [dot])).

Lemma long_name_written :
  (writeName long_name (WState [] ∅)).2 = Ok () /\ length (w_buf (writeName long_name (WState [] ∅)).1) = 301.
Proof. split; vm_compute; reflexivity. Qed.

Lemma empty_label_ends_name :
  readName (w_buf (writeName (go "a..b") (WState [] ∅)).1) 0 = Ok (go "a.", 3).
Proof. vm_compute. reflexivity. Qed.

(** Two addresses of a host, both with the cache-flush bit as they are announced:
    the cache keeps the second one only. *)
Lemma second_address_flushes_first :
  let a last := set_IP [Byte.xc0; Byte.xa8; Byte.x01; last]
                  (newRR (go "host.local.") TypeA ClassIN 120 true) in
  Lookup 0 (rrKey (go "host.local.") TypeA)
    (Upsert 0 (a Byte.x0b) (Upsert 0 (a Byte.x0a) NewCache).1).1 = [a Byte.x0b].
Proof. by_eval. Qed.

(** Two services may both give way, each to one record of the other: both are renamed,
    to the same name, and give way again, whatever the names. *)
Lemma both_give_way n m :
  let a := mkService (go "_ipp._tcp") n (go "local.") (go "host.local.") 631 [] [go "z"] 0 0 0 in
  let b := mkService (go "_ipp._tcp") m (go "local.") (go "rival.local.") 9999 [] [go "a"] 0 0 0 in
  yields a b = true /\ yields b a = true.
Proof. split; vm_compute; reflexivity. Qed.

(** A goodbye removes the records of the other services of the type, too: they have the
    same name and type. *)
Lemma goodbye_removes_siblings :
  let ptr name := set_Target name (newRR (go "_ipp._tcp.local.") TypePTR ClassIN 75 false) in
  let key := rrKey (go "_ipp._tcp.local.") TypePTR in
  let heard rrs := Lookup 0 key (s_cache (cache_records (λ _, 0%Z) 0 rrs announcer)) in
  let a := ptr (go "A._ipp._tcp.local.") in
  let b := ptr (go "B._ipp._tcp.local.") in
  heard [a; b] = [a; b] /\ heard [a; b; set_TTL 0 a] = [].
Proof. cbv zeta. split; vm_compute; reflexivity. Qed.

(** TTLs: the 75 minutes of RFC 6762 are 75 seconds. *)
Lemma otherTTL_is_75_seconds : otherTTL = 75%Z.
Proof. reflexivity. Qed.
